(** * p4est parallel file I/O: deflate / inflate and the data-file container

    A shallow embedding of [src/p4est_io.c] (with the constants of
    [src/p8est_io.h]) and the properties of its specification.

    Layout of the development:
    - Part I   machine integers, C strings and the printf fragments used
    - Part II  the forest: [p4est_deflate_quadrants] and [p4est_inflate]
    - Part III the file container: contexts, section writers and readers,
               [p4est_file_info], error codes
    - Part IV  lemmas and the theorems, one block per property
    - Part V   further properties of the code. *)

From Stdlib Require Import Ascii String.
From Stdlib Require Import ZArith List Lia Bool Arith.
Import ListNotations.
Open Scope list_scope.
Open Scope Z_scope.

(* ================================================================= *)
(** * Part I: machine integers, bytes, printf fragments *)
(* ================================================================= *)

(** Bytes are characters; a buffer or a file is a list of them. *)
Definition bytes := list ascii.

Definition LF : ascii := "010"%char.
Definition SP : ascii := " "%char.
Definition NUL : ascii := "000"%char.

(** Conversions to the fixed-width C integer types (two's complement). *)
Definition cast_unsigned (w v : Z) : Z := v mod 2 ^ w.
Definition cast_signed (w v : Z) : Z := (v + 2 ^ (w - 1)) mod 2 ^ w - 2 ^ (w - 1).

Definition to_size_t : Z -> Z := cast_unsigned 64.
Definition to_int8 : Z -> Z := cast_signed 8.
Definition to_int32 : Z -> Z := cast_signed 32.   (* p4est_qcoord_t, p4est_locidx_t, p4est_topidx_t, int *)
Definition to_int64 : Z -> Z := cast_signed 64.   (* p4est_gloidx_t, sc_MPI_Offset, long *)

(** ** printf conversions *)

(** [%-Ns] and [%-*s]: the string, then spaces up to the field width. *)
Definition fmt_left (width : Z) (s : bytes) : bytes :=
  s ++ repeat SP (Z.to_nat width - length s).

(** [%.Ns]: at most [n] characters of the string. *)
Definition fmt_prec_s (n : nat) (s : bytes) : bytes := firstn n s.

Definition digit (d : Z) : ascii := ascii_of_nat (48 + Z.to_nat d).

Fixpoint digits_fuel (fuel : nat) (n : Z) : bytes :=
  match fuel with
  | O => []
  | S f => if n <? 10 then [digit n]
           else digits_fuel f (n / 10) ++ [digit (n mod 10)]
  end.

(** Decimal digits of a non-negative number, most significant first. *)
Definition decimal (n : Z) : bytes := digits_fuel (S (Z.to_nat (Z.log2 n))) n.

(** [%.Pllu]: at least [prec] digits, zero-filled on the left. *)
Definition fmt_llu (prec : nat) (n : Z) : bytes :=
  let d := decimal n in repeat "0"%char (prec - length d) ++ d.

(** [%.Plld]: as above with a sign for negative values. *)
Definition fmt_lld (prec : nat) (n : Z) : bytes :=
  if n <? 0 then "-"%char :: fmt_llu prec (- n) else fmt_llu prec n.

(** [snprintf (buf, size, ...)]: the formatted text cut to [size - 1]
    characters (the terminating NUL is not part of the result). *)
Definition snprintf (size : Z) (formatted : bytes) : bytes :=
  firstn (Z.to_nat (size - 1)) formatted.

(** ** Constants of the file format ([p8est_io.h]) *)

Definition P4EST_NUM_METADATA_BYTES : Z := 64.
Definition P4EST_NUM_ARRAY_METADATA_BYTES : Z := 14.
Definition P4EST_BYTE_DIV : Z := 16.
Definition P4EST_MAX_NUM_PAD_BYTES : Z := P4EST_BYTE_DIV + 1.
Definition P4EST_NUM_USER_STRING_BYTES : Z := 48.
Definition P4EST_NUM_FIELD_HEADER_BYTES : Z :=
  2 + P4EST_NUM_ARRAY_METADATA_BYTES + P4EST_NUM_USER_STRING_BYTES.
Definition P4EST_FILE_COUNT_ERROR : Z := -1.

(** ** [get_padding_string]

    [pad = false] is the call with a NULL buffer, which only computes the
    number of padding bytes. *)
Definition get_padding_string (num_bytes divisor : Z) (pad : bool)
  : option bytes * Z :=
  let num_pad_bytes := (divisor - num_bytes mod divisor) mod divisor in
  let num_pad_bytes :=
    if (num_pad_bytes =? 0) || (num_pad_bytes =? 1)
    then num_pad_bytes + divisor else num_pad_bytes in
  (if pad
   then Some (snprintf (num_pad_bytes + 1)
                ([LF] ++ fmt_left (to_int32 num_pad_bytes - 2) [] ++ [LF]))
   else None,
   num_pad_bytes).

(** The padding length of a block of [n] bytes in the file format. *)
Definition pad_len (n : Z) : Z := snd (get_padding_string n P4EST_BYTE_DIV false).

(* ================================================================= *)
(** * Part II: the forest, deflate and inflate *)
(* ================================================================= *)

(** ** Arrays and loops *)

(** Element [i] of a C array, [None] outside of it. *)
Definition nthZ {A} (l : list A) (i : Z) : option A :=
  if i <? 0 then None else nth_error l (Z.to_nat i).

(** [n] consecutive elements read from position [i]; reading past the end
    of the array is undefined and gives [None]. *)
Definition read_block {A} (arr : list A) (i n : nat) : option (list A) :=
  if (i + n <=? length arr)%nat then Some (firstn n (skipn i arr)) else None.

(** The elements [vs] stored from position [i] on; storing past the end of
    the array is undefined and gives [None]. *)
Definition store_block {A} (arr : list A) (i : nat) (vs : list A)
  : option (list A) :=
  if (i + length vs <=? length arr)%nat
  then Some (firstn i arr ++ vs ++ skipn (i + length vs) arr)
  else None.

(** A loop over a list whose body may fail. *)
Fixpoint foldM {S A} (f : S -> A -> option S) (l : list A) (s : S) : option S :=
  match l with
  | [] => Some s
  | a :: l' => match f s a with
               | Some s' => foldM f l' s'
               | None => None
               end
  end.

(** The indices [lo, lo + 1, ..., hi] of a [for (i = lo; i <= hi; ++i)]. *)
Definition index_range (lo hi : Z) : list Z :=
  map (fun i => lo + Z.of_nat i) (seq 0 (Z.to_nat (hi - lo + 1))).

(** [sc_array_t] holding raw bytes. *)
Record sc_array_t := {
  elem_size : Z;
  elem_count : Z;
  array : bytes
}.

(** ** Forest data *)

Record p4est_quadrant_t := {
  quad_x : Z;
  quad_y : Z;
  quad_z : Z;              (* present with P4_TO_P8 only *)
  quad_level : Z;          (* int8_t *)
  user_data : bytes        (* p.user_data, [data_size] bytes *)
}.

Record p4est_tree_t := {
  quadrants : list p4est_quadrant_t;
  first_desc : p4est_quadrant_t;
  last_desc : p4est_quadrant_t;
  quadrants_offset : Z;
  quadrants_per_level : list Z;
  maxlevel : Z
}.

Record p4est_t := {
  mpisize : Z;
  mpirank : Z;
  data_size : Z;
  user_pointer : Z;
  num_trees : Z;                          (* connectivity->num_trees *)
  first_local_tree : Z;
  last_local_tree : Z;
  local_num_quadrants : Z;
  global_num_quadrants : Z;
  global_first_quadrant : list Z;
  global_first_position : list p4est_quadrant_t;
  trees : list p4est_tree_t;
  revision : Z
}.

(** What [p4est_io.c] takes from the rest of the library: the dimension
    switch and level bounds of [p4est.h] / [p8est.h], the descendant
    helpers of [p4est_bits.c], the state a quadrant is left in by
    [P4EST_QUADRANT_INIT] and the partition exchange of
    [p4est_communication.c]. *)
Class ForestInterface := {
  P4_TO_P8 : bool;
  P4EST_QMAXLEVEL : Z;
  P4EST_MAXLEVEL : Z;
  P4EST_QUADRANT_INIT : p4est_quadrant_t;
  p4est_quadrant_first_descendant : p4est_quadrant_t -> Z -> p4est_quadrant_t;
  p4est_quadrant_last_descendant : p4est_quadrant_t -> Z -> p4est_quadrant_t;
  p4est_comm_global_partition : p4est_t -> list p4est_quadrant_t
}.

Definition P4EST_DIM `{ForestInterface} : Z := if P4_TO_P8 then 3 else 2.

(** Modelled from the spec: [sc_bsearch_range] of libsc (sc_search.c), the
    binary search "of [gfq[r]] and [gfq[r+1]-1] in [pertree]" that locates
    the tree whose range holds a global quadrant index: the position [k] in
    [0, nmemb) with [base[k] <= key < base[k+1]], which is unique in a
    monotone array; [nmemb] if there is none. *)
Fixpoint range_scan (key : Z) (base : list Z) (k n : nat) : nat :=
  match n, base with
  | S n', a :: ((b :: _) as tl) =>
      if (a <=? key) && (key <? b) then k else range_scan key tl (S k) n'
  | _, _ => (k + n)%nat
  end.

Definition sc_bsearch_range (key : Z) (base : list Z) (nmemb : Z) : Z :=
  Z.of_nat (range_scan key base 0 (Z.to_nat nmemb)).

Section Forest.
Context `{FI : ForestInterface}.

(** The [P4EST_DIM + 1] numbers written for one quadrant. *)
Definition quadrant_coords (q : p4est_quadrant_t) : list Z :=
  if P4_TO_P8
  then [quad_x q; quad_y q; quad_z q; to_int32 (quad_level q)]
  else [quad_x q; quad_y q; to_int32 (quad_level q)].

(** ** [p4est_deflate_quadrants] *)

Record deflate_state := {
  qarr : list Z;  d_qap : nat;
  darr : bytes;   d_dap : nat
}.

(** Body of the loop over the quadrants of one tree. *)
Definition deflate_quadrant (want_data : bool) (dsize : Z)
    (st : deflate_state) (q : p4est_quadrant_t) : option deflate_state :=
  match store_block (qarr st) (d_qap st) (quadrant_coords q) with
  | None => None
  | Some qarr' =>
      let qap' := (d_qap st + Z.to_nat (P4EST_DIM + 1))%nat in
      if want_data then
        (* memcpy (dap, q->p.user_data, dsize) *)
        match read_block (user_data q) 0 (Z.to_nat dsize) with
        | None => None
        | Some payload =>
            match store_block (darr st) (d_dap st) payload with
            | None => None
            | Some darr' =>
                Some {| qarr := qarr'; d_qap := qap';
                        darr := darr'; d_dap := (d_dap st + Z.to_nat dsize)%nat |}
            end
        end
      else Some {| qarr := qarr'; d_qap := qap';
                   darr := darr st; d_dap := d_dap st |}
  end.

(** Body of the loop over the local trees. *)
Definition deflate_tree (p4est : p4est_t) (want_data : bool)
    (st : deflate_state) (tt : Z) : option deflate_state :=
  match nthZ (trees p4est) tt with
  | None => None
  | Some tree => foldM (deflate_quadrant want_data (data_size p4est))
                       (quadrants tree) st
  end.

(** [want_data] says whether the [data] argument is non-NULL.  The arrays
    come from [sc_array_new_size]; their initial content is never read. *)
Definition p4est_deflate_quadrants (p4est : p4est_t) (want_data : bool)
  : option (list Z * option sc_array_t) :=
  let dsize := data_size p4est in
  let qcount :=
    to_size_t (to_int32 ((P4EST_DIM + 1) * local_num_quadrants p4est)) in
  let dbytes := to_size_t (dsize * to_size_t (local_num_quadrants p4est)) in
  let st0 := {| qarr := repeat 0 (Z.to_nat qcount); d_qap := 0%nat;
                darr := if want_data then repeat NUL (Z.to_nat dbytes) else [];
                d_dap := 0%nat |} in
  match foldM (deflate_tree p4est want_data)
              (index_range (first_local_tree p4est) (last_local_tree p4est))
              st0 with
  | None => None
  | Some st =>
      Some (qarr st,
            if want_data
            then Some {| elem_size := dsize;
                         elem_count := to_size_t (local_num_quadrants p4est);
                         array := darr st |}
            else None)
  end.

(** ** [p4est_inflate] *)

(** State of the loop over the quadrants of one tree. *)
Record tree_fill := {
  t_qap : nat;                      (* read position in [quadrants] *)
  t_dap : nat;                      (* read position in [data] *)
  t_quads : list p4est_quadrant_t;  (* quadrants built so far, in order *)
  t_per_level : list Z;
  t_tml : Z;
  t_first_desc : p4est_quadrant_t;
  t_q : option p4est_quadrant_t     (* the pointer [q], NULL at first *)
}.

Definition inflate_quadrant (coords : list Z) (data : option sc_array_t)
    (dsize : Z) (st : tree_fill) (qz : nat) : option tree_fill :=
  match read_block coords (t_qap st) (Z.to_nat (P4EST_DIM + 1)) with
  | None => None
  | Some tuple =>
      let x := nth 0 tuple 0 in
      let y := nth 1 tuple 0 in
      let z := if P4_TO_P8 then nth 2 tuple 0 else quad_z P4EST_QUADRANT_INIT in
      let ql := to_int8 (nth (Z.to_nat P4EST_DIM) tuple 0) in
      (* ++tree->quadrants_per_level[ql] *)
      match nthZ (t_per_level st) ql with
      | None => None
      | Some c =>
          match store_block (t_per_level st) (Z.to_nat ql) [to_int32 (c + 1)] with
          | None => None
          | Some per_level' =>
              let tml := to_int8 (Z.max (t_tml st) ql) in
              (* p4est_quadrant_init_data, then memcpy from [dap] *)
              let payload :=
                match data with
                | None => Some ([], t_dap st)
                | Some d =>
                    match read_block (array d) (t_dap st) (Z.to_nat dsize) with
                    | None => None
                    | Some b => Some (b, (t_dap st + Z.to_nat dsize)%nat)
                    end
                end in
              match payload with
              | None => None
              | Some (ud, dap') =>
                  let q := {| quad_x := x; quad_y := y; quad_z := z;
                              quad_level := ql; user_data := ud |} in
                  Some {| t_qap := (t_qap st + Z.to_nat (P4EST_DIM + 1))%nat;
                          t_dap := dap';
                          t_quads := t_quads st ++ [q];
                          t_per_level := per_level';
                          t_tml := tml;
                          t_first_desc :=
                            if (qz =? 0)%nat
                            then p4est_quadrant_first_descendant q P4EST_QMAXLEVEL
                            else t_first_desc st;
                          t_q := Some q |}
              end
          end
      end
  end.

(** State of the loop over the trees. *)
Record inflate_state := {
  i_qap : nat;
  i_dap : nat;
  i_zqoffset : Z;
  i_gquadremain : Z;
  i_gtreeskip : Z;
  i_trees : list p4est_tree_t       (* trees set up so far, in order *)
}.

(** [quadrants_per_level] as every tree starts with: zero up to
    [P4EST_QMAXLEVEL], -1 above up to [P4EST_MAXLEVEL]. *)
Definition per_level_init : list Z :=
  repeat 0 (Z.to_nat (P4EST_QMAXLEVEL + 1))
  ++ repeat (-1) (Z.to_nat (P4EST_MAXLEVEL - P4EST_QMAXLEVEL)).

Definition inflate_tree (pertree coords : list Z) (data : option sc_array_t)
    (dsize first_tree last_tree : Z)
    (st : inflate_state) (jt : Z) : option inflate_state :=
  let offset := to_int32 (i_zqoffset st) in
  if (first_tree <=? jt) && (jt <=? last_tree) then
    (* this tree has local quadrants *)
    match nthZ pertree (jt + 1), nthZ pertree jt with
    | Some hi, Some lo =>
        let gtreeremain := to_int64 (hi - lo - i_gtreeskip st) in
        let zqthistree := Z.min gtreeremain (i_gquadremain st) in
        (* a negative count becomes a huge size_t and the resize aborts; with
           a zero count [q] stays NULL and is dereferenced after the loop *)
        if zqthistree <=? 0 then None
        else
          match foldM (inflate_quadrant coords data dsize)
                      (seq 0 (Z.to_nat zqthistree))
                      {| t_qap := i_qap st; t_dap := i_dap st; t_quads := [];
                         t_per_level := per_level_init; t_tml := 0;
                         t_first_desc := P4EST_QUADRANT_INIT; t_q := None |} with
          | None => None
          | Some tf =>
              match t_q tf with
              | None => None
              | Some q =>
                  let tree :=
                    {| quadrants := t_quads tf;
                       first_desc := t_first_desc tf;
                       last_desc := p4est_quadrant_last_descendant q P4EST_QMAXLEVEL;
                       quadrants_offset := offset;
                       quadrants_per_level := t_per_level tf;
                       maxlevel := t_tml tf |} in
                  Some {| i_qap := t_qap tf; i_dap := t_dap tf;
                          i_zqoffset := to_size_t (i_zqoffset st + zqthistree);
                          i_gquadremain := to_int64 (i_gquadremain st - zqthistree);
                          i_gtreeskip := 0;
                          i_trees := i_trees st ++ [tree] |}
              end
          end
    | _, _ => None
    end
  else
    let tree :=
      {| quadrants := [];
         first_desc := P4EST_QUADRANT_INIT;
         last_desc := P4EST_QUADRANT_INIT;
         quadrants_offset := offset;
         quadrants_per_level := per_level_init;
         maxlevel := 0 |} in
    Some {| i_qap := i_qap st; i_dap := i_dap st;
            i_zqoffset := i_zqoffset st;
            i_gquadremain := i_gquadremain st;
            i_gtreeskip := i_gtreeskip st;
            i_trees := i_trees st ++ [tree] |}.

(** The result of [p4est_inflate] together with the number of coordinate
    entries and of payload bytes it has read.  [num_procs] and [rank] are
    what the communicator gives, [conn_num_trees] is
    [connectivity->num_trees]; [data = None] is the NULL array. *)
Definition p4est_inflate_run (num_procs rank conn_num_trees : Z)
    (global_first_quadrant pertree : list Z)
    (coords : list Z) (data : option sc_array_t) (user_pointer : Z)
  : option (p4est_t * nat * nat) :=
  let dsize := match data with None => 0 | Some d => elem_size d end in
  match read_block global_first_quadrant 0 (Z.to_nat (num_procs + 1)) with
  | None => None
  | Some gfq =>
    match nthZ gfq (rank + 1), nthZ gfq rank, nthZ gfq num_procs with
    | Some g1, Some g0, Some gN =>
      let gquadremain := to_int64 (g1 - g0) in
      let lnq := to_int32 gquadremain in
      (* find the first and last tree on this processor *)
      let '(gtreeskip, first_tree, last_tree) :=
        if 0 <? lnq then
          let gk1 := sc_bsearch_range g0 pertree conn_num_trees in
          let gk2 := sc_bsearch_range (to_int64 (g1 - 1)) pertree conn_num_trees in
          (match nthZ pertree gk1 with
           | Some p1 => Some (to_int64 (g0 - p1))
           | None => None
           end, to_int32 gk1, to_int32 gk2)
        else (Some 0, -1, -2) in
      match gtreeskip with
      | None => None
      | Some gtreeskip =>
        (* populate trees *)
        match foldM (inflate_tree pertree coords data dsize first_tree last_tree)
                    (index_range 0 (conn_num_trees - 1))
                    {| i_qap := 0%nat; i_dap := 0%nat; i_zqoffset := 0;
                       i_gquadremain := lnq; i_gtreeskip := gtreeskip;
                       i_trees := [] |} with
        | None => None
        | Some st =>
            let p4est :=
              {| mpisize := num_procs; mpirank := rank;
                 data_size := dsize; user_pointer := user_pointer;
                 num_trees := conn_num_trees;
                 first_local_tree := first_tree;
                 last_local_tree := last_tree;
                 local_num_quadrants := lnq;
                 global_num_quadrants := gN;
                 global_first_quadrant := gfq;
                 global_first_position := [];
                 trees := i_trees st;
                 revision := 0 |} in
            Some ({| mpisize := num_procs; mpirank := rank;
                     data_size := dsize; user_pointer := user_pointer;
                     num_trees := conn_num_trees;
                     first_local_tree := first_tree;
                     last_local_tree := last_tree;
                     local_num_quadrants := lnq;
                     global_num_quadrants := gN;
                     global_first_quadrant := gfq;
                     global_first_position := p4est_comm_global_partition p4est;
                     trees := i_trees st;
                     revision := 0 |},
                  i_qap st, i_dap st)
        end
      end
    | _, _, _ => None
    end
  end.

Definition p4est_inflate (num_procs rank conn_num_trees : Z)
    (global_first_quadrant pertree : list Z)
    (coords : list Z) (data : option sc_array_t) (user_pointer : Z)
  : option p4est_t :=
  match p4est_inflate_run num_procs rank conn_num_trees
          global_first_quadrant pertree coords data user_pointer with
  | Some (p4est, _, _) => Some p4est
  | None => None
  end.

End Forest.

(* ================================================================= *)
(** * Part III: the data-file container *)
(* ================================================================= *)

(** ** C strings *)

(** The characters of a C string held in a buffer: up to the first NUL. *)
Fixpoint cstring (buf : bytes) : bytes :=
  match buf with
  | [] => []
  | c :: rest => if Ascii.eqb c NUL then [] else c :: cstring rest
  end.

(** [strncpy (dest, src, n)]: the string, cut or NUL-filled to [n] bytes. *)
Definition strncpy (src : bytes) (n : Z) : bytes :=
  let s := firstn (Z.to_nat n) (cstring src) in
  s ++ repeat NUL (Z.to_nat n - length s).

Definition is_digit (c : ascii) : bool :=
  let n := nat_of_ascii c in ((48 <=? n) && (n <=? 57))%nat.

Definition is_space (c : ascii) : bool :=
  let n := nat_of_ascii c in ((n =? 32) || ((9 <=? n) && (n <=? 13)))%nat.

Fixpoint parse_digits (acc : Z) (s : bytes) : Z :=
  match s with
  | c :: rest =>
      if is_digit c
      then parse_digits (acc * 10 + (Z.of_nat (nat_of_ascii c) - 48)) rest
      else acc
  | [] => acc
  end.

Fixpoint skip_spaces (s : bytes) : bytes :=
  match s with
  | c :: rest => if is_space c then skip_spaces rest else s
  | [] => []
  end.

(** Modelled from the spec: [sc_atol] of libsc, the C library's [strtol]
    in base 10 that reads the "ASCII decimals with fixed width and leading
    spaces/zeros" of the headers: blanks, an optional sign, then digits up
    to the first other character.  The fields it is applied to have at most
    16 characters, so the value fits a [long]. *)
Definition sc_atol (buf : bytes) : Z :=
  match skip_spaces (cstring buf) with
  | c :: rest =>
      if Ascii.eqb c "-"%char then - parse_digits 0 rest
      else if Ascii.eqb c "+"%char then parse_digits 0 rest
      else parse_digits 0 (c :: rest)
  | [] => 0
  end.

(** ** Character buffers

    A buffer of the C stack is the list of its bytes.  A read or a write at
    an index outside of it is undefined ([None]). *)
Definition buf_get (buf : bytes) (i : Z) : option ascii := nthZ buf i.

Definition buf_set (buf : bytes) (i : Z) (c : ascii) : option bytes :=
  if (0 <=? i) && (i <? Z.of_nat (length buf))
  then Some (firstn (Z.to_nat i) buf ++ [c] ++ skipn (S (Z.to_nat i)) buf)
  else None.

(** The C string that begins at [&buf[i]], as [strlen] and [strcmp] read
    it: undefined when no NUL ends it inside the buffer. *)
Definition string_at (buf : bytes) (i : Z) : option bytes :=
  if (0 <=? i) && (i <=? Z.of_nat (length buf))
  then let s := skipn (Z.to_nat i) buf in
       if existsb (Ascii.eqb NUL) s then Some (cstring s) else None
  else None.

(** [strncpy (dest, &buf[i], n)]: the [n] bytes stored in [dest];
    undefined when the characters it reads, up to a NUL or [n] of them, do
    not all lie in the buffer. *)
Definition strncpy_at (buf : bytes) (i n : Z) : option bytes :=
  if (0 <=? i) && (i <=? Z.of_nat (length buf))
  then let s := skipn (Z.to_nat i) buf in
       if existsb (Ascii.eqb NUL) (firstn (Z.to_nat n) s)
          || (n <=? Z.of_nat (length s))
       then Some (strncpy s n) else None
  else None.

(** [strcmp (a, b) == 0] *)
Fixpoint bytes_eqb (a b : bytes) : bool :=
  match a, b with
  | [], [] => true
  | x :: a', y :: b' => Ascii.eqb x y && bytes_eqb a' b'
  | _, _ => false
  end.

(** Steps that may be undefined, one after the other. *)
Notation "x <- e ;; k" :=
  (match e with Some x => k | None => None end)
  (at level 61, e at next level, right associativity, only parsing).

(** ** The I/O layer *)

(** What the file functions take from libsc and the surrounding library:
    the build switch [P4EST_ENABLE_MPIIO], the I/O error code of MPI and of
    errno, the error-class normalisation [sc_io_error_class] (return value
    and class), which maps success to success, the version string, the
    uniform partition of [p4est_comm_global_first_quadrant], and the two
    constants [P4EST_NUM_MAGIC_BYTES] and [P4EST_NUM_VERSION_STR_BYTES] of
    [check_file_metadata], which [p8est_io.h] does not define. *)
Class FileInterface := {
  P4EST_ENABLE_MPIIO : bool;
  sc_MPI_ERR_IO : Z;
  EIO : Z;
  sc_io_error_class : Z -> Z * Z;
  sc_io_error_class_success : sc_io_error_class 0 = (0, 0);
  p4est_version : bytes;
  p4est_comm_global_first_quadrant : Z -> Z -> list Z;
  P4EST_NUM_MAGIC_BYTES : Z;
  P4EST_NUM_VERSION_STR_BYTES : Z
}.

(** "MPI defines MPI_SUCCESS to equal 0." *)
Definition sc_MPI_SUCCESS : Z := 0.

Definition P4EST_MAGIC_NUMBER : bytes := list_ascii_of_string "p8data0".

Definition P4EST_ERR_IO `{FileInterface} : Z :=
  if P4EST_ENABLE_MPIIO then sc_MPI_ERR_IO else EIO.

(** [p4est_file_error_code]: return value and resulting error code. *)
Definition p4est_file_error_code `{FileInterface} (errcode : Z) : Z * Z :=
  if errcode =? P4EST_FILE_COUNT_ERROR
  then (sc_MPI_SUCCESS, errcode)
  else sc_io_error_class errcode.

(** Modelled from the spec: the collective-I/O capability of libsc
    ([sc_io_write_at], [sc_io_read_at], [MPI_File_set_size]), as a file
    held in memory: "read_at(offset, buf, n) -> count, write_at(offset,
    buf, n) -> count, set_size(n)".  The calls themselves always succeed;
    the count tells how many bytes were transferred.  A write takes its
    bytes from the caller's buffer, a read stops at the end of the file, and
    a gap between the end of the file and the offset of a write reads as
    NUL bytes. *)
Definition file_write_at (f : bytes) (offset : Z) (data : bytes) : bytes :=
  let off := Z.to_nat offset in
  firstn off f ++ repeat NUL (off - length f) ++ data
  ++ skipn (off + length data) f.

Definition sc_io_write_at (f : bytes) (offset : Z) (buf : bytes) (zcount : Z)
  : bytes * Z :=
  let data := firstn (Z.to_nat zcount) buf in
  (file_write_at f offset data, Z.of_nat (length data)).

Definition sc_io_read_at (f : bytes) (offset zcount : Z) : bytes * Z :=
  let data :=
    if (offset <? 0) || (Z.of_nat (length f) <=? offset) then []
    else firstn (Z.to_nat zcount) (skipn (Z.to_nat offset) f) in
  (data, Z.of_nat (length data)).

Definition MPI_File_set_size (f : bytes) (size : Z) : bytes :=
  firstn (Z.to_nat size) f ++ repeat NUL (Z.to_nat size - length f).

(** A buffer after [data] has been read into its beginning. *)
Definition buffer_fill (buf data : bytes) : bytes :=
  data ++ skipn (length data) buf.

(** Byte [i] of a buffer (NUL outside of it). *)
Definition byte_at (buf : bytes) (i : Z) : ascii := nth (Z.to_nat i) buf NUL.

(** ** The file context

    The context of one rank of [mpicomm]: [fc_mpisize] and [fc_mpirank] are
    what [sc_MPI_Comm_size] and [sc_MPI_Comm_rank] give for the
    communicator.  The contexts of the ranks differ in the rank alone:
    [local_num_quadrants] is kept with one entry per rank, [fc_file] is the
    content of the open file, which the ranks share, and
    [fc_global_first_quadrant = None] is the NULL partition. *)
Record p4est_file_context_t := {
  fc_mpisize : Z;
  fc_mpirank : Z;
  fc_local_num_quadrants : list Z;
  fc_global_num_quadrants : Z;
  fc_global_first_quadrant : option (list Z);
  fc_gfq_owned : bool;
  fc_num_calls : Z;
  fc_file : bytes;
  fc_accessed_bytes : Z
}.

(** What a file function leaves behind: the context if it is still open
    ([None] once the file was closed and the context freed), whether the
    context pointer, and not NULL, is returned, the error code, and the
    data handed back through the out-parameters. *)
Record call_result (A : Type) := {
  res_context : option p4est_file_context_t;
  res_returned : bool;
  res_errcode : Z;
  res_value : A
}.
Arguments res_context {A}.
Arguments res_returned {A}.
Arguments res_errcode {A}.
Arguments res_value {A}.

(** The error exit of the macros: file closed, context freed, NULL. *)
Definition file_error {A} (errcode : Z) (a : A) : call_result A :=
  {| res_context := None; res_returned := false;
     res_errcode := errcode; res_value := a |}.

Section FileFunctions.
Context `{FIO : FileInterface}.

(** The context after a section of [advance] bytes has been passed. *)
Definition fc_advance (fc : p4est_file_context_t) (file : bytes) (advance : Z)
  : p4est_file_context_t :=
  {| fc_mpisize := fc_mpisize fc;
     fc_mpirank := fc_mpirank fc;
     fc_local_num_quadrants := fc_local_num_quadrants fc;
     fc_global_num_quadrants := fc_global_num_quadrants fc;
     fc_global_first_quadrant := fc_global_first_quadrant fc;
     fc_gfq_owned := fc_gfq_owned fc;
     fc_num_calls := to_size_t (fc_num_calls fc + 1);
     fc_file := file;
     fc_accessed_bytes := to_int64 (fc_accessed_bytes fc + advance) |}.

(** The 64 bytes of a section header: ["H %.13llu\n%-47s\n"]. *)
Definition section_header (block_type : ascii) (size : Z) (user_string : bytes)
  : bytes :=
  snprintf (P4EST_NUM_FIELD_HEADER_BYTES + 1)
    ([block_type; SP] ++ fmt_llu 13 (to_size_t size) ++ [LF]
     ++ fmt_left 47 (cstring user_string) ++ [LF]).

Definition padding_text (num_bytes : Z) : bytes :=
  match fst (get_padding_string num_bytes P4EST_BYTE_DIV true) with
  | Some pad => pad
  | None => []
  end.

(** [get_padding_string] with the buffer [pad[P4EST_MAX_NUM_PAD_BYTES]] of
    the write functions: [snprintf] stores the padding and a NUL behind it,
    which is undefined ([None]) when they are more than the buffer holds. *)
Definition pad_buffer (num_bytes : Z) : option bytes :=
  match fst (get_padding_string num_bytes P4EST_BYTE_DIV true) with
  | Some pad =>
      if Z.of_nat (length pad) + 1 <=? P4EST_MAX_NUM_PAD_BYTES
      then Some pad else None
  | None => None
  end.

(** ** Count errors of rank 0

    Rank 0 alone reads and writes the metadata.  When a byte count of its
    own is wrong, [P4EST_FILE_CHECK_COUNT_SERIAL] jumps to the label in
    [P4EST_HANDLE_MPI_COUNT_ERROR]: there rank 0 broadcasts its
    [count_error = 1], takes [P4EST_FILE_COUNT_ERROR] for its error code and
    returns NULL.  What the other ranks do depends on where they stand. *)

(** The check stands ahead of the two macros.  The jump passes over the
    broadcast of [mpiret] in [P4EST_HANDLE_MPI_ERROR], in which the other
    ranks wait: they receive the 1 as [mpiret], take its error class for
    their error code and return NULL. *)
Definition count_error_ahead (mpirank : Z) : Z :=
  if mpirank =? 0 then P4EST_FILE_COUNT_ERROR
  else snd (p4est_file_error_code 1).

(** The check stands behind the two macros and no collective call follows
    it.  The jump goes back to the label, and the other ranks, which have
    passed it, take no part in the broadcast: the call is erroneous
    ([None]) unless rank 0 is the only rank. *)
Definition count_error_behind {A} (fc : p4est_file_context_t) (a : A)
  : option (call_result A) :=
  if fc_mpisize fc =? 1
  then Some (file_error P4EST_FILE_COUNT_ERROR a) else None.

(** ** [p4est_file_open_create]

    [mpisize] and [mpirank] are those of the forest's communicator; [gnq],
    [gfq] and [lnq] are the global count, the partition and the per-rank
    local counts of the forest. *)
Definition p4est_file_open_create (mpisize mpirank gnq : Z) (gfq lnq : list Z)
    (user_string : bytes) : call_result unit :=
  let metadata :=
    snprintf (P4EST_NUM_METADATA_BYTES + P4EST_BYTE_DIV + 1)
      (fmt_prec_s 7 P4EST_MAGIC_NUMBER ++ [LF]
       ++ fmt_left 23 (cstring p4est_version) ++ [LF]
       ++ fmt_left 47 (cstring user_string) ++ [LF]
       ++ fmt_lld 16 gnq ++ [LF] ++ fmt_left 14 [] ++ [LF]) in
  let '(file, count) :=
    sc_io_write_at [] 0 metadata (P4EST_NUM_METADATA_BYTES + P4EST_BYTE_DIV) in
  if negb (P4EST_NUM_METADATA_BYTES + P4EST_BYTE_DIV =? count)
  then file_error (count_error_ahead mpirank) tt
  else
    {| res_context :=
         Some {| fc_mpisize := mpisize;
                 fc_mpirank := mpirank;
                 fc_local_num_quadrants := lnq;
                 fc_global_num_quadrants := gnq;
                 fc_global_first_quadrant :=
                   Some (firstn (Z.to_nat (mpisize + 1)) gfq);
                 fc_gfq_owned := true;
                 fc_num_calls := 0;
                 fc_file := file;
                 fc_accessed_bytes := 0 |};
       res_returned := true;
       res_errcode := snd (p4est_file_error_code sc_MPI_SUCCESS);
       res_value := tt |}.

(** ** [p4est_file_write_header]

    [None] is undefined behaviour: the padding does not fit the buffer
    [pad], or rank 0 is in a broadcast that no other rank enters. *)
Definition p4est_file_write_header (fc : p4est_file_context_t)
    (header_size : Z) (header_data user_string : bytes)
  : option (call_result unit) :=
  if header_size =? 0 then
    (* nothing to write *)
    Some {| res_context := Some fc; res_returned := true;
            res_errcode := snd (p4est_file_error_code sc_MPI_SUCCESS);
            res_value := tt |}
  else
    let start :=
      fc_accessed_bytes fc + P4EST_NUM_METADATA_BYTES + P4EST_BYTE_DIV in
    let file :=
      if P4EST_ENABLE_MPIIO
      then MPI_File_set_size (fc_file fc)
             (to_int64 (P4EST_NUM_METADATA_BYTES + P4EST_BYTE_DIV + header_size
                        + P4EST_NUM_FIELD_HEADER_BYTES + fc_accessed_bytes fc))
      else fc_file fc in
    (* header-dependent metadata *)
    let '(file, count) :=
      sc_io_write_at file (to_int64 start)
        (section_header "H" header_size user_string)
        P4EST_NUM_FIELD_HEADER_BYTES in
    if negb (P4EST_NUM_FIELD_HEADER_BYTES =? count)
    then Some (file_error (count_error_ahead (fc_mpirank fc)) tt)
    else
      (* header data *)
      let '(file, count) :=
        sc_io_write_at file (to_int64 (start + P4EST_NUM_FIELD_HEADER_BYTES))
          header_data header_size in
      if negb (to_int32 header_size =? count)
      then count_error_behind fc tt
      else
        (* padding bytes *)
        let num_pad_bytes := snd (get_padding_string header_size P4EST_BYTE_DIV true) in
        match pad_buffer header_size with
        | None => None
        | Some pad =>
            let '(file, count) :=
              sc_io_write_at file
                (to_int64 (start + P4EST_NUM_FIELD_HEADER_BYTES + header_size))
                pad num_pad_bytes in
            if negb (to_int32 num_pad_bytes =? count)
            then count_error_behind fc tt
            else
              Some {| res_context :=
                        Some (fc_advance fc file
                                (header_size + P4EST_NUM_FIELD_HEADER_BYTES
                                 + num_pad_bytes));
                      res_returned := true;
                      res_errcode := snd (p4est_file_error_code sc_MPI_SUCCESS);
                      res_value := tt |}
        end.

(** ** [read_block_metadata]

    [user_string = false] is the call with a NULL user string.  On success
    the value is the data size read and the user string copied out.  Rank 0
    reads, and the ranks differ in the error code of a count error. *)
Definition read_block_metadata (fc : p4est_file_context_t) (data_size : Z)
    (block_type : ascii) (user_string : bool)
  : call_result (Z * option bytes) :=
  let start :=
    fc_accessed_bytes fc + P4EST_NUM_METADATA_BYTES + P4EST_BYTE_DIV in
  let bytes_to_read :=
    if user_string then P4EST_NUM_FIELD_HEADER_BYTES
    else P4EST_NUM_ARRAY_METADATA_BYTES + 2 in
  let '(data, count) := sc_io_read_at (fc_file fc) (to_int64 start) bytes_to_read in
  if negb (bytes_to_read =? count)
  then file_error (count_error_ahead (fc_mpirank fc)) (0, None)
  else
    let block_metadata :=
      buffer_fill (repeat NUL (Z.to_nat P4EST_NUM_FIELD_HEADER_BYTES)) data in
    (* check for given block specifying character *)
    if negb (Ascii.eqb (byte_at block_metadata 0) block_type)
    then file_error P4EST_ERR_IO (0, None)
    (* check '\n' to check the format *)
    else if negb (Ascii.eqb (byte_at block_metadata
                               (P4EST_NUM_ARRAY_METADATA_BYTES + 1)) LF)
    then file_error P4EST_ERR_IO (0, None)
    else
      (* we cut off the block type specifier *)
      let read_data_size :=
        to_size_t (sc_atol (firstn 13 (skipn 2 block_metadata))) in
      if user_string && negb (read_data_size =? data_size)
      then file_error P4EST_ERR_IO (read_data_size, None)
      else if user_string
              && negb (Ascii.eqb (byte_at block_metadata
                                    (P4EST_NUM_FIELD_HEADER_BYTES - 1)) LF)
      then file_error P4EST_ERR_IO (read_data_size, None)
      else
        let ustring :=
          if user_string
          then Some (strncpy (firstn 47 (skipn 16 block_metadata))
                       P4EST_NUM_USER_STRING_BYTES)
          else None in
        (* check the padding structure *)
        let data_block_size :=
          if Ascii.eqb (byte_at block_metadata 0) "F"%char
          then to_size_t (read_data_size * fc_global_num_quadrants fc)
          else read_data_size in
        let num_pad_bytes :=
          snd (get_padding_string data_block_size P4EST_BYTE_DIV false) in
        let '(pad, count) :=
          sc_io_read_at (fc_file fc)
            (to_int64 (start + P4EST_NUM_FIELD_HEADER_BYTES + data_block_size))
            num_pad_bytes in
        if negb (to_int32 num_pad_bytes =? count)
        then
          (* rank 0 jumps back to the label of the count error; its
             broadcast of [count_error] is what the other ranks receive as
             [err_flag] *)
          file_error (if fc_mpirank fc =? 0 then P4EST_FILE_COUNT_ERROR
                      else P4EST_ERR_IO) (read_data_size, ustring)
        else
          let block_metadata := buffer_fill block_metadata pad in
          if negb (Ascii.eqb (byte_at block_metadata 0) LF)
             || negb (Ascii.eqb (byte_at block_metadata (num_pad_bytes - 1)) LF)
          then file_error P4EST_ERR_IO (read_data_size, ustring)
          else
            {| res_context := Some fc; res_returned := true;
               res_errcode := sc_MPI_SUCCESS;
               res_value := (read_data_size, ustring) |}.

(** ** [p4est_file_read_header]

    [header_data = false] is the call with a NULL buffer.  The value is the
    header data and the user string read. *)
Definition p4est_file_read_header (fc : p4est_file_context_t)
    (header_size : Z) (header_data : bool)
  : call_result (option bytes * option bytes) :=
  (* calculate the padding bytes for this header data *)
  let num_pad_bytes := snd (get_padding_string header_size P4EST_BYTE_DIV false) in
  if negb header_data || (header_size =? 0) then
    (* Nothing to read but we shift our own file pointer *)
    let r := read_block_metadata fc 0 "H" false in
    if negb (res_returned r)
    then file_error (snd (p4est_file_error_code (res_errcode r))) (None, None)
    else
      {| res_context :=
           Some (fc_advance fc (fc_file fc)
                   (header_size + P4EST_NUM_FIELD_HEADER_BYTES + num_pad_bytes));
         res_returned := false;
         res_errcode := snd (p4est_file_error_code sc_MPI_SUCCESS);
         res_value := (None, None) |}
  else if P4EST_ENABLE_MPIIO
          && (to_size_t (Z.of_nat (length (fc_file fc))
                         - P4EST_NUM_METADATA_BYTES - P4EST_BYTE_DIV
                         - P4EST_NUM_FIELD_HEADER_BYTES) <? header_size)
  then
    (* the file is closed by p4est_file_close, which reports success *)
    file_error (snd (p4est_file_error_code sc_MPI_SUCCESS)) (None, None)
  else
    (* check the header metadata *)
    let r := read_block_metadata fc header_size "H" true in
    if negb (res_returned r)
    then file_error (snd (p4est_file_error_code (res_errcode r))) (None, None)
    else
      let '(data, count) :=
        sc_io_read_at (fc_file fc)
          (to_int64 (fc_accessed_bytes fc + P4EST_NUM_METADATA_BYTES
                     + P4EST_NUM_FIELD_HEADER_BYTES + P4EST_BYTE_DIV))
          (to_int32 header_size) in
      if negb (to_int32 header_size =? count)
      then file_error (count_error_ahead (fc_mpirank fc)) (None, None)
      else
        {| res_context :=
             Some (fc_advance fc (fc_file fc)
                     (header_size + P4EST_NUM_FIELD_HEADER_BYTES + num_pad_bytes));
           res_returned := true;
           res_errcode := snd (p4est_file_error_code sc_MPI_SUCCESS);
           res_value := (Some data, snd (res_value r)) |}.

(** ** [p4est_file_write_field]

    [quadrant_data] holds the array of every rank, rank 0 first.  Rank 0
    writes the section header and the padding; the collective write is
    carried out rank by rank.  The result is what the rank of [fc] sees;
    [None] is undefined behaviour (no array, a NULL partition or an index
    outside of it, a padding that does not fit the buffer [pad], rank 0 in
    a broadcast that no other rank enters). *)

(** The rank-dependent byte offset [write_offset] of a rank whose first
    quadrant has the global number [g]. *)
Definition write_offset (g elem_size : Z) : Z :=
  to_int64 (P4EST_NUM_METADATA_BYTES + P4EST_BYTE_DIV + g * elem_size).

(** One rank's share of [sc_io_write_at_all]: the file afterwards and
    whether its byte count was wrong. *)
Definition write_field_rank (fc : p4est_file_context_t) (gfq : list Z)
    (st : bytes * list bool) (rq : Z * sc_array_t) : option (bytes * list bool) :=
  let '(rank, quadrant_data) := rq in
  match nthZ gfq rank with
  | None => None
  | Some g =>
      let bytes_to_write :=
        to_size_t (elem_count quadrant_data * elem_size quadrant_data) in
      let '(file, count) :=
        sc_io_write_at (fst st)
          (to_int64 (fc_accessed_bytes fc
                     + write_offset g (elem_size quadrant_data)
                     + P4EST_NUM_FIELD_HEADER_BYTES))
          (array quadrant_data) bytes_to_write in
      Some (file, snd st ++ [negb (to_int32 bytes_to_write =? count)])
  end.

Definition rank_indices {A} (l : list A) : list Z :=
  map Z.of_nat (seq 0 (length l)).

Definition p4est_file_write_field (fc : p4est_file_context_t)
    (quadrant_data : list sc_array_t) (user_string : bytes)
  : option (call_result unit) :=
  match quadrant_data with
  | [] => None
  | q0 :: _ =>
    if elem_size q0 =? 0 then
      (* nothing to write *)
      Some {| res_context := Some fc; res_returned := true;
              res_errcode := snd (p4est_file_error_code sc_MPI_SUCCESS);
              res_value := tt |}
    else
      match fc_global_first_quadrant fc with
      | None => None
      | Some gfq =>
        match nthZ gfq 0 with
        | None => None
        | Some g0 =>
          let file :=
            if P4EST_ENABLE_MPIIO
            then MPI_File_set_size (fc_file fc)
                   (to_int64 (P4EST_NUM_METADATA_BYTES + P4EST_BYTE_DIV
                              + fc_global_num_quadrants fc * elem_size q0
                              + P4EST_NUM_FIELD_HEADER_BYTES
                              + fc_accessed_bytes fc))
            else fc_file fc in
          (* array-dependent metadata *)
          let '(file, count) :=
            sc_io_write_at file
              (to_int64 (fc_accessed_bytes fc + write_offset g0 (elem_size q0)))
              (section_header "F" (elem_size q0) user_string)
              P4EST_NUM_FIELD_HEADER_BYTES in
          if negb (P4EST_NUM_FIELD_HEADER_BYTES =? count)
          then Some (file_error (count_error_ahead (fc_mpirank fc)) tt)
          else
            (* write array data *)
            match foldM (write_field_rank fc gfq)
                        (combine (rank_indices quadrant_data) quadrant_data)
                        (file, []) with
            | None => None
            | Some (file, count_errors) =>
              if existsb (fun e => e) count_errors
              then
                (* every rank returns NULL, with the count error where its
                   own count is wrong *)
                Some (file_error
                        (if nth (Z.to_nat (fc_mpirank fc)) count_errors false
                         then P4EST_FILE_COUNT_ERROR else sc_MPI_SUCCESS) tt)
              else
                (* write padding bytes *)
                let array_size :=
                  to_size_t (fc_global_num_quadrants fc * elem_size q0) in
                let num_pad_bytes :=
                  snd (get_padding_string array_size P4EST_BYTE_DIV true) in
                match pad_buffer array_size with
                | None => None
                | Some pad =>
                  let '(file, count) :=
                    sc_io_write_at file
                      (to_int64 (fc_accessed_bytes fc + P4EST_NUM_METADATA_BYTES
                                 + P4EST_BYTE_DIV + array_size
                                 + P4EST_NUM_FIELD_HEADER_BYTES))
                      pad num_pad_bytes in
                  if negb (to_int32 num_pad_bytes =? count)
                  then count_error_behind fc tt
                  else
                    Some {| res_context :=
                              Some (fc_advance fc file
                                      (to_size_t (elem_size q0
                                                  * fc_global_num_quadrants fc)
                                       + P4EST_NUM_FIELD_HEADER_BYTES
                                       + num_pad_bytes));
                            res_returned := true;
                            res_errcode :=
                              snd (p4est_file_error_code sc_MPI_SUCCESS);
                            res_value := tt |}
                end
            end
        end
      end
  end.

(** ** [p4est_file_read_field_ext] and [p4est_file_read_field]

    [quadrant_data = None] is the NULL array; otherwise it holds the array
    of every rank.  The result is what the rank of [fc] sees. *)

Definition sc_array_resize (a : sc_array_t) (new_count : Z) : sc_array_t :=
  {| elem_size := elem_size a;
     elem_count := to_size_t new_count;
     array := MPI_File_set_size (array a) (elem_size a * to_size_t new_count) |}.

Definition resize_rank (gfq : list Z) (rq : Z * sc_array_t) : option sc_array_t :=
  match nthZ gfq (fst rq + 1), nthZ gfq (fst rq) with
  | Some g1, Some g =>
      Some (sc_array_resize (snd rq) (to_int64 (g1 - g)))
  | _, _ => None
  end.

Fixpoint mapM {A B} (f : A -> option B) (l : list A) : option (list B) :=
  match l with
  | [] => Some []
  | a :: l' =>
      match f a, mapM f l' with
      | Some b, Some bs => Some (b :: bs)
      | _, _ => None
      end
  end.

Definition resize_all (gfq : list Z) (quadrant_data : list sc_array_t)
  : option (list sc_array_t) :=
  mapM (resize_rank gfq) (combine (rank_indices quadrant_data) quadrant_data).

(** One rank's share of [sc_io_read_at_all]. *)
Definition read_field_rank (fc : p4est_file_context_t) (gfq : list Z)
    (rq : Z * sc_array_t) : option (sc_array_t * bool) :=
  let '(rank, quadrant_data) := rq in
  match nthZ gfq rank with
  | None => None
  | Some g =>
      let bytes_to_read :=
        to_size_t (elem_count quadrant_data * elem_size quadrant_data) in
      let '(data, count) :=
        sc_io_read_at (fc_file fc)
          (to_int64 (fc_accessed_bytes fc + P4EST_NUM_METADATA_BYTES
                     + P4EST_NUM_FIELD_HEADER_BYTES + P4EST_BYTE_DIV
                     + g * elem_size quadrant_data))
          bytes_to_read in
      Some ({| elem_size := elem_size quadrant_data;
               elem_count := elem_count quadrant_data;
               array := buffer_fill (array quadrant_data) data |},
            negb (to_int32 bytes_to_read =? count))
  end.

Definition p4est_file_read_field_ext (fc : p4est_file_context_t)
    (gfq : list Z) (quadrant_data : option (list sc_array_t))
  : option (call_result (option (list sc_array_t) * option bytes)) :=
  let skip :=
    match quadrant_data with
    | None => Some true
    | Some (q0 :: _) => Some (elem_size q0 =? 0)
    | Some [] => None
    end in
  match skip with
  | None => None
  | Some true =>
      (* Nothing to read but we shift our own file pointer *)
      let r := read_block_metadata fc 0 "F" false in
      if negb (res_returned r)
      then Some (file_error (snd (p4est_file_error_code (res_errcode r)))
                   (quadrant_data, None))
      else
        let read_data_size := fst (res_value r) in
        (* calculate the padding bytes for this data array *)
        let array_size :=
          to_size_t (fc_global_num_quadrants fc * read_data_size) in
        let num_pad_bytes :=
          snd (get_padding_string array_size P4EST_BYTE_DIV false) in
        Some {| res_context :=
                  Some (fc_advance fc (fc_file fc)
                          (to_size_t (read_data_size * fc_global_num_quadrants fc)
                           + P4EST_NUM_FIELD_HEADER_BYTES + num_pad_bytes));
                res_returned := false;
                res_errcode := snd (p4est_file_error_code sc_MPI_SUCCESS);
                res_value := (quadrant_data, None) |}
  | Some false =>
    match quadrant_data with
    | Some ((q0 :: _) as qd) =>
      match resize_all gfq qd with
      | None => None
      | Some qd =>
        let too_small (q : sc_array_t) :=
          P4EST_ENABLE_MPIIO
          && (to_size_t (Z.of_nat (length (fc_file fc))
                         - P4EST_NUM_METADATA_BYTES - P4EST_BYTE_DIV
                         - P4EST_NUM_FIELD_HEADER_BYTES)
              <? to_size_t (elem_count q * elem_size q)) in
        if forallb too_small qd then
          (* every rank closes the file; p4est_file_close reports success *)
          Some (file_error (snd (p4est_file_error_code sc_MPI_SUCCESS))
                  (Some qd, None))
        else if existsb too_small qd then None
        else
          (* check the array metadata *)
          let r := read_block_metadata fc (elem_size q0) "F" true in
          if negb (res_returned r)
          then Some (file_error (snd (p4est_file_error_code (res_errcode r)))
                       (Some qd, None))
          else
            (* calculate the padding bytes for this data array *)
            let array_size :=
              to_size_t (fc_global_num_quadrants fc * elem_size q0) in
            let num_pad_bytes :=
              snd (get_padding_string array_size P4EST_BYTE_DIV false) in
            match mapM (read_field_rank fc gfq) (combine (rank_indices qd) qd) with
            | None => None
            | Some reads =>
              let qd' := map fst reads in
              let count_errors := map snd reads in
              if existsb (fun e => e) count_errors
              then Some (file_error
                           (if nth (Z.to_nat (fc_mpirank fc)) count_errors false
                            then P4EST_FILE_COUNT_ERROR else sc_MPI_SUCCESS)
                           (Some qd', snd (res_value r)))
              else
                Some {| res_context :=
                          Some (fc_advance fc (fc_file fc)
                                  (to_size_t (elem_size q0
                                              * fc_global_num_quadrants fc)
                                   + P4EST_NUM_FIELD_HEADER_BYTES
                                   + num_pad_bytes));
                        res_returned := true;
                        res_errcode := snd (p4est_file_error_code sc_MPI_SUCCESS);
                        res_value := (Some qd', snd (res_value r)) |}
            end
      end
    | _ => None
    end
  end.

Definition p4est_file_read_field (fc : p4est_file_context_t)
    (quadrant_data : option (list sc_array_t))
  : option (call_result (option (list sc_array_t) * option bytes)) :=
  let gfq :=
    match fc_global_first_quadrant fc with
    | None =>
        (* there is no partition set in the file context *)
        p4est_comm_global_first_quadrant (fc_global_num_quadrants fc)
                                         (fc_mpisize fc)
    | Some gfq => gfq
    end in
  let resized :=
    match quadrant_data with
    | None => Some None
    | Some qd => match resize_all gfq qd with
                 | Some qd' => Some (Some qd')
                 | None => None
                 end
    end in
  match resized with
  | None => None
  | Some quadrant_data =>
      match p4est_file_read_field_ext fc gfq quadrant_data with
      | None => None
      | Some r =>
          Some {| res_context := res_context r;
                  res_returned := res_returned r;
                  res_errcode := snd (p4est_file_error_code (res_errcode r));
                  res_value := res_value r |}
      end
  end.

(** ** [check_file_metadata]

    [metadata] is the buffer of the caller, with the file header read into
    it.  The value is the return value, the user string and the global
    number of quadrants, the last two [None] where the function returns
    before it has set them. *)
Definition check_file_metadata (metadata : bytes)
  : option (Z * option bytes * option Z) :=
  let magic_bytes := P4EST_NUM_MAGIC_BYTES in
  let version_bytes := magic_bytes + P4EST_NUM_VERSION_STR_BYTES in
  let user_bytes := version_bytes + P4EST_NUM_USER_STRING_BYTES in
  (* check magic number *)
  c <- buf_get metadata (magic_bytes - 1) ;;
  if negb (Ascii.eqb c LF) then Some (P4EST_ERR_IO, None, None) else
  metadata <- buf_set metadata (magic_bytes - 1) NUL ;;
  magic <- string_at metadata 0 ;;
  let error_flag := negb (bytes_eqb magic (cstring P4EST_MAGIC_NUMBER)) in
  (* check format of version string line *)
  c <- buf_get metadata (version_bytes - 1) ;;
  if negb (Ascii.eqb c LF) then Some (P4EST_ERR_IO, None, None) else
  metadata <- buf_set metadata (version_bytes - 1) NUL ;;
  version <- string_at metadata magic_bytes ;;
  if negb (Z.of_nat (length version)
           =? to_size_t (P4EST_NUM_VERSION_STR_BYTES - 1))
  then Some (P4EST_ERR_IO, None, None) else
  (* check the format of the user string *)
  c <- buf_get metadata (user_bytes - 1) ;;
  if negb (Ascii.eqb c LF) then Some (P4EST_ERR_IO, None, None) else
  (* the content of the user string is not checked *)
  copied <- strncpy_at metadata version_bytes (P4EST_NUM_USER_STRING_BYTES - 1) ;;
  let user_string := copied ++ [NUL] in
  (* check number of global quadrants;
     there is no \n at the end of this line *)
  metadata <- buf_set metadata P4EST_NUM_METADATA_BYTES NUL ;;
  quads <- string_at metadata user_bytes ;;
  if negb (Z.of_nat (length quads) =? 16)
  then Some (P4EST_ERR_IO, Some user_string, None) else
  let read_global_num_quads := sc_atol (skipn (Z.to_nat user_bytes) metadata) in
  let error_flag := error_flag || (read_global_num_quads <? 0) in
  Some (if error_flag then P4EST_ERR_IO else sc_MPI_SUCCESS,
        Some user_string, Some (to_int64 read_global_num_quads)).

(** ** [p4est_file_info] *)

Record p4est_file_section_metadata_t := {
  block_type : ascii;
  data_size_of : Z;
  user_string_of : bytes
}.

Inductive scan_step :=
| ScanStop (sections : list p4est_file_section_metadata_t)
| ScanNext (position : Z) (sections : list p4est_file_section_metadata_t).

(** One pass of the loop [for (;;)] at [current_position], with the
    sections found so far.  A section is pushed once its header has been
    read and removed again ([sc_array_rewind]) when it turns out to be
    incomplete. *)
Definition info_step (file : bytes) (global_num_quadrants : Z)
    (current_position : Z) (data_sections : list p4est_file_section_metadata_t)
  : scan_step :=
  (* read block metadata for current record *)
  let '(data, count) :=
    sc_io_read_at file current_position P4EST_NUM_FIELD_HEADER_BYTES in
  if negb (P4EST_NUM_FIELD_HEADER_BYTES =? count)
  then (* we did not read the correct number of bytes *)
    ScanStop data_sections
  else
    let block_metadata :=
      buffer_fill (repeat NUL (Z.to_nat (P4EST_NUM_FIELD_HEADER_BYTES + 1))) data in
    if negb (Ascii.eqb (byte_at block_metadata 0) "H"%char
             || Ascii.eqb (byte_at block_metadata 0) "F"%char)
    then ScanStop data_sections
    (* check format *)
    else if negb (Ascii.eqb (byte_at block_metadata
                               (P4EST_NUM_ARRAY_METADATA_BYTES + 1)) LF)
    then ScanStop data_sections
    else
      let btype := byte_at block_metadata 0 in
      (* process block metadata *)
      let block_metadata :=
        firstn 15 block_metadata ++ [NUL] ++ skipn 16 block_metadata in
      let dsize := to_size_t (sc_atol (skipn 2 block_metadata)) in
      (* check '\n' to check the format *)
      if negb (Ascii.eqb (byte_at block_metadata
                            (P4EST_NUM_FIELD_HEADER_BYTES - 1)) LF)
      then ScanStop data_sections
      else
        (* null-terminate the user string of the current block *)
        let block_metadata :=
          firstn 63 block_metadata ++ [NUL] ++ skipn 64 block_metadata in
        let member :=
          {| block_type := btype; data_size_of := dsize;
             user_string_of :=
               strncpy (skipn 16 block_metadata) P4EST_NUM_USER_STRING_BYTES |} in
        (* get padding bytes of the current block *)
        let current_size :=
          if Ascii.eqb btype "F"%char
          then to_size_t (global_num_quadrants * dsize)
          else dsize in
        let num_pad_bytes :=
          snd (get_padding_string current_size P4EST_BYTE_DIV false) in
        (* read padding bytes *)
        let '(pad, _) :=
          sc_io_read_at file
            (to_int64 (current_position + P4EST_NUM_FIELD_HEADER_BYTES
                       + current_size))
            num_pad_bytes in
        let block_metadata := buffer_fill block_metadata pad in
        (* check '\n' in padding bytes *)
        if negb (Ascii.eqb (byte_at block_metadata 0) LF)
           || negb (Ascii.eqb (byte_at block_metadata (num_pad_bytes - 1)) LF)
        then ScanStop data_sections
        else ScanNext (to_int64 (current_position + (P4EST_NUM_FIELD_HEADER_BYTES
                                                     + current_size + num_pad_bytes)))
                      (data_sections ++ [member]).

Fixpoint info_loop (fuel : nat) (file : bytes) (global_num_quadrants : Z)
    (current_position : Z) (data_sections : list p4est_file_section_metadata_t)
  : option (list p4est_file_section_metadata_t) :=
  match fuel with
  | O => None
  | S fuel' =>
      match info_step file global_num_quadrants current_position data_sections with
      | ScanStop sections => Some sections
      | ScanNext position sections =>
          info_loop fuel' file global_num_quadrants position sections
      end
  end.

(** What [p4est_file_info] hands back: the return value, the error code,
    the user string of the file ([None] when it was not set) and the
    sections. *)
Record info_result := {
  info_retval : Z;
  info_errcode : Z;
  info_user_string : option bytes;
  info_sections : list p4est_file_section_metadata_t
}.

(** [file] is the content of the file and [global_num_quadrants] the count
    of the forest.  Rank 0 reads the 64 bytes of the file header into
    [metadata[P4EST_NUM_METADATA_BYTES + 1]], every rank checks them, and
    rank 0 scans the sections, which are broadcast; the result is the same
    on every rank.  [None] is undefined behaviour: an index outside
    [metadata], the use of a global count that was not set, or a scan that
    has not come to an end after one pass for every byte of the file. *)
Definition p4est_file_info (file : bytes) (global_num_quadrants : Z)
  : option info_result :=
  (* read file metadata on root rank *)
  let '(data, count) := sc_io_read_at file 0 P4EST_NUM_METADATA_BYTES in
  if negb (P4EST_NUM_METADATA_BYTES =? count) then
    Some {| info_retval := -1;
            info_errcode := snd (p4est_file_error_code P4EST_FILE_COUNT_ERROR);
            info_user_string := None; info_sections := [] |}
  else
    (* broadcast file metadata to all ranks and null-terminate it *)
    metadata <- buf_set (buffer_fill
                           (repeat NUL (Z.to_nat (P4EST_NUM_METADATA_BYTES + 1)))
                           data)
                        P4EST_NUM_METADATA_BYTES NUL ;;
    checked <- check_file_metadata metadata ;;
    let '(mpiret, user_string, read_global_num_quadrants) := checked in
    if negb (mpiret =? sc_MPI_SUCCESS) then
      Some {| info_retval := -1;
              info_errcode := snd (p4est_file_error_code P4EST_ERR_IO);
              info_user_string := user_string; info_sections := [] |}
    else
      (* check global number of quadrants *)
      read_global_num_quadrants <- read_global_num_quadrants ;;
      if negb (global_num_quadrants =? read_global_num_quadrants) then
        Some {| info_retval := -1;
                info_errcode := snd (p4est_file_error_code P4EST_ERR_IO);
                info_user_string := user_string; info_sections := [] |}
      else
        (* read all data headers that we find and skip the data itself *)
        sections <- info_loop (S (length file)) file global_num_quadrants
                              (P4EST_NUM_METADATA_BYTES + P4EST_BYTE_DIV) [] ;;
        Some {| info_retval := 0;
                info_errcode := snd (p4est_file_error_code sc_MPI_SUCCESS);
                info_user_string := user_string;
                info_sections := sections |}.

End FileFunctions.

(* ================================================================= *)
(** * Well-formed forests and partitions *)
(* ================================================================= *)

Section ForestSpec.
Context `{FI : ForestInterface}.

(** The trees [first_local_tree .. last_local_tree] and their quadrants in
    tree-major order. *)
Definition local_trees (p : p4est_t) : list p4est_tree_t :=
  firstn (Z.to_nat (last_local_tree p - first_local_tree p + 1))
         (skipn (Z.to_nat (first_local_tree p)) (trees p)).

Definition local_quadrants (p : p4est_t) : list p4est_quadrant_t :=
  flat_map quadrants (local_trees p).

(** What deflate relies on: the local tree range lies inside the tree
    array (or is the empty range -1, -2), [local_num_quadrants] counts the
    quadrants of the local trees, every quadrant carries [data_size] bytes
    of user data, and the array sizes fit their C types. *)
Record forest_ok (p : p4est_t) : Prop := {
  ok_range :
    (first_local_tree p = -1 /\ last_local_tree p = -2)
    \/ (0 <= first_local_tree p <= last_local_tree p
        /\ last_local_tree p < Z.of_nat (length (trees p)));
  ok_count : local_num_quadrants p = Z.of_nat (length (local_quadrants p));
  ok_int : (P4EST_DIM + 1) * local_num_quadrants p < 2147483648;
  ok_data_size : 0 <= data_size p;
  ok_data_bytes : data_size p * local_num_quadrants p < 18446744073709551616;
  ok_user_data :
    Forall (fun q => Z.of_nat (length (user_data q)) = data_size p)
           (local_quadrants p)
}.

(** What is observable of a quadrant through deflate: its coordinate tuple
    and its payload. *)
Definition quadrant_view (q : p4est_quadrant_t) : list Z * bytes :=
  (quadrant_coords q, user_data q).

Definition tree_view (t : p4est_tree_t) : list (list Z * bytes) :=
  map quadrant_view (quadrants t).

(** Entry [j] of an array of prefix sums (0 outside of it). *)
Definition at_index (a : list Z) (j : Z) : Z := nth (Z.to_nat j) a 0.

(** The forest [p] is rank [rank]'s part of a global forest with partition
    [gfq] and cumulative per-tree counts [pertree]: tree [j] holds the
    global quadrants numbered [pertree[j], pertree[j+1])] that fall into the
    rank's range [gfq[rank], gfq[rank+1])]. *)
Record partition_ok (p : p4est_t) (num_procs rank : Z) (gfq pertree : list Z)
  : Prop := {
  po_rank : 0 <= rank < num_procs;
  po_gfq_len : num_procs + 1 <= Z.of_nat (length gfq);
  po_gfq_int64 :
    0 <= at_index gfq rank
    /\ at_index gfq (rank + 1) < 9223372036854775808;
  po_trees : Z.of_nat (length (trees p)) = num_trees p;
  po_trees_int32 : num_trees p < 2147483648;
  po_pertree_len : Z.of_nat (length pertree) = num_trees p + 1;
  po_pertree_int64 :
    0 <= at_index pertree 0
    /\ at_index pertree (num_trees p) < 9223372036854775808;
  po_pertree_mono :
    forall i j, 0 <= i <= j -> j <= num_trees p ->
                at_index pertree i <= at_index pertree j;
  po_local :
    local_num_quadrants p = at_index gfq (rank + 1) - at_index gfq rank;
  po_global : global_num_quadrants p = at_index gfq num_procs;
  po_tree_count :
    forall j t, nthZ (trees p) j = Some t ->
      Z.of_nat (length (quadrants t))
      = Z.max 0 (Z.min (at_index pertree (j + 1)) (at_index gfq (rank + 1))
                 - Z.max (at_index pertree j) (at_index gfq rank));
  po_first_last :
    if 0 <? local_num_quadrants p
    then 0 <= first_local_tree p <= last_local_tree p
         /\ last_local_tree p < num_trees p
         /\ at_index pertree (first_local_tree p) <= at_index gfq rank
            < at_index pertree (first_local_tree p + 1)
         /\ at_index pertree (last_local_tree p) <= at_index gfq (rank + 1) - 1
            < at_index pertree (last_local_tree p + 1)
    else first_local_tree p = -1 /\ last_local_tree p = -2
}.

(** Quadrant levels are [int8_t] values inside the level counters. *)
Definition levels_ok (p : p4est_t) : Prop :=
  0 <= P4EST_QMAXLEVEL <= P4EST_MAXLEVEL /\ P4EST_MAXLEVEL < 128
  /\ Forall (fun q => 0 <= quad_level q <= P4EST_QMAXLEVEL) (local_quadrants p).

(** Every tree of the local range holds at least one quadrant of the
    global forest, as [p4est_inflate] asserts of its input. *)
Definition local_trees_nonempty (p : p4est_t) (pertree : list Z) : Prop :=
  forall j, first_local_tree p <= j <= last_local_tree p ->
            at_index pertree j < at_index pertree (j + 1).

(** The payload array deflate returns for the quadrants [allq] ([None]
    when no payload is requested). *)
Definition deflated_data (want : bool) (dsz lnq : Z)
    (allq : list p4est_quadrant_t) : option sc_array_t :=
  if want
  then Some {| elem_size := dsz; elem_count := lnq;
               array := flat_map user_data allq |}
  else None.

(** Invariant of the tree loop of [p4est_inflate] when it rebuilds [p]
    from its deflated arrays: before tree [a] the read positions stand
    behind the quadrants of the trees before [a], [gquadremain] is what
    is left of the rank's range from tree [a] on, [gtreeskip] is pending
    until the first local tree has been filled, and the trees set up so far
    show the quadrants of [p]. *)
Definition inflate_inv (p : p4est_t) (rank : Z) (gfq pertree : list Z)
    (a : nat) (st : inflate_state) : Prop :=
  let Qa := flat_map quadrants (firstn a (trees p)) in
  i_qap st = (Z.to_nat (P4EST_DIM + 1) * length Qa)%nat
  /\ i_dap st = (Z.to_nat (data_size p) * length Qa)%nat
  /\ i_zqoffset st = Z.of_nat (length Qa)
  /\ i_gquadremain st
     = Z.max 0 (at_index gfq (rank + 1)
                - Z.max (at_index pertree (Z.of_nat a)) (at_index gfq rank))
  /\ (Z.of_nat a <= first_local_tree p ->
      i_gtreeskip st
      = at_index gfq rank - at_index pertree (first_local_tree p))
  /\ (first_local_tree p < Z.of_nat a -> i_gtreeskip st = 0)
  /\ map tree_view (i_trees st) = map tree_view (firstn a (trees p)).

End ForestSpec.

(* ================================================================= *)
(** * Well-formed contexts and sections *)
(* ================================================================= *)

(** A context whose file ends where its cursor stands: the file has 80
    bytes of prelude and [accessed_bytes] bytes of sections. *)
Definition at_end_of_file (fc : p4est_file_context_t) : Prop :=
  0 <= fc_accessed_bytes fc
  /\ Z.of_nat (length (fc_file fc)) = 80 + fc_accessed_bytes fc.

(** The arrays [quadrant_data] of the ranks match a partition [gfq] of
    [N] quadrants: one array per rank, [gfq] from 0 to [N], every array with
    elements of [es] bytes, as many as the rank owns quadrants, and less
    than 2^31 bytes, the most one call of the I/O layer counts. *)
Record field_data_ok (N : Z) (gfq : list Z) (es : Z)
    (quadrant_data : list sc_array_t) : Prop := {
  fd_ranks : length gfq = S (length quadrant_data);
  fd_first : at_index gfq 0 = 0;
  fd_last : at_index gfq (Z.of_nat (length quadrant_data)) = N;
  fd_arrays :
    forall r q, nth_error quadrant_data r = Some q ->
      elem_size q = es
      /\ elem_count q = at_index gfq (Z.of_nat r + 1) - at_index gfq (Z.of_nat r)
      /\ 0 <= elem_count q
      /\ Z.of_nat (length (array q)) = es * elem_count q
      /\ es * elem_count q < 2147483648
}.

(** The bytes of one section: header, payload, padding. *)
Definition section_bytes `{FileInterface} (block_type : ascii) (size : Z)
    (user_string payload : bytes) : bytes :=
  section_header block_type size user_string ++ payload
  ++ padding_text (Z.of_nat (length payload)).

(** ** Sequences of section writes *)

Inductive section_write :=
| WriteHeader (header_size : Z) (header_data user_string : bytes)
| WriteField (quadrant_data : list sc_array_t) (user_string : bytes).

Definition write_section `{FileInterface} (fc : p4est_file_context_t)
    (w : section_write) : option (call_result unit) :=
  match w with
  | WriteHeader header_size header_data user_string =>
      p4est_file_write_header fc header_size header_data user_string
  | WriteField quadrant_data user_string =>
      p4est_file_write_field fc quadrant_data user_string
  end.

(** The context after a sequence of writes that all return the context
    and the success code. *)
Fixpoint write_sections `{FileInterface} (ws : list section_write)
    (fc : p4est_file_context_t) : option p4est_file_context_t :=
  match ws with
  | [] => Some fc
  | w :: rest =>
      match write_section fc w with
      | Some r =>
          match res_context r with
          | Some fc' =>
              if res_returned r && (res_errcode r =? sc_MPI_SUCCESS)
              then write_sections rest fc' else None
          | None => None
          end
      | None => None
      end
  end.

(** A section as it was written: type, data size, user string, payload. *)
Record written_section := {
  ws_type : ascii;
  ws_size : Z;
  ws_user : bytes;
  ws_payload : bytes
}.

(** The section a write adds to the file (none for a size of zero). *)
Definition sections_of (w : section_write) : list written_section :=
  match w with
  | WriteHeader header_size header_data user_string =>
      if header_size =? 0 then []
      else [{| ws_type := "H"; ws_size := header_size; ws_user := user_string;
               ws_payload := header_data |}]
  | WriteField quadrant_data user_string =>
      match quadrant_data with
      | [] => []
      | q0 :: _ =>
          if elem_size q0 =? 0 then []
          else [{| ws_type := "F"; ws_size := elem_size q0;
                   ws_user := user_string;
                   ws_payload := concat (map array quadrant_data) |}]
      end
  end.

(** What [p4est_file_info] is to report of a written section: the user
    string as it stands in the file, filled with spaces to 47 bytes, and
    its terminating NUL. *)
Definition metadata_of (sec : written_section) : p4est_file_section_metadata_t :=
  {| block_type := ws_type sec;
     data_size_of := ws_size sec;
     user_string_of := fmt_left 47 (cstring (ws_user sec)) ++ [NUL] |}.

Definition bytes_of `{FileInterface} (sec : written_section) : bytes :=
  section_bytes (ws_type sec) (ws_size sec) (ws_user sec) (ws_payload sec).

(** The bytes a section takes in the file. *)
Definition section_length (sec : written_section) : Z :=
  64 + Z.of_nat (length (ws_payload sec))
  + pad_len (Z.of_nat (length (ws_payload sec))).

Definition sections_length (secs : list written_section) : Z :=
  fold_right (fun sec total => section_length sec + total) 0 secs.

(** A write the functions accept: a user string of at most 47 bytes (as
    they assert), buffers of the announced sizes, less than 2^31 bytes
    per call of the I/O layer, a data size of at most 13 decimal digits,
    the width of its field in the section header, and a payload whose
    length is not 15 modulo 16, so that its padding fits the buffer
    [pad]. *)
Definition write_ok (N : Z) (gfq : list Z) (w : section_write) : Prop :=
  match w with
  | WriteHeader header_size header_data user_string =>
      0 <= header_size < 2147483648
      /\ header_size mod 16 <> 15
      /\ Z.of_nat (length header_data) = header_size
      /\ (length (cstring user_string) <= 47)%nat
  | WriteField quadrant_data user_string =>
      match quadrant_data with
      | [] => False
      | q0 :: _ =>
          0 <= elem_size q0 <= 9999999999999
          /\ (0 < elem_size q0 ->
              field_data_ok N gfq (elem_size q0) quadrant_data
              /\ (N * elem_size q0) mod 16 <> 15)
          /\ (length (cstring user_string) <= 47)%nat
      end
  end.

(** ** Malformed ends of a file *)

(** The length of the payload that the section header at the beginning of
    [junk] announces. *)
Definition announced_size (N : Z) (junk : bytes) : Z :=
  let dsize := to_size_t (sc_atol (firstn 13 (skipn 2 junk))) in
  if Ascii.eqb (byte_at junk 0) "F"%char then to_size_t (N * dsize) else dsize.

(** What may follow the last complete section: fewer than 64 bytes (none,
    at the end of a complete file), or 64 bytes and more that begin with an
    unknown type byte, miss one of the two newlines of a section header,
    end before the payload does, or hold, where the header puts the
    padding, bytes of which the first or the last is no newline. *)
Inductive malformed_tail (N : Z) (junk : bytes) : Prop :=
| short_header :
    (length junk < 64)%nat -> malformed_tail N junk
| unknown_type :
    (64 <= length junk)%nat ->
    byte_at junk 0 <> "H"%char -> byte_at junk 0 <> "F"%char ->
    malformed_tail N junk
| missing_newline_after_size :
    (64 <= length junk)%nat -> byte_at junk 15 <> LF -> malformed_tail N junk
| missing_newline_after_user_string :
    (64 <= length junk)%nat -> byte_at junk 63 <> LF -> malformed_tail N junk
| truncated_payload :
    (64 <= length junk)%nat ->
    Z.of_nat (length junk) <= 64 + announced_size N junk ->
    announced_size N junk < 4611686018427387904 ->
    malformed_tail N junk
| wrong_padding :
    (64 <= length junk)%nat ->
    64 + announced_size N junk + pad_len (announced_size N junk)
      <= Z.of_nat (length junk) ->
    byte_at junk (64 + announced_size N junk) <> LF
    \/ byte_at junk (64 + announced_size N junk
                     + pad_len (announced_size N junk) - 1) <> LF ->
    malformed_tail N junk.

(** A section as the write functions lay it out for [N] quadrants. *)
Definition section_ok (N : Z) (sec : written_section) : Prop :=
  (ws_type sec = "H"%char \/ ws_type sec = "F"%char)
  /\ 0 <= ws_size sec <= 9999999999999
  /\ (length (cstring (ws_user sec)) <= 47)%nat
  /\ Z.of_nat (length (ws_payload sec))
     = (if Ascii.eqb (ws_type sec) "F"%char then N * ws_size sec else ws_size sec).

(* ================================================================= *)
(** * Well-formed readers, read-back and tree counters *)
(* ================================================================= *)

(** ** Readers *)

(** The cursor of [fc] stands at the bytes [sec], which follow [pre] in
    its file and are followed by [rest]. *)
Definition section_at (fc : p4est_file_context_t) (pre sec rest : bytes) : Prop :=
  fc_file fc = pre ++ sec ++ rest
  /\ 0 <= fc_accessed_bytes fc
  /\ Z.of_nat (length pre) = 80 + fc_accessed_bytes fc
  /\ Z.of_nat (length (fc_file fc)) < 4611686018427387904.

(** The partition [gfq] gives every rank of [quadrant_data] a range of the
    [N] quadrants, in rank order, of less than 2^31 bytes; the arrays have
    elements of [es] bytes. *)
Definition read_partition_ok (N : Z) (gfq : list Z) (es : Z)
    (quadrant_data : list sc_array_t) : Prop :=
  length gfq = S (length quadrant_data)
  /\ at_index gfq 0 = 0
  /\ at_index gfq (Z.of_nat (length quadrant_data)) = N
  /\ (forall r, (r < length quadrant_data)%nat ->
        at_index gfq (Z.of_nat r) <= at_index gfq (Z.of_nat r + 1)
        /\ es * (at_index gfq (Z.of_nat r + 1) - at_index gfq (Z.of_nat r))
           < 2147483648)
  /\ Forall (fun q => elem_size q = es) quadrant_data.

(** The records of rank [r] in the payload of a field section, and the
    array the rank holds after reading them. *)
Definition field_slice (payload : bytes) (gfq : list Z) (es : Z) (r : nat)
  : bytes :=
  firstn (Z.to_nat (es * (at_index gfq (Z.of_nat r + 1)
                          - at_index gfq (Z.of_nat r))))
         (skipn (Z.to_nat (es * at_index gfq (Z.of_nat r))) payload).

Definition rank_array (payload : bytes) (gfq : list Z) (es : Z) (r : nat)
  : sc_array_t :=
  {| elem_size := es;
     elem_count := at_index gfq (Z.of_nat r + 1) - at_index gfq (Z.of_nat r);
     array := field_slice payload gfq es r |}.

(** ** Reading the sections back *)

(** The empty arrays that a reader on the ranks of [gfq] passes for a
    field of elements of [es] bytes. *)
Definition read_arrays (gfq : list Z) (es : Z) : list sc_array_t :=
  repeat {| elem_size := es; elem_count := 0; array := [] |} (length gfq - 1).

(** One written section read back: a header section by
    [p4est_file_read_header] with its stored size, a field section by
    [p4est_file_read_field_ext] with the partition [gfq].  The value is the
    context, the payload (the arrays of the ranks one after the other) and
    the user string of a read that returns the context and the success
    code. *)
Definition read_back `{FileInterface} (gfq : list Z)
    (fc : p4est_file_context_t) (sec : written_section)
  : option (p4est_file_context_t * (bytes * bytes)) :=
  if Ascii.eqb (ws_type sec) "H"%char then
    let r := p4est_file_read_header fc (ws_size sec) true in
    match res_context r, res_value r with
    | Some fc', (Some data, Some user_string) =>
        if res_returned r && (res_errcode r =? sc_MPI_SUCCESS)
        then Some (fc', (data, user_string)) else None
    | _, _ => None
    end
  else
    match p4est_file_read_field_ext fc gfq
            (Some (read_arrays gfq (ws_size sec))) with
    | Some r =>
        match res_context r, res_value r with
        | Some fc', (Some arrays, Some user_string) =>
            if res_returned r && (res_errcode r =? sc_MPI_SUCCESS)
            then Some (fc', (concat (map array arrays), user_string))
            else None
        | _, _ => None
        end
    | None => None
    end.

Fixpoint read_all `{FileInterface} (gfq : list Z)
    (secs : list written_section) (fc : p4est_file_context_t)
  : option (p4est_file_context_t * list (bytes * bytes)) :=
  match secs with
  | [] => Some (fc, [])
  | sec :: rest =>
      match read_back gfq fc sec with
      | Some (fc', result) =>
          match read_all gfq rest fc' with
          | Some (fc'', results) => Some (fc'', result :: results)
          | None => None
          end
      | None => None
      end
  end.

(** What a read is to return of a written section: the payload, and the
    user string as the file holds it. *)
Definition read_result (sec : written_section) : bytes * bytes :=
  (ws_payload sec, fmt_left 47 (cstring (ws_user sec)) ++ [NUL]).

(** A section that the read functions can be asked for under the
    partition [gfq]: a data size that is not zero, for a header section
    less than 2^31 bytes, for a field section less than 2^31 bytes on every
    rank. *)
Definition readable (N : Z) (gfq : list Z) (sec : written_section) : Prop :=
  0 < ws_size sec
  /\ if Ascii.eqb (ws_type sec) "H"%char
     then ws_size sec < 2147483648
     else (2 <= length gfq)%nat
          /\ read_partition_ok N gfq (ws_size sec)
               (read_arrays gfq (ws_size sec)).

(** ** The counters of the trees *)

(** The number of quadrants of level [l] among [qs], and the highest level
    among them (0 when there is none). *)
Definition level_count (l : Z) (qs : list p4est_quadrant_t) : Z :=
  Z.of_nat (length (filter (fun q => quad_level q =? l) qs)).

Definition max_level (qs : list p4est_quadrant_t) : Z :=
  fold_left (fun m q => Z.max m (quad_level q)) qs 0.

Section ForestBooks.
Context `{FI : ForestInterface}.

(** Invariant of the loop over the quadrants of one tree of
    [p4est_inflate]: the counters, [tml], the first descendant and the
    pointer [q] against the quadrants built so far. *)
Definition fill_books (st : tree_fill) : Prop :=
  length (t_per_level st) = length per_level_init
  /\ (forall i, (i < length per_level_init)%nat ->
        nth i (t_per_level st) 0
        = nth i per_level_init 0 + level_count (Z.of_nat i) (t_quads st))
  /\ 0 <= t_tml st <= 127
  /\ t_tml st = max_level (t_quads st)
  /\ t_first_desc st
     = match t_quads st with
       | [] => P4EST_QUADRANT_INIT
       | q :: _ => p4est_quadrant_first_descendant q P4EST_QMAXLEVEL
       end
  /\ t_q st = match t_quads st with
              | [] => None
              | q :: qs => Some (last qs q)
              end.

(** The members of a tree against its quadrants, for a tree that
    follows [before] local quadrants: the offset, one counter per level
    (started at 0 up to [P4EST_QMAXLEVEL] and at -1 above), the highest
    level, and the descendants of the first and of the last quadrant. *)
Definition tree_books (before : Z) (t : p4est_tree_t) : Prop :=
  quadrants_offset t = before
  /\ Z.of_nat (length (quadrants_per_level t)) = P4EST_MAXLEVEL + 1
  /\ (forall l, 0 <= l <= P4EST_MAXLEVEL ->
        nth (Z.to_nat l) (quadrants_per_level t) 0
        = (if l <=? P4EST_QMAXLEVEL then 0 else -1)
          + level_count l (quadrants t))
  /\ maxlevel t = max_level (quadrants t)
  /\ first_desc t
     = match quadrants t with
       | [] => P4EST_QUADRANT_INIT
       | q :: _ => p4est_quadrant_first_descendant q P4EST_QMAXLEVEL
       end
  /\ last_desc t
     = match quadrants t with
       | [] => P4EST_QUADRANT_INIT
       | q :: qs => p4est_quadrant_last_descendant (last qs q) P4EST_QMAXLEVEL
       end.

(** Every tree of [ts] keeps its books, with the quadrants of the trees
    before it as its offset. *)
Definition forest_books (ts : list p4est_tree_t) : Prop :=
  forall j t, nth_error ts j = Some t ->
    tree_books (Z.of_nat (length (flat_map quadrants (firstn j ts)))) t.

End ForestBooks.

Section ForestDecode.
Context `{FI : ForestInterface}.

(** Quadrant number [k] of the arrays that [p4est_inflate] is given:
    tuple [k] of [coords], its level cut to an [int8_t], and block [k] of
    the payload ([dsize] bytes; nothing without a payload array). *)
Definition decoded_quadrant (coords : list Z) (data : option sc_array_t)
    (dsize : Z) (k : nat) : p4est_quadrant_t :=
  let tuple :=
    firstn (Z.to_nat (P4EST_DIM + 1))
           (skipn (Z.to_nat (P4EST_DIM + 1) * k) coords) in
  {| quad_x := nth 0 tuple 0;
     quad_y := nth 1 tuple 0;
     quad_z := if P4_TO_P8 then nth 2 tuple 0 else quad_z P4EST_QUADRANT_INIT;
     quad_level := to_int8 (nth (Z.to_nat P4EST_DIM) tuple 0);
     user_data :=
       match data with
       | None => []
       | Some d => firstn (Z.to_nat dsize)
                          (skipn (Z.to_nat dsize * k) (array d))
       end |}.

End ForestDecode.

(* ================================================================= *)
(** * Concrete configurations and data for the examples *)
(* ================================================================= *)

(** Three dimensions, the level bounds 18 and 19, descendants that keep
    the corner of a quadrant or move to its far corner. *)
Definition example_forest_interface : ForestInterface :=
  {| P4_TO_P8 := true;
     P4EST_QMAXLEVEL := 18;
     P4EST_MAXLEVEL := 19;
     P4EST_QUADRANT_INIT :=
       {| quad_x := -1; quad_y := -1; quad_z := -1; quad_level := -1;
          user_data := [] |};
     p4est_quadrant_first_descendant := fun q l =>
       {| quad_x := quad_x q; quad_y := quad_y q; quad_z := quad_z q;
          quad_level := l; user_data := [] |};
     p4est_quadrant_last_descendant := fun q l =>
       let shift := 2 ^ (19 - quad_level q) - 2 ^ (19 - l) in
       {| quad_x := quad_x q + shift; quad_y := quad_y q + shift;
          quad_z := quad_z q + shift; quad_level := l; user_data := [] |};
     p4est_comm_global_partition := fun _ => [] |}.

(** No MPI I/O, errno's EIO = 5, error classes equal to the codes, a
    uniform partition [gfq[r] = r * N / P], and for the two constants of
    [check_file_metadata] the widths of the magic and of the version line
    that [p4est_file_open_create] writes. *)
Definition example_io : FileInterface :=
  {| P4EST_ENABLE_MPIIO := false;
     sc_MPI_ERR_IO := 32;
     EIO := 5;
     sc_io_error_class := fun e => (0, e);
     sc_io_error_class_success := eq_refl;
     p4est_version := list_ascii_of_string "2.8";
     p4est_comm_global_first_quadrant := fun n p =>
       map (fun r => Z.of_nat r * n / p) (seq 0 (Z.to_nat p + 1));
     P4EST_NUM_MAGIC_BYTES := 8;
     P4EST_NUM_VERSION_STR_BYTES := 24 |}.

Definition example_quadrant (x y z l : Z) (payload : string) : p4est_quadrant_t :=
  {| quad_x := x; quad_y := y; quad_z := z; quad_level := l;
     user_data := list_ascii_of_string payload |}.

Definition example_tree (qs : list p4est_quadrant_t) (offset : Z) : p4est_tree_t :=
  {| quadrants := qs;
     first_desc := P4EST_QUADRANT_INIT (ForestInterface := example_forest_interface);
     last_desc := P4EST_QUADRANT_INIT (ForestInterface := example_forest_interface);
     quadrants_offset := offset;
     quadrants_per_level := [];
     maxlevel := 1 |}.

(** Rank 1 of 2 in a forest of two trees with 2 and 1 quadrants and two
    payload bytes per quadrant; the partition is [0, 1, 3]. *)
Definition example_forest : p4est_t :=
  {| mpisize := 2; mpirank := 1; data_size := 2; user_pointer := 0;
     num_trees := 2;
     first_local_tree := 0; last_local_tree := 1;
     local_num_quadrants := 2; global_num_quadrants := 3;
     global_first_quadrant := [0; 1; 3];
     global_first_position := [];
     trees := [example_tree [example_quadrant 262144 0 0 1 "ab"] 0;
               example_tree [example_quadrant 0 0 0 0 "cd"] 1];
     revision := 7 |}.

(** The forest of the specification's scenario: one rank, three trees
    holding 2, 0 and 3 quadrants, no payload. *)
Definition forest_2_0_3 : p4est_t :=
  {| mpisize := 1; mpirank := 0; data_size := 0; user_pointer := 0;
     num_trees := 3;
     first_local_tree := 0; last_local_tree := 2;
     local_num_quadrants := 5; global_num_quadrants := 5;
     global_first_quadrant := [0; 5];
     global_first_position := [];
     trees := [example_tree [example_quadrant 0 0 0 1 "";
                             example_quadrant 262144 0 0 1 ""] 0;
               example_tree [] 2;
               example_tree [example_quadrant 0 0 0 1 "";
                             example_quadrant 262144 0 0 1 "";
                             example_quadrant 0 262144 0 1 ""] 2];
     revision := 0 |}.

(** A context or a default, to chain calls in the examples. *)
Definition closed_context : p4est_file_context_t :=
  {| fc_mpisize := 0; fc_mpirank := 0; fc_local_num_quadrants := [];
     fc_global_num_quadrants := 0; fc_global_first_quadrant := None;
     fc_gfq_owned := false; fc_num_calls := 0; fc_file := [];
     fc_accessed_bytes := 0 |}.

Definition context_of {A} (r : call_result A) : p4est_file_context_t :=
  match res_context r with Some fc => fc | None => closed_context end.

(** A file of an empty forest on one rank ... *)
Definition example_created : p4est_file_context_t :=
  context_of (p4est_file_open_create (FIO := example_io) 1 0 0 [0; 0] [0]
                (list_ascii_of_string "demo")).

Definition context_of_field (r : option (call_result unit)) : p4est_file_context_t :=
  match r with Some r => context_of r | None => closed_context end.

(** ... with a header section of 20 bytes and one of 5 bytes. *)
Definition example_written : p4est_file_context_t :=
  context_of_field
    (p4est_file_write_header (FIO := example_io)
       (context_of_field
          (p4est_file_write_header (FIO := example_io) example_created 20
             (list_ascii_of_string "01234567890123456789")
             (list_ascii_of_string "first")))
       5 (list_ascii_of_string "hello") (list_ascii_of_string "greet")).

(** The file of 160 bytes with the section ["greet"] alone. *)
Definition example_greeting : p4est_file_context_t :=
  context_of_field
    (p4est_file_write_header (FIO := example_io) example_created 5
       (list_ascii_of_string "hello") (list_ascii_of_string "greet")).

(** A reader of that file on rank 0, with the fields as
    [p4est_file_open_read_ext] sets them. *)
Definition example_reader : p4est_file_context_t :=
  {| fc_mpisize := 1; fc_mpirank := 0; fc_local_num_quadrants := [0];
     fc_global_num_quadrants := 0; fc_global_first_quadrant := None;
     fc_gfq_owned := false; fc_num_calls := 0;
     fc_file := fc_file example_written;
     fc_accessed_bytes := 0 |}.

(** A file of a forest of 3 quadrants on 2 ranks, partition [0, 1, 3],
    with a field of 2 bytes per quadrant and a header section of 5 bytes;
    and a reader of it. *)
Definition example_field_written : p4est_file_context_t :=
  context_of_field
    (p4est_file_write_header (FIO := example_io)
       (context_of_field
          (p4est_file_write_field (FIO := example_io)
             (context_of (p4est_file_open_create (FIO := example_io)
                            2 0 3 [0; 1; 3] [1; 2] (list_ascii_of_string "demo")))
             [{| elem_size := 2; elem_count := 1;
                 array := list_ascii_of_string "ab" |};
              {| elem_size := 2; elem_count := 2;
                 array := list_ascii_of_string "cdef" |}]
             (list_ascii_of_string "pairs")))
       5 (list_ascii_of_string "hello") (list_ascii_of_string "greet")).

Definition example_field_reader : p4est_file_context_t :=
  {| fc_mpisize := 2; fc_mpirank := 0; fc_local_num_quadrants := [0; 0];
     fc_global_num_quadrants := 3; fc_global_first_quadrant := None;
     fc_gfq_owned := false; fc_num_calls := 0;
     fc_file := fc_file example_field_written;
     fc_accessed_bytes := 0 |}.

(** The same three records of 2 bytes on two ranks and on one rank, and
    fresh files for them. *)
Definition example_two_ranks : p4est_file_context_t :=
  context_of (p4est_file_open_create (FIO := example_io)
                2 0 3 [0; 1; 3] [1; 2] (list_ascii_of_string "demo")).

Definition example_one_rank : p4est_file_context_t :=
  context_of (p4est_file_open_create (FIO := example_io)
                1 0 3 [0; 3] [3] (list_ascii_of_string "demo")).

Definition example_two_ranks_data : list sc_array_t :=
  [{| elem_size := 2; elem_count := 1; array := list_ascii_of_string "ab" |};
   {| elem_size := 2; elem_count := 2; array := list_ascii_of_string "cdef" |}].

Definition example_one_rank_data : list sc_array_t :=
  [{| elem_size := 2; elem_count := 3; array := list_ascii_of_string "abcdef" |}].

(** Records of one byte, and fresh files for 2^31 of them on one rank and
    on two ranks. *)
Definition example_records (n : Z) : sc_array_t :=
  {| elem_size := 1; elem_count := n; array := repeat "a"%char (Z.to_nat n) |}.

Definition example_large_one_rank : p4est_file_context_t :=
  context_of (p4est_file_open_create (FIO := example_io)
                1 0 2147483648 [0; 2147483648] [2147483648]
                (list_ascii_of_string "demo")).

Definition example_large_two_ranks : p4est_file_context_t :=
  context_of (p4est_file_open_create (FIO := example_io)
                2 0 2147483648 [0; 1073741824; 2147483648]
                [1073741824; 1073741824] (list_ascii_of_string "demo")).

(** Writes of a header, of nothing, and of a field of three records, and
    the beginning of a section header that was cut off. *)
Definition example_writes : list section_write :=
  [WriteHeader 5 (list_ascii_of_string "hello") (list_ascii_of_string "note");
   WriteHeader 0 [] [];
   WriteField example_one_rank_data (list_ascii_of_string "pairs")].

Definition example_cut_off : bytes := list_ascii_of_string "F 0000000000002".

(** The sections of the example files, a reader of a file that holds the
    section ["greet"] alone, and a reader on three ranks of a file that
    holds the field ["pairs"] alone. *)
Definition example_first_section : written_section :=
  {| ws_type := "H"; ws_size := 20; ws_user := list_ascii_of_string "first";
     ws_payload := list_ascii_of_string "01234567890123456789" |}.

Definition example_greet_section : written_section :=
  {| ws_type := "H"; ws_size := 5; ws_user := list_ascii_of_string "greet";
     ws_payload := list_ascii_of_string "hello" |}.

Definition example_pairs_section : written_section :=
  {| ws_type := "F"; ws_size := 2; ws_user := list_ascii_of_string "pairs";
     ws_payload := list_ascii_of_string "abcdef" |}.

Definition example_greet_reader : p4est_file_context_t :=
  {| fc_mpisize := 1; fc_mpirank := 0; fc_local_num_quadrants := [0];
     fc_global_num_quadrants := 0; fc_global_first_quadrant := None;
     fc_gfq_owned := false; fc_num_calls := 0;
     fc_file := fc_file example_created
                ++ @bytes_of example_io example_greet_section;
     fc_accessed_bytes := 0 |}.

Definition example_pairs_reader : p4est_file_context_t :=
  {| fc_mpisize := 3; fc_mpirank := 0; fc_local_num_quadrants := [1; 1; 1];
     fc_global_num_quadrants := 3;
     fc_global_first_quadrant := Some [0; 1; 2; 3];
     fc_gfq_owned := false; fc_num_calls := 0;
     fc_file := fc_file example_two_ranks
                ++ @bytes_of example_io example_pairs_section;
     fc_accessed_bytes := 0 |}.

Definition example_three_ranks_data : list sc_array_t :=
  [{| elem_size := 2; elem_count := 0; array := [] |};
   {| elem_size := 2; elem_count := 0; array := [] |};
   {| elem_size := 2; elem_count := 0; array := [] |}].

Definition example_three_ranks_read : list sc_array_t :=
  [{| elem_size := 2; elem_count := 1; array := list_ascii_of_string "ab" |};
   {| elem_size := 2; elem_count := 1; array := list_ascii_of_string "cd" |};
   {| elem_size := 2; elem_count := 1; array := list_ascii_of_string "ef" |}].

(** A build with MPI I/O. *)
Definition example_mpi_io : FileInterface :=
  {| P4EST_ENABLE_MPIIO := true;
     sc_MPI_ERR_IO := 32;
     EIO := 5;
     sc_io_error_class := fun e => (0, e);
     sc_io_error_class_success := eq_refl;
     p4est_version := list_ascii_of_string "2.8";
     p4est_comm_global_first_quadrant := fun n p =>
       map (fun r => Z.of_nat r * n / p) (seq 0 (Z.to_nat p + 1));
     P4EST_NUM_MAGIC_BYTES := 8;
     P4EST_NUM_VERSION_STR_BYTES := 24 |}.

(** A header section of 16 bytes, whose padding takes 16 bytes, and a
    section header with the size field -80. *)
Definition example_block_section : written_section :=
  {| ws_type := "H"; ws_size := 16; ws_user := list_ascii_of_string "block";
     ws_payload := list_ascii_of_string "0123456789abcdef" |}.

Definition example_negative_header : bytes :=
  list_ascii_of_string "H -000000000080" ++ [LF] ++ repeat SP 47 ++ [LF].

(** The forest that rank 1 of 2 inflates from the arrays of the example
    forest (the example forest itself if it inflates none). *)
Definition example_inflated : p4est_t :=
  match p4est_inflate (FI := example_forest_interface) 2 1 2 [0; 1; 3]
          [0; 2; 3] [262144; 0; 0; 1; 0; 0; 0; 0]
          (Some {| elem_size := 2; elem_count := 2;
                   array := list_ascii_of_string "abcd" |}) 0 with
  | Some p4est => p4est
  | None => example_forest
  end.

(** A reader of the file that the example writes leave. *)
Definition example_writes_reader : p4est_file_context_t :=
  {| fc_mpisize := 1; fc_mpirank := 0; fc_local_num_quadrants := [3];
     fc_global_num_quadrants := 3; fc_global_first_quadrant := None;
     fc_gfq_owned := false; fc_num_calls := 0;
     fc_file := match @write_sections example_io example_writes
                        example_one_rank with
                | Some fc => fc_file fc
                | None => []
                end;
     fc_accessed_bytes := 0 |}.


(** A reader of a file that ends two bytes behind the header of the
    section ["greet"]. *)
Definition example_cut_reader : p4est_file_context_t :=
  {| fc_mpisize := 1; fc_mpirank := 0; fc_local_num_quadrants := [0];
     fc_global_num_quadrants := 0; fc_global_first_quadrant := None;
     fc_gfq_owned := false; fc_num_calls := 0;
     fc_file := fc_file example_created
                ++ firstn 66 (@bytes_of example_io example_greet_section);
     fc_accessed_bytes := 0 |}.

(** The context of rank 1 of two ranks with the same file and cursor. *)
Definition example_on_rank_1 (fc : p4est_file_context_t)
  : p4est_file_context_t :=
  {| fc_mpisize := 2; fc_mpirank := 1;
     fc_local_num_quadrants := fc_local_num_quadrants fc;
     fc_global_num_quadrants := fc_global_num_quadrants fc;
     fc_global_first_quadrant := fc_global_first_quadrant fc;
     fc_gfq_owned := fc_gfq_owned fc; fc_num_calls := fc_num_calls fc;
     fc_file := fc_file fc;
     fc_accessed_bytes := fc_accessed_bytes fc |}.

(* ================================================================= *)
(** * Part IV: lemmas and theorems *)
(* ================================================================= *)

Lemma cast_signed_id w v :
  0 < w -> - 2 ^ (w - 1) <= v < 2 ^ (w - 1) -> cast_signed w v = v.
Proof.
  intros Hw Hv. unfold cast_signed.
  assert (E : 2 ^ w = 2 * 2 ^ (w - 1)).
  { replace w with (Z.succ (w - 1)) at 1 by lia. apply Z.pow_succ_r. lia. }
  rewrite Z.mod_small; lia.
Qed.

Lemma to_int32_id v : - 2147483648 <= v < 2147483648 -> to_int32 v = v.
Proof. intros. apply cast_signed_id; simpl; lia. Qed.

Lemma to_int64_id v :
  - 9223372036854775808 <= v < 9223372036854775808 -> to_int64 v = v.
Proof. intros. apply cast_signed_id; simpl; lia. Qed.

Lemma to_int8_id v : - 128 <= v < 128 -> to_int8 v = v.
Proof. intros. apply cast_signed_id; simpl; lia. Qed.

Lemma to_size_t_id v : 0 <= v < 18446744073709551616 -> to_size_t v = v.
Proof. intros. unfold to_size_t, cast_unsigned. apply Z.mod_small. simpl. lia. Qed.

(** ** Padding *)

Lemma pad_len_cases n :
  pad_len n = if n mod 16 =? 0 then 16
              else if n mod 16 =? 15 then 17 else 16 - n mod 16.
Proof.
  unfold pad_len, get_padding_string, P4EST_BYTE_DIV. cbn [snd].
  pose proof (Z.mod_pos_bound n 16 ltac:(lia)) as Hr.
  destruct (n mod 16 =? 0) eqn:E0.
  - apply Z.eqb_eq in E0. rewrite E0. reflexivity.
  - apply Z.eqb_neq in E0.
    rewrite (Z.mod_small (16 - n mod 16)) by lia.
    destruct (n mod 16 =? 15) eqn:E15.
    + apply Z.eqb_eq in E15. rewrite E15. reflexivity.
    + apply Z.eqb_neq in E15.
      replace (16 - n mod 16 =? 0) with false by (symmetry; apply Z.eqb_neq; lia).
      replace (16 - n mod 16 =? 1) with false by (symmetry; apply Z.eqb_neq; lia).
      reflexivity.
Qed.

Lemma pad_len_range n : 2 <= pad_len n <= 17.
Proof.
  rewrite pad_len_cases.
  pose proof (Z.mod_pos_bound n 16 ltac:(lia)).
  destruct (n mod 16 =? 0) eqn:E0; [lia|]. apply Z.eqb_neq in E0.
  destruct (n mod 16 =? 15) eqn:E15; [lia|]. apply Z.eqb_neq in E15. lia.
Qed.

Lemma pad_len_aligned n : (n + pad_len n) mod 16 = 0.
Proof.
  rewrite pad_len_cases.
  pose proof (Z.mod_pos_bound n 16 ltac:(lia)).
  destruct (n mod 16 =? 0) eqn:E0.
  - apply Z.eqb_eq in E0. rewrite <- Z.add_mod_idemp_l, E0 by lia. reflexivity.
  - destruct (n mod 16 =? 15) eqn:E15.
    + apply Z.eqb_eq in E15. rewrite <- Z.add_mod_idemp_l, E15 by lia. reflexivity.
    + rewrite (Z.div_mod n 16) at 1 by lia.
      replace (16 * (n / 16) + n mod 16 + (16 - n mod 16))
        with ((n / 16 + 1) * 16) by lia.
      apply Z.mod_mul. lia.
Qed.

Lemma pad_len_least n q :
  2 <= q -> (n + q) mod 16 = 0 -> pad_len n <= q.
Proof.
  intros Hq Hal. rewrite pad_len_cases.
  pose proof (Z.mod_pos_bound n 16 ltac:(lia)) as Hr.
  assert (Hsum : (n mod 16 + q) mod 16 = 0)
    by (rewrite Z.add_mod_idemp_l by lia; exact Hal).
  apply Z.mod_divide in Hsum; [|lia]. destruct Hsum as [k Hk].
  destruct (n mod 16 =? 0) eqn:E0.
  - apply Z.eqb_eq in E0. lia.
  - apply Z.eqb_neq in E0.
    destruct (n mod 16 =? 15) eqn:E15.
    + apply Z.eqb_eq in E15. lia.
    + lia.
Qed.

Lemma get_padding_string_count n b :
  snd (get_padding_string n P4EST_BYTE_DIV b) = pad_len n.
Proof. reflexivity. Qed.

Lemma get_padding_string_eq n b :
  get_padding_string n P4EST_BYTE_DIV b
  = (if b then Some (snprintf (pad_len n + 1)
                       ([LF] ++ fmt_left (to_int32 (pad_len n) - 2) [] ++ [LF]))
     else None, pad_len n).
Proof. reflexivity. Qed.

Lemma get_padding_string_text n :
  fst (get_padding_string n P4EST_BYTE_DIV true)
  = Some ([LF] ++ repeat SP (Z.to_nat (pad_len n - 2)) ++ [LF]).
Proof.
  pose proof (pad_len_range n) as Hp.
  rewrite get_padding_string_eq. cbn [fst].
  f_equal. unfold snprintf, fmt_left.
  rewrite to_int32_id by lia. cbn [length app].
  rewrite Nat.sub_0_r.
  apply firstn_all2. cbn [length]. rewrite length_app, repeat_length. cbn [length]. lia.
Qed.

(** C3. For every byte count [L >= 0] the padding length lies in [2, 17],
    pads [L] to a multiple of 16 and is the least such length that is at
    least 2; the padding text is one newline, [pad_len L - 2] spaces and one
    newline. *)
Theorem C3_padding_codec (L : Z) (HL : 0 <= L) :
  2 <= pad_len L <= 17
  /\ (L + pad_len L) mod 16 = 0
  /\ (forall q, 2 <= q -> (L + q) mod 16 = 0 -> pad_len L <= q)
  /\ get_padding_string L P4EST_BYTE_DIV true
     = (Some ([LF] ++ repeat SP (Z.to_nat (pad_len L - 2)) ++ [LF]), pad_len L)
  /\ get_padding_string L P4EST_BYTE_DIV false = (None, pad_len L).
Proof.
  repeat split.
  - apply pad_len_range.
  - apply pad_len_range.
  - apply pad_len_aligned.
  - intros q. apply pad_len_least.
  - rewrite (surjective_pairing (get_padding_string L P4EST_BYTE_DIV true)).
    rewrite get_padding_string_text, get_padding_string_count. reflexivity.
Qed.

Lemma C3_padding_codec_witness :
  2 <= pad_len 5 <= 17
  /\ (5 + pad_len 5) mod 16 = 0
  /\ (forall q, 2 <= q -> (5 + q) mod 16 = 0 -> pad_len 5 <= q)
  /\ get_padding_string 5 P4EST_BYTE_DIV true
     = (Some ([LF] ++ repeat SP (Z.to_nat (pad_len 5 - 2)) ++ [LF]), pad_len 5)
  /\ get_padding_string 5 P4EST_BYTE_DIV false = (None, pad_len 5).
Proof. apply (C3_padding_codec 5). lia. Defined.

(** ** Arrays and loops *)

Lemma foldM_app {S A} (f : S -> A -> option S) l1 l2 s :
  foldM f (l1 ++ l2) s
  = match foldM f l1 s with Some s' => foldM f l2 s' | None => None end.
Proof.
  revert s. induction l1 as [|a l1 IH]; intros s; cbn; [reflexivity|].
  destruct (f s a); [apply IH | reflexivity].
Qed.

Lemma store_block_app {A} (done rest vs : list A) :
  (length vs <= length rest)%nat ->
  store_block (done ++ rest) (length done) vs
  = Some ((done ++ vs) ++ skipn (length vs) rest).
Proof.
  intros H. unfold store_block.
  rewrite length_app.
  destruct (Nat.leb_spec (length done + length vs) (length done + length rest)); [|lia].
  f_equal. rewrite firstn_app, firstn_all, Nat.sub_diag. cbn [firstn].
  rewrite app_nil_r, <- app_assoc. do 2 f_equal.
  rewrite skipn_app, (skipn_all2 done) by lia. cbn [app].
  f_equal. lia.
Qed.

Lemma read_block_app {A} (pre mid post : list A) :
  read_block (pre ++ mid ++ post) (length pre) (length mid) = Some mid.
Proof.
  unfold read_block. rewrite !length_app.
  destruct (Nat.leb_spec (length pre + length mid)
              (length pre + (length mid + length post))); [|lia].
  f_equal. rewrite skipn_app, skipn_all, Nat.sub_diag. cbn [skipn app].
  rewrite firstn_app, firstn_all, Nat.sub_diag. cbn [firstn]. apply app_nil_r.
Qed.

Lemma read_block_all {A} (l : list A) n :
  n = length l -> read_block l 0 n = Some l.
Proof.
  intros ->. pose proof (read_block_app [] l []) as H.
  cbn [app length] in H. rewrite app_nil_r in H. exact H.
Qed.

Lemma nthZ_nth_error {A} (l : list A) (i : nat) :
  nthZ l (Z.of_nat i) = nth_error l i.
Proof.
  unfold nthZ. destruct (Z.ltb_spec (Z.of_nat i) 0); [lia|].
  now rewrite Nat2Z.id.
Qed.

Lemma nthZ_Some_range {A} (l : list A) i x :
  nthZ l i = Some x -> 0 <= i < Z.of_nat (length l).
Proof.
  unfold nthZ. destruct (Z.ltb_spec i 0) as [Hi|Hi]; [discriminate|].
  intros H. assert (nth_error l (Z.to_nat i) <> None) as Hn by congruence.
  apply nth_error_Some in Hn. lia.
Qed.

Lemma flat_map_length_const {A B} (f : A -> list B) k l :
  (forall x, In x l -> length (f x) = k) ->
  length (flat_map f l) = (k * length l)%nat.
Proof.
  induction l as [|a l IH]; intros H; cbn [flat_map length]; [lia|].
  rewrite length_app, IH, (H a) by (intros; apply H; now right) || now left.
  lia.
Qed.

Section ForestProofs.
Context `{FI : ForestInterface}.

Lemma P4EST_DIM_cases : P4EST_DIM = 2 \/ P4EST_DIM = 3.
Proof. unfold P4EST_DIM. destruct P4_TO_P8; auto. Qed.

Lemma quadrant_coords_length q :
  length (quadrant_coords q) = Z.to_nat (P4EST_DIM + 1).
Proof. unfold quadrant_coords, P4EST_DIM. destruct P4_TO_P8; reflexivity. Qed.

Lemma coords_length qs :
  length (flat_map quadrant_coords qs)
  = (Z.to_nat (P4EST_DIM + 1) * length qs)%nat.
Proof. apply flat_map_length_const. intros; apply quadrant_coords_length. Qed.

Lemma payload_length dsize qs :
  Forall (fun q => Z.of_nat (length (user_data q)) = dsize) qs ->
  length (flat_map user_data qs) = (Z.to_nat dsize * length qs)%nat.
Proof.
  intros H. apply flat_map_length_const. intros q Hq.
  rewrite Forall_forall in H. specialize (H q Hq). lia.
Qed.

(** ** Deflate *)

(** The loop over the quadrants of a tree appends their tuples (and
    payloads) at the write positions. *)
Lemma deflate_quadrants_loop want dsize qs :
  forall qdone qrest ddone drest,
    (length (flat_map quadrant_coords qs) <= length qrest)%nat ->
    Forall (fun q => Z.of_nat (length (user_data q)) = dsize) qs ->
    (want = true -> (length (flat_map user_data qs) <= length drest)%nat) ->
    foldM (deflate_quadrant want dsize) qs
          {| qarr := qdone ++ qrest; d_qap := length qdone;
             darr := ddone ++ drest; d_dap := length ddone |}
    = Some
        (let Q := flat_map quadrant_coords qs in
         let D := if want then flat_map user_data qs else [] in
         {| qarr := (qdone ++ Q) ++ skipn (length Q) qrest;
            d_qap := length (qdone ++ Q);
            darr := (ddone ++ D) ++ skipn (length D) drest;
            d_dap := length (ddone ++ D) |}).
Proof.
  induction qs as [|q qs IH]; intros qdone qrest ddone drest Hq Hud Hd.
  - cbn. destruct want; cbn; now rewrite !app_nil_r.
  - cbn [foldM flat_map] in *. rewrite length_app in Hq.
    inversion Hud as [|? ? Hq1 Hud']; subst.
    unfold deflate_quadrant at 1. cbn [qarr d_qap darr d_dap].
    rewrite store_block_app by lia.
    assert (Hlen : (length qdone + Z.to_nat (P4EST_DIM + 1))%nat
                   = length (qdone ++ quadrant_coords q))
      by (rewrite length_app, quadrant_coords_length; reflexivity).
    destruct want.
    + specialize (Hd eq_refl). rewrite length_app in Hd.
      rewrite read_block_all by lia.
      rewrite store_block_app by lia.
      rewrite Hlen.
      replace (length ddone + Z.to_nat (Z.of_nat (length (user_data q))))%nat
        with (length (ddone ++ user_data q)) by (rewrite length_app; lia).
      rewrite IH; [| rewrite length_skipn; lia | assumption
                   | intros _; rewrite length_skipn; lia].
      cbn zeta. rewrite !skipn_skipn, <- !length_app, <- !app_assoc.
      do 2 f_equal.
      all: do 3 apply f_equal; f_equal; rewrite !length_app; lia.
    + rewrite Hlen.
      rewrite (IH _ _ ddone drest); [| rewrite length_skipn; lia | assumption
                                     | discriminate].
      cbn zeta. rewrite !skipn_skipn, <- !length_app, <- !app_assoc.
      do 2 f_equal.
      all: try (do 3 apply f_equal; f_equal; rewrite !length_app; lia).
Qed.


Lemma skipn_cons_nth {A} (l : list A) k x :
  nth_error l k = Some x -> skipn k l = x :: skipn (S k) l.
Proof.
  revert k. induction l as [|a l IH]; intros [|k] H; cbn in *; try discriminate.
  - now inversion H.
  - now apply IH.
Qed.

Lemma deflate_trees_loop p want lo :
  0 <= lo ->
  forall n a st,
    (Z.to_nat lo + a + n <= length (trees p))%nat ->
    foldM (deflate_tree p want) (map (fun i => lo + Z.of_nat i) (seq a n)) st
    = foldM (deflate_quadrant want (data_size p))
            (flat_map quadrants (firstn n (skipn (Z.to_nat lo + a) (trees p)))) st.
Proof.
  intros Hlo. induction n as [|n IH]; intros a st Hn; [reflexivity|].
  cbn [seq map foldM]. unfold deflate_tree at 1.
  replace (lo + Z.of_nat a) with (Z.of_nat (Z.to_nat lo + a)) by lia.
  rewrite nthZ_nth_error.
  destruct (nth_error (trees p) (Z.to_nat lo + a)) as [t|] eqn:Et.
  2:{ apply nth_error_None in Et. lia. }
  rewrite (skipn_cons_nth _ _ _ Et). cbn [firstn flat_map].
  rewrite foldM_app.
  destruct (foldM (deflate_quadrant want (data_size p)) (quadrants t) st) as [st'|];
    [|reflexivity].
  rewrite IH by lia. now rewrite Nat.add_succ_r.
Qed.

Lemma deflate_local_loop p want st :
  forest_ok p ->
  foldM (deflate_tree p want)
        (index_range (first_local_tree p) (last_local_tree p)) st
  = foldM (deflate_quadrant want (data_size p)) (local_quadrants p) st.
Proof.
  intros Hok. unfold index_range, local_quadrants, local_trees.
  destruct (ok_range p Hok) as [[-> ->] | [Hr Hl]]; [reflexivity|].
  rewrite deflate_trees_loop by lia. now rewrite Nat.add_0_r.
Qed.

Lemma deflate_result p want :
  forest_ok p ->
  p4est_deflate_quadrants p want
  = Some (flat_map quadrant_coords (local_quadrants p),
          if want
          then Some {| elem_size := data_size p;
                       elem_count := local_num_quadrants p;
                       array := flat_map user_data (local_quadrants p) |}
          else None).
Proof.
  intros Hok. unfold p4est_deflate_quadrants.
  pose proof (ok_count p Hok) as Hc. pose proof (ok_int p Hok) as Hi.
  pose proof (ok_data_size p Hok) as Hd. pose proof (ok_data_bytes p Hok) as Hb.
  pose proof (ok_user_data p Hok) as Hu.
  pose proof (coords_length (local_quadrants p)) as HQ.
  pose proof (payload_length _ _ Hu) as HD.
  pose proof P4EST_DIM_cases as Hdim.
  assert (0 <= local_num_quadrants p) by lia.
  rewrite (to_int32_id ((P4EST_DIM + 1) * local_num_quadrants p)) by nia.
  rewrite (to_size_t_id ((P4EST_DIM + 1) * local_num_quadrants p)) by nia.
  rewrite (to_size_t_id (local_num_quadrants p)) by nia.
  rewrite (to_size_t_id (data_size p * local_num_quadrants p)) by nia.
  rewrite deflate_local_loop by assumption.
  change (repeat 0 (Z.to_nat ((P4EST_DIM + 1) * local_num_quadrants p)))
    with ([] ++ repeat 0 (Z.to_nat ((P4EST_DIM + 1) * local_num_quadrants p))).
  change 0%nat with (@length Z []) at 1.
  assert (HQn : length (flat_map quadrant_coords (local_quadrants p))
                = Z.to_nat ((P4EST_DIM + 1) * local_num_quadrants p)) by nia.
  assert (HDn : length (flat_map user_data (local_quadrants p))
                = Z.to_nat (data_size p * local_num_quadrants p)) by nia.
  destruct want.
  - change (repeat NUL (Z.to_nat (data_size p * local_num_quadrants p)))
      with ([] ++ repeat NUL (Z.to_nat (data_size p * local_num_quadrants p))).
    change 0%nat with (@length ascii []).
    rewrite deflate_quadrants_loop;
      [| rewrite repeat_length; lia | assumption | intros _; rewrite repeat_length; lia].
    cbn zeta. cbn [qarr darr app].
    rewrite !skipn_all2, !app_nil_r by (rewrite repeat_length; lia).
    reflexivity.
  - change (@nil ascii) with (@nil ascii ++ []) at 1.
    change 0%nat with (@length ascii []).
    rewrite deflate_quadrants_loop;
      [| rewrite repeat_length; lia | assumption | discriminate].
    cbn zeta. cbn [qarr darr app].
    rewrite !skipn_all2, !app_nil_r by (rewrite repeat_length; lia).
    reflexivity.
Qed.



(** ** Inflate *)

Lemma nthZ_at_index (l : list Z) i :
  0 <= i < Z.of_nat (length l) -> nthZ l i = Some (at_index l i).
Proof.
  intros Hi. unfold nthZ, at_index.
  destruct (Z.ltb_spec i 0); [lia|].
  apply nth_error_nth'. lia.
Qed.

Lemma at_index_firstn (l : list Z) n i :
  0 <= i < Z.of_nat n -> at_index (firstn n l) i = at_index l i.
Proof.
  intros Hi. unfold at_index.
  assert (Hk : (Z.to_nat i < n)%nat) by lia. clear Hi.
  revert l Hk. generalize (Z.to_nat i) as k.
  induction n as [|n IH]; intros k l Hk; [lia|].
  destruct l as [|a l]; [reflexivity|].
  destruct k as [|k]; [reflexivity|]. cbn. apply IH. lia.
Qed.

Lemma read_block_prefix {A} (l : list A) n :
  (n <= length l)%nat -> read_block l 0 n = Some (firstn n l).
Proof.
  intros H. unfold read_block. cbn [skipn Nat.add].
  now destruct (Nat.leb_spec n (length l)); [|lia].
Qed.

(** With the empty range (-1, -2) no tree is local: the loop sets up empty
    trees and reads nothing. *)
Lemma inflate_trees_empty_range pertree coords data dsize jts :
  forall st,
    Forall (fun t => quadrants t = []) (i_trees st) ->
    exists st',
      foldM (inflate_tree pertree coords data dsize (-1) (-2)) jts st = Some st'
      /\ i_qap st' = i_qap st /\ i_dap st' = i_dap st
      /\ Forall (fun t => quadrants t = []) (i_trees st').
Proof.
  induction jts as [|jt jts IH]; intros st Hst.
  - exists st. cbn. auto.
  - cbn [foldM]. unfold inflate_tree at 1.
    replace ((-1 <=? jt) && (jt <=? -2)) with false
      by (symmetry; apply andb_false_iff;
          destruct (Z.leb_spec (-1) jt); [right; apply Z.leb_gt; lia | now left]).
    match goal with |- context [foldM _ jts ?s] => destruct (IH s) as (st' & E & Hq & Hd & Ht) end.
    { cbn [i_trees]. apply Forall_app. split; [assumption|]. now constructor. }
    exists st'. cbn [i_qap i_dap] in *. auto.
Qed.

(** C8. When the calling rank owns no quadrant, [gfq[rank + 1] - gfq[rank]
    = 0], inflate produces a forest with [first_local_tree = -1] and
    [last_local_tree = -2], and has read no coordinate entry and no payload
    byte; all its trees are empty. *)
Theorem C8_empty_slice_sentinel
    (num_procs rank conn_num_trees : Z) (gfq pertree coords : list Z)
    (data : option sc_array_t) (user_pointer : Z)
    (Hrank : 0 <= rank < num_procs)
    (Hgfq : num_procs + 1 <= Z.of_nat (length gfq))
    (Hempty : at_index gfq (rank + 1) - at_index gfq rank = 0) :
  exists p,
    p4est_inflate_run num_procs rank conn_num_trees gfq pertree coords data
                      user_pointer = Some (p, 0%nat, 0%nat)
    /\ p4est_inflate num_procs rank conn_num_trees gfq pertree coords data
                     user_pointer = Some p
    /\ first_local_tree p = -1 /\ last_local_tree p = -2
    /\ local_num_quadrants p = 0
    /\ Forall (fun t => quadrants t = []) (trees p).
Proof.
  unfold p4est_inflate, p4est_inflate_run.
  rewrite read_block_prefix by lia.
  set (g := firstn (Z.to_nat (num_procs + 1)) gfq).
  assert (Hlen : Z.of_nat (length g) = num_procs + 1)
    by (unfold g; rewrite length_firstn; lia).
  rewrite !nthZ_at_index by lia.
  unfold g. rewrite !at_index_firstn by lia. fold g.
  rewrite Hempty. change (to_int32 (to_int64 0)) with 0. cbn [Z.ltb Z.compare].
  match goal with
  | |- context [foldM ?f ?l ?s] =>
      destruct (inflate_trees_empty_range pertree coords data
                  (match data with Some d => elem_size d | None => 0 end) l s)
        as (st' & E & Hq & Hd & Ht)
  end.
  { constructor. }
  rewrite E. cbn [i_qap i_dap] in Hq, Hd. rewrite Hq, Hd.
  eexists. repeat split; cbn; auto.
Qed.


Lemma range_scan_found key :
  forall j base k n,
    (j < n)%nat -> (S j < length base)%nat ->
    (forall i, (i < j)%nat -> nth (S i) base 0 <= key) ->
    nth j base 0 <= key < nth (S j) base 0 ->
    range_scan key base k n = (k + j)%nat.
Proof.
  induction j as [|j IH]; intros base k n Hn Hlen Hbefore Hj;
    destruct n as [|n]; try lia;
    destruct base as [|a [|b tl]]; cbn [length] in Hlen; try lia.
  - cbn in Hj. cbn [range_scan].
    destruct (Z.leb_spec a key); [|lia]. destruct (Z.ltb_spec key b); [|lia].
    cbn. lia.
  - change (range_scan key (a :: b :: tl) k (S n))
      with (if (a <=? key) && (key <? b) then k
            else range_scan key (b :: tl) (S k) n).
    pose proof (Hbefore 0%nat ltac:(lia)) as H0. cbn in H0.
    destruct (Z.ltb_spec key b); [lia|]. rewrite andb_false_r.
    rewrite (IH (b :: tl) (S k) n); try lia.
    + cbn [length]. lia.
    + intros i Hi. exact (Hbefore (S i) ltac:(lia)).
    + exact Hj.
Qed.

Lemma sc_bsearch_range_found key base nmemb k :
  0 <= k < nmemb -> nmemb < Z.of_nat (length base) ->
  (forall i j, 0 <= i <= j -> j <= nmemb -> at_index base i <= at_index base j) ->
  at_index base k <= key < at_index base (k + 1) ->
  sc_bsearch_range key base nmemb = k.
Proof.
  intros Hk Hlen Hmono Hkey. unfold sc_bsearch_range.
  rewrite (range_scan_found key (Z.to_nat k)); try lia.
  - intros i Hi.
    pose proof (Hmono (Z.of_nat (S i)) k ltac:(lia) ltac:(lia)) as H.
    unfold at_index in H, Hkey. rewrite Nat2Z.id in H. lia.
  - unfold at_index in Hkey.
    replace (Z.to_nat (k + 1)) with (S (Z.to_nat k)) in Hkey by lia. exact Hkey.
Qed.

Lemma flat_map_nil {A B} (f : A -> list B) l :
  (forall x, In x l -> f x = []) -> flat_map f l = [].
Proof.
  induction l as [|a l IH]; intros H; cbn; [reflexivity|].
  rewrite (H a) by now left. apply IH. intros; apply H; now right.
Qed.

Lemma flat_map_window {A B} (f : A -> list B) (l : list A) a n :
  (forall i x, nth_error l i = Some x -> (i < a \/ a + n <= i)%nat -> f x = []) ->
  flat_map f (firstn n (skipn a l)) = flat_map f l.
Proof.
  intros H.
  rewrite <- (firstn_skipn a l) at 2.
  rewrite <- (firstn_skipn n (skipn a l)) at 2.
  rewrite !flat_map_app.
  rewrite (flat_map_nil f (firstn a l)).
  - rewrite (flat_map_nil f (skipn n (skipn a l))); [now rewrite app_nil_r|].
    intros x Hx. apply In_nth_error in Hx. destruct Hx as [i Hi].
    rewrite skipn_skipn, nth_error_skipn in Hi.
    apply (H _ _ Hi). lia.
  - intros x Hx. apply In_nth_error in Hx. destruct Hx as [i Hi].
    assert (Hlt : (i < length (firstn a l))%nat)
      by (apply nth_error_Some; congruence).
    rewrite length_firstn in Hlt.
    rewrite nth_error_firstn in Hi.
    destruct (Nat.ltb_spec i a); [|lia].
    apply (H _ _ Hi). lia.
Qed.


Lemma store_block_length {A} (arr : list A) i vs arr' :
  store_block arr i vs = Some arr' -> length arr' = length arr.
Proof.
  unfold store_block. destruct (Nat.leb_spec (i + length vs) (length arr)); [|discriminate].
  intros [= <-]. rewrite !length_app, length_firstn, length_skipn. lia.
Qed.

Lemma store_block_defined {A} (arr : list A) i vs :
  (i + length vs <= length arr)%nat -> exists arr', store_block arr i vs = Some arr'.
Proof.
  intros H. unfold store_block.
  destruct (Nat.leb_spec (i + length vs) (length arr)); [eauto | lia].
Qed.

(** Reading back the tuple that deflate wrote for [q]. *)
Lemma tuple_decode q z0 ud :
  -128 <= quad_level q < 128 ->
  let tuple := quadrant_coords q in
  let ql := to_int8 (nth (Z.to_nat P4EST_DIM) tuple 0) in
  ql = quad_level q
  /\ quadrant_coords
       {| quad_x := nth 0 tuple 0; quad_y := nth 1 tuple 0;
          quad_z := if P4_TO_P8 then nth 2 tuple 0 else z0;
          quad_level := ql; user_data := ud |}
     = quadrant_coords q.
Proof.
  intros Hl. cbn zeta. unfold quadrant_coords, P4EST_DIM.
  destruct P4_TO_P8;
    [change (Z.to_nat 3) with 3%nat | change (Z.to_nat 2) with 2%nat];
    cbn [nth quad_x quad_y quad_z quad_level];
    rewrite (to_int32_id (quad_level q)) by lia;
    rewrite (to_int8_id (quad_level q)) by lia;
    rewrite (to_int32_id (quad_level q)) by lia; auto.
Qed.

(** The loop over the quadrants of one tree rebuilds, from the deflated
    arrays of [allq = pre ++ qs ++ post], quadrants with the tuples and
    payloads of [qs]. *)
Lemma inflate_quadrants_loop (allq : list p4est_quadrant_t)
    (want : bool) (dsz lnq : Z) :
  0 <= P4EST_QMAXLEVEL <= P4EST_MAXLEVEL -> P4EST_MAXLEVEL < 128 ->
  0 <= dsz -> (want = false -> dsz = 0) ->
  Forall (fun q => Z.of_nat (length (user_data q)) = dsz) allq ->
  forall qs pre post st qz0,
    allq = pre ++ qs ++ post ->
    Forall (fun q => 0 <= quad_level q <= P4EST_QMAXLEVEL) qs ->
    t_qap st = (Z.to_nat (P4EST_DIM + 1) * length pre)%nat ->
    t_dap st = (Z.to_nat dsz * length pre)%nat ->
    length (t_per_level st) = Z.to_nat (P4EST_MAXLEVEL + 1) ->
    exists st',
      foldM (inflate_quadrant (flat_map quadrant_coords allq)
                              (deflated_data want dsz lnq allq) dsz)
            (seq qz0 (length qs)) st = Some st'
      /\ map quadrant_view (t_quads st')
         = map quadrant_view (t_quads st) ++ map quadrant_view qs
      /\ t_qap st' = (Z.to_nat (P4EST_DIM + 1) * length (pre ++ qs))%nat
      /\ t_dap st' = (Z.to_nat dsz * length (pre ++ qs))%nat
      /\ (qs <> [] -> t_q st' <> None).
Proof.
  intros Hlev Hmax Hdsz Hwant Hud.
  induction qs as [|q qs IH]; intros pre post st qz0 Hall Hlv Hqap Hdap Hpl.
  - exists st. cbn. rewrite !app_nil_r. repeat split; auto.
  - cbn [length seq foldM].
    assert (Hq : 0 <= quad_level q <= P4EST_QMAXLEVEL)
      by (apply (Forall_inv Hlv)).
    assert (Hlv' := Forall_inv_tail Hlv).
    assert (Hudq : Z.of_nat (length (user_data q)) = dsz).
    { rewrite Forall_forall in Hud. apply Hud. rewrite Hall.
      apply in_or_app. right. now left. }
    unfold inflate_quadrant at 1.
    (* the coordinate tuple *)
    assert (Hread : read_block (flat_map quadrant_coords allq) (t_qap st)
                      (Z.to_nat (P4EST_DIM + 1)) = Some (quadrant_coords q)).
    { rewrite Hall, flat_map_app. cbn [app flat_map]. rewrite <- ?app_assoc.
      rewrite Hqap, <- coords_length, <- (quadrant_coords_length q).
      apply read_block_app. }
    rewrite Hread.
    destruct (tuple_decode q (quad_z P4EST_QUADRANT_INIT)
                (if want then user_data q else []) ltac:(lia)) as [Hql Hview].
    cbn zeta in Hql, Hview. rewrite Hql in Hview |- *.
    (* the level counter *)
    assert (Hlvl : 0 <= quad_level q < Z.of_nat (length (t_per_level st))) by lia.
    rewrite (nthZ_at_index _ _ Hlvl).
    destruct (store_block_defined (t_per_level st) (Z.to_nat (quad_level q))
                [to_int32 (at_index (t_per_level st) (quad_level q) + 1)])
      as [pl' Hpl']; [cbn [length]; lia|].
    rewrite Hpl'.
    (* the payload *)
    assert (Hpay :
      match deflated_data want dsz lnq allq with
      | Some d =>
          match read_block (array d) (t_dap st) (Z.to_nat dsz) with
          | Some b => Some (b, (t_dap st + Z.to_nat dsz)%nat)
          | None => None
          end
      | None => Some ([], t_dap st)
      end = Some (if want then user_data q else [],
                  (Z.to_nat dsz * length (pre ++ [q]))%nat)).
    { unfold deflated_data. destruct want.
      - cbn [array]. rewrite Hall, flat_map_app. cbn [app flat_map].
        rewrite <- ?app_assoc.
        assert (Hpre : Forall (fun q => Z.of_nat (length (user_data q)) = dsz) pre).
        { rewrite Forall_forall in *. intros x Hx. apply Hud. rewrite Hall.
          apply in_or_app. now left. }
        rewrite Hdap, <- (payload_length _ _ Hpre).
        replace (Z.to_nat dsz) with (length (user_data q)) by lia.
        rewrite read_block_app. f_equal. f_equal.
        rewrite (payload_length _ _ Hpre), length_app. cbn [length]. lia.
      - rewrite (Hwant eq_refl) in *. rewrite Hdap. f_equal. }
    rewrite Hpay.
    match goal with
    | |- context [foldM _ (seq (S qz0) (length qs)) ?s] => set (st1 := s)
    end.
    destruct (IH (pre ++ [q]) post st1 (S qz0)) as (st' & E & Hv & Hq' & Hd' & _).
    + rewrite Hall, <- app_assoc. reflexivity.
    + assumption.
    + unfold st1. cbn [t_qap]. rewrite Hqap, length_app. cbn [length]. lia.
    + reflexivity.
    + unfold st1. cbn [t_per_level]. rewrite (store_block_length _ _ _ _ Hpl').
      assumption.
    + exists st'. rewrite E. split; [reflexivity|].
      rewrite <- !app_assoc in Hq', Hd'. cbn [app] in Hq', Hd'.
      repeat split; auto.
      * rewrite Hv. unfold st1. cbn [t_quads]. rewrite map_app, <- app_assoc.
        f_equal. cbn [map app]. f_equal.
        unfold quadrant_view. cbn [user_data]. rewrite Hview.
        f_equal. destruct want; [reflexivity|].
        rewrite (Hwant eq_refl) in Hudq. destruct (user_data q); [reflexivity|].
        cbn in Hudq. lia.
      * intros _.
        assert (Hsome : forall l s s', foldM (inflate_quadrant
                   (flat_map quadrant_coords allq)
                   (deflated_data want dsz lnq allq) dsz) l s = Some s' ->
                   t_q s <> None -> t_q s' <> None).
        { clear. induction l as [|a l IHl]; intros s s' Hf Hs; cbn in Hf.
          - now inversion Hf; subst.
          - destruct (inflate_quadrant _ _ _ s a) as [s1|] eqn:E1; [|discriminate].
            apply (IHl _ _ Hf).
            unfold inflate_quadrant in E1.
            repeat match type of E1 with
                   | match ?x with _ => _ end = _ => destruct x; try discriminate
                   end.
            inversion E1; subst. cbn. discriminate. }
        apply (Hsome _ _ _ E). unfold st1. cbn. discriminate.
Qed.

End ForestProofs.

Section Views.
Context `{FI : ForestInterface}.

Lemma views_concat l :
  map quadrant_view (flat_map quadrants l) = concat (map tree_view l).
Proof.
  induction l as [|t l IH]; cbn; [reflexivity|].
  now rewrite map_app, IH.
Qed.

Lemma views_local p1 p2 :
  first_local_tree p1 = first_local_tree p2 ->
  last_local_tree p1 = last_local_tree p2 ->
  map tree_view (trees p1) = map tree_view (trees p2) ->
  map quadrant_view (local_quadrants p1) = map quadrant_view (local_quadrants p2).
Proof.
  intros Hf Hl Ht. unfold local_quadrants, local_trees.
  rewrite !views_concat, <- !firstn_map, <- !skipn_map, Hf, Hl, Ht. reflexivity.
Qed.

Lemma views_determine qs1 :
  forall qs2, map quadrant_view qs1 = map quadrant_view qs2 ->
    flat_map quadrant_coords qs1 = flat_map quadrant_coords qs2
    /\ flat_map user_data qs1 = flat_map user_data qs2
    /\ length qs1 = length qs2
    /\ forall d, Forall (fun q => Z.of_nat (length (user_data q)) = d) qs2 ->
                 Forall (fun q => Z.of_nat (length (user_data q)) = d) qs1.
Proof.
  induction qs1 as [|q1 qs1 IH]; intros [|q2 qs2] H; cbn [map] in H;
    try discriminate.
  - repeat split; auto.
  - injection H. intros Hrest Hu Hc.
    destruct (IH _ Hrest) as (H1 & H2 & H3 & H4).
    cbn. rewrite Hc, Hu, H1, H2, H3. repeat split; auto.
    intros d Hd. constructor.
    + rewrite Hu. exact (Forall_inv Hd).
    + apply H4. exact (Forall_inv_tail Hd).
Qed.

(** Deflate sees a forest only through its tree range, its counts and the
    views of its quadrants. *)
Lemma deflate_views p1 p2 :
  forest_ok p2 ->
  first_local_tree p1 = first_local_tree p2 ->
  last_local_tree p1 = last_local_tree p2 ->
  local_num_quadrants p1 = local_num_quadrants p2 ->
  data_size p1 = data_size p2 ->
  map tree_view (trees p1) = map tree_view (trees p2) ->
  forest_ok p1
  /\ forall w, p4est_deflate_quadrants p1 w = p4est_deflate_quadrants p2 w.
Proof.
  intros Hok Hf Hl Hn Hd Ht.
  destruct (views_determine _ _ (views_local p1 p2 Hf Hl Ht)) as (H1 & H2 & H3 & H4).
  assert (Hok1 : forest_ok p1).
  { destruct Hok as [R C I D B U]. constructor.
    - rewrite Hf, Hl.
      assert (length (trees p1) = length (trees p2)) as ->
          by (rewrite <- (length_map tree_view (trees p1)), Ht; apply length_map).
      exact R.
    - rewrite Hn, H3. exact C.
    - rewrite Hn. exact I.
    - rewrite Hd. exact D.
    - rewrite Hd, Hn. exact B.
    - rewrite Hd. apply H4. exact U. }
  split; [exact Hok1|]. intros w.
  rewrite (deflate_result p1 w Hok1), (deflate_result p2 w Hok).
  now rewrite H1, H2, Hn, Hd.
Qed.

End Views.

(** ** The round trip *)

Section RoundTrip.
Context `{FI : ForestInterface}.
Variables (p : p4est_t) (num_procs rank : Z) (gfq pertree : list Z).
Hypothesis Hok : forest_ok p.
Hypothesis Hpart : partition_ok p num_procs rank gfq pertree.
Hypothesis Hlev : levels_ok p.
Hypothesis Hne : local_trees_nonempty p pertree.

Local Abbreviation g0 := (at_index gfq rank).
Local Abbreviation g1 := (at_index gfq (rank + 1)).
Local Abbreviation P := (at_index pertree).
Local Abbreviation tfirst := (first_local_tree p).
Local Abbreviation tlast := (last_local_tree p).
Local Abbreviation T := (num_trees p).
Local Abbreviation lnq := (local_num_quadrants p).
Local Abbreviation overlap j := (Z.min (P (j + 1)) g1 - Z.max (P j) g0).

Local Tactic Notation "mono" constr(i) constr(j) :=
  pose proof (po_pertree_mono _ _ _ _ _ Hpart i j).

Lemma lnq_nonneg : 0 <= lnq.
Proof. rewrite (ok_count p Hok). lia. Qed.

(** The rank's range against the tree boundaries. *)
Lemma range_facts :
  (0 < lnq /\ 0 <= tfirst <= tlast /\ tlast < T
   /\ P tfirst <= g0 < P (tfirst + 1) /\ P tlast <= g1 - 1 < P (tlast + 1))
  \/ (lnq = 0 /\ g1 = g0 /\ tfirst = -1 /\ tlast = -2).
Proof.
  pose proof (po_first_last _ _ _ _ _ Hpart) as H.
  pose proof (po_local _ _ _ _ _ Hpart) as Hl.
  pose proof lnq_nonneg.
  destruct (Z.ltb_spec 0 lnq); [left | right]; intuition lia.
Qed.

Lemma boundary_facts k :
  0 < lnq -> 0 <= k <= T ->
  (k <= tfirst -> P k <= g0) /\ (tfirst < k -> g0 < P k)
  /\ (k <= tlast -> P k < g1) /\ (tlast < k -> g1 <= P k).
Proof.
  intros Hpos Hk.
  destruct range_facts as [(_ & Hfl & HlT & Hf & Hl) | (Hz & _)]; [|lia].
  repeat split; intros Hc.
  - mono k tfirst. lia.
  - mono (tfirst + 1) k. lia.
  - mono k tlast. lia.
  - mono (tlast + 1) k. lia.
Qed.

Lemma tree_count j t :
  nthZ (trees p) j = Some t ->
  (tfirst <= j <= tlast ->
   Z.of_nat (length (quadrants t)) = overlap j /\ 0 < overlap j)
  /\ (~ tfirst <= j <= tlast -> quadrants t = []).
Proof.
  intros Ht. pose proof (po_tree_count _ _ _ _ _ Hpart j t Ht) as Hc.
  pose proof (nthZ_Some_range _ _ _ Ht) as Hj.
  rewrite (po_trees _ _ _ _ _ Hpart) in Hj.
  pose proof (po_local _ _ _ _ _ Hpart) as Hloc.
  destruct range_facts as [(Hpos & Hfl & HlT & Hf & Hl) | (Hz & Hg & Hf & Hl)].
  - destruct (boundary_facts j Hpos ltac:(lia)) as (A1 & A2 & A3 & A4).
    destruct (boundary_facts (j + 1) Hpos ltac:(lia)) as (B1 & B2 & B3 & B4).
    split.
    + intros Hin. pose proof (Hne j Hin) as Hn.
      specialize (A3 ltac:(lia)). specialize (B2 ltac:(lia)).
      clear A4 B1.
      destruct (Z.eq_dec j tfirst) as [E1|E1];
        [specialize (A1 ltac:(lia)); clear A2
        | specialize (A2 ltac:(lia)); clear A1];
      (destruct (Z.eq_dec j tlast) as [E2|E2];
        [specialize (B4 ltac:(lia)); clear B3
        | specialize (B3 ltac:(lia)); clear B4]); lia.
    + intros Hout. apply length_zero_iff_nil.
      destruct (Z.lt_ge_cases j tfirst) as [E|E].
      * specialize (B1 ltac:(lia)). lia.
      * specialize (A4 ltac:(lia)). lia.
  - split; [lia|]. intros _. apply length_zero_iff_nil. lia.
Qed.

Lemma local_quadrants_all : local_quadrants p = flat_map quadrants (trees p).
Proof.
  unfold local_quadrants, local_trees. apply flat_map_window.
  intros i t Hi Hout. rewrite <- nthZ_nth_error in Hi.
  apply (tree_count _ _ Hi).
  destruct range_facts as [(Hpos & Hfl & HlT & Hf & Hl) | (Hz & Hg & Hf & Hl)]; lia.
Qed.


Local Abbreviation dsz := (data_size p).
Local Abbreviation want := (0 <? data_size p).
Local Abbreviation allq := (flat_map quadrants (trees p)).
Local Abbreviation coords := (flat_map quadrant_coords allq).
Local Abbreviation data := (deflated_data want dsz lnq allq).

Lemma firstn_S_nth {A} (l : list A) a t :
  nth_error l a = Some t -> firstn (S a) l = firstn a l ++ [t].
Proof.
  revert a. induction l as [|x l IH]; intros [|a] H; cbn in *; try discriminate.
  - now inversion H.
  - f_equal. now apply IH.
Qed.

Lemma split_at_nth {A} (l : list A) a t :
  nth_error l a = Some t -> l = firstn a l ++ t :: skipn (S a) l.
Proof.
  intros H. rewrite <- (skipn_cons_nth _ _ _ H). symmetry. apply firstn_skipn.
Qed.

Lemma allq_length : Z.of_nat (length allq) = lnq.
Proof. rewrite <- local_quadrants_all. symmetry. apply (ok_count p Hok). Qed.

Lemma per_level_init_length :
  length per_level_init = Z.to_nat (P4EST_MAXLEVEL + 1).
Proof.
  destruct Hlev as (Hq & Hm & _).
  unfold per_level_init. rewrite length_app, !repeat_length. lia.
Qed.

Lemma inflate_tree_step a t st :
  nth_error (trees p) a = Some t ->
  inflate_inv p rank gfq pertree a st ->
  exists st',
    inflate_tree pertree coords data dsz tfirst tlast st (Z.of_nat a) = Some st'
    /\ inflate_inv p rank gfq pertree (S a) st'.
Proof.
  intros Ht (Hq & Hd & Hz & Hr & Hs1 & Hs2 & Htr). cbn zeta in *.
  pose proof (firstn_S_nth _ _ _ Ht) as HS.
  pose proof (split_at_nth _ _ _ Ht) as Hsplit.
  assert (HaT : Z.of_nat a < T).
  { rewrite <- (po_trees _ _ _ _ _ Hpart).
    assert (nth_error (trees p) a <> None) as Hn by congruence.
    apply nth_error_Some in Hn. lia. }
  assert (Hall : allq = flat_map quadrants (firstn a (trees p))
                        ++ quadrants t
                        ++ flat_map quadrants (skipn (S a) (trees p))).
  { rewrite Hsplit at 1. rewrite flat_map_app. reflexivity. }
  pose proof allq_length as Hlen. rewrite Hall, !length_app in Hlen.
  pose proof (ok_int p Hok) as Hint. pose proof P4EST_DIM_cases as Hdim.
  pose proof (po_gfq_int64 _ _ _ _ _ Hpart) as Hg.
  pose proof (po_pertree_int64 _ _ _ _ _ Hpart) as HP.
  pose proof (po_local _ _ _ _ _ Hpart) as Hloc.
  rewrite <- nthZ_nth_error in Ht.
  destruct (tree_count _ _ Ht) as [Hin Hout].
  unfold inflate_tree.
  destruct ((tfirst <=? Z.of_nat a) && (Z.of_nat a <=? tlast)) eqn:E.
  - (* a local tree *)
    apply andb_true_iff in E. destruct E as [E1 E2].
    apply Z.leb_le in E1, E2.
    destruct (Hin (conj E1 E2)) as [Hcnt Hpos].
    destruct range_facts as [(Hlpos & Hfl & HlT & Hf & Hl) | (Hz0 & _)]; [|lia].
    rewrite !nthZ_at_index by (rewrite (po_pertree_len _ _ _ _ _ Hpart); lia).
    destruct (boundary_facts (Z.of_nat a) Hlpos ltac:(lia)) as (A1 & A2 & A3 & A4).
    destruct (boundary_facts (Z.of_nat a + 1) Hlpos ltac:(lia)) as (B1 & B2 & B3 & B4).
    specialize (A3 ltac:(lia)). specialize (B2 ltac:(lia)). clear A4 B1.
    pose proof (po_pertree_mono _ _ _ _ _ Hpart 0 (Z.of_nat a) ltac:(lia) ltac:(lia)) as M0.
    pose proof (po_pertree_mono _ _ _ _ _ Hpart (Z.of_nat a + 1) T ltac:(lia) ltac:(lia)) as MT.
    assert (Hskip : i_gtreeskip st = Z.max (P (Z.of_nat a)) g0 - P (Z.of_nat a)).
    { destruct (Z.eq_dec (Z.of_nat a) tfirst) as [Ea|Ea].
      - rewrite Hs1 by lia. rewrite <- Ea. specialize (A1 ltac:(lia)). lia.
      - rewrite Hs2 by lia. specialize (A2 ltac:(lia)). lia. }
    assert (Hrem : i_gquadremain st = g1 - Z.max (P (Z.of_nat a)) g0) by lia.
    rewrite Hskip.
    rewrite to_int64_id by lia.
    assert (Hzq : Z.min (P (Z.of_nat a + 1) - P (Z.of_nat a)
                         - (Z.max (P (Z.of_nat a)) g0 - P (Z.of_nat a)))
                        (i_gquadremain st)
                  = Z.of_nat (length (quadrants t))) by lia.
    rewrite Hzq.
    destruct (Z.leb_spec (Z.of_nat (length (quadrants t))) 0); [lia|].
    rewrite Nat2Z.id.
    destruct Hlev as (Hlq & Hlm & Hlall).
    rewrite local_quadrants_all in Hlall.
    pose proof (ok_user_data p Hok) as Hud. rewrite local_quadrants_all in Hud.
    assert (Hw : want = false -> dsz = 0).
    { intros Hw. apply Z.ltb_ge in Hw. pose proof (ok_data_size p Hok). lia. }
    assert (Hlt : Forall (fun q => 0 <= quad_level q <= P4EST_QMAXLEVEL)
                         (quadrants t)).
    { rewrite Hall in Hlall. apply Forall_app in Hlall. destruct Hlall as [_ Hl2].
      apply Forall_app in Hl2. exact (proj1 Hl2). }
    destruct (inflate_quadrants_loop allq want dsz lnq Hlq Hlm
                (ok_data_size p Hok) Hw Hud (quadrants t)
                (flat_map quadrants (firstn a (trees p)))
                (flat_map quadrants (skipn (S a) (trees p)))
                {| t_qap := i_qap st; t_dap := i_dap st; t_quads := [];
                   t_per_level := per_level_init; t_tml := 0;
                   t_first_desc := P4EST_QUADRANT_INIT; t_q := None |}
                0%nat Hall Hlt Hq Hd per_level_init_length)
      as (tf & Ef & Hv & Hq' & Hd' & Hsome).
    { rewrite Ef.
      destruct (t_q tf) as [q|] eqn:Eq.
      2:{ exfalso. apply Hsome; [|reflexivity].
          intros Hnil. rewrite Hnil in *. cbn in *. lia. }
      eexists. split; [reflexivity|].
      unfold inflate_inv. cbn zeta.
      cbn [i_qap i_dap i_zqoffset i_gquadremain i_gtreeskip i_trees].
      rewrite HS, flat_map_app. cbn [flat_map]. rewrite app_nil_r.
      repeat split.
      * exact Hq'.
      * exact Hd'.
      * rewrite Hz, to_size_t_id, length_app by lia. lia.
      * rewrite to_int64_id by lia.
        replace (Z.of_nat (S a)) with (Z.of_nat a + 1) by lia.
        destruct (Z.eq_dec (Z.of_nat a) tlast) as [Ea|Ea];
          [specialize (B4 ltac:(lia)) | specialize (B3 ltac:(lia))]; lia.
      * lia.
      * rewrite !map_app, Htr. cbn [map]. do 2 f_equal.
        unfold tree_view. cbn [quadrants]. exact Hv. }
  - (* a tree without local quadrants *)
    assert (Hnl : ~ tfirst <= Z.of_nat a <= tlast).
    { apply andb_false_iff in E. destruct E as [E|E]; apply Z.leb_gt in E; lia. }
    pose proof (Hout Hnl) as Hnil.
    eexists. split; [reflexivity|].
    unfold inflate_inv. cbn zeta.
    cbn [i_qap i_dap i_zqoffset i_gquadremain i_gtreeskip i_trees].
    rewrite HS, flat_map_app. cbn [flat_map]. rewrite Hnil, !app_nil_r.
    repeat split; auto.
    + rewrite Hr.
      replace (Z.of_nat (S a)) with (Z.of_nat a + 1) by lia.
      destruct range_facts as [(Hlpos & Hfl & HlT & Hf & Hl) | (Hz0 & Hgg & _)]; [|lia].
      destruct (boundary_facts (Z.of_nat a) Hlpos ltac:(lia)) as (A1 & A2 & A3 & A4).
      destruct (boundary_facts (Z.of_nat a + 1) Hlpos ltac:(lia)) as (B1 & B2 & B3 & B4).
      destruct (Z.lt_ge_cases (Z.of_nat a) tfirst) as [Ea|Ea].
      * specialize (A1 ltac:(lia)). specialize (B1 ltac:(lia)). lia.
      * specialize (A4 ltac:(lia)). specialize (B4 ltac:(lia)). lia.
    + intros Hle. apply Hs1.
      destruct range_facts as [(Hlpos & Hfl & HlT & Hf & Hl) | (Hz0 & Hgg & ? & ?)]; lia.
    + intros Hlt.
      destruct (Z.lt_ge_cases tfirst (Z.of_nat a)); [now apply Hs2|].
      destruct range_facts as [(Hlpos & Hfl & HlT & Hf & Hl) | (Hz0 & Hgg & ? & ?)]; lia.
    + rewrite !map_app, Htr. cbn [map]. do 2 f_equal.
      unfold tree_view. cbn [quadrants]. now rewrite Hnil.
Qed.


Lemma inflate_trees_loop :
  forall n a st,
    (a + n <= length (trees p))%nat ->
    inflate_inv p rank gfq pertree a st ->
    exists st',
      foldM (inflate_tree pertree coords data dsz tfirst tlast)
            (map (fun i => 0 + Z.of_nat i) (seq a n)) st = Some st'
      /\ inflate_inv p rank gfq pertree (a + n) st'.
Proof.
  induction n as [|n IH]; intros a st Hn Hinv.
  - exists st. rewrite Nat.add_0_r. split; [reflexivity | assumption].
  - cbn [seq map foldM]. rewrite Z.add_0_l.
    destruct (nth_error (trees p) a) as [t|] eqn:Et.
    2:{ apply nth_error_None in Et. lia. }
    destruct (inflate_tree_step a t st Et Hinv) as (st1 & E1 & Hinv1).
    rewrite E1.
    destruct (IH (S a) st1 ltac:(lia) Hinv1) as (st' & E & Hinv').
    exists st'. split; [exact E|]. now rewrite Nat.add_succ_r.
Qed.

Lemma inflate_inv_start (skip : Z) :
  (0 <= tfirst -> skip = g0 - P tfirst) -> (tfirst < 0 -> skip = 0) ->
  inflate_inv p rank gfq pertree 0
    {| i_qap := 0%nat; i_dap := 0%nat; i_zqoffset := 0;
       i_gquadremain := lnq; i_gtreeskip := skip; i_trees := [] |}.
Proof.
  intros H1 H2. unfold inflate_inv. cbn zeta.
  cbn [firstn flat_map length map Nat.mul i_qap i_dap i_zqoffset
       i_gquadremain i_gtreeskip i_trees].
  rewrite !Nat.mul_0_r. repeat split; auto.
  pose proof (po_local _ _ _ _ _ Hpart) as Hloc.
  destruct range_facts as [(Hlpos & Hfl & HlT & Hf & Hl) | (Hz0 & Hgg & _)]; [|lia].
  pose proof (po_pertree_mono _ _ _ _ _ Hpart 0 tfirst ltac:(lia) ltac:(lia)).
  change (Z.of_nat 0) with 0. lia.
Qed.


(** C1 (as amended: every tree of the local range is non-empty).  Deflate
    followed by inflate with the same communicator, connectivity,
    partition and per-tree prefix sums gives a forest with revision 0, the
    same global and local counts, the same tree range and, tree by tree and
    in the same order, the same (x, y, [z], level) tuples and payload
    bytes; deflate of the new forest returns the same arrays. *)
Theorem C1_deflate_inflate_round_trip (user_ptr : Z) :
  exists coords data F',
    p4est_deflate_quadrants p (0 <? data_size p) = Some (coords, data)
    /\ p4est_inflate num_procs rank (num_trees p) gfq pertree coords data
                     user_ptr = Some F'
    /\ revision F' = 0
    /\ global_num_quadrants F' = global_num_quadrants p
    /\ local_num_quadrants F' = local_num_quadrants p
    /\ data_size F' = data_size p
    /\ first_local_tree F' = first_local_tree p
    /\ last_local_tree F' = last_local_tree p
    /\ map tree_view (trees F') = map tree_view (trees p)
    /\ forall w, p4est_deflate_quadrants F' w = p4est_deflate_quadrants p w.
Proof.
  pose proof (po_rank _ _ _ _ _ Hpart) as Hrank.
  pose proof (po_gfq_len _ _ _ _ _ Hpart) as Hglen.
  pose proof (po_gfq_int64 _ _ _ _ _ Hpart) as Hg.
  pose proof (po_local _ _ _ _ _ Hpart) as Hloc.
  pose proof (po_trees _ _ _ _ _ Hpart) as HT.
  pose proof (po_trees_int32 _ _ _ _ _ Hpart) as HT32.
  pose proof (po_pertree_len _ _ _ _ _ Hpart) as HPlen.
  pose proof (po_pertree_int64 _ _ _ _ _ Hpart) as HP.
  pose proof (ok_int p Hok) as Hint. pose proof P4EST_DIM_cases as Hdim.
  pose proof lnq_nonneg as Hnn. pose proof (ok_data_size p Hok) as Hds.
  exists coords, data.
  assert (Hdefl : p4est_deflate_quadrants p want = Some (coords, data)).
  { rewrite (deflate_result p want Hok), local_quadrants_all. reflexivity. }
  assert (Hdsz : match data with Some d => elem_size d | None => 0 end = dsz).
  { unfold deflated_data. destruct (Z.ltb_spec 0 dsz); [reflexivity | lia]. }
  unfold p4est_inflate, p4est_inflate_run. rewrite Hdsz.
  rewrite read_block_prefix by lia.
  set (g := firstn (Z.to_nat (num_procs + 1)) gfq).
  assert (Hlen : Z.of_nat (length g) = num_procs + 1)
    by (unfold g; rewrite length_firstn; lia).
  rewrite !nthZ_at_index by lia.
  unfold g. rewrite !at_index_firstn by lia. fold g.
  rewrite <- Hloc, (to_int64_id lnq), (to_int32_id lnq) by nia.
  assert (Hstart : exists skip,
    (if 0 <? lnq
     then (match nthZ pertree (sc_bsearch_range g0 pertree T) with
           | Some p1 => Some (to_int64 (g0 - p1))
           | None => None
           end,
           to_int32 (sc_bsearch_range g0 pertree T),
           to_int32 (sc_bsearch_range (to_int64 (g1 - 1)) pertree T))
     else (Some 0, -1, -2)) = (Some skip, tfirst, tlast)
    /\ (0 <= tfirst -> skip = g0 - P tfirst) /\ (tfirst < 0 -> skip = 0)).
  { destruct range_facts as [(Hlpos & Hfl & HlT & Hf & Hl) | (Hz0 & Hgg & Hf & Hl)].
    - destruct (Z.ltb_spec 0 lnq); [|lia].
      rewrite (to_int64_id (g1 - 1)) by lia.
      rewrite (sc_bsearch_range_found g0 pertree T tfirst); try lia;
        [| apply (po_pertree_mono _ _ _ _ _ Hpart)].
      rewrite (sc_bsearch_range_found (g1 - 1) pertree T tlast); try lia;
        [| apply (po_pertree_mono _ _ _ _ _ Hpart)].
      rewrite nthZ_at_index by lia.
      pose proof (po_pertree_mono _ _ _ _ _ Hpart 0 tfirst ltac:(lia) ltac:(lia)).
      rewrite !to_int32_id, to_int64_id by lia.
      exists (g0 - P tfirst). repeat split; lia.
    - destruct (Z.ltb_spec 0 lnq); [lia|].
      exists 0. rewrite Hf, Hl. repeat split; lia. }
  destruct Hstart as (skip & -> & Hs1 & Hs2).
  unfold index_range. replace (T - 1 - 0 + 1) with T by lia.
  destruct (inflate_trees_loop (length (trees p)) 0
              _ ltac:(lia) (inflate_inv_start skip Hs1 Hs2))
    as (st' & E & Hinv).
  rewrite <- HT, Nat2Z.id, E.
  destruct Hinv as (_ & _ & _ & _ & _ & _ & Htr).
  cbn [Nat.add] in Htr. rewrite firstn_all in Htr.
  eexists. split; [exact Hdefl|]. split; [reflexivity|].
  cbn [revision global_num_quadrants local_num_quadrants data_size
       first_local_tree last_local_tree trees].
  repeat split; auto.
  - symmetry. apply (po_global _ _ _ _ _ Hpart).
  - apply deflate_views; cbn; auto.
Qed.

End RoundTrip.

(** ** The forest properties on concrete forests *)

Ltac index_cases i n :=
  let H := fresh in
  match n with
  | 1%nat => assert (H : i = 0 \/ i = 1) by lia
  | 2%nat => assert (H : i = 0 \/ i = 1 \/ i = 2) by lia
  | 3%nat => assert (H : i = 0 \/ i = 1 \/ i = 2 \/ i = 3) by lia
  end;
  repeat (destruct H as [H|H]); subst i.

Ltac decide_cmp :=
  vm_compute; repeat split; solve [reflexivity | intros; discriminate].

Ltac concrete_forest_ok :=
  constructor;
  [ right; decide_cmp | reflexivity | reflexivity | decide_cmp | reflexivity
  | repeat constructor ].

Ltac concrete_partition_ok n :=
  constructor;
  [ decide_cmp | decide_cmp | decide_cmp | reflexivity | reflexivity
  | reflexivity | decide_cmp
  | let i := fresh "i" in let j := fresh "j" in
    intros i j ? ?; cbn in *; index_cases i n; index_cases j n;
    solve [decide_cmp | lia]
  | reflexivity | reflexivity
  | let j := fresh "j" in let t := fresh "t" in let H := fresh "H" in
    intros j t H; pose proof (nthZ_Some_range _ _ _ H); cbn in *;
    index_cases j n; try lia; cbn in H; inversion H; subst t; reflexivity
  | decide_cmp ].


Lemma C8_empty_slice_sentinel_witness :
  exists p,
    p4est_inflate_run (FI := example_forest_interface)
      2 1 2 [0; 3; 3] [0; 2; 3] [] None 0 = Some (p, 0%nat, 0%nat)
    /\ p4est_inflate (FI := example_forest_interface)
         2 1 2 [0; 3; 3] [0; 2; 3] [] None 0 = Some p
    /\ first_local_tree p = -1 /\ last_local_tree p = -2
    /\ local_num_quadrants p = 0
    /\ Forall (fun t => quadrants t = []) (trees p).
Proof.
  apply (C8_empty_slice_sentinel (FI := example_forest_interface)
           2 1 2 [0; 3; 3] [0; 2; 3] [] None 0).
  - decide_cmp.
  - decide_cmp.
  - reflexivity.
Defined.

Lemma C1_deflate_inflate_round_trip_witness :
  let FI := example_forest_interface in
  exists coords data F',
    p4est_deflate_quadrants example_forest (0 <? data_size example_forest)
    = Some (coords, data)
    /\ p4est_inflate 2 1 (num_trees example_forest) [0; 1; 3] [0; 2; 3]
                     coords data 0 = Some F'
    /\ revision F' = 0
    /\ global_num_quadrants F' = global_num_quadrants example_forest
    /\ local_num_quadrants F' = local_num_quadrants example_forest
    /\ data_size F' = data_size example_forest
    /\ first_local_tree F' = first_local_tree example_forest
    /\ last_local_tree F' = last_local_tree example_forest
    /\ map tree_view (trees F') = map tree_view (trees example_forest)
    /\ forall w, p4est_deflate_quadrants F' w
                 = p4est_deflate_quadrants example_forest w.
Proof.
  cbn zeta.
  apply (C1_deflate_inflate_round_trip (FI := example_forest_interface)
           example_forest 2 1 [0; 1; 3] [0; 2; 3]).
  - concrete_forest_ok.
  - concrete_partition_ok 2%nat.
  - unfold levels_ok. split; [decide_cmp|]. split; [decide_cmp|].
    repeat constructor; decide_cmp.
  - intros j Hj. cbn in Hj. index_cases j 1%nat; decide_cmp.
Defined.

(** C1, counterexample.  The forest with 2, 0 and 3 quadrants in its three
    trees is well formed and matches its partition and prefix sums, deflate
    returns its arrays, but inflate does not produce a forest from them:
    for the empty tree the quadrant count is 0 and the pointer [q] passed
    to [p4est_quadrant_last_descendant] is NULL (the assertion
    [gtreeremain > 0] fails in a debug build). *)
Lemma C1_counterexample_empty_tree :
  let FI := example_forest_interface in
  forest_ok forest_2_0_3
  /\ partition_ok forest_2_0_3 1 0 [0; 5] [0; 2; 2; 5]
  /\ levels_ok forest_2_0_3
  /\ exists coords,
       p4est_deflate_quadrants forest_2_0_3 (0 <? data_size forest_2_0_3)
       = Some (coords, None)
       /\ length coords = 20%nat
       /\ p4est_inflate 1 0 (num_trees forest_2_0_3) [0; 5] [0; 2; 2; 5]
                        coords None 0 = None.
Proof.
  cbn zeta. split; [|split; [|split]].
  - concrete_forest_ok.
  - concrete_partition_ok 3%nat.
  - unfold levels_ok. split; [decide_cmp|]. split; [decide_cmp|].
    repeat constructor; decide_cmp.
  - eexists. split; [vm_compute; reflexivity|]. split; vm_compute; reflexivity.
Qed.

(** ** The section functions on concrete files *)

(** C2, at the failing input.  The first section of the example file holds
    20 bytes and so takes 64 + 20 + 12 = 96 bytes.  Skipped by
    [p4est_file_read_header] with [header_size = 0] and a NULL buffer, the
    call succeeds but [accessed_bytes] advances by 80 = 64 + 0 + 16, the
    advance of the caller's [header_size]: the second section can then not
    be read.  After a skip that passes the stored size the cursor stands at
    96 and the second section is read. *)
Theorem C2_read_header_skip_cursor :
  let FIO := example_io in
  let skipped := p4est_file_read_header example_reader 0 false in
  let skipped20 := p4est_file_read_header example_reader 20 false in
  fst (res_value (read_block_metadata example_reader 0 "H" false)) = 20
  /\ 64 + 20 + pad_len 20 = 96
  /\ res_errcode skipped = sc_MPI_SUCCESS
  /\ option_map fc_accessed_bytes (res_context skipped) = Some 80
  /\ res_context (p4est_file_read_header (context_of skipped) 5 true) = None
  /\ res_errcode (p4est_file_read_header (context_of skipped) 5 true)
     = P4EST_ERR_IO
  /\ option_map fc_accessed_bytes (res_context skipped20) = Some 96
  /\ fst (res_value (p4est_file_read_header (context_of skipped20) 5 true))
     = Some (list_ascii_of_string "hello").
Proof. vm_compute. repeat split; reflexivity. Qed.

(** C6, counterexample.  [p4est_file_read_header] with [header_size = 0]
    on the reader of the example file succeeds, and the context it leaves
    has [num_calls = 1] and [accessed_bytes = 80] where the reader had 0
    and 0. *)
Lemma C6_counterexample_read_header_zero :
  let FIO := example_io in
  let r := p4est_file_read_header example_reader 0 true in
  res_errcode r = sc_MPI_SUCCESS
  /\ fc_num_calls example_reader = 0
  /\ fc_accessed_bytes example_reader = 0
  /\ option_map fc_num_calls (res_context r) = Some 1
  /\ option_map fc_accessed_bytes (res_context r) = Some 80
  /\ res_context r <> Some example_reader.
Proof. vm_compute. repeat split; try reflexivity. discriminate. Qed.

(** C10, at the failing input.  The skip of a field section returns NULL
    with the success code, keeps the context and leaves the cursor behind
    the section (64 + 6 + 10 = 80 for the field of the example), so that the
    header section behind it is read.  The skip of the 20-byte header
    section with [header_size = 0] also returns NULL with the success code
    and keeps the context, but its cursor, 80, is not behind the section of
    96 bytes. *)
Theorem C10_skip_returns_null :
  let FIO := example_io in
  let fskip := p4est_file_read_field example_field_reader None in
  let hskip := p4est_file_read_header example_reader 0 true in
  option_map res_returned fskip = Some false
  /\ option_map res_errcode fskip = Some sc_MPI_SUCCESS
  /\ option_map (fun r => option_map fc_accessed_bytes (res_context r)) fskip
     = Some (Some (64 + 6 + pad_len 6))
  /\ fst (res_value (p4est_file_read_header
                       (match fskip with
                        | Some r => context_of r
                        | None => closed_context
                        end) 5 true))
     = Some (list_ascii_of_string "hello")
  /\ res_returned hskip = false
  /\ res_errcode hskip = sc_MPI_SUCCESS
  /\ option_map fc_accessed_bytes (res_context hskip) = Some 80
  /\ 80 < 64 + 20 + pad_len 20.
Proof. vm_compute. repeat split; reflexivity. Qed.

(** ** Error codes *)

Section ErrorCodes.
Context `{FIO : FileInterface}.

Lemma error_code_success :
  snd (p4est_file_error_code sc_MPI_SUCCESS) = sc_MPI_SUCCESS.
Proof.
  unfold p4est_file_error_code, sc_MPI_SUCCESS.
  cbn. now rewrite sc_io_error_class_success.
Qed.

(** C9 (as amended).  The count error is the value -1, which no
    non-negative code (MPI's and errno's are) equals, and the error-code
    normalisation returns it unchanged; every other code, the format error
    among them, is handed to the normalisation of the I/O layer.  The format
    error is no code of its own: it is the I/O error of the layer in use,
    [sc_MPI_ERR_IO] with MPI I/O and [EIO] without. *)
Theorem C9_error_classes :
  P4EST_FILE_COUNT_ERROR = -1
  /\ (forall code, 0 <= code -> code <> P4EST_FILE_COUNT_ERROR)
  /\ p4est_file_error_code P4EST_FILE_COUNT_ERROR
     = (sc_MPI_SUCCESS, P4EST_FILE_COUNT_ERROR)
  /\ P4EST_ERR_IO = (if P4EST_ENABLE_MPIIO then sc_MPI_ERR_IO else EIO)
  /\ (forall code, code <> P4EST_FILE_COUNT_ERROR ->
                   p4est_file_error_code code = sc_io_error_class code)
  /\ (0 <= P4EST_ERR_IO ->
      P4EST_ERR_IO <> P4EST_FILE_COUNT_ERROR
      /\ p4est_file_error_code P4EST_ERR_IO = sc_io_error_class P4EST_ERR_IO).
Proof.
  assert (Hother : forall code, code <> P4EST_FILE_COUNT_ERROR ->
                     p4est_file_error_code code = sc_io_error_class code).
  { intros code Hc. unfold p4est_file_error_code.
    now destruct (Z.eqb_spec code P4EST_FILE_COUNT_ERROR). }
  repeat split; try reflexivity.
  - intros code Hc. unfold P4EST_FILE_COUNT_ERROR. lia.
  - exact Hother.
  - unfold P4EST_FILE_COUNT_ERROR. lia.
  - apply Hother. unfold P4EST_FILE_COUNT_ERROR. lia.
Qed.

(** ** Calls with size zero *)

(** The cursor after a section has been passed is not where it was. *)
Lemma cursor_moved (a advance : Z) :
  0 < advance < 18446744073709551616 -> to_int64 (a + advance) <> a.
Proof.
  intros Hadv E. unfold to_int64, cast_signed in E.
  change (2 ^ 64) with 18446744073709551616 in E.
  change (2 ^ (64 - 1)) with 9223372036854775808 in E.
  pose proof (Z.mod_pos_bound (a + advance + 9223372036854775808)
                18446744073709551616 ltac:(lia)) as Hm.
  pose proof (Z.div_mod (a + advance + 9223372036854775808)
                18446744073709551616 ltac:(lia)) as Hd.
  nia.
Qed.

(** C6 (as amended).  [p4est_file_write_header] with [header_size = 0] and
    [p4est_file_write_field] with [elem_size = 0] return the context as it
    was, with the success code, and write nothing.  [p4est_file_read_header]
    with [header_size = 0] is the skip of a header section: it returns
    NULL, reads and checks the metadata of the next section, and the
    context is kept exactly when that check passes; then the error code is
    success, the file is as before, [num_calls] has been incremented and
    the cursor has been moved, by the 64 bytes of a section header and the
    16 bytes of padding that belong to a payload of [header_size = 0]
    bytes. *)
Theorem C6_zero_size_calls (fc : p4est_file_context_t)
    (header_data user_string content : bytes) (count : Z)
    (others : list sc_array_t) (want_data : bool) :
  let unchanged :=
    {| res_context := Some fc; res_returned := true;
       res_errcode := sc_MPI_SUCCESS; res_value := tt |} in
  let r := p4est_file_read_header fc 0 want_data in
  p4est_file_write_header fc 0 header_data user_string = Some unchanged
  /\ p4est_file_write_field fc
       ({| elem_size := 0; elem_count := count; array := content |} :: others)
       user_string = Some unchanged
  /\ res_returned r = false
  /\ match res_context r with
     | Some fc' =>
         res_returned (read_block_metadata fc 0 "H" false) = true
         /\ res_errcode r = sc_MPI_SUCCESS
         /\ fc_file fc' = fc_file fc
         /\ fc_num_calls fc' = to_size_t (fc_num_calls fc + 1)
         /\ fc_accessed_bytes fc' <> fc_accessed_bytes fc
         /\ fc_accessed_bytes fc' = to_int64 (fc_accessed_bytes fc + (64 + 16))
     | None => res_returned (read_block_metadata fc 0 "H" false) = false
     end.
Proof.
  cbn zeta. repeat split.
  - unfold p4est_file_write_header. cbn [Z.eqb]. now rewrite error_code_success.
  - unfold p4est_file_write_field. cbn [elem_size Z.eqb].
    now rewrite error_code_success.
  - unfold p4est_file_read_header. cbn [Z.eqb]. rewrite orb_true_r.
    now destruct (res_returned (read_block_metadata fc 0 "H" false)).
  - unfold p4est_file_read_header. cbn [Z.eqb].
    rewrite orb_true_r, error_code_success.
    destruct (res_returned (read_block_metadata fc 0 "H" false));
      cbn [negb res_context res_errcode file_error fc_advance fc_file
           fc_num_calls fc_accessed_bytes];
      [|reflexivity].
    change (0 + P4EST_NUM_FIELD_HEADER_BYTES
            + snd (get_padding_string 0 P4EST_BYTE_DIV false)) with (64 + 16).
    repeat split. apply cursor_moved. lia.
Qed.

End ErrorCodes.

(** C9, counterexample.  Without MPI I/O the format error is reported with
    errno's EIO, the very code the I/O layer gives for a failed read or
    write, and is normalised as that code is. *)
Lemma C9_counterexample_format_error_is_EIO :
  let FIO := example_io in
  P4EST_ERR_IO = EIO
  /\ p4est_file_error_code P4EST_ERR_IO = sc_io_error_class EIO.
Proof. vm_compute. split; reflexivity. Qed.

(** ** Writing sections *)

Lemma file_write_at_end (pre rest data : bytes) off :
  off = Z.of_nat (length pre) ->
  file_write_at (pre ++ rest) off data = pre ++ data ++ skipn (length data) rest.
Proof.
  intros ->. unfold file_write_at. rewrite Nat2Z.id.
  rewrite firstn_app, firstn_all, Nat.sub_diag. cbn [firstn].
  rewrite app_nil_r, length_app.
  replace (length pre - (length pre + length rest))%nat with 0%nat by lia.
  cbn [repeat app]. do 2 f_equal.
  rewrite skipn_app, skipn_all2 by lia. cbn [app]. f_equal. lia.
Qed.

Lemma sc_io_write_at_full f off (buf : bytes) n :
  n = Z.of_nat (length buf) ->
  sc_io_write_at f off buf n = (file_write_at f off buf, n).
Proof.
  intros ->. unfold sc_io_write_at. rewrite Nat2Z.id, firstn_all. reflexivity.
Qed.

Lemma set_size_extend (f : bytes) size :
  Z.of_nat (length f) <= size ->
  MPI_File_set_size f size
  = f ++ repeat NUL (Z.to_nat (size - Z.of_nat (length f))).
Proof.
  intros H. unfold MPI_File_set_size.
  rewrite firstn_all2 by lia. do 2 f_equal. lia.
Qed.

Lemma fmt_left_length w (s : bytes) :
  (Z.to_nat w <= length (fmt_left w s))%nat.
Proof. unfold fmt_left. rewrite length_app, repeat_length. lia. Qed.

Lemma fmt_left_fits w (s : bytes) :
  (length s <= Z.to_nat w)%nat -> length (fmt_left w s) = Z.to_nat w.
Proof. intros H. unfold fmt_left. rewrite length_app, repeat_length. lia. Qed.

Lemma fmt_llu_length p n : (p <= length (fmt_llu p n))%nat.
Proof. unfold fmt_llu. rewrite length_app, repeat_length. lia. Qed.

Section WriteProofs.
Context `{FIO : FileInterface}.

Lemma section_header_length t size us :
  length (section_header t size us) = 64%nat.
Proof.
  unfold section_header, snprintf.
  change (Z.to_nat (P4EST_NUM_FIELD_HEADER_BYTES + 1 - 1)) with 64%nat.
  rewrite length_firstn. cbn [length app].
  rewrite !length_app. cbn [length]. rewrite ?length_app. cbn [length].
  pose proof (fmt_llu_length 13 (to_size_t size)).
  pose proof (fmt_left_length 47 (cstring us)).
  change (Z.to_nat 47) with 47%nat in *. lia.
Qed.

Lemma padding_text_eq n :
  padding_text n = [LF] ++ repeat SP (Z.to_nat (pad_len n - 2)) ++ [LF].
Proof. unfold padding_text. now rewrite get_padding_string_text. Qed.

Lemma padding_text_length n : Z.of_nat (length (padding_text n)) = pad_len n.
Proof.
  pose proof (pad_len_range n).
  rewrite padding_text_eq. cbn [length app].
  rewrite length_app, repeat_length. cbn [length]. lia.
Qed.

(** The padding fits the buffer [pad] of the writers unless the payload
    has 15 bytes modulo 16. *)
Lemma pad_len_fits n : n mod 16 <> 15 -> pad_len n <= 16.
Proof.
  intros H. rewrite pad_len_cases.
  pose proof (Z.mod_pos_bound n 16 ltac:(lia)).
  destruct (n mod 16 =? 0); [lia|].
  destruct (Z.eqb_spec (n mod 16) 15); lia.
Qed.

Lemma pad_buffer_fits n : n mod 16 <> 15 -> pad_buffer n = Some (padding_text n).
Proof.
  intros H. pose proof (pad_len_fits n H) as Hfit.
  pose proof (padding_text_length n) as Hl.
  unfold pad_buffer, padding_text in *.
  rewrite get_padding_string_text in *.
  unfold P4EST_MAX_NUM_PAD_BYTES, P4EST_BYTE_DIV.
  destruct (Z.leb_spec (Z.of_nat (length ([LF] ++ repeat SP (Z.to_nat (pad_len n - 2))
                                          ++ [LF])) + 1) (16 + 1));
    [reflexivity | lia].
Qed.

Lemma pad_buffer_overflow n : n mod 16 = 15 -> pad_buffer n = None.
Proof.
  intros H. pose proof (padding_text_length n) as Hl.
  assert (Hp : pad_len n = 17) by (rewrite pad_len_cases, H; reflexivity).
  unfold pad_buffer, padding_text in *.
  rewrite get_padding_string_text in *.
  unfold P4EST_MAX_NUM_PAD_BYTES, P4EST_BYTE_DIV.
  destruct (Z.leb_spec (Z.of_nat (length ([LF] ++ repeat SP (Z.to_nat (pad_len n - 2))
                                          ++ [LF])) + 1) (16 + 1));
    [lia | reflexivity].
Qed.

Ltac unfold_constants :=
  unfold P4EST_NUM_FIELD_HEADER_BYTES, P4EST_NUM_ARRAY_METADATA_BYTES,
    P4EST_NUM_USER_STRING_BYTES, P4EST_NUM_METADATA_BYTES, P4EST_BYTE_DIV in *.

(** The file with room made by [MPI_File_set_size], or as it is. *)
Lemma set_size_or_not (file : bytes) (size : Z) :
  Z.of_nat (length file) <= size ->
  exists tail,
    (if P4EST_ENABLE_MPIIO then MPI_File_set_size file size else file)
    = file ++ tail
    /\ Z.of_nat (length tail) <= size - Z.of_nat (length file).
Proof.
  intros H. destruct P4EST_ENABLE_MPIIO.
  - rewrite set_size_extend by assumption. eexists. split; [reflexivity|].
    rewrite repeat_length. lia.
  - exists []. rewrite app_nil_r. cbn. split; [reflexivity | lia].
Qed.

(** A successful [p4est_file_write_header] appends the section to the file
    and moves the cursor by its length. *)
Lemma write_header_success fc header_size header_data user_string :
  at_end_of_file fc ->
  0 < header_size < 2147483648 ->
  header_size mod 16 <> 15 ->
  Z.of_nat (length header_data) = header_size ->
  fc_accessed_bytes fc < 9223372036854775808 - 4294967296 ->
  p4est_file_write_header fc header_size header_data user_string
  = Some {| res_context :=
              Some (fc_advance fc
                      (fc_file fc
                       ++ section_bytes "H" header_size user_string header_data)
                      (header_size + 64 + pad_len header_size));
            res_returned := true; res_errcode := sc_MPI_SUCCESS;
            res_value := tt |}.
Proof.
  intros [Hab Hlen] Hhs Hfits Hhd Hroom.
  pose proof (pad_len_range header_size) as Hpad.
  pose proof (padding_text_length header_size) as Hpl.
  unfold p4est_file_write_header.
  rewrite (pad_buffer_fits header_size Hfits).
  destruct (Z.eqb_spec header_size 0); [lia|].
  change (snd (get_padding_string header_size P4EST_BYTE_DIV true))
    with (pad_len header_size).
  rewrite error_code_success.
  destruct (set_size_or_not (fc_file fc)
              (to_int64 (P4EST_NUM_METADATA_BYTES + P4EST_BYTE_DIV + header_size
                         + P4EST_NUM_FIELD_HEADER_BYTES + fc_accessed_bytes fc)))
    as (tail & -> & Htail).
  { unfold_constants. rewrite to_int64_id by lia. lia. }
  unfold_constants. rewrite to_int64_id in Htail by lia.
  rewrite !to_int64_id by lia.
  (* the section header *)
  rewrite (sc_io_write_at_full _ _ (section_header "H" header_size user_string))
    by (rewrite section_header_length; reflexivity).
  rewrite file_write_at_end by lia.
  cbn [Z.eqb negb]. change (2 + 14 + 48 =? 2 + 14 + 48) with true. cbn [negb].
  (* the header data *)
  rewrite (sc_io_write_at_full _ _ header_data) by lia.
  rewrite !to_int32_id by lia.
  rewrite Z.eqb_refl. cbn [negb].
  rewrite (app_assoc (fc_file fc)).
  rewrite file_write_at_end
    by (rewrite length_app, section_header_length; lia).
  (* the padding *)
  rewrite (sc_io_write_at_full _ _ (padding_text header_size)) by lia.
  rewrite Z.eqb_refl. cbn [negb].
  rewrite (app_assoc (fc_file fc ++ _)).
  rewrite file_write_at_end
    by (rewrite !length_app, section_header_length; lia).
  rewrite !skipn_all2
    by (rewrite ?length_skipn, ?section_header_length; lia).
  unfold section_bytes. rewrite Hhd, !app_nil_r, <- !app_assoc.
  reflexivity.
Qed.


(** The collective write: rank after rank appends its array behind those
    of the ranks before it. *)
Lemma write_field_ranks fc gfq es :
  0 < es -> 0 <= fc_accessed_bytes fc ->
  forall qd r0 base done tail errs,
    (forall i q, nth_error qd i = Some q ->
       elem_size q = es
       /\ elem_count q = at_index gfq (Z.of_nat (r0 + i) + 1)
                         - at_index gfq (Z.of_nat (r0 + i))
       /\ 0 <= elem_count q
       /\ Z.of_nat (length (array q)) = es * elem_count q
       /\ es * elem_count q < 2147483648) ->
    (r0 + length qd < length gfq)%nat ->
    Z.of_nat (length base) = fc_accessed_bytes fc + 80 + 64 ->
    Z.of_nat (length done) = at_index gfq (Z.of_nat r0) * es ->
    0 <= at_index gfq (Z.of_nat r0) ->
    fc_accessed_bytes fc + 144
    + (at_index gfq (Z.of_nat r0) * es
       + Z.of_nat (length (concat (map array qd)))) < 9223372036854775808 ->
    foldM (write_field_rank fc gfq)
          (combine (map Z.of_nat (seq r0 (length qd))) qd)
          (base ++ done ++ tail, errs)
    = Some (base ++ (done ++ concat (map array qd))
                 ++ skipn (length (concat (map array qd))) tail,
            errs ++ repeat false (length qd)).
Proof.
  intros Hes Hab.
  induction qd as [|q qd IH]; intros r0 base done tail errs Hq Hr Hbase Hdone Hg Hroom.
  - cbn. now rewrite !app_nil_r.
  - cbn [length seq map combine foldM concat] in *.
    destruct (Hq 0%nat q eq_refl) as (Hs & Hc & Hc0 & Ha & Hlt).
    rewrite Nat.add_0_r in Hc. rewrite length_app in Hroom.
    unfold write_field_rank at 1. cbn [fst snd].
    rewrite nthZ_at_index by lia.
    unfold write_offset. rewrite Hs. unfold_constants.
    rewrite to_size_t_id by nia.
    rewrite (to_int64_id (64 + 16 + _)) by nia.
    rewrite to_int64_id by nia.
    rewrite (sc_io_write_at_full _ _ (array q)) by nia.
    rewrite to_int32_id by nia.
    replace (elem_count q * es =? elem_count q * es) with true
      by (symmetry; apply Z.eqb_refl).
    cbn [negb].
    rewrite (app_assoc base done).
    rewrite file_write_at_end by (rewrite length_app; nia).
    rewrite <- (app_assoc base done).
    rewrite (app_assoc done (array q)).
    rewrite (IH (S r0) base (done ++ array q) (skipn (length (array q)) tail)).
    + rewrite skipn_skipn, <- !app_assoc. cbn [app repeat].
      rewrite length_app, (Nat.add_comm (length (array q))). reflexivity.
    + intros i q' Hi. specialize (Hq (S i) q' Hi).
      now rewrite Nat.add_succ_r in Hq.
    + lia.
    + exact Hbase.
    + rewrite length_app.
      replace (Z.of_nat (S r0)) with (Z.of_nat r0 + 1) by lia. nia.
    + replace (Z.of_nat (S r0)) with (Z.of_nat r0 + 1) by lia. lia.
    + replace (Z.of_nat (S r0)) with (Z.of_nat r0 + 1) by lia. nia.
Qed.

Lemma field_data_length N gfq es qd :
  field_data_ok N gfq es qd ->
  Z.of_nat (length (concat (map array qd))) = N * es /\ 0 <= N.
Proof.
  intros [Hr H0 Hn Ha].
  assert (H : forall k, (k <= length qd)%nat ->
            Z.of_nat (length (concat (map array (firstn k qd))))
            = at_index gfq (Z.of_nat k) * es
            /\ 0 <= at_index gfq (Z.of_nat k)).
  { induction k as [|k IHk]; intros Hk.
    - cbn. change (Z.of_nat 0) with 0. rewrite H0. lia.
    - destruct (nth_error qd k) as [q|] eqn:Eq.
      2:{ apply nth_error_None in Eq. lia. }
      rewrite (firstn_S_nth _ _ _ Eq), map_app, concat_app, length_app.
      cbn [map concat]. rewrite app_nil_r.
      destruct (Ha k q Eq) as (_ & Hc & Hc0 & Hl & _).
      destruct (IHk ltac:(lia)) as [IH1 IH2].
      replace (Z.of_nat (S k)) with (Z.of_nat k + 1) by lia. nia. }
  specialize (H (length qd) (le_n _)). rewrite firstn_all, Hn in H. exact H.
Qed.


Lemma existsb_repeat_false n : existsb (fun e : bool => e) (repeat false n) = false.
Proof. induction n; cbn; auto. Qed.

(** A successful [p4est_file_write_field] appends the section whose
    payload is the arrays of the ranks one after the other. *)
Lemma write_field_success fc gfq es qd user_string :
  at_end_of_file fc ->
  fc_global_first_quadrant fc = Some gfq ->
  field_data_ok (fc_global_num_quadrants fc) gfq es qd ->
  (fc_global_num_quadrants fc * es) mod 16 <> 15 ->
  0 < es -> qd <> [] ->
  fc_accessed_bytes fc + fc_global_num_quadrants fc * es
    < 9223372036854775808 - 4294967296 ->
  p4est_file_write_field fc qd user_string
  = Some {| res_context :=
              Some (fc_advance fc
                      (fc_file fc
                       ++ section_bytes "F" es user_string (concat (map array qd)))
                      (fc_global_num_quadrants fc * es + 64
                       + pad_len (fc_global_num_quadrants fc * es)));
            res_returned := true; res_errcode := sc_MPI_SUCCESS;
            res_value := tt |}.
Proof.
  intros [Hab Hlen] Hgfq Hfd Hfits Hes Hne Hroom.
  destruct (field_data_length _ _ _ _ Hfd) as [Hpay HN].
  pose proof Hfd as [Hr H0 Hn Ha].
  destruct qd as [|q0 rest]; [congruence|]. clear Hne.
  destruct (Ha 0%nat q0 eq_refl) as (Hs & _).
  set (N := fc_global_num_quadrants fc) in *.
  pose proof (pad_len_range (N * es)) as Hpad.
  pose proof (padding_text_length (N * es)) as Hpl.
  unfold p4est_file_write_field. rewrite Hs, Hgfq.
  destruct (Z.eqb_spec es 0); [lia|].
  rewrite nthZ_at_index by (rewrite Hr; cbn [length]; lia).
  rewrite H0, error_code_success.
  change (write_offset 0 es) with (to_int64 (P4EST_NUM_METADATA_BYTES + P4EST_BYTE_DIV + 0 * es)).
  fold N.
  change (snd (get_padding_string (to_size_t (N * es)) P4EST_BYTE_DIV true))
    with (pad_len (to_size_t (N * es))).
  destruct (set_size_or_not (fc_file fc)
              (to_int64 (P4EST_NUM_METADATA_BYTES + P4EST_BYTE_DIV + N * es
                         + P4EST_NUM_FIELD_HEADER_BYTES + fc_accessed_bytes fc)))
    as (tail & -> & Htail).
  { unfold_constants. rewrite to_int64_id by nia. nia. }
  unfold_constants. rewrite to_int64_id in Htail by nia.
  rewrite (to_int64_id (64 + 16 + 0 * es)) by lia.
  rewrite (to_int64_id (fc_accessed_bytes fc + (64 + 16 + 0 * es))) by lia.
  (* the section header *)
  rewrite (sc_io_write_at_full _ _ (section_header "F" es user_string))
    by (rewrite section_header_length; reflexivity).
  rewrite file_write_at_end by lia.
  change (2 + 14 + 48 =? 2 + 14 + 48) with true. cbn [negb].
  (* the arrays of the ranks *)
  unfold rank_indices.
  rewrite (app_assoc (fc_file fc)).
  change (skipn (length (section_header "F" es user_string)) tail)
    with ([] ++ skipn (length (section_header "F" es user_string)) tail).
  rewrite (write_field_ranks fc gfq es Hes Hab (q0 :: rest) 0%nat).
  2:{ intros i q Hi. cbn [Nat.add]. apply (Ha i q Hi). }
  2:{ rewrite Hr. cbn [length]. lia. }
  2:{ rewrite length_app, section_header_length. lia. }
  2:{ cbn [length]. change (Z.of_nat 0) with 0. rewrite H0. lia. }
  2:{ change (Z.of_nat 0) with 0. rewrite H0. lia. }
  2:{ change (Z.of_nat 0) with 0. rewrite H0, Hpay. nia. }
  cbn [app]. rewrite existsb_repeat_false.
  (* the padding *)
  rewrite (to_size_t_id (N * es)) by nia.
  rewrite (to_size_t_id (es * N)) by nia.
  rewrite to_int64_id by nia.
  rewrite (pad_buffer_fits (N * es) Hfits).
  rewrite (sc_io_write_at_full _ _ (padding_text (N * es))) by lia.
  rewrite to_int32_id by lia. rewrite Z.eqb_refl. cbn [negb].
  rewrite (app_assoc _ (concat (map array (q0 :: rest)))).
  rewrite file_write_at_end
    by (rewrite !length_app, section_header_length; lia).
  rewrite !skipn_all2
    by (rewrite ?length_skipn, ?section_header_length; lia).
  unfold section_bytes. rewrite Hpay, !app_nil_r, <- !app_assoc.
  do 4 f_equal. lia.
Qed.

Lemma to_int32_range v : - 2147483648 <= to_int32 v < 2147483648.
Proof.
  unfold to_int32, cast_signed.
  change (2 ^ 32) with 4294967296. change (2 ^ (32 - 1)) with 2147483648.
  pose proof (Z.mod_pos_bound (v + 2147483648) 4294967296 ltac:(lia)). lia.
Qed.

(** A header block of a size of 15 modulo 16: the padding of 17 bytes and
    its NUL do not fit the buffer [pad]. *)
Lemma write_header_pad_overflow fc header_size header_data user_string :
  at_end_of_file fc ->
  0 < header_size < 2147483648 ->
  header_size mod 16 = 15 ->
  Z.of_nat (length header_data) = header_size ->
  fc_accessed_bytes fc < 9223372036854775808 - 4294967296 ->
  p4est_file_write_header fc header_size header_data user_string = None.
Proof.
  intros [Hab Hlen] Hhs Hfits Hhd Hroom.
  unfold p4est_file_write_header.
  rewrite (pad_buffer_overflow header_size Hfits).
  destruct (Z.eqb_spec header_size 0); [lia|].
  destruct (set_size_or_not (fc_file fc)
              (to_int64 (P4EST_NUM_METADATA_BYTES + P4EST_BYTE_DIV + header_size
                         + P4EST_NUM_FIELD_HEADER_BYTES + fc_accessed_bytes fc)))
    as (tail & -> & Htail).
  { unfold_constants. rewrite to_int64_id by lia. lia. }
  unfold_constants. rewrite to_int64_id in Htail by lia.
  rewrite !to_int64_id by lia.
  rewrite (sc_io_write_at_full _ _ (section_header "H" header_size user_string))
    by (rewrite section_header_length; reflexivity).
  rewrite file_write_at_end by lia.
  cbn [Z.eqb negb]. change (2 + 14 + 48 =? 2 + 14 + 48) with true. cbn [negb].
  rewrite (sc_io_write_at_full _ _ header_data) by lia.
  rewrite !to_int32_id by lia.
  rewrite Z.eqb_refl. cbn [negb].
  reflexivity.
Qed.
(** A field of a size of 15 modulo 16: the padding of 17 bytes and its NUL
    do not fit the buffer [pad]. *)
Lemma write_field_pad_overflow fc gfq es qd user_string :
  at_end_of_file fc ->
  fc_global_first_quadrant fc = Some gfq ->
  field_data_ok (fc_global_num_quadrants fc) gfq es qd ->
  (fc_global_num_quadrants fc * es) mod 16 = 15 ->
  0 < es -> qd <> [] ->
  fc_accessed_bytes fc + fc_global_num_quadrants fc * es
    < 9223372036854775808 - 4294967296 ->
  p4est_file_write_field fc qd user_string = None.
Proof.
  intros [Hab Hlen] Hgfq Hfd Hfits Hes Hne Hroom.
  destruct (field_data_length _ _ _ _ Hfd) as [Hpay HN].
  pose proof Hfd as [Hr H0 Hn Ha].
  destruct qd as [|q0 rest]; [congruence|]. clear Hne.
  destruct (Ha 0%nat q0 eq_refl) as (Hs & _).
  set (N := fc_global_num_quadrants fc) in *.
  unfold p4est_file_write_field. rewrite Hs, Hgfq.
  destruct (Z.eqb_spec es 0); [lia|].
  rewrite nthZ_at_index by (rewrite Hr; cbn [length]; lia).
  rewrite H0.
  change (write_offset 0 es) with (to_int64 (P4EST_NUM_METADATA_BYTES + P4EST_BYTE_DIV + 0 * es)).
  fold N.
  destruct (set_size_or_not (fc_file fc)
              (to_int64 (P4EST_NUM_METADATA_BYTES + P4EST_BYTE_DIV + N * es
                         + P4EST_NUM_FIELD_HEADER_BYTES + fc_accessed_bytes fc)))
    as (tail & -> & Htail).
  { unfold_constants. rewrite to_int64_id by nia. nia. }
  unfold_constants. rewrite to_int64_id in Htail by nia.
  rewrite (to_int64_id (64 + 16 + 0 * es)) by lia.
  rewrite (to_int64_id (fc_accessed_bytes fc + (64 + 16 + 0 * es))) by lia.
  rewrite (sc_io_write_at_full _ _ (section_header "F" es user_string))
    by (rewrite section_header_length; reflexivity).
  rewrite file_write_at_end by lia.
  change (2 + 14 + 48 =? 2 + 14 + 48) with true. cbn [negb].
  unfold rank_indices.
  rewrite (app_assoc (fc_file fc)).
  change (skipn (length (section_header "F" es user_string)) tail)
    with ([] ++ skipn (length (section_header "F" es user_string)) tail).
  rewrite (write_field_ranks fc gfq es Hes Hab (q0 :: rest) 0%nat).
  2:{ intros i q Hi. cbn [Nat.add]. apply (Ha i q Hi). }
  2:{ rewrite Hr. cbn [length]. lia. }
  2:{ rewrite length_app, section_header_length. lia. }
  2:{ cbn [length]. change (Z.of_nat 0) with 0. rewrite H0. lia. }
  2:{ change (Z.of_nat 0) with 0. rewrite H0. lia. }
  2:{ change (Z.of_nat 0) with 0. rewrite H0, Hpay. nia. }
  cbn [app]. rewrite existsb_repeat_false.
  rewrite (to_size_t_id (N * es)) by nia.
  rewrite (pad_buffer_overflow (N * es) Hfits).
  reflexivity.
Qed.

(** A field on one rank that holds 2^31 bytes or more (and less than 2^32):
    the count of the bytes written is not the byte number cut to an
    [int], and the call ends with the count error. *)
Lemma write_field_count_error fc es q user_string :
  at_end_of_file fc ->
  fc_global_first_quadrant fc = Some [0; fc_global_num_quadrants fc] ->
  fc_mpirank fc = 0 ->
  elem_size q = es -> 0 < es ->
  elem_count q = fc_global_num_quadrants fc ->
  Z.of_nat (length (array q)) = es * elem_count q ->
  2147483648 <= es * elem_count q < 4294967296 ->
  fc_accessed_bytes fc < 4611686018427387904 ->
  p4est_file_write_field fc [q] user_string
  = Some {| res_context := None; res_returned := false;
            res_errcode := P4EST_FILE_COUNT_ERROR; res_value := tt |}.
Proof.
  intros [Hab Hlen] Hgfq Hrank Hs Hes Hcount Harr Hbig Hroom.
  set (N := fc_global_num_quadrants fc) in *.
  unfold p4est_file_write_field. rewrite Hs, Hgfq.
  destruct (Z.eqb_spec es 0); [lia|].
  change (nthZ [0; N] 0) with (Some 0).
  change (write_offset 0 es) with (to_int64 (P4EST_NUM_METADATA_BYTES + P4EST_BYTE_DIV + 0 * es)).
  fold N.
  destruct (set_size_or_not (fc_file fc)
              (to_int64 (P4EST_NUM_METADATA_BYTES + P4EST_BYTE_DIV + N * es
                         + P4EST_NUM_FIELD_HEADER_BYTES + fc_accessed_bytes fc)))
    as (tail & -> & Htail).
  { unfold_constants. rewrite to_int64_id by nia. nia. }
  unfold write_offset.
  unfold_constants. rewrite to_int64_id in Htail by nia.
  rewrite (to_int64_id (64 + 16 + 0 * es)) by lia.
  rewrite (to_int64_id (fc_accessed_bytes fc + (64 + 16 + 0 * es))) by lia.
  rewrite (sc_io_write_at_full _ _ (section_header "F" es user_string))
    by (rewrite section_header_length; reflexivity).
  rewrite file_write_at_end by lia.
  change (2 + 14 + 48 =? 2 + 14 + 48) with true. cbn [negb].
  unfold rank_indices. cbn [length seq map combine foldM].
  change (Z.of_nat 0) with 0.
  unfold write_field_rank, write_offset. cbn [fst snd].
  change (nthZ [0; N] 0) with (Some 0).
  rewrite Hs, Hcount.
  rewrite (to_size_t_id (N * es)) by nia.
  rewrite (sc_io_write_at_full _ _ (array q)) by nia.
  destruct (Z.eqb_spec (to_int32 (N * es)) (N * es)) as [E|E].
  { pose proof (to_int32_range (N * es)). nia. }
  cbn [negb app existsb orb]. rewrite Hrank.
  reflexivity.
Qed.

End WriteProofs.

Ltac concrete_field_ok :=
  constructor;
  [ reflexivity | reflexivity | reflexivity
  | let r := fresh "r" in let q := fresh "q" in let H := fresh "H" in
    intros r q H;
    destruct r as [|[|[|r]]]; cbn in H; try discriminate H;
    inversion H; subst q; decide_cmp ].


Lemma example_records_length n :
  0 <= n ->
  Z.of_nat (length (array (example_records n)))
  = 1 * elem_count (example_records n).
Proof.
  intros Hn. unfold example_records. cbn [array elem_count].
  rewrite repeat_length. lia.
Qed.



(** ** Decimal fields *)

Lemma digit_is_digit d :
  0 <= d <= 9 ->
  is_digit (digit d) = true /\ Z.of_nat (nat_of_ascii (digit d)) - 48 = d.
Proof.
  intros H.
  assert (C : d = 0 \/ d = 1 \/ d = 2 \/ d = 3 \/ d = 4 \/ d = 5 \/ d = 6
              \/ d = 7 \/ d = 8 \/ d = 9) by lia.
  repeat (destruct C as [C|C]); subst d; split; reflexivity.
Qed.

Lemma digits_fuel_digits fuel : forall n,
  0 <= n -> Forall (fun c => is_digit c = true) (digits_fuel fuel n).
Proof.
  induction fuel as [|f IH]; intros n Hn; cbn [digits_fuel]; [constructor|].
  destruct (Z.ltb_spec n 10).
  - constructor; [|constructor]. apply digit_is_digit. lia.
  - apply Forall_app. split.
    + apply IH. apply Z.div_pos; lia.
    + constructor; [|constructor]. apply digit_is_digit.
      pose proof (Z.mod_pos_bound n 10). lia.
Qed.

Lemma parse_digits_app ds : forall acc rest,
  Forall (fun c => is_digit c = true) ds ->
  parse_digits acc (ds ++ rest)
  = parse_digits (fold_left (fun a c => a * 10 + (Z.of_nat (nat_of_ascii c) - 48))
                            ds acc) rest.
Proof.
  induction ds as [|c ds IH]; intros acc rest H; [reflexivity|].
  cbn [app parse_digits fold_left]. rewrite (Forall_inv H).
  apply IH. exact (Forall_inv_tail H).
Qed.

Lemma digits_fuel_value fuel : forall n acc,
  0 <= n < 2 ^ Z.of_nat fuel ->
  fold_left (fun a c => a * 10 + (Z.of_nat (nat_of_ascii c) - 48))
            (digits_fuel fuel n) acc
  = acc * 10 ^ Z.of_nat (length (digits_fuel fuel n)) + n.
Proof.
  induction fuel as [|f IH]; intros n acc Hn.
  - change (2 ^ Z.of_nat 0) with 1 in Hn. cbn [digits_fuel fold_left length].
    change (10 ^ Z.of_nat 0) with 1. lia.
  - cbn [digits_fuel]. destruct (Z.ltb_spec n 10).
    + cbn [fold_left length].
      destruct (digit_is_digit n ltac:(lia)) as [_ ->].
      change (10 ^ Z.of_nat 1) with 10. lia.
    + rewrite fold_left_app. cbn [fold_left].
      assert (Hdiv : 0 <= n / 10 < 2 ^ Z.of_nat f).
      { split; [apply Z.div_pos; lia|].
        apply Z.div_lt_upper_bound; [lia|].
        rewrite Nat2Z.inj_succ, Z.pow_succ_r in Hn by lia. lia. }
      rewrite (IH (n / 10) acc Hdiv).
      pose proof (Z.mod_pos_bound n 10 ltac:(lia)).
      destruct (digit_is_digit (n mod 10) ltac:(lia)) as [_ ->].
      rewrite length_app. cbn [length].
      rewrite Nat.add_1_r, Nat2Z.inj_succ, Z.pow_succ_r by lia.
      pose proof (Z.div_mod n 10 ltac:(lia)). lia.
Qed.

Lemma digits_fuel_length fuel : forall n k,
  0 <= n < 10 ^ Z.of_nat k -> (1 <= k)%nat ->
  (length (digits_fuel fuel n) <= k)%nat.
Proof.
  induction fuel as [|f IH]; intros n k Hn Hk; cbn [digits_fuel length]; [lia|].
  destruct (Z.ltb_spec n 10); [cbn; lia|].
  rewrite length_app. cbn [length].
  destruct k as [|k]; [lia|].
  destruct k as [|k]; [cbn in Hn; lia|].
  assert (Hdiv : 0 <= n / 10 < 10 ^ Z.of_nat (S k)).
  { split; [apply Z.div_pos; lia|].
    apply Z.div_lt_upper_bound; [lia|].
    rewrite (Nat2Z.inj_succ (S k)), Z.pow_succ_r in Hn by lia. lia. }
  specialize (IH (n / 10) (S k) Hdiv ltac:(lia)). lia.
Qed.

Lemma decimal_spec n :
  0 <= n ->
  Forall (fun c => is_digit c = true) (decimal n)
  /\ (forall acc rest,
        parse_digits acc (decimal n ++ rest)
        = parse_digits (acc * 10 ^ Z.of_nat (length (decimal n)) + n) rest)
  /\ (1 <= length (decimal n))%nat.
Proof.
  intros Hn. unfold decimal.
  assert (Hf : 0 <= n < 2 ^ Z.of_nat (S (Z.to_nat (Z.log2 n)))).
  { split; [lia|].
    destruct (Z.eq_dec n 0) as [->|]; [cbn; lia|].
    pose proof (Z.log2_spec n ltac:(lia)) as [_ Hl].
    pose proof (Z.log2_nonneg n).
    rewrite Nat2Z.inj_succ, Z2Nat.id by lia. exact Hl. }
  split; [apply digits_fuel_digits; lia|]. split.
  - intros acc rest.
    rewrite parse_digits_app by (apply digits_fuel_digits; lia).
    now rewrite digits_fuel_value.
  - cbn [digits_fuel]. destruct (n <? 10); [cbn; lia|].
    rewrite length_app. cbn. lia.
Qed.

Lemma parse_zeros k : forall rest,
  parse_digits 0 (repeat "0"%char k ++ rest) = parse_digits 0 rest.
Proof. induction k as [|k IH]; intros rest; [reflexivity|]. cbn. apply IH. Qed.

(** The 13-digit field of a data size below 10^13. *)
Lemma fmt_llu_13 n :
  0 <= n <= 9999999999999 ->
  length (fmt_llu 13 n) = 13%nat
  /\ Forall (fun c => is_digit c = true) (fmt_llu 13 n)
  /\ forall rest, parse_digits 0 (fmt_llu 13 n ++ rest) = parse_digits n rest.
Proof.
  intros Hn. destruct (decimal_spec n ltac:(lia)) as (Hd & Hp & H1).
  assert (Hl : (length (decimal n) <= 13)%nat).
  { unfold decimal. apply digits_fuel_length; [|lia].
    change (10 ^ Z.of_nat 13) with 10000000000000. lia. }
  unfold fmt_llu. cbn zeta. repeat split.
  - rewrite length_app, repeat_length. lia.
  - apply Forall_app. split; [|exact Hd].
    apply Forall_forall. intros c Hc. apply repeat_spec in Hc. now subst c.
  - intros rest. rewrite <- app_assoc, parse_zeros, Hp. f_equal; lia.
Qed.

(** ** C strings and numbers in a buffer *)

Lemma cstring_nul (x r : bytes) : cstring (x ++ NUL :: r) = cstring x.
Proof.
  induction x as [|c x IH]; [reflexivity|].
  cbn [app cstring]. destruct (Ascii.eqb c NUL); [reflexivity|]. now rewrite IH.
Qed.

Lemma cstring_id (x : bytes) :
  Forall (fun c => c <> NUL) x -> cstring x = x.
Proof.
  induction 1 as [|c x Hc _ IH]; [reflexivity|].
  cbn [cstring]. destruct (Ascii.eqb_spec c NUL); [contradiction|]. now rewrite IH.
Qed.

Lemma cstring_no_nul (x : bytes) : Forall (fun c => c <> NUL) (cstring x).
Proof.
  induction x as [|c x IH]; cbn [cstring]; [constructor|].
  destruct (Ascii.eqb_spec c NUL); constructor; assumption.
Qed.

Lemma sc_atol_nul (x r : bytes) : sc_atol (x ++ NUL :: r) = sc_atol x.
Proof. unfold sc_atol. now rewrite cstring_nul. Qed.

Lemma sc_atol_digits (ds : bytes) :
  Forall (fun c => is_digit c = true) ds ->
  sc_atol ds = parse_digits 0 ds.
Proof.
  intros H. unfold sc_atol.
  rewrite cstring_id.
  2:{ eapply Forall_impl; [|exact H]. intros c Hc ->. discriminate Hc. }
  destruct H as [|c ds Hc _]; [reflexivity|].
  cbn [skip_spaces].
  assert (Hs : is_space c = false).
  { unfold is_digit, is_space in *. cbn zeta in *.
    apply andb_true_iff in Hc. destruct Hc as [H1 H2].
    apply Nat.leb_le in H1. apply Nat.leb_le in H2.
    apply orb_false_iff. split.
    - apply Nat.eqb_neq. lia.
    - apply andb_false_iff. right. apply Nat.leb_gt. lia. }
  rewrite Hs.
  destruct (Ascii.eqb_spec c "-"); [subst c; discriminate Hc|].
  destruct (Ascii.eqb_spec c "+"); [subst c; discriminate Hc|].
  reflexivity.
Qed.

Lemma to_size_t_range v : 0 <= to_size_t v < 18446744073709551616.
Proof. unfold to_size_t, cast_unsigned. apply Z.mod_pos_bound. reflexivity. Qed.

(** ** Reading the file *)

Lemma sc_io_read_at_eq (file : bytes) off n :
  0 <= off ->
  sc_io_read_at file off n
  = (firstn (Z.to_nat n) (skipn (Z.to_nat off) file),
     Z.of_nat (length (firstn (Z.to_nat n) (skipn (Z.to_nat off) file)))).
Proof.
  intros H. unfold sc_io_read_at.
  destruct (Z.ltb_spec off 0); [lia|]. cbn [orb].
  destruct (Z.leb_spec (Z.of_nat (length file)) off); [|reflexivity].
  rewrite skipn_all2 by lia. now rewrite firstn_nil.
Qed.

Lemma byte_at_skipn (l : bytes) k i :
  0 <= k -> 0 <= i -> byte_at (skipn (Z.to_nat k) l) i = byte_at l (k + i).
Proof.
  intros Hk Hi. unfold byte_at. rewrite Z2Nat.inj_add by lia.
  generalize (Z.to_nat k) as a. clear Hk. intros a. revert l.
  induction a as [|a IH]; intros l; [reflexivity|].
  destruct l as [|c l]; cbn [skipn Nat.add nth]; [now destruct (Z.to_nat i)|apply IH].
Qed.

Lemma byte_at_firstn (l : bytes) n i :
  0 <= i < n -> byte_at (firstn (Z.to_nat n) l) i = byte_at l i.
Proof.
  intros Hi. unfold byte_at.
  assert (H : (Z.to_nat i < Z.to_nat n)%nat) by lia.
  revert H. generalize (Z.to_nat i) as a, (Z.to_nat n) as b. clear Hi. intros a b. revert a l.
  induction b as [|b IH]; intros a l H; [lia|].
  destruct l as [|c l]; [reflexivity|]. destruct a as [|a]; [reflexivity|].
  cbn [firstn nth]. apply IH. lia.
Qed.

Lemma byte_at_app1 (a b : bytes) i :
  0 <= i < Z.of_nat (length a) -> byte_at (a ++ b) i = byte_at a i.
Proof. intros H. unfold byte_at. apply app_nth1. lia. Qed.

(** ** One pass of the scan *)

Ltac explode_list h Hlen :=
  repeat (destruct h as [|? h];
          [discriminate Hlen | cbn [length] in Hlen; apply Nat.succ_inj in Hlen]);
  destruct h; [clear Hlen | discriminate Hlen].

(** The first 64 bytes of a list that has them, one by one. *)
Lemma header_bytes (s : bytes) :
  (64 <= length s)%nat ->
  exists h t, s = h ++ t /\ length h = 64%nat.
Proof.
  intros H. exists (firstn 64 s), (skipn 64 s). split.
  - now rewrite firstn_skipn.
  - rewrite length_firstn. lia.
Qed.

Ltac scan_header_number :=
  match goal with
  | |- context [sc_atol (?c0 :: ?c1 :: ?c2 :: ?c3 :: ?c4 :: ?c5 :: ?c6 :: ?c7
                          :: ?c8 :: ?c9 :: ?c10 :: ?c11 :: ?c12 :: NUL :: ?r)] =>
      change (sc_atol (c0 :: c1 :: c2 :: c3 :: c4 :: c5 :: c6 :: c7
                        :: c8 :: c9 :: c10 :: c11 :: c12 :: NUL :: r))
        with (sc_atol ([c0; c1; c2; c3; c4; c5; c6; c7; c8; c9; c10; c11; c12]
                        ++ NUL :: r));
      rewrite sc_atol_nul
  end.

Ltac scan_tests :=
  repeat match goal with
         | |- (if negb ?c then ScanStop _ else _) = _ =>
             destruct c eqn:?; cbn [negb]; try reflexivity
         end.

Section ScanProofs.
Context `{FIO : FileInterface}.

(** The padding of a section, read where its header puts it. *)
Lemma padding_read file pos cs :
  0 <= pos -> Z.of_nat (length file) < 4611686018427387904 -> 0 <= cs ->
  64 + cs + pad_len cs <= Z.of_nat (length (skipn (Z.to_nat pos) file)) ->
  exists pad,
    sc_io_read_at file (to_int64 (pos + 64 + cs)) (pad_len cs) = (pad, pad_len cs)
    /\ length pad = Z.to_nat (pad_len cs)
    /\ nth 0 pad NUL = byte_at (skipn (Z.to_nat pos) file) (64 + cs)
    /\ nth (Z.to_nat (pad_len cs - 1)) pad NUL
       = byte_at (skipn (Z.to_nat pos) file) (64 + cs + pad_len cs - 1).
Proof.
  intros Hpos Hfile Hcs Hfit.
  set (s := skipn (Z.to_nat pos) file) in *.
  pose proof (pad_len_range cs) as Hnp.
  assert (Hslen : pos + Z.of_nat (length s) = Z.of_nat (length file)).
  { unfold s in *. rewrite length_skipn in *. lia. }
  exists (firstn (Z.to_nat (pad_len cs)) (skipn (Z.to_nat (64 + cs)) s)).
  repeat split.
  - rewrite to_int64_id by lia. rewrite sc_io_read_at_eq by lia.
    unfold s. rewrite skipn_skipn.
    replace (Z.to_nat (64 + cs) + Z.to_nat pos)%nat
      with (Z.to_nat (pos + 64 + cs)) by lia.
    f_equal. rewrite length_firstn, length_skipn.
    unfold s in Hfit. rewrite length_skipn in Hfit. lia.
  - rewrite length_firstn, length_skipn. lia.
  - change (nth 0 ?l NUL) with (byte_at l 0).
    rewrite byte_at_firstn, byte_at_skipn by lia. now rewrite Z.add_0_r.
  - change (nth (Z.to_nat ?i) ?l NUL) with (byte_at l i).
    rewrite byte_at_firstn, byte_at_skipn by lia.
    now replace (64 + cs + (pad_len cs - 1)) with (64 + cs + pad_len cs - 1) by lia.
Qed.

Lemma info_step_next file N pos acc :
  let s := skipn (Z.to_nat pos) file in
  let cs := announced_size N s in
  0 <= pos -> Z.of_nat (length file) < 4611686018427387904 ->
  (64 <= length s)%nat ->
  byte_at s 0 = "H"%char \/ byte_at s 0 = "F"%char ->
  byte_at s 15 = LF -> byte_at s 63 = LF ->
  64 + cs + pad_len cs <= Z.of_nat (length s) ->
  byte_at s (64 + cs) = LF -> byte_at s (64 + cs + pad_len cs - 1) = LF ->
  info_step file N pos acc
  = ScanNext (pos + 64 + cs + pad_len cs)
      (acc ++ [{| block_type := byte_at s 0;
                  data_size_of := to_size_t (sc_atol (firstn 13 (skipn 2 s)));
                  user_string_of := strncpy (firstn 47 (skipn 16 s)) 48 |}]).
Proof.
  intros s cs Hpos Hfile Hlen Htype H15 H63 Hfit Hp0 Hp1.
  pose proof (pad_len_range cs) as Hnp.
  assert (Hcs : 0 <= cs).
  { unfold cs, announced_size. cbn zeta.
    destruct (Ascii.eqb _ _); apply to_size_t_range. }
  assert (Hslen : pos + Z.of_nat (length s) = Z.of_nat (length file)).
  { unfold s in *. rewrite length_skipn in *. lia. }
  destruct (padding_read file pos cs Hpos Hfile Hcs Hfit)
    as (pad & Hpad & Hpadlen & Hpad0' & Hpad1').
  fold s in Hpad0', Hpad1'. rewrite Hp0 in Hpad0'. rewrite Hp1 in Hpad1'.
  unfold info_step.
  rewrite sc_io_read_at_eq by lia. fold s.
  assert (Hc : cs = announced_size N s) by reflexivity.
  clearbody cs.
  destruct (header_bytes s Hlen) as (h & t & Hs & Hh).
  clearbody s. subst s. explode_list h Hh.
  unfold byte_at in Htype, H15, H63.
  change (Z.to_nat 0) with 0%nat in Htype.
  change (Z.to_nat 15) with 15%nat in H15.
  change (Z.to_nat 63) with 63%nat in H63.
  cbn [app nth] in Htype, H15, H63. subst a14 a62.
  change P4EST_NUM_FIELD_HEADER_BYTES with 64.
  change (P4EST_NUM_ARRAY_METADATA_BYTES + 1) with 15.
  change (64 - 1) with 63. change (64 + 1) with 65.
  change P4EST_NUM_USER_STRING_BYTES with 48.
  unfold announced_size, byte_at in Hc |- *.
  change (Z.to_nat 64) with 64%nat. change (Z.to_nat 65) with 65%nat.
  change (Z.to_nat 0) with 0%nat in Hc |- *. change (Z.to_nat 15) with 15%nat.
  change (Z.to_nat 63) with 63%nat.
  destruct Htype; subst a;
    cbn -[to_size_t to_int64 sc_atol strncpy pad_len get_padding_string
          Z.mul Z.add Z.sub sc_io_read_at] in Hc |- *;
    scan_header_number; rewrite <- Hc;
    rewrite !get_padding_string_count, Hpad; unfold buffer_fill;
    rewrite !app_nth1 by lia; rewrite Hpad0', Hpad1';
    change (Ascii.eqb LF LF) with true; cbn [negb orb];
    rewrite to_int64_id by lia;
    f_equal; lia.
Qed.

(** A pass at a malformed end stops the scan and keeps the sections found
    so far. *)
Lemma info_step_stop file N pos acc :
  0 <= pos -> Z.of_nat (length file) < 4611686018427387904 ->
  malformed_tail N (skipn (Z.to_nat pos) file) ->
  info_step file N pos acc = ScanStop acc.
Proof.
  intros Hpos Hfile Hbad.
  set (s := skipn (Z.to_nat pos) file) in *.
  unfold info_step.
  rewrite sc_io_read_at_eq by lia. fold s.
  change P4EST_NUM_FIELD_HEADER_BYTES with 64.
  change (P4EST_NUM_ARRAY_METADATA_BYTES + 1) with 15.
  change (64 - 1) with 63. change (64 + 1) with 65.
  change P4EST_NUM_USER_STRING_BYTES with 48.
  destruct Hbad as [Hshort|Hlen Hh Hf|Hlen H15|Hlen H63|Hlen Hcut Hsmall
                    |Hlen Hfit Hpadding].
  - (* short read *)
    destruct (Z.eqb_spec 64 (Z.of_nat (length (firstn (Z.to_nat 64) s))))
      as [E|E]; [|reflexivity].
    rewrite length_firstn in E. lia.
  - destruct (header_bytes s Hlen) as (h & t & Hs & Hh').
    clearbody s. subst s. explode_list h Hh'.
    unfold byte_at in *.
    change (Z.to_nat 64) with 64%nat. change (Z.to_nat 65) with 65%nat.
    change (Z.to_nat 0) with 0%nat in *. change (Z.to_nat 15) with 15%nat.
    change (Z.to_nat 63) with 63%nat.
    cbn [app nth] in Hh, Hf.
    apply Ascii.eqb_neq in Hh, Hf.
    cbn -[to_size_t to_int64 sc_atol strncpy pad_len get_padding_string
          Z.mul Z.add Z.sub sc_io_read_at].
    rewrite Hh, Hf. reflexivity.
  - destruct (header_bytes s Hlen) as (h & t & Hs & Hh').
    clearbody s. subst s. explode_list h Hh'.
    unfold byte_at in *.
    change (Z.to_nat 64) with 64%nat. change (Z.to_nat 65) with 65%nat.
    change (Z.to_nat 0) with 0%nat in *. change (Z.to_nat 15) with 15%nat in *.
    change (Z.to_nat 63) with 63%nat.
    cbn [app nth] in H15.
    apply Ascii.eqb_neq in H15.
    cbn -[to_size_t to_int64 sc_atol strncpy pad_len get_padding_string
          Z.mul Z.add Z.sub sc_io_read_at].
    rewrite H15. scan_tests.
  - destruct (header_bytes s Hlen) as (h & t & Hs & Hh').
    clearbody s. subst s. explode_list h Hh'.
    unfold byte_at in *.
    change (Z.to_nat 64) with 64%nat. change (Z.to_nat 65) with 65%nat.
    change (Z.to_nat 0) with 0%nat in *. change (Z.to_nat 15) with 15%nat in *.
    change (Z.to_nat 63) with 63%nat in *.
    cbn [app nth] in H63.
    apply Ascii.eqb_neq in H63.
    cbn -[to_size_t to_int64 sc_atol strncpy pad_len get_padding_string
          Z.mul Z.add Z.sub sc_io_read_at].
    rewrite H63. scan_tests.
  - (* the file ends before the padding *)
    set (cs := announced_size N s) in *.
    assert (Hcs : 0 <= cs).
    { unfold cs, announced_size. cbn zeta.
      destruct (Ascii.eqb _ _); apply to_size_t_range. }
    assert (Hslen : pos + Z.of_nat (length s) = Z.of_nat (length file)).
    { unfold s in *. rewrite length_skipn in *. lia. }
    assert (Hpad : sc_io_read_at file (to_int64 (pos + 64 + cs)) (pad_len cs)
                   = ([], 0)).
    { rewrite to_int64_id by lia. rewrite sc_io_read_at_eq by lia.
      rewrite skipn_all2; [now rewrite firstn_nil|]. lia. }
    assert (Hc : cs = announced_size N s) by reflexivity.
    clearbody cs.
    destruct (header_bytes s Hlen) as (h & t & Hs & Hh').
    clearbody s. subst s. explode_list h Hh'.
    unfold announced_size, byte_at in Hc |- *.
    change (Z.to_nat 64) with 64%nat. change (Z.to_nat 65) with 65%nat.
    change (Z.to_nat 0) with 0%nat in Hc |- *. change (Z.to_nat 15) with 15%nat.
    change (Z.to_nat 63) with 63%nat.
    cbn -[to_size_t to_int64 sc_atol strncpy pad_len get_padding_string
          Z.mul Z.add Z.sub sc_io_read_at] in Hc |- *.
    scan_header_number. rewrite <- Hc. clear Hc.
    scan_tests.
    rewrite !get_padding_string_count, Hpad. unfold buffer_fill.
    cbn [app length skipn nth].
    match goal with
    | H : (Ascii.eqb ?a "H" || Ascii.eqb ?a "F")%char = true |- _ =>
        destruct (Ascii.eqb_spec a "H"); [subst a; reflexivity|];
        destruct (Ascii.eqb_spec a "F"); [subst a; reflexivity|];
        discriminate H
    end.
  - set (cs := announced_size N s) in *.
    pose proof (pad_len_range cs) as Hnp.
    assert (Hcs : 0 <= cs).
    { unfold cs, announced_size. cbn zeta.
      destruct (Ascii.eqb _ _); apply to_size_t_range. }
    destruct (padding_read file pos cs Hpos Hfile Hcs Hfit)
      as (pad & Hpad & Hpadlen & Hp0 & Hp1).
    fold s in Hp0, Hp1.
    set (x0 := byte_at s (64 + cs)) in *.
    set (x1 := byte_at s (64 + cs + pad_len cs - 1)) in *.
    clearbody x0 x1.
    assert (Hc : cs = announced_size N s) by reflexivity.
    clearbody cs.
    destruct (header_bytes s Hlen) as (h & t & Hs & Hh').
    clearbody s. subst s. explode_list h Hh'.
    unfold announced_size, byte_at in Hc |- *.
    change (Z.to_nat 64) with 64%nat. change (Z.to_nat 65) with 65%nat.
    change (Z.to_nat 0) with 0%nat in Hc |- *. change (Z.to_nat 15) with 15%nat.
    change (Z.to_nat 63) with 63%nat.
    cbn -[to_size_t to_int64 sc_atol strncpy pad_len get_padding_string
          Z.mul Z.add Z.sub sc_io_read_at] in Hc |- *.
    scan_header_number. rewrite <- Hc. clear Hc.
    scan_tests.
    rewrite !get_padding_string_count, Hpad. unfold buffer_fill.
    rewrite !app_nth1 by lia. rewrite Hp0, Hp1.
    destruct Hpadding as [H|H]; apply Ascii.eqb_neq in H; rewrite H;
      cbn [negb orb]; [reflexivity|].
    now rewrite orb_true_r.
Qed.

End ScanProofs.

(** ** The bytes of a written section, as the scan sees them *)

Lemma byte_at_middle (a b : bytes) c i :
  i = Z.of_nat (length a) -> byte_at (a ++ c :: b) i = c.
Proof.
  intros ->. unfold byte_at. rewrite Nat2Z.id, app_nth2 by lia.
  now rewrite Nat.sub_diag.
Qed.

Lemma skipn_exact (a b : bytes) n : n = length a -> skipn n (a ++ b) = b.
Proof.
  intros ->. rewrite skipn_app, skipn_all, Nat.sub_diag. reflexivity.
Qed.

Lemma firstn_exact (a b : bytes) n : n = length a -> firstn n (a ++ b) = a.
Proof.
  intros ->. rewrite firstn_app, firstn_all, Nat.sub_diag. cbn [firstn].
  apply app_nil_r.
Qed.

Lemma skipn_exact_cons (a b : bytes) c n :
  n = S (length a) -> skipn n (a ++ c :: b) = b.
Proof.
  intros ->. change (a ++ c :: b) with (a ++ [c] ++ b). rewrite app_assoc.
  apply skipn_exact. rewrite length_app. cbn [length]. lia.
Qed.

Section SectionBytes.
Context `{FIO : FileInterface}.

Lemma section_header_eq t size us :
  0 <= size <= 9999999999999 -> (length (cstring us) <= 47)%nat ->
  section_header t size us
  = [t; SP] ++ fmt_llu 13 size ++ [LF] ++ fmt_left 47 (cstring us) ++ [LF].
Proof.
  intros Hsize Hus. unfold section_header, snprintf.
  rewrite to_size_t_id by lia.
  apply firstn_all2.
  destruct (fmt_llu_13 size Hsize) as (Hl & _).
  cbn [app length]. rewrite length_app, Hl. cbn [length].
  rewrite length_app, fmt_left_fits by (cbn; lia).
  cbn. lia.
Qed.

Lemma section_bytes_scan N sec (rest : bytes) :
  section_ok N sec ->
  let s := bytes_of sec ++ rest in
  let L := Z.of_nat (length (ws_payload sec)) in
  (64 <= length s)%nat
  /\ byte_at s 0 = ws_type sec
  /\ byte_at s 15 = LF
  /\ byte_at s 63 = LF
  /\ sc_atol (firstn 13 (skipn 2 s)) = ws_size sec
  /\ strncpy (firstn 47 (skipn 16 s)) 48
     = fmt_left 47 (cstring (ws_user sec)) ++ [NUL]
  /\ 64 + L + pad_len L <= Z.of_nat (length s)
  /\ byte_at s (64 + L) = LF
  /\ byte_at s (64 + L + pad_len L - 1) = LF
  /\ skipn (Z.to_nat (64 + L + pad_len L)) s = rest.
Proof.
  intros (Htype & Hsize & Hus & Hpay). cbn zeta.
  destruct (fmt_llu_13 (ws_size sec) Hsize) as (HDl & HDd & HDp).
  pose proof (fmt_left_fits 47 (cstring (ws_user sec)) Hus) as HUl.
  change (Z.to_nat 47) with 47%nat in HUl.
  pose proof (pad_len_range (Z.of_nat (length (ws_payload sec)))) as Hnp.
  pose proof (padding_text_length (Z.of_nat (length (ws_payload sec)))) as Hpl.
  assert (HUn : Forall (fun c => c <> NUL) (fmt_left 47 (cstring (ws_user sec)))).
  { unfold fmt_left. apply Forall_app. split; [apply cstring_no_nul|].
    apply Forall_forall. intros c Hc. apply repeat_spec in Hc. now subst c. }
  unfold bytes_of, section_bytes.
  rewrite section_header_eq by assumption.
  set (D := fmt_llu 13 (ws_size sec)) in *.
  set (U := fmt_left 47 (cstring (ws_user sec))) in *.
  set (payload := ws_payload sec) in *.
  set (pad := padding_text (Z.of_nat (length payload))) in *.
  assert (Hh : length ([ws_type sec; SP] ++ D ++ [LF] ++ U ++ [LF]) = 64%nat).
  { cbn [app length]. rewrite !length_app, HDl. cbn [length].
    rewrite length_app, HUl. reflexivity. }
  assert (Hs : (([ws_type sec; SP] ++ D ++ [LF] ++ U ++ [LF]) ++ payload ++ pad)
               ++ rest
               = ws_type sec :: SP :: D ++ LF :: U ++ LF :: payload ++ pad ++ rest).
  { cbn [app]. rewrite <- !app_assoc. cbn [app]. rewrite <- !app_assoc.
    reflexivity. }
  assert (Hlen : length ((([ws_type sec; SP] ++ D ++ [LF] ++ U ++ [LF])
                          ++ payload ++ pad) ++ rest)
                 = (64 + length payload + length pad + length rest)%nat).
  { rewrite length_app, length_app, Hh, length_app. lia. }
  rewrite Hs in *.
  repeat split.
  - lia.
  - change (ws_type sec :: SP :: D ++ LF :: ?x)
      with (([ws_type sec; SP] ++ D) ++ LF :: x).
    apply byte_at_middle. rewrite length_app, HDl. reflexivity.
  - change 63 with (16 + 47). rewrite <- (byte_at_skipn _ 16 47) by lia.
    change (Z.to_nat 16) with 16%nat.
    change (skipn 16 (ws_type sec :: SP :: ?l)) with (skipn 14 l).
    rewrite skipn_exact_cons by (now rewrite HDl).
    apply byte_at_middle. now rewrite HUl.
  - change (skipn 2 (ws_type sec :: SP :: ?l)) with l.
    rewrite firstn_exact by (now rewrite HDl).
    rewrite sc_atol_digits by assumption.
    rewrite <- (app_nil_r D), HDp. reflexivity.
  - change (skipn 16 (ws_type sec :: SP :: ?l)) with (skipn 14 l).
    rewrite skipn_exact_cons by (now rewrite HDl).
    rewrite firstn_exact by (now rewrite HUl).
    unfold strncpy. rewrite cstring_id by assumption.
    rewrite firstn_all2 by (rewrite HUl; cbn; lia).
    rewrite HUl. reflexivity.
  - lia.
  - rewrite <- Hs.
    set (hdr := [ws_type sec; SP] ++ D ++ [LF] ++ U ++ [LF]) in *.
    rewrite (app_assoc hdr payload pad), <- (app_assoc _ pad rest).
    unfold pad at 1. rewrite padding_text_eq.
    change ([LF] ++ ?m) with (LF :: m). rewrite <- app_comm_cons.
    apply byte_at_middle. rewrite length_app, Hh. lia.
  - rewrite <- Hs.
    set (hdr := [ws_type sec; SP] ++ D ++ [LF] ++ U ++ [LF]) in *.
    rewrite (app_assoc hdr payload pad), <- (app_assoc _ pad rest).
    unfold pad at 1. rewrite padding_text_eq.
    change ([LF] ++ ?m ++ [LF]) with ((LF :: m) ++ [LF]).
    rewrite <- (app_assoc (LF :: _) [LF] rest), app_assoc.
    change ([LF] ++ rest) with (LF :: rest).
    apply byte_at_middle.
    rewrite !length_app, Hh. cbn [length]. rewrite repeat_length. lia.
  - rewrite <- Hs.
    apply skipn_exact. rewrite length_app, Hh, length_app. lia.
Qed.

(** The scan passes a written section and takes its metadata. *)
Lemma info_step_section (pre rest : bytes) N sec acc :
  section_ok N sec ->
  Z.of_nat (length (pre ++ bytes_of sec ++ rest)) < 4611686018427387904 ->
  info_step (pre ++ bytes_of sec ++ rest) N (Z.of_nat (length pre)) acc
  = ScanNext (Z.of_nat (length pre) + section_length sec)
             (acc ++ [metadata_of sec]).
Proof.
  intros Hok Hfile.
  destruct (section_bytes_scan N sec rest Hok)
    as (Hlen & H0 & H15 & H63 & Hatol & Hus & Hfit & Hp0 & Hp1 & _).
  pose proof (info_step_next (pre ++ bytes_of sec ++ rest) N
                (Z.of_nat (length pre)) acc) as Hnext.
  cbv zeta in Hnext. rewrite Nat2Z.id, skipn_exact in Hnext by reflexivity.
  set (s := bytes_of sec ++ rest) in *.
  assert (Hcs : announced_size N s = Z.of_nat (length (ws_payload sec))).
  { unfold announced_size. cbn zeta. rewrite Hatol, H0.
    destruct Hok as (Htype & Hsize & _ & Hpay).
    rewrite (to_size_t_id (ws_size sec)) by lia.
    revert Hpay. destruct (Ascii.eqb _ _); intros Hpay; [|now symmetry].
    rewrite <- Hpay. apply to_size_t_id.
    pose proof (pad_len_range (Z.of_nat (length (ws_payload sec)))).
    rewrite length_app in Hfile. lia. }
  rewrite Hcs, Hatol, Hus, H0 in Hnext.
  rewrite Hnext; try assumption; try lia.
  - unfold section_length, metadata_of.
    destruct Hok as (_ & Hsize & _). rewrite to_size_t_id by lia.
    f_equal. lia.
  - destruct Hok as (Htype & _). exact Htype.
Qed.

End SectionBytes.

(** ** The scan of a sequence of sections *)

Section InfoProofs.
Context `{FIO : FileInterface}.

Lemma bytes_of_length sec :
  Z.of_nat (length (bytes_of sec)) = section_length sec.
Proof.
  unfold bytes_of, section_bytes, section_length.
  rewrite !length_app, section_header_length.
  pose proof (padding_text_length (Z.of_nat (length (ws_payload sec)))). lia.
Qed.

Lemma sections_bytes_length secs :
  Z.of_nat (length (flat_map bytes_of secs)) = sections_length secs.
Proof.
  induction secs as [|sec secs IH]; [reflexivity|].
  change (sections_length (sec :: secs))
    with (section_length sec + sections_length secs).
  cbn [flat_map]. rewrite length_app.
  pose proof (bytes_of_length sec). lia.
Qed.

Lemma sections_count secs :
  Z.of_nat (length secs) <= sections_length secs.
Proof.
  induction secs as [|sec secs IH]; [reflexivity|].
  change (sections_length (sec :: secs))
    with (section_length sec + sections_length secs).
  cbn [length]. unfold section_length.
  pose proof (pad_len_range (Z.of_nat (length (ws_payload sec)))). lia.
Qed.

(** The loop over well-formed sections that a malformed end follows. *)
Lemma info_loop_sections N junk secs : forall pre acc fuel,
  Forall (section_ok N) secs ->
  malformed_tail N junk ->
  Z.of_nat (length (pre ++ flat_map bytes_of secs ++ junk))
    < 4611686018427387904 ->
  (length secs < fuel)%nat ->
  info_loop fuel (pre ++ flat_map bytes_of secs ++ junk) N
    (Z.of_nat (length pre)) acc
  = Some (acc ++ map metadata_of secs).
Proof.
  induction secs as [|sec secs IH]; intros pre acc fuel Hok Hjunk Hfile Hfuel;
    (destruct fuel as [|fuel]; [cbn [length] in Hfuel; lia|]);
    cbn [info_loop flat_map map] in Hfile |- *.
  - cbn [app]. rewrite info_step_stop.
    + now rewrite app_nil_r.
    + lia.
    + exact Hfile.
    + rewrite Nat2Z.id, skipn_exact by reflexivity. exact Hjunk.
  - rewrite <- app_assoc.
    rewrite info_step_section.
    2:{ exact (Forall_inv Hok). }
    2:{ rewrite <- app_assoc in Hfile. exact Hfile. }
    rewrite <- bytes_of_length, <- Nat2Z.inj_add, <- length_app.
    rewrite (app_assoc pre).
    rewrite (IH (pre ++ bytes_of sec) (acc ++ [metadata_of sec]) fuel).
    + now rewrite <- app_assoc.
    + exact (Forall_inv_tail Hok).
    + exact Hjunk.
    + rewrite <- !app_assoc in Hfile |- *. exact Hfile.
    + cbn [length] in Hfuel. lia.
Qed.

(** ** Sequences of writes *)

Lemma sections_of_ok N gfq w :
  write_ok N gfq w -> Forall (section_ok N) (sections_of w).
Proof.
  destruct w as [hs hd us|qd us]; cbn [write_ok sections_of].
  - intros (Hhs & _ & Hhd & Hus).
    destruct (Z.eqb_spec hs 0); constructor; [|constructor].
    unfold section_ok. cbn. repeat split; auto; lia.
  - destruct qd as [|q0 rest]; [intros []|].
    intros (Hes & Hfd & Hus).
    destruct (Z.eqb_spec (elem_size q0) 0); constructor; [|constructor].
    destruct (Hfd ltac:(lia)) as [Hdata _].
    destruct (field_data_length _ _ _ _ Hdata) as [Hlen _].
    unfold section_ok. cbn. repeat split; auto; lia.
Qed.

Lemma write_section_file N gfq w fc :
  at_end_of_file fc ->
  fc_global_first_quadrant fc = Some gfq ->
  fc_global_num_quadrants fc = N ->
  write_ok N gfq w ->
  fc_accessed_bytes fc + sections_length (sections_of w) < 4611686018427387904 ->
  exists r fc',
    write_section fc w = Some r
    /\ res_context r = Some fc'
    /\ res_returned r = true
    /\ res_errcode r = sc_MPI_SUCCESS
    /\ at_end_of_file fc'
    /\ fc_global_first_quadrant fc' = Some gfq
    /\ fc_global_num_quadrants fc' = N
    /\ fc_file fc' = fc_file fc ++ flat_map bytes_of (sections_of w)
    /\ fc_accessed_bytes fc'
       = fc_accessed_bytes fc + sections_length (sections_of w).
Proof.
  intros Hend Hgfq HN Hok Hroom.
  pose proof Hend as [Hab Hlen].
  assert (Hadv : forall file advance,
            0 <= advance ->
            fc_accessed_bytes fc + advance < 4611686018427387904 ->
            Z.of_nat (length file) = 80 + fc_accessed_bytes fc + advance ->
            at_end_of_file (fc_advance fc file advance)
            /\ fc_accessed_bytes (fc_advance fc file advance)
               = fc_accessed_bytes fc + advance).
  { intros file advance Ha Hr Hl. unfold at_end_of_file.
    cbn [fc_advance fc_accessed_bytes fc_file].
    rewrite to_int64_id by lia. lia. }
  destruct w as [hs hd us|qd us]; cbn [write_ok sections_of write_section] in *.
  - destruct Hok as (Hhs & Hfits & Hhd & Hus).
    revert Hroom. destruct (Z.eqb_spec hs 0) as [->|Hnz]; intros Hroom.
    + eexists. exists fc. split; [reflexivity|].
      unfold p4est_file_write_header. cbn [Z.eqb res_context res_returned res_errcode].
      rewrite error_code_success. cbn [flat_map sections_length fold_right].
      rewrite app_nil_r, Z.add_0_r. repeat split; auto; apply Hend.
    + unfold sections_length, section_length in Hroom.
      cbn [fold_right ws_payload] in Hroom.
      pose proof (pad_len_range (Z.of_nat (length hd))) as Hp.
      rewrite write_header_success by (try assumption; lia).
      eexists. eexists. split; [reflexivity|].
      unfold sections_length, section_length, bytes_of.
      cbn [res_context res_returned res_errcode flat_map
           fold_right ws_type ws_size ws_user ws_payload].
      rewrite app_nil_r, Z.add_0_r.
      rewrite Hhd in Hroom, Hp |- *.
      destruct (Hadv (fc_file fc ++ section_bytes "H" hs us hd)
                     (hs + 64 + pad_len hs)) as [He Ha].
      * lia.
      * lia.
      * rewrite length_app.
        pose proof (bytes_of_length {| ws_type := "H"; ws_size := hs;
                                       ws_user := us; ws_payload := hd |}) as Hb.
        unfold bytes_of, section_length in Hb.
        cbn [ws_type ws_size ws_user ws_payload] in Hb. rewrite Hhd in Hb. lia.
      * repeat split; auto; try apply He. rewrite Ha. lia.
  - destruct qd as [|q0 rest]; [destruct Hok|].
    destruct Hok as (Hes & Hfd & Hus).
    revert Hroom.
    destruct (Z.eqb_spec (elem_size q0) 0) as [Hz|Hnz]; intros Hroom.
    + eexists. exists fc. split.
      * unfold p4est_file_write_field. rewrite Hz. cbn [Z.eqb]. reflexivity.
      * cbn [res_context res_returned res_errcode].
        rewrite error_code_success. cbn [flat_map sections_length fold_right].
        rewrite app_nil_r, Z.add_0_r. repeat split; auto; apply Hend.
    + destruct (Hfd ltac:(lia)) as [Hdata Hfits]. clear Hfd.
      rename Hdata into Hfd.
      destruct (field_data_length _ _ _ _ Hfd) as [Hpay HN0].
      unfold sections_length, section_length in Hroom.
      cbn [fold_right ws_payload] in Hroom.
      rewrite Hpay in Hroom.
      pose proof (pad_len_range (N * elem_size q0)) as Hp.
      rewrite (write_field_success fc gfq (elem_size q0));
        try assumption; try lia; try discriminate.
      2:{ now rewrite HN. }
      2:{ now rewrite HN. }
      eexists. eexists. split; [reflexivity|].
      unfold sections_length, section_length, bytes_of.
      cbn [res_context res_returned res_errcode flat_map
           fold_right ws_type ws_size ws_user ws_payload].
      rewrite app_nil_r, Z.add_0_r.
      rewrite Hpay, HN.
      destruct (Hadv (fc_file fc ++ section_bytes "F" (elem_size q0) us
                                      (concat (map array (q0 :: rest))))
                     (N * elem_size q0 + 64 + pad_len (N * elem_size q0)))
        as [He Ha].
      * nia.
      * lia.
      * rewrite length_app.
        pose proof (bytes_of_length
                      {| ws_type := "F"; ws_size := elem_size q0; ws_user := us;
                         ws_payload := concat (map array (q0 :: rest)) |}) as Hb.
        unfold bytes_of, section_length in Hb. cbn [ws_type ws_size ws_user ws_payload] in Hb.
        rewrite Hpay in Hb. lia.
      * repeat split; auto; try apply He. rewrite Ha. lia.
Qed.

Lemma write_sections_file N gfq ws : forall fc,
  at_end_of_file fc ->
  fc_global_first_quadrant fc = Some gfq ->
  fc_global_num_quadrants fc = N ->
  Forall (write_ok N gfq) ws ->
  fc_accessed_bytes fc + sections_length (flat_map sections_of ws)
    < 4611686018427387904 ->
  exists fc',
    write_sections ws fc = Some fc'
    /\ fc_file fc' = fc_file fc ++ flat_map bytes_of (flat_map sections_of ws).
Proof.
  induction ws as [|w ws IH]; intros fc Hend Hgfq HN Hok Hroom.
  - exists fc. cbn. now rewrite app_nil_r.
  - assert (Hsum : sections_length (flat_map sections_of (w :: ws))
                   = sections_length (sections_of w)
                     + sections_length (flat_map sections_of ws)).
    { cbn [flat_map]. rewrite <- !sections_bytes_length, flat_map_app, length_app. lia. }
    pose proof (sections_count (flat_map sections_of ws)) as Hc.
    destruct (write_section_file N gfq w fc Hend Hgfq HN (Forall_inv Hok))
      as (r & fc1 & Hw & Hctx & Hret & Herr & Hend1 & Hgfq1 & HN1 & Hfile1 & Hab1).
    { lia. }
    destruct (IH fc1 Hend1 Hgfq1 HN1 (Forall_inv_tail Hok)) as (fc' & Hws & Hfile').
    { lia. }
    exists fc'. cbn [write_sections]. rewrite Hw, Hctx, Hret, Herr. cbn.
    split; [exact Hws|].
    rewrite Hfile', Hfile1, flat_map_app, <- app_assoc. reflexivity.
Qed.

(** ** A new file *)

Lemma open_create_context mpisize mpirank N gfq lnq user_string :
  exists fc0,
    p4est_file_open_create mpisize mpirank N gfq lnq user_string
    = {| res_context := Some fc0; res_returned := true;
         res_errcode := sc_MPI_SUCCESS; res_value := tt |}
    /\ at_end_of_file fc0
    /\ fc_accessed_bytes fc0 = 0
    /\ fc_global_num_quadrants fc0 = N
    /\ fc_global_first_quadrant fc0 = Some (firstn (Z.to_nat (mpisize + 1)) gfq).
Proof.
  unfold p4est_file_open_create.
  set (text := fmt_prec_s 7 P4EST_MAGIC_NUMBER ++ _).
  assert (Hlen : length (snprintf (P4EST_NUM_METADATA_BYTES + P4EST_BYTE_DIV + 1) text)
                 = 80%nat).
  { unfold snprintf.
    change (Z.to_nat (P4EST_NUM_METADATA_BYTES + P4EST_BYTE_DIV + 1 - 1)) with 80%nat.
    rewrite length_firstn. apply Nat.min_l. unfold text.
    change (fmt_prec_s 7 P4EST_MAGIC_NUMBER) with (list_ascii_of_string "p8data0").
    cbn [list_ascii_of_string app length].
    rewrite length_app. cbn [app length]. rewrite length_app.
    pose proof (fmt_left_length 23 (cstring p4est_version)).
    pose proof (fmt_left_length 47 (cstring user_string)).
    change (Z.to_nat 23) with 23%nat in *. change (Z.to_nat 47) with 47%nat in *.
    cbn [length]. lia. }
  rewrite sc_io_write_at_full by (rewrite Hlen; reflexivity).
  change (P4EST_NUM_METADATA_BYTES + P4EST_BYTE_DIV =? P4EST_NUM_METADATA_BYTES + P4EST_BYTE_DIV)
    with true. cbn [negb].
  rewrite error_code_success.
  eexists. split; [reflexivity|].
  unfold at_end_of_file. cbn [fc_accessed_bytes fc_file fc_global_num_quadrants
                              fc_global_first_quadrant].
  repeat split; try lia.
  unfold file_write_at. cbn [Z.to_nat firstn length Nat.sub repeat app Nat.add].
  rewrite skipn_nil, app_nil_r, Hlen. reflexivity.
Qed.

End InfoProofs.

(** ** [p4est_file_info] on any file *)

Lemma buf_set_Some (buf : bytes) i c buf' :
  buf_set buf i c = Some buf' ->
  0 <= i < Z.of_nat (length buf)
  /\ length buf' = length buf
  /\ nthZ buf' i = Some c.
Proof.
  unfold buf_set.
  destruct (Z.leb_spec 0 i); [|discriminate].
  destruct (Z.ltb_spec i (Z.of_nat (length buf))); [|discriminate].
  cbn [andb]. intros Hset.
  assert (Hbuf : buf' = firstn (Z.to_nat i) buf ++ [c] ++ skipn (S (Z.to_nat i)) buf)
    by congruence.
  clear Hset. subst buf'. split; [lia|]. split.
  - rewrite !length_app, length_firstn, length_skipn. cbn [length]. lia.
  - unfold nthZ. destruct (Z.ltb_spec i 0); [lia|].
    rewrite nth_error_app2 by (rewrite length_firstn; lia).
    rewrite length_firstn.
    replace (Z.to_nat i - Nat.min (Z.to_nat i) (length buf))%nat with 0%nat by lia.
    reflexivity.
Qed.

Lemma cstring_stops : forall (l : bytes) k,
  nth_error l k = Some NUL -> (length (cstring l) <= k)%nat.
Proof.
  induction l as [|c l IH]; intros k H; [destruct k; discriminate H|].
  cbn [cstring]. destruct (Ascii.eqb_spec c NUL) as [->|Hc]; [cbn; lia|].
  destruct k as [|k]; cbn [nth_error] in H.
  - congruence.
  - cbn [length]. specialize (IH k H). lia.
Qed.

Lemma string_at_stops (buf : bytes) i j s :
  string_at buf i = Some s -> i <= j -> nthZ buf j = Some NUL ->
  Z.of_nat (length s) <= j - i.
Proof.
  unfold string_at.
  destruct (Z.leb_spec 0 i); [|discriminate].
  destruct (Z.leb_spec i (Z.of_nat (length buf))); [|discriminate].
  cbn [andb]. destruct (existsb _ _); [|discriminate].
  intros [= <-] Hij Hj.
  unfold nthZ in Hj. destruct (Z.ltb_spec j 0); [lia|].
  assert (Hk : nth_error (skipn (Z.to_nat i) buf) (Z.to_nat (j - i)) = Some NUL).
  { rewrite nth_error_skipn. rewrite <- Hj. f_equal. lia. }
  apply cstring_stops in Hk. lia.
Qed.

Lemma string_at_inside (buf : bytes) i s :
  string_at buf i = Some s -> 0 <= i < Z.of_nat (length buf).
Proof.
  unfold string_at.
  destruct (Z.leb_spec 0 i); [|discriminate].
  destruct (Z.leb_spec i (Z.of_nat (length buf))); [|discriminate].
  cbn [andb].
  destruct (existsb (Ascii.eqb NUL) (skipn (Z.to_nat i) buf)) eqn:E; [|discriminate].
  intros _. split; [lia|].
  destruct (Z.eq_dec i (Z.of_nat (length buf))) as [->|]; [|lia].
  rewrite Nat2Z.id, skipn_all in E. discriminate E.
Qed.

Section InfoTheorem.
Context `{FIO : FileInterface}.

(** [check_file_metadata] on a buffer of 65 bytes never comes to its end:
    it wants a newline at [metadata[magic + version - 1]] and, 48 bytes
    behind that index, 16 characters before the NUL at [metadata[64]]. *)
Lemma check_file_metadata_fails (metadata : bytes) :
  length metadata = 65%nat ->
  check_file_metadata metadata = None
  \/ exists user_string,
       check_file_metadata metadata = Some (P4EST_ERR_IO, user_string, None).
Proof.
  intros Hlen. unfold check_file_metadata. cbv zeta.
  destruct (buf_get metadata _) as [c1|]; [|now left].
  destruct (Ascii.eqb c1 LF); cbn [negb]; [|right; eexists; reflexivity].
  destruct (buf_set metadata _ NUL) as [m1|] eqn:E1; [|now left].
  destruct (string_at m1 0) as [magic|]; [|now left].
  destruct (buf_get m1 _) as [c2|] eqn:G2; [|now left].
  destruct (Ascii.eqb c2 LF); cbn [negb]; [|right; eexists; reflexivity].
  destruct (buf_set m1 _ NUL) as [m2|] eqn:E2; [|now left].
  destruct (string_at m2 P4EST_NUM_MAGIC_BYTES) as [version|]; [|now left].
  destruct (Z.of_nat (length version) =? _); cbn [negb];
    [|right; eexists; reflexivity].
  destruct (buf_get m2 _) as [c3|]; [|now left].
  destruct (Ascii.eqb c3 LF); cbn [negb]; [|right; eexists; reflexivity].
  destruct (strncpy_at m2 _ _) as [copied|]; [|now left].
  destruct (buf_set m2 P4EST_NUM_METADATA_BYTES NUL) as [m3|] eqn:E3; [|now left].
  destruct (string_at m3 _) as [quads|] eqn:S3; [|now left].
  destruct (Z.eqb_spec (Z.of_nat (length quads)) 16) as [E16|]; cbn [negb];
    [exfalso | right; eexists; reflexivity].
  apply nthZ_Some_range in G2.
  destruct (buf_set_Some _ _ _ _ E1) as (_ & L1 & _).
  destruct (buf_set_Some _ _ _ _ E2) as (_ & L2 & _).
  destruct (buf_set_Some _ _ _ _ E3) as (_ & L3 & N3).
  pose proof (string_at_inside _ _ _ S3) as Hin.
  pose proof (string_at_stops _ _ P4EST_NUM_METADATA_BYTES _ S3) as Hstop.
  unfold P4EST_NUM_METADATA_BYTES, P4EST_NUM_USER_STRING_BYTES in *.
  specialize (Hstop ltac:(lia) N3). lia.
Qed.

(** [p4est_file_info] never returns 0: on a file of less than 64 bytes it
    returns -1 with the count error, on any other file -1 with the format
    error, or it reads outside [metadata] or a global count that was not
    set, whatever the values of [P4EST_NUM_MAGIC_BYTES] and
    [P4EST_NUM_VERSION_STR_BYTES]. *)
Lemma info_never_succeeds (file : bytes) (N : Z) :
  p4est_file_info file N = None
  \/ p4est_file_info file N
     = Some {| info_retval := -1; info_errcode := P4EST_FILE_COUNT_ERROR;
               info_user_string := None; info_sections := [] |}
  \/ exists user_string,
       p4est_file_info file N
       = Some {| info_retval := -1;
                 info_errcode := snd (p4est_file_error_code P4EST_ERR_IO);
                 info_user_string := user_string; info_sections := [] |}.
Proof.
  unfold p4est_file_info.
  destruct (sc_io_read_at file 0 P4EST_NUM_METADATA_BYTES) as [data count] eqn:Er.
  destruct (Z.eqb_spec P4EST_NUM_METADATA_BYTES count) as [Ec|Ec]; cbn [negb];
    [|right; left; reflexivity].
  destruct (buf_set _ _ NUL) as [metadata|] eqn:Es; [|now left].
  destruct (buf_set_Some _ _ _ _ Es) as (_ & Hlen & _).
  assert (Hdata : length data = 64%nat).
  { unfold sc_io_read_at in Er. injection Er as <- Hc.
    unfold P4EST_NUM_METADATA_BYTES in Ec. lia. }
  assert (H65 : length metadata = 65%nat).
  { rewrite Hlen. unfold buffer_fill.
    rewrite length_app, length_skipn, repeat_length, Hdata. reflexivity. }
  destruct (check_file_metadata_fails metadata H65) as [->|(us & ->)];
    [now left|].
  destruct (Z.eqb_spec P4EST_ERR_IO sc_MPI_SUCCESS); cbn [negb].
  - now left.
  - right. right. exists us. reflexivity.
Qed.

End InfoTheorem.


(* ================================================================= *)
(** * Part V: further properties of the code *)
(* ================================================================= *)

(** ** [get_padding_string] for any divisor *)

Lemma padding_count_cases n d :
  0 <= n -> 2 <= d ->
  let p := snd (get_padding_string n d false) in
  let r := (d - n mod d) mod d in
  0 <= r < d /\ (n + r) mod d = 0
  /\ ((r <= 1 /\ p = r + d) \/ (2 <= r /\ p = r)).
Proof.
  intros Hn Hd. cbn zeta. unfold get_padding_string. cbn [snd].
  pose proof (Z.mod_pos_bound n d ltac:(lia)) as Hm.
  pose proof (Z.mod_pos_bound (d - n mod d) d ltac:(lia)) as Hr.
  split; [exact Hr|]. split.
  - rewrite Z.add_mod_idemp_r by lia.
    replace (n + (d - n mod d)) with (n - n mod d + 1 * d) by lia.
    rewrite Z.mod_add by lia.
    rewrite (Z.div_mod n d) at 1 by lia.
    replace (d * (n / d) + n mod d - n mod d) with ((n / d) * d) by lia.
    apply Z.mod_mul. lia.
  - destruct (Z.eqb_spec ((d - n mod d) mod d) 0) as [E0|E0]; cbn [orb].
    + left. lia.
    + destruct (Z.eqb_spec ((d - n mod d) mod d) 1); [left|right]; lia.
Qed.

(** X1.  For every divisor of at least 2 and every byte count, the number
    of padding bytes lies between 2 and [divisor + 1], pads the count to a
    multiple of the divisor and is the least such number that is at least
    2; a buffer, when one is given, receives a newline, spaces and a newline,
    that many bytes in all. *)
Theorem X1_padding_for_any_divisor (n d : Z) (Hn : 0 <= n)
    (Hd : 2 <= d < 2147483647) :
  let p := snd (get_padding_string n d false) in
  2 <= p <= d + 1
  /\ (n + p) mod d = 0
  /\ (forall q, 2 <= q -> (n + q) mod d = 0 -> p <= q)
  /\ get_padding_string n d true
     = (Some ([LF] ++ repeat SP (Z.to_nat (p - 2)) ++ [LF]), p)
  /\ Z.of_nat (length ([LF] ++ repeat SP (Z.to_nat (p - 2)) ++ [LF])) = p.
Proof.
  cbn zeta.
  destruct (padding_count_cases n d Hn ltac:(lia)) as (Hr & Hmod & Hcase).
  cbn zeta in Hcase.
  set (p := snd (get_padding_string n d false)) in *.
  set (r := (d - n mod d) mod d) in *.
  assert (Hp : 2 <= p <= d + 1) by lia.
  assert (Hpmod : (n + p) mod d = 0).
  { destruct Hcase as [[_ Ep]|[_ Ep]]; rewrite Ep; [|exact Hmod].
    replace (n + (r + d)) with (n + r + 1 * d) by lia.
    now rewrite Z.mod_add by lia. }
  split; [exact Hp|]. split; [exact Hpmod|]. split; [|split].
  - intros q Hq Hqm.
    assert (Hdiv : (q - r) mod d = 0).
    { replace (q - r) with ((n + q) - (n + r)) by lia.
      rewrite Zminus_mod, Hqm, Hmod. reflexivity. }
    apply Z.mod_divide in Hdiv; [|lia]. destruct Hdiv as [k Hk].
    destruct Hcase as [[Hr1 Ep]|[Hr2 Ep]]; rewrite Ep.
    + assert (1 <= k) by nia. nia.
    + assert (0 <= k) by nia. nia.
  - change (get_padding_string n d true)
      with (Some (snprintf (p + 1)
                    ([LF] ++ fmt_left (to_int32 p - 2) [] ++ [LF])), p).
    do 2 f_equal. unfold snprintf, fmt_left.
    rewrite to_int32_id by lia. cbn [length app]. rewrite Nat.sub_0_r.
    apply firstn_all2. cbn [length]. rewrite length_app, repeat_length.
    cbn [length]. lia.
  - cbn [app length]. rewrite length_app, repeat_length. cbn [length]. lia.
Qed.

Lemma X1_padding_for_any_divisor_witness :
  2 <= snd (get_padding_string 30 4 false) <= 4 + 1
  /\ (30 + snd (get_padding_string 30 4 false)) mod 4 = 0
  /\ get_padding_string 30 4 true = (Some [LF; LF], 2).
Proof.
  destruct (X1_padding_for_any_divisor 30 4) as (H1 & H2 & _ & H4 & _);
    [lia | lia |].
  split; [exact H1|]. split; [exact H2|]. exact H4.
Defined.

(** ** The file header *)

Section FileHeader.
Context `{FIO : FileInterface}.

Lemma file_header_text N user_string :
  (length (cstring p4est_version) <= 23)%nat ->
  (length (cstring user_string) <= 47)%nat ->
  snprintf (P4EST_NUM_METADATA_BYTES + P4EST_BYTE_DIV + 1)
    (fmt_prec_s 7 P4EST_MAGIC_NUMBER ++ [LF]
     ++ fmt_left 23 (cstring p4est_version) ++ [LF]
     ++ fmt_left 47 (cstring user_string) ++ [LF]
     ++ fmt_lld 16 N ++ [LF] ++ fmt_left 14 [] ++ [LF])
  = list_ascii_of_string "p8data0" ++ [LF]
    ++ fmt_left 23 (cstring p4est_version) ++ [LF]
    ++ fmt_left 47 (cstring user_string) ++ [LF].
Proof.
  intros Hv Hu. unfold snprintf.
  change (Z.to_nat (P4EST_NUM_METADATA_BYTES + P4EST_BYTE_DIV + 1 - 1))
    with 80%nat.
  change (fmt_prec_s 7 P4EST_MAGIC_NUMBER) with (list_ascii_of_string "p8data0").
  pose proof (fmt_left_fits 23 (cstring p4est_version) Hv) as Lv.
  pose proof (fmt_left_fits 47 (cstring user_string) Hu) as Lu.
  change (Z.to_nat 23) with 23%nat in Lv. change (Z.to_nat 47) with 47%nat in Lu.
  set (v := fmt_left 23 (cstring p4est_version)) in *.
  set (u := fmt_left 47 (cstring user_string)) in *.
  replace (list_ascii_of_string "p8data0" ++ [LF] ++ v ++ [LF] ++ u ++ [LF]
           ++ fmt_lld 16 N ++ [LF] ++ fmt_left 14 [] ++ [LF])
    with ((list_ascii_of_string "p8data0" ++ [LF] ++ v ++ [LF] ++ u ++ [LF])
          ++ fmt_lld 16 N ++ [LF] ++ fmt_left 14 [] ++ [LF])
    by (now rewrite <- !app_assoc).
  apply firstn_exact.
  rewrite !length_app, Lv, Lu. reflexivity.
Qed.


End FileHeader.

(** ** The cursor of a writer *)

Section WriterProofs.
Context `{FIO : FileInterface}.

(** The context a valid write leaves: the same one for a size of zero,
    otherwise the context advanced over the section that was appended. *)
Lemma write_section_context N gfq w fc :
  at_end_of_file fc ->
  fc_global_first_quadrant fc = Some gfq ->
  fc_global_num_quadrants fc = N ->
  write_ok N gfq w ->
  fc_accessed_bytes fc + sections_length (sections_of w) < 4611686018427387904 ->
  write_section fc w
  = Some {| res_context :=
              Some (match sections_of w with
                    | [] => fc
                    | _ :: _ =>
                        fc_advance fc
                          (fc_file fc ++ flat_map bytes_of (sections_of w))
                          (sections_length (sections_of w))
                    end);
            res_returned := true; res_errcode := sc_MPI_SUCCESS;
            res_value := tt |}.
Proof.
  intros Hend Hgfq HN Hok Hroom.
  pose proof Hend as [Hab Hlen].
  destruct w as [hs hd us|qd us]; cbn [write_ok sections_of write_section] in *.
  - destruct Hok as (Hhs & Hpad & Hhd & Hus).
    revert Hroom. destruct (Z.eqb_spec hs 0) as [->|Hnz]; intros Hroom.
    + unfold p4est_file_write_header. cbn [Z.eqb].
      now rewrite error_code_success.
    + unfold sections_length, section_length in Hroom |- *.
      cbn [fold_right ws_payload] in Hroom |- *.
      pose proof (pad_len_range (Z.of_nat (length hd))) as Hp.
      rewrite write_header_success by (try assumption; lia).
      unfold bytes_of. cbn [flat_map ws_type ws_size ws_user ws_payload].
      rewrite app_nil_r, Hhd. do 4 f_equal. lia.
  - destruct qd as [|q0 rest]; [destruct Hok|].
    destruct Hok as (Hes & Hfd & Hus).
    revert Hroom.
    destruct (Z.eqb_spec (elem_size q0) 0) as [Hz|Hnz]; intros Hroom.
    + unfold p4est_file_write_field. rewrite Hz. cbn [Z.eqb].
      now rewrite error_code_success.
    + destruct (Hfd ltac:(lia)) as [Hdata Hpad]. clear Hfd.
      destruct (field_data_length _ _ _ _ Hdata) as [Hpay HN0].
      unfold sections_length, section_length in Hroom |- *.
      cbn [fold_right ws_payload] in Hroom |- *.
      rewrite Hpay in Hroom |- *.
      pose proof (pad_len_range (N * elem_size q0)) as Hp.
      rewrite (write_field_success fc gfq (elem_size q0));
        try assumption; try lia; try discriminate; try (now rewrite HN).
      unfold bytes_of. cbn [flat_map ws_type ws_size ws_user ws_payload].
      rewrite app_nil_r, HN. do 4 f_equal. lia.
Qed.

Lemma section_length_aligned sec : section_length sec mod 16 = 0.
Proof.
  unfold section_length.
  pose proof (pad_len_aligned (Z.of_nat (length (ws_payload sec)))) as H.
  replace (64 + Z.of_nat (length (ws_payload sec))
           + pad_len (Z.of_nat (length (ws_payload sec))))
    with (Z.of_nat (length (ws_payload sec))
          + pad_len (Z.of_nat (length (ws_payload sec))) + 4 * 16) by lia.
  now rewrite Z.mod_add by lia.
Qed.

Lemma sections_length_aligned secs : sections_length secs mod 16 = 0.
Proof.
  induction secs as [|sec secs IH]; [reflexivity|].
  change (sections_length (sec :: secs))
    with (section_length sec + sections_length secs).
  rewrite Z.add_mod, section_length_aligned, IH by lia. reflexivity.
Qed.

Lemma sections_length_app a b :
  sections_length (a ++ b) = sections_length a + sections_length b.
Proof.
  rewrite <- !sections_bytes_length, flat_map_app, length_app. lia.
Qed.

(** The state of a writer after a sequence of valid writes. *)
Lemma write_sections_context N gfq ws : forall fc,
  at_end_of_file fc ->
  fc_global_first_quadrant fc = Some gfq ->
  fc_global_num_quadrants fc = N ->
  0 <= fc_num_calls fc ->
  Forall (write_ok N gfq) ws ->
  fc_accessed_bytes fc + sections_length (flat_map sections_of ws)
    < 4611686018427387904 ->
  fc_num_calls fc + Z.of_nat (length (flat_map sections_of ws))
    < 18446744073709551616 ->
  exists fc',
    write_sections ws fc = Some fc'
    /\ at_end_of_file fc'
    /\ fc_accessed_bytes fc'
       = fc_accessed_bytes fc + sections_length (flat_map sections_of ws)
    /\ fc_num_calls fc'
       = fc_num_calls fc + Z.of_nat (length (flat_map sections_of ws))
    /\ fc_file fc' = fc_file fc ++ flat_map bytes_of (flat_map sections_of ws)
    /\ fc_global_num_quadrants fc' = N
    /\ fc_global_first_quadrant fc' = Some gfq
    /\ fc_mpisize fc' = fc_mpisize fc
    /\ fc_local_num_quadrants fc' = fc_local_num_quadrants fc.
Proof.
  induction ws as [|w ws IH]; intros fc Hend Hgfq HN Hcalls Hok Hroom Hmany.
  - exists fc. cbn. rewrite app_nil_r, !Z.add_0_r. repeat split; auto; apply Hend.
  - cbn [flat_map] in Hroom, Hmany.
    rewrite sections_length_app in Hroom. rewrite length_app in Hmany.
    pose proof (sections_count (flat_map sections_of ws)) as Hc.
    pose proof (sections_count (sections_of w)) as Hcw.
    pose proof (write_section_context N gfq w fc Hend Hgfq HN (Forall_inv Hok)
                  ltac:(lia)) as Hw.
    set (fc1 := match sections_of w with
                | [] => fc
                | _ :: _ => fc_advance fc
                              (fc_file fc ++ flat_map bytes_of (sections_of w))
                              (sections_length (sections_of w))
                end) in *.
    assert (H1 : at_end_of_file fc1
                 /\ fc_accessed_bytes fc1
                    = fc_accessed_bytes fc + sections_length (sections_of w)
                 /\ fc_num_calls fc1
                    = fc_num_calls fc + Z.of_nat (length (sections_of w))
                 /\ fc_file fc1 = fc_file fc ++ flat_map bytes_of (sections_of w)
                 /\ fc_global_num_quadrants fc1 = N
                 /\ fc_global_first_quadrant fc1 = Some gfq
                 /\ fc_mpisize fc1 = fc_mpisize fc
                 /\ fc_local_num_quadrants fc1 = fc_local_num_quadrants fc).
    { destruct Hend as [Hab Hlen]. unfold fc1.
      destruct w as [hs hd us|qd us]; cbn [sections_of] in *.
      - destruct (hs =? 0).
        + cbn. rewrite app_nil_r, !Z.add_0_r. repeat split; auto.
        + unfold at_end_of_file. cbn [length] in Hmany, Hcw.
          cbn [fc_advance fc_accessed_bytes fc_file fc_num_calls
               fc_global_num_quadrants fc_global_first_quadrant fc_mpisize
               fc_local_num_quadrants length].
          rewrite to_int64_id, to_size_t_id, length_app, Nat2Z.inj_add,
            sections_bytes_length by lia.
          repeat split; auto; lia.
      - destruct qd as [|q0 rest];
          [cbn; rewrite app_nil_r, !Z.add_0_r; repeat split; auto|].
        destruct (elem_size q0 =? 0).
        + cbn. rewrite app_nil_r, !Z.add_0_r. repeat split; auto.
        + unfold at_end_of_file. cbn [length] in Hmany, Hcw.
          cbn [fc_advance fc_accessed_bytes fc_file fc_num_calls
               fc_global_num_quadrants fc_global_first_quadrant fc_mpisize
               fc_local_num_quadrants length].
          rewrite to_int64_id, to_size_t_id, length_app, Nat2Z.inj_add,
            sections_bytes_length by lia.
          repeat split; auto; lia. }
    clearbody fc1.
    destruct H1 as (Hend1 & Hab1 & Hcalls1 & Hfile1 & HN1 & Hgfq1 & Hsz1 & Hl1).
    destruct (IH fc1 Hend1 Hgfq1 HN1 ltac:(lia) (Forall_inv_tail Hok)
                ltac:(lia) ltac:(lia))
      as (fc' & Hws & Hend' & Hab' & Hcalls' & Hfile' & HN' & Hgfq' & Hsz' & Hl').
    exists fc'. cbn [write_sections]. rewrite Hw. cbn.
    split; [exact Hws|]. split; [exact Hend'|].
    rewrite sections_length_app, flat_map_app, length_app.
    repeat split; try assumption; try congruence; try lia.
    rewrite Hfile', Hfile1, <- app_assoc. reflexivity.
Qed.

(** X2.  From a new file on, on any rank, any sequence of writes that
    satisfy [write_ok], of less than 2^62 bytes of sections in all,
    succeeds and leaves a writer whose cursor
    [accessed_bytes] is the sum of the lengths [64 + L + pad_len L] of the
    sections written, whose file has [80 + accessed_bytes] bytes, a
    multiple of 16, and whose [num_calls] counts the sections; writes of
    size zero count for nothing.  Global count, partition and communicator
    size stay as they were set.  [write_ok] asks of a header block a size
    below 2^31, as many data bytes and a user string of at most 47
    characters; of a field an element size of at most 13 decimal digits,
    one array of the element size per rank, each rank's part below 2^31
    bytes, and the same bound on the user string; and of either that its
    payload does not have a length of 15 modulo 16, for which the padding
    does not fit the 17 bytes of [pad]. *)
Theorem X2_writer_cursor_accounting
    (mpisize mpirank N : Z) (gfq lnq : list Z) (file_user_string : bytes)
    (ws : list section_write)
    (Hws : Forall (write_ok N (firstn (Z.to_nat (mpisize + 1)) gfq)) ws)
    (Hroom : 80 + sections_length (flat_map sections_of ws)
             < 4611686018427387904) :
  exists fc0 fc,
    p4est_file_open_create mpisize mpirank N gfq lnq file_user_string
    = {| res_context := Some fc0; res_returned := true;
         res_errcode := sc_MPI_SUCCESS; res_value := tt |}
    /\ write_sections ws fc0 = Some fc
    /\ fc_accessed_bytes fc = sections_length (flat_map sections_of ws)
    /\ Z.of_nat (length (fc_file fc)) = 80 + fc_accessed_bytes fc
    /\ Z.of_nat (length (fc_file fc)) mod 16 = 0
    /\ fc_num_calls fc = Z.of_nat (length (flat_map sections_of ws))
    /\ fc_global_num_quadrants fc = N
    /\ fc_global_first_quadrant fc = Some (firstn (Z.to_nat (mpisize + 1)) gfq)
    /\ fc_mpisize fc = mpisize.
Proof.
  pose proof (sections_count (flat_map sections_of ws)) as Hcount.
  unfold p4est_file_open_create.
  destruct (open_create_context mpisize mpirank N gfq lnq file_user_string)
    as (fc0 & Hopen & Hend0 & Hab0 & HN0 & Hgfq0).
  assert (Hcalls0 : fc_num_calls fc0 = 0 /\ fc_mpisize fc0 = mpisize).
  { revert Hopen. unfold p4est_file_open_create.
    destruct (sc_io_write_at _ _ _ _) as [file count].
    destruct (negb _); [discriminate|].
    intros H. injection H as H _. subst fc0. split; reflexivity. }
  destruct Hcalls0 as [Hcalls0 Hsize0].
  fold (p4est_file_open_create mpisize mpirank N gfq lnq file_user_string).
  destruct (write_sections_context N _ ws fc0 Hend0 Hgfq0 HN0)
    as (fc & Hwrite & Hend & Hab & Hcalls & _ & HN' & Hgfq' & Hsz & _);
    try assumption; try lia.
  exists fc0, fc. destruct Hend as [Hge Hlen].
  rewrite Hab0 in Hab. rewrite Hcalls0 in Hcalls. cbn in Hab, Hcalls.
  repeat split; try assumption; try congruence.
  rewrite Hlen, Hab.
  replace (80 + sections_length (flat_map sections_of ws))
    with (sections_length (flat_map sections_of ws) + 5 * 16) by lia.
  rewrite Z.mod_add by lia. apply sections_length_aligned.
Qed.

End WriterProofs.

Lemma X2_writer_cursor_accounting_witness :
  let FIO := example_io in
  exists fc0 fc,
    p4est_file_open_create 1 0 3 [0; 3] [3] (list_ascii_of_string "demo")
    = {| res_context := Some fc0; res_returned := true;
         res_errcode := sc_MPI_SUCCESS; res_value := tt |}
    /\ write_sections example_writes fc0 = Some fc
    /\ fc_accessed_bytes fc = (64 + 5 + 11) + (64 + 6 + 10)
    /\ Z.of_nat (length (fc_file fc)) = 240
    /\ fc_num_calls fc = 2.
Proof.
  cbn zeta.
  destruct (X2_writer_cursor_accounting (FIO := example_io)
              1 0 3 [0; 3] [3] (list_ascii_of_string "demo") example_writes)
    as (fc0 & fc & Hopen & Hwrite & Hab & Hlen & _ & Hcalls & _).
  - constructor; [|constructor; [|constructor; [|constructor]]].
    + split; [decide_cmp | split; [discriminate | split; [reflexivity | cbn; lia]]].
    + split; [decide_cmp | split; [discriminate | split; [reflexivity | cbn; lia]]].
    + split; [decide_cmp | split; [intros _; split; [concrete_field_ok | discriminate] | cbn; lia]].
  - decide_cmp.
  - exists fc0, fc. rewrite Hlen, Hab.
    repeat split; try assumption; try reflexivity.
Defined.

(** ** Reading the metadata of a section *)

Ltac io_constants :=
  unfold P4EST_NUM_FIELD_HEADER_BYTES, P4EST_NUM_ARRAY_METADATA_BYTES,
    P4EST_NUM_USER_STRING_BYTES, P4EST_NUM_METADATA_BYTES, P4EST_BYTE_DIV in *.

Section ReaderProofs.
Context `{FIO : FileInterface}.

Lemma section_at_skipn fc pre sec rest :
  section_at fc pre sec rest ->
  0 <= fc_accessed_bytes fc
  /\ skipn (Z.to_nat (fc_accessed_bytes fc + P4EST_NUM_METADATA_BYTES
                      + P4EST_BYTE_DIV)) (fc_file fc) = sec ++ rest.
Proof.
  intros (Hfile & Hab & Hpre & _). split; [lia|].
  rewrite Hfile. apply skipn_exact. io_constants. lia.
Qed.

(** [read_block_metadata] behind fewer bytes than a section header has. *)
Lemma read_block_metadata_end fc data_size t (want : bool) :
  0 <= fc_accessed_bytes fc < 4611686018427387904 ->
  Z.of_nat (length (fc_file fc)) < 4611686018427387904 ->
  Z.of_nat (length (fc_file fc))
    < 80 + fc_accessed_bytes fc + (if want then 64 else 16) ->
  read_block_metadata fc data_size t want
  = file_error (count_error_ahead (fc_mpirank fc)) (0, None).
Proof.
  intros Hab Hfile Hshort. unfold read_block_metadata.
  io_constants.
  rewrite to_int64_id by lia. rewrite sc_io_read_at_eq by lia.
  match goal with
  | |- (if negb (?n =? ?c) then _ else _) = _ =>
      destruct (Z.eqb_spec n c) as [E|E]; [|reflexivity]
  end.
  rewrite length_firstn, length_skipn in E. destruct want; lia.
Qed.

(** [read_block_metadata] at well-formed bytes [s]. *)
Lemma read_block_metadata_spec fc data_size t (want : bool) :
  let s := skipn (Z.to_nat (fc_accessed_bytes fc + P4EST_NUM_METADATA_BYTES
                            + P4EST_BYTE_DIV)) (fc_file fc) in
  let size := to_size_t (sc_atol (firstn 13 (skipn 2 s))) in
  let L := if Ascii.eqb (byte_at s 0) "F"%char
           then to_size_t (size * fc_global_num_quadrants fc) else size in
  0 <= fc_accessed_bytes fc ->
  Z.of_nat (length (fc_file fc)) < 4611686018427387904 ->
  (64 <= length s)%nat ->
  byte_at s 0 = t -> byte_at s 15 = LF ->
  (want = true -> size = data_size /\ byte_at s 63 = LF) ->
  64 + L + pad_len L <= Z.of_nat (length s) ->
  byte_at s (64 + L) = LF -> byte_at s (64 + L + pad_len L - 1) = LF ->
  read_block_metadata fc data_size t want
  = {| res_context := Some fc; res_returned := true;
       res_errcode := sc_MPI_SUCCESS;
       res_value := (size, if want
                           then Some (strncpy (firstn 47 (skipn 16 s)) 48)
                           else None) |}.
Proof.
  intros s size L Hab Hfile Hlen Htype H15 Hwant Hfit Hp0 Hp1.
  pose proof (pad_len_range L) as Hnp.
  assert (HL : 0 <= L).
  { unfold L. destruct (Ascii.eqb _ _); apply to_size_t_range. }
  assert (Hstart : fc_accessed_bytes fc + P4EST_NUM_METADATA_BYTES + P4EST_BYTE_DIV
                   = 80 + fc_accessed_bytes fc) by (io_constants; lia).
  assert (Hslen : 80 + fc_accessed_bytes fc + Z.of_nat (length s)
                  = Z.of_nat (length (fc_file fc))).
  { unfold s in *. rewrite Hstart, length_skipn in *. lia. }
  destruct (padding_read (fc_file fc) (80 + fc_accessed_bytes fc) L
              ltac:(lia) Hfile HL)
    as (pad & Hpad & Hpadlen & Hpad0 & Hpad1).
  { rewrite <- Hstart. exact Hfit. }
  rewrite <- Hstart in Hpad0, Hpad1. fold s in Hpad0, Hpad1.
  rewrite Hp0 in Hpad0. rewrite Hp1 in Hpad1.
  unfold read_block_metadata.
  rewrite (to_int64_id (fc_accessed_bytes fc + _ + _)) by (io_constants; lia).
  rewrite sc_io_read_at_eq by (io_constants; lia). fold s.
  replace (fc_accessed_bytes fc + P4EST_NUM_METADATA_BYTES + P4EST_BYTE_DIV
           + P4EST_NUM_FIELD_HEADER_BYTES)
    with (80 + fc_accessed_bytes fc + 64) by (io_constants; lia).
  assert (Hsize : size = to_size_t (sc_atol (firstn 13 (skipn 2 s))))
    by reflexivity.
  assert (HLeq : L = if Ascii.eqb (byte_at s 0) "F"%char
                     then to_size_t (size * fc_global_num_quadrants fc)
                     else size) by reflexivity.
  clearbody L size.
  destruct (header_bytes s Hlen) as (h & tl & Hs & Hh).
  clearbody s. subst s. explode_list h Hh.
  change P4EST_NUM_FIELD_HEADER_BYTES with 64.
  change (P4EST_NUM_ARRAY_METADATA_BYTES + 1) with 15.
  change (P4EST_NUM_ARRAY_METADATA_BYTES + 2) with 16.
  change (64 - 1) with 63.
  change P4EST_NUM_USER_STRING_BYTES with 48.
  change (Z.to_nat 64) with 64%nat.
  unfold byte_at in Htype, H15, Hwant, HLeq |- *.
  change (Z.to_nat 0) with 0%nat in *.
  change (Z.to_nat 15) with 15%nat in *.
  change (Z.to_nat 63) with 63%nat in *.
  cbn [app nth] in Htype, H15, Hwant, HLeq.
  subst a14. subst t.
  destruct want.
  - destruct (Hwant eq_refl) as [Hds H63]. subst a62.
    change (Z.to_nat 64) with 64%nat.
    cbn -[to_size_t to_int64 to_int32 sc_atol strncpy pad_len get_padding_string
          Z.mul Z.add Z.sub Z.eqb sc_io_read_at Ascii.eqb] in Hsize |- *.
    rewrite <- Hsize, Ascii.eqb_refl.
    change (Ascii.eqb LF LF) with true.
    rewrite <- Hds, <- HLeq, !get_padding_string_count, Hpad.
    cbv beta iota.
    rewrite to_int32_id by lia. rewrite !Z.eqb_refl. cbn [negb].
    unfold buffer_fill. rewrite !app_nth1 by lia. rewrite Hpad0, Hpad1.
    change (Ascii.eqb LF LF) with true. cbn [negb orb].
    reflexivity.
  - change (Z.to_nat 16) with 16%nat.
    cbn -[to_size_t to_int64 to_int32 sc_atol strncpy pad_len get_padding_string
          Z.mul Z.add Z.sub Z.eqb sc_io_read_at Ascii.eqb] in Hsize |- *.
    rewrite <- Hsize, Ascii.eqb_refl.
    change (Ascii.eqb LF LF) with true.
    rewrite <- HLeq, !get_padding_string_count, Hpad.
    cbv beta iota.
    rewrite to_int32_id by lia. rewrite !Z.eqb_refl. cbn [negb].
    unfold buffer_fill. rewrite !app_nth1 by lia. rewrite Hpad0, Hpad1.
    change (Ascii.eqb LF LF) with true. cbn [negb orb].
    reflexivity.
Qed.


(** [read_block_metadata] at a section header that is not the one asked
    for: another type, no newline behind the size, or another size. *)
Lemma read_block_metadata_reject fc data_size t (want : bool) :
  let s := skipn (Z.to_nat (fc_accessed_bytes fc + P4EST_NUM_METADATA_BYTES
                            + P4EST_BYTE_DIV)) (fc_file fc) in
  let size := to_size_t (sc_atol (firstn 13 (skipn 2 s))) in
  0 <= fc_accessed_bytes fc ->
  Z.of_nat (length (fc_file fc)) < 4611686018427387904 ->
  (64 <= length s)%nat ->
  byte_at s 0 <> t \/ byte_at s 15 <> LF
  \/ (want = true /\ size <> data_size) ->
  res_context (read_block_metadata fc data_size t want) = None
  /\ res_returned (read_block_metadata fc data_size t want) = false
  /\ res_errcode (read_block_metadata fc data_size t want) = P4EST_ERR_IO.
Proof.
  intros s size Hab Hfile Hlen Hbad.
  assert (Hslen : 80 + fc_accessed_bytes fc + Z.of_nat (length s)
                  = Z.of_nat (length (fc_file fc))).
  { unfold s in *. io_constants. rewrite length_skipn in *. lia. }
  unfold read_block_metadata.
  rewrite (to_int64_id (fc_accessed_bytes fc + _ + _)) by (io_constants; lia).
  rewrite sc_io_read_at_eq by (io_constants; lia). fold s.
  assert (Hsize : size = to_size_t (sc_atol (firstn 13 (skipn 2 s))))
    by reflexivity.
  clearbody size.
  destruct (header_bytes s Hlen) as (h & tl & Hs & Hh).
  clearbody s. subst s. explode_list h Hh.
  change P4EST_NUM_FIELD_HEADER_BYTES with 64.
  change (P4EST_NUM_ARRAY_METADATA_BYTES + 1) with 15.
  change (P4EST_NUM_ARRAY_METADATA_BYTES + 2) with 16.
  change (64 - 1) with 63.
  change P4EST_NUM_USER_STRING_BYTES with 48.
  change (Z.to_nat 64) with 64%nat.
  unfold byte_at in Hbad |- *.
  change (Z.to_nat 0) with 0%nat in *.
  change (Z.to_nat 15) with 15%nat in *.
  change (Z.to_nat 63) with 63%nat in *.
  cbn [app nth] in Hbad.
  assert (Hcases : Ascii.eqb a t = false
                   \/ Ascii.eqb a14 LF = false
                   \/ (want = true /\ (size =? data_size) = false)).
  { destruct Hbad as [H|[H|[H1 H2]]].
    - left. now apply Ascii.eqb_neq.
    - right. left. now apply Ascii.eqb_neq.
    - right. right. split; [assumption|]. now apply Z.eqb_neq. }
  clear Hbad.
  destruct want;
    change (Z.to_nat 64) with 64%nat; change (Z.to_nat 16) with 16%nat;
    cbn -[to_size_t to_int64 to_int32 sc_atol strncpy pad_len get_padding_string
          Z.mul Z.add Z.sub Z.eqb sc_io_read_at Ascii.eqb] in Hsize |- *;
    rewrite <- Hsize; rewrite ?Z.eqb_refl; cbn [negb];
    destruct Hcases as [H|[H|[H1 H2]]]; try discriminate H1;
    rewrite ?H, ?H2; cbn [negb];
    repeat match goal with
           | |- context [if negb ?c then file_error _ _ else _] =>
               destruct c; cbn [negb]
           end;
    repeat split; reflexivity.
Qed.

End ReaderProofs.

(** ** Readers at a written section *)

Section SectionReaders.
Context `{FIO : FileInterface}.

(** What [read_block_metadata] finds at a written section. *)
Lemma read_block_metadata_section fc pre sec rest data_size (want : bool) :
  section_at fc pre (bytes_of sec) rest ->
  section_ok (fc_global_num_quadrants fc) sec ->
  (want = true -> data_size = ws_size sec) ->
  read_block_metadata fc data_size (ws_type sec) want
  = {| res_context := Some fc; res_returned := true;
       res_errcode := sc_MPI_SUCCESS;
       res_value := (ws_size sec,
                     if want
                     then Some (fmt_left 47 (cstring (ws_user sec)) ++ [NUL])
                     else None) |}.
Proof.
  intros Hat Hok Hwant.
  destruct (section_at_skipn _ _ _ _ Hat) as [Hab Hskip].
  destruct Hat as (Hfile & _ & Hpre & Hsmall).
  destruct (section_bytes_scan _ sec rest Hok)
    as (Hlen & H0 & H15 & H63 & Hatol & Hus & Hfit & Hp0 & Hp1 & _).
  pose proof Hok as (Htype & Hsize & _ & Hpay).
  pose proof (pad_len_range (Z.of_nat (length (ws_payload sec)))) as Hnp.
  pose proof (read_block_metadata_spec fc data_size (ws_type sec) want) as Hspec.
  cbv zeta in Hspec. rewrite Hskip in Hspec.
  set (s := bytes_of sec ++ rest) in *.
  assert (Hslen : Z.of_nat (length s) <= Z.of_nat (length (fc_file fc))).
  { rewrite Hfile, length_app. fold s. lia. }
  assert (HL : (if Ascii.eqb (byte_at s 0) "F"%char
                then to_size_t (to_size_t (sc_atol (firstn 13 (skipn 2 s)))
                                * fc_global_num_quadrants fc)
                else to_size_t (sc_atol (firstn 13 (skipn 2 s))))
               = Z.of_nat (length (ws_payload sec))).
  { rewrite Hatol, H0, (to_size_t_id (ws_size sec)) by lia.
    revert Hpay. destruct (Ascii.eqb _ _); intros Hpay; [|now symmetry].
    rewrite Z.mul_comm, <- Hpay. apply to_size_t_id. lia. }
  rewrite HL, Hatol, Hus, (to_size_t_id (ws_size sec)) in Hspec by lia.
  apply Hspec; try assumption; try lia.
  intros Hw. split; [symmetry; auto | assumption].
Qed.

(** The read of a written header section with its stored size. *)
Lemma read_header_section fc pre rest header_size user_string header_data :
  section_at fc pre (section_bytes "H" header_size user_string header_data)
             rest ->
  0 < header_size < 2147483648 ->
  Z.of_nat (length header_data) = header_size ->
  (length (cstring user_string) <= 47)%nat ->
  exists fc',
    p4est_file_read_header fc header_size true
    = {| res_context := Some fc'; res_returned := true;
         res_errcode := sc_MPI_SUCCESS;
         res_value := (Some header_data,
                       Some (fmt_left 47 (cstring user_string) ++ [NUL])) |}
    /\ fc_file fc' = fc_file fc
    /\ fc_global_num_quadrants fc' = fc_global_num_quadrants fc
    /\ fc_accessed_bytes fc'
       = fc_accessed_bytes fc + 64 + header_size + pad_len header_size
    /\ section_at fc'
         (pre ++ section_bytes "H" header_size user_string header_data) []
         rest
    /\ fc_num_calls fc' = to_size_t (fc_num_calls fc + 1).
Proof.
  intros Hat Hsize Hdata Huser.
  pose proof (pad_len_range header_size) as Hnp.
  set (sec := {| ws_type := "H"%char; ws_size := header_size;
                 ws_user := user_string; ws_payload := header_data |}).
  pose proof (bytes_of_length sec) as Hsl.
  unfold section_length, bytes_of in Hsl.
  cbn [sec ws_type ws_size ws_user ws_payload] in Hsl. rewrite Hdata in Hsl.
  assert (Hok : section_ok (fc_global_num_quadrants fc) sec).
  { unfold section_ok, sec. cbn. repeat split; auto; lia. }
  pose proof (read_block_metadata_section fc pre sec rest header_size true
                Hat Hok (fun _ => eq_refl)) as Hmeta.
  cbn [sec ws_type ws_size ws_user] in Hmeta.
  pose proof Hat as (Hfile & Hab & Hpre & Hsmall).
  assert (Hflen : Z.of_nat (length (fc_file fc))
                  = 80 + fc_accessed_bytes fc + 64 + header_size
                    + pad_len header_size + Z.of_nat (length rest)).
  { rewrite Hfile, !length_app. lia. }
  unfold p4est_file_read_header.
  destruct (Z.eqb_spec header_size 0); [lia|]. cbn [negb orb].
  replace (P4EST_ENABLE_MPIIO
           && (to_size_t (Z.of_nat (length (fc_file fc))
                          - P4EST_NUM_METADATA_BYTES - P4EST_BYTE_DIV
                          - P4EST_NUM_FIELD_HEADER_BYTES) <? header_size))
    with false.
  2:{ symmetry. apply andb_false_iff. right. apply Z.ltb_ge.
      io_constants. rewrite to_size_t_id by lia. lia. }
  rewrite Hmeta. cbn [res_returned negb res_value snd].
  rewrite to_int32_id by lia.
  rewrite (to_int64_id (fc_accessed_bytes fc + _ + _ + _))
    by (io_constants; lia).
  rewrite sc_io_read_at_eq by (io_constants; lia).
  assert (Hread : firstn (Z.to_nat header_size)
                    (skipn (Z.to_nat (fc_accessed_bytes fc
                                      + P4EST_NUM_METADATA_BYTES
                                      + P4EST_NUM_FIELD_HEADER_BYTES
                                      + P4EST_BYTE_DIV)) (fc_file fc))
                  = header_data).
  { rewrite Hfile. unfold section_bytes.
    rewrite <- !app_assoc, (app_assoc pre).
    rewrite skipn_exact.
    2:{ rewrite length_app, section_header_length. io_constants. lia. }
    apply firstn_exact. lia. }
  rewrite Hread, Hdata, Z.eqb_refl. cbn [negb].
  rewrite error_code_success.
  change (snd (get_padding_string header_size P4EST_BYTE_DIV false))
    with (pad_len header_size).
  eexists. split; [reflexivity|].
  unfold section_at.
  cbn [fc_advance fc_file fc_accessed_bytes fc_num_calls
       fc_global_num_quadrants].
  rewrite !to_int64_id by (io_constants; lia).
  io_constants. cbn [app].
  rewrite length_app, Nat2Z.inj_add, Hsl, Hfile, <- app_assoc.
  repeat split; try reflexivity; try lia.
  rewrite <- Hfile. exact Hsmall.
Qed.

(** X3.  A header section of a positive size below 2^31 that is not 15
    modulo 16, with a user string of at most 47 characters, written at the
    end of a file, is read back by a reader that stands where the writer
    stood: [p4est_file_read_header] with the written size returns the
    written bytes and the user string as the file holds it (filled with
    spaces to 47 bytes, NUL-terminated), with the success code, and moves
    the reader's cursor to where the write left the writer's, by
    [64 + header_size + pad_len header_size].  (For a size of 15 modulo 16
    the padding of 17 bytes and its NUL do not fit the buffer [pad] of the
    writer.) *)
Theorem X3_header_write_read_round_trip
    (writer reader : p4est_file_context_t)
    (header_size : Z) (header_data user_string : bytes)
    (Hend : at_end_of_file writer)
    (Hsize : 0 < header_size < 2147483648)
    (Hpad : header_size mod 16 <> 15)
    (Hdata : Z.of_nat (length header_data) = header_size)
    (Huser : (length (cstring user_string) <= 47)%nat)
    (Hroom : fc_accessed_bytes writer < 4611686018427387904 - 4294967296)
    (Hcursor : fc_accessed_bytes reader = fc_accessed_bytes writer)
    (Hfile : fc_file reader
             = fc_file writer
               ++ section_bytes "H" header_size user_string header_data) :
  exists writer' reader',
    p4est_file_write_header writer header_size header_data user_string
    = Some {| res_context := Some writer'; res_returned := true;
              res_errcode := sc_MPI_SUCCESS; res_value := tt |}
    /\ fc_file writer' = fc_file reader
    /\ p4est_file_read_header reader header_size true
       = {| res_context := Some reader'; res_returned := true;
            res_errcode := sc_MPI_SUCCESS;
            res_value := (Some header_data,
                          Some (fmt_left 47 (cstring user_string) ++ [NUL])) |}
    /\ fc_file reader' = fc_file reader
    /\ fc_accessed_bytes reader' = fc_accessed_bytes writer'
    /\ fc_accessed_bytes reader'
       = fc_accessed_bytes reader + 64 + header_size + pad_len header_size
    /\ fc_num_calls reader' = to_size_t (fc_num_calls reader + 1).
Proof.
  pose proof Hend as [Hab Hlen].
  pose proof (pad_len_range header_size) as Hnp.
  rewrite write_header_success by (try assumption; lia).
  set (sec := {| ws_type := "H"%char; ws_size := header_size;
                 ws_user := user_string; ws_payload := header_data |}).
  pose proof (bytes_of_length sec) as Hsl.
  unfold section_length, bytes_of in Hsl.
  cbn [sec ws_type ws_size ws_user ws_payload] in Hsl. rewrite Hdata in Hsl.
  assert (Hat : section_at reader (fc_file writer) (bytes_of sec) []).
  { unfold section_at. rewrite app_nil_r, Hfile, Hcursor.
    repeat split; try assumption; try lia.
    rewrite length_app. lia. }
  assert (Hok : section_ok (fc_global_num_quadrants reader) sec).
  { unfold section_ok, sec. cbn. repeat split; auto; lia. }
  pose proof (read_block_metadata_section reader _ sec [] header_size true
                Hat Hok (fun _ => eq_refl)) as Hmeta.
  cbn [sec ws_type ws_size ws_user] in Hmeta.
  unfold p4est_file_read_header.
  destruct (Z.eqb_spec header_size 0); [lia|]. cbn [negb orb].
  (* the check of the file size with MPI I/O *)
  assert (Hflen : Z.of_nat (length (fc_file reader))
                  = 80 + fc_accessed_bytes writer + 64 + header_size
                    + pad_len header_size).
  { rewrite Hfile, length_app. lia. }
  replace (P4EST_ENABLE_MPIIO
           && (to_size_t (Z.of_nat (length (fc_file reader))
                          - P4EST_NUM_METADATA_BYTES - P4EST_BYTE_DIV
                          - P4EST_NUM_FIELD_HEADER_BYTES) <? header_size))
    with false.
  2:{ symmetry. apply andb_false_iff. right. apply Z.ltb_ge.
      io_constants. rewrite to_size_t_id by lia. lia. }
  rewrite Hmeta. cbn [res_returned negb res_value snd].
  (* the header data *)
  rewrite to_int32_id by lia.
  rewrite (to_int64_id (fc_accessed_bytes reader + _ + _ + _))
    by (io_constants; lia).
  rewrite sc_io_read_at_eq by (io_constants; lia).
  assert (Hread : firstn (Z.to_nat header_size)
                    (skipn (Z.to_nat (fc_accessed_bytes reader
                                      + P4EST_NUM_METADATA_BYTES
                                      + P4EST_NUM_FIELD_HEADER_BYTES
                                      + P4EST_BYTE_DIV)) (fc_file reader))
                  = header_data).
  { rewrite Hfile. unfold section_bytes.
    rewrite (app_assoc (fc_file writer)).
    rewrite skipn_exact.
    2:{ rewrite length_app, section_header_length. io_constants. lia. }
    apply firstn_exact. lia. }
  rewrite Hread, Hdata, Z.eqb_refl. cbn [negb].
  rewrite error_code_success.
  change (snd (get_padding_string header_size P4EST_BYTE_DIV false))
    with (pad_len header_size).
  eexists. eexists. split; [reflexivity|].
  split; [now rewrite Hfile|]. split; [reflexivity|].
  cbn [fc_advance fc_file fc_accessed_bytes fc_num_calls].
  rewrite Hcursor.
  rewrite !to_int64_id by (io_constants; lia).
  io_constants. repeat split; try reflexivity; lia.
Qed.


(** The bytes behind the cursor of a reader at a written section. *)
Lemma section_at_bytes fc pre sec rest :
  section_at fc pre (bytes_of sec) rest ->
  section_ok (fc_global_num_quadrants fc) sec ->
  let s := skipn (Z.to_nat (fc_accessed_bytes fc + P4EST_NUM_METADATA_BYTES
                            + P4EST_BYTE_DIV)) (fc_file fc) in
  (64 <= length s)%nat
  /\ byte_at s 0 = ws_type sec
  /\ byte_at s 15 = LF
  /\ to_size_t (sc_atol (firstn 13 (skipn 2 s))) = ws_size sec
  /\ Z.of_nat (length (fc_file fc))
     = 80 + fc_accessed_bytes fc + section_length sec + Z.of_nat (length rest).
Proof.
  intros Hat Hok. cbn zeta.
  destruct (section_at_skipn _ _ _ _ Hat) as [Hab Hskip]. rewrite Hskip.
  destruct Hat as (Hfile & _ & Hpre & Hsmall).
  destruct (section_bytes_scan _ sec rest Hok)
    as (Hlen & H0 & H15 & _ & Hatol & _).
  destruct Hok as (_ & Hsize & _).
  repeat split; try assumption.
  - rewrite Hatol. apply to_size_t_id. lia.
  - rewrite Hfile, !length_app, !Nat2Z.inj_add, bytes_of_length. lia.
Qed.


(** X5.  Behind fewer than 16 bytes, where the cursor is below 2^62 and
    the file shorter than 2^62 bytes, the skip of a header section and the
    skip of a field section fail, and so, without MPI I/O and behind fewer
    than 64 bytes, does the read of a header section of a size other than
    0: the context is freed and NULL is returned.  The error code depends
    on the rank.  Rank 0, which reads, leaves with the count error.  Every
    other rank receives the flag 1 that rank 0 broadcasts for the count
    error where it waits for the return value of the read, and leaves with
    the error class of 1, classified once more by the function that
    called [read_block_metadata]. *)
Theorem X5_read_at_end_of_file
    (fc : p4est_file_context_t) (header_size : Z) (gfq : list Z)
    (Hcursor : 0 <= fc_accessed_bytes fc < 4611686018427387904)
    (Hsmall : Z.of_nat (length (fc_file fc)) < 4611686018427387904) :
  let code :=
    if fc_mpirank fc =? 0 then P4EST_FILE_COUNT_ERROR
    else snd (p4est_file_error_code (snd (p4est_file_error_code 1))) in
  (Z.of_nat (length (fc_file fc)) < 80 + fc_accessed_bytes fc + 16 ->
   p4est_file_read_header fc header_size false
   = {| res_context := None; res_returned := false;
        res_errcode := code; res_value := (None, None) |}
   /\ p4est_file_read_field_ext fc gfq None
      = Some {| res_context := None; res_returned := false;
                res_errcode := code; res_value := (None, None) |})
  /\ (Z.of_nat (length (fc_file fc)) < 80 + fc_accessed_bytes fc + 64 ->
      P4EST_ENABLE_MPIIO = false -> header_size <> 0 ->
      p4est_file_read_header fc header_size true
      = {| res_context := None; res_returned := false;
           res_errcode := code; res_value := (None, None) |}).
Proof.
  assert (Hcode : snd (p4est_file_error_code (count_error_ahead (fc_mpirank fc)))
                  = if fc_mpirank fc =? 0 then P4EST_FILE_COUNT_ERROR
                    else snd (p4est_file_error_code
                                (snd (p4est_file_error_code 1)))).
  { unfold count_error_ahead. destruct (fc_mpirank fc =? 0); reflexivity. }
  cbn zeta. rewrite <- Hcode. split.
  - intros Hend.
    pose proof (read_block_metadata_end fc 0 "H" false Hcursor Hsmall Hend) as HH.
    pose proof (read_block_metadata_end fc 0 "F" false Hcursor Hsmall Hend) as HF.
    split.
    + unfold p4est_file_read_header. cbn [negb orb]. rewrite HH. reflexivity.
    + unfold p4est_file_read_field_ext. rewrite HF. reflexivity.
  - intros Hend Hio Hnz.
    pose proof (read_block_metadata_end fc header_size "H" true Hcursor Hsmall
                  Hend) as HH.
    unfold p4est_file_read_header. rewrite Hio.
    destruct (Z.eqb_spec header_size 0); [contradiction|]. cbn [negb orb andb].
    rewrite HH. reflexivity.
Qed.

(** X6.  The skip of a field section ([quadrant_data = NULL]) at a written
    field section returns NULL with the success code, keeps the context and
    the file, and moves the cursor by the length of the section,
    [64 + N * s + pad_len (N * s)] for the stored element size [s]: to the
    first byte behind its padding. *)
Theorem X6_field_skip_passes_the_section
    (fc : p4est_file_context_t) (pre rest : bytes) (sec : written_section)
    (gfq : list Z)
    (Hat : section_at fc pre (bytes_of sec) rest)
    (Hok : section_ok (fc_global_num_quadrants fc) sec)
    (Hfield : ws_type sec = "F"%char) :
  exists fc',
    p4est_file_read_field_ext fc gfq None
    = Some {| res_context := Some fc'; res_returned := false;
              res_errcode := sc_MPI_SUCCESS; res_value := (None, None) |}
    /\ fc_file fc' = fc_file fc
    /\ fc_accessed_bytes fc'
       = fc_accessed_bytes fc + 64
         + fc_global_num_quadrants fc * ws_size sec
         + pad_len (fc_global_num_quadrants fc * ws_size sec)
    /\ section_at fc' (pre ++ bytes_of sec) [] rest
    /\ fc_num_calls fc' = to_size_t (fc_num_calls fc + 1).
Proof.
  pose proof (read_block_metadata_section fc pre sec rest 0 false Hat Hok
                ltac:(discriminate)) as Hmeta.
  rewrite Hfield in Hmeta.
  destruct (section_at_bytes _ _ _ _ Hat Hok) as (_ & _ & _ & _ & Hfl).
  destruct Hat as (Hfile & Hab & Hpre & Hsmall).
  destruct Hok as (_ & Hsize & _ & Hpay). rewrite Hfield in Hpay. cbn in Hpay.
  unfold section_length in Hfl. rewrite Hpay in Hfl.
  pose proof (pad_len_range (fc_global_num_quadrants fc * ws_size sec)) as Hnp.
  unfold p4est_file_read_field_ext. rewrite Hmeta.
  cbn [res_returned negb res_value fst]. rewrite error_code_success.
  rewrite get_padding_string_count.
  rewrite (Z.mul_comm (ws_size sec)).
  rewrite (to_size_t_id (fc_global_num_quadrants fc * ws_size sec)) by lia.
  eexists. split; [reflexivity|].
  unfold section_at.
  cbn [fc_advance fc_file fc_accessed_bytes fc_num_calls].
  rewrite to_int64_id by (io_constants; lia).
  io_constants. cbn [app].
  rewrite length_app, Nat2Z.inj_add, bytes_of_length.
  unfold section_length. rewrite Hpay, Hfile, <- app_assoc.
  repeat split; try reflexivity; try lia.
  rewrite <- Hfile. exact Hsmall.
Qed.

(** X7.  The skip of a header section ([header_data = NULL]) at a written
    header section succeeds for any [header_size]: it returns NULL with the
    success code and moves the cursor by
    [64 + header_size + pad_len header_size], whatever size the section
    has.  The cursor then stands behind the section exactly when
    [header_size + pad_len header_size] equals the stored size plus its
    padding, as it does when the stored size is passed. *)
Theorem X7_header_skip_advance
    (fc : p4est_file_context_t) (pre rest : bytes) (sec : written_section)
    (header_size : Z)
    (Hat : section_at fc pre (bytes_of sec) rest)
    (Hok : section_ok (fc_global_num_quadrants fc) sec)
    (Hheader : ws_type sec = "H"%char)
    (Hsize : 0 <= header_size < 4611686018427387904) :
  exists fc',
    p4est_file_read_header fc header_size false
    = {| res_context := Some fc'; res_returned := false;
         res_errcode := sc_MPI_SUCCESS; res_value := (None, None) |}
    /\ fc_file fc' = fc_file fc
    /\ fc_accessed_bytes fc'
       = fc_accessed_bytes fc + 64 + header_size + pad_len header_size
    /\ (fc_accessed_bytes fc' = fc_accessed_bytes fc + section_length sec
        <-> header_size + pad_len header_size
            = ws_size sec + pad_len (ws_size sec))
    /\ (header_size = ws_size sec -> section_at fc' (pre ++ bytes_of sec) [] rest).
Proof.
  pose proof (read_block_metadata_section fc pre sec rest 0 false Hat Hok
                ltac:(discriminate)) as Hmeta.
  rewrite Hheader in Hmeta.
  destruct (section_at_bytes _ _ _ _ Hat Hok) as (_ & _ & _ & _ & Hfl).
  destruct Hat as (Hfile & Hab & Hpre & Hsmall).
  destruct Hok as (_ & Hsz & _ & Hpay). rewrite Hheader in Hpay. cbn in Hpay.
  pose proof (pad_len_range header_size) as Hnp.
  pose proof (pad_len_range (ws_size sec)) as Hnp'.
  unfold p4est_file_read_header. cbn [negb orb]. rewrite Hmeta.
  cbn [res_returned negb]. rewrite error_code_success.
  rewrite get_padding_string_count.
  eexists. split; [reflexivity|].
  unfold section_at, section_length in *. rewrite Hpay in *.
  cbn [fc_advance fc_file fc_accessed_bytes].
  rewrite to_int64_id by (io_constants; lia).
  io_constants. cbn [app].
  split; [reflexivity|]. split; [lia|]. split; [lia|].
  intros ->. rewrite length_app, Nat2Z.inj_add, bytes_of_length.
  unfold section_length. rewrite Hpay, Hfile, <- app_assoc.
  repeat split; try reflexivity; try lia.
  rewrite <- Hfile. exact Hsmall.
Qed.

(** X11.  With MPI I/O, a read of a header section of more bytes than the
    file holds behind its file header and one section header closes the
    file, frees the context and returns NULL, and the error code it
    reports is the success code. *)
Theorem X11_oversized_read_reports_success
    (fc : p4est_file_context_t) (header_size : Z)
    (Hmpi : P4EST_ENABLE_MPIIO = true)
    (Hfile : 144 <= Z.of_nat (length (fc_file fc)) < 4611686018427387904)
    (Hsize : Z.of_nat (length (fc_file fc)) - 144 < header_size) :
  p4est_file_read_header fc header_size true
  = {| res_context := None; res_returned := false;
       res_errcode := sc_MPI_SUCCESS; res_value := (None, None) |}.
Proof.
  unfold p4est_file_read_header. rewrite Hmpi.
  destruct (Z.eqb_spec header_size 0); [lia|]. cbn [negb orb andb].
  io_constants. rewrite to_size_t_id by lia.
  destruct (Z.ltb_spec (Z.of_nat (length (fc_file fc)) - 64 - 16 - (2 + 14 + 48))
                       header_size); [|lia].
  rewrite error_code_success. reflexivity.
Qed.

(** X14.  At a written header section anywhere in the file, the read with
    the stored size returns the payload and the user string as the file
    holds it, with the success code, keeps the file and moves the cursor by
    [64 + header_size + pad_len header_size], to the first byte behind the
    section: the next section, when there is one, is read from there. *)
Theorem X14_header_read_at_section
    (fc : p4est_file_context_t) (pre rest : bytes)
    (header_size : Z) (user_string header_data : bytes)
    (Hat : section_at fc pre
             (section_bytes "H" header_size user_string header_data) rest)
    (Hsize : 0 < header_size < 2147483648)
    (Hdata : Z.of_nat (length header_data) = header_size)
    (Huser : (length (cstring user_string) <= 47)%nat) :
  exists fc',
    p4est_file_read_header fc header_size true
    = {| res_context := Some fc'; res_returned := true;
         res_errcode := sc_MPI_SUCCESS;
         res_value := (Some header_data,
                       Some (fmt_left 47 (cstring user_string) ++ [NUL])) |}
    /\ fc_file fc' = fc_file fc
    /\ fc_global_num_quadrants fc' = fc_global_num_quadrants fc
    /\ fc_accessed_bytes fc'
       = fc_accessed_bytes fc + 64 + header_size + pad_len header_size
    /\ section_at fc'
         (pre ++ section_bytes "H" header_size user_string header_data) []
         rest
    /\ fc_num_calls fc' = to_size_t (fc_num_calls fc + 1).
Proof.
  exact (read_header_section fc pre rest header_size user_string header_data
           Hat Hsize Hdata Huser).
Qed.

End SectionReaders.

(** ** Reading a field section *)

Lemma firstn_add {A} (a b : nat) (l : list A) :
  firstn (a + b) l = firstn a l ++ firstn b (skipn a l).
Proof.
  revert l. induction a as [|a IH]; intros l; [reflexivity|].
  destruct l as [|x l]; [now rewrite !firstn_nil|].
  cbn [Nat.add firstn skipn app]. now rewrite IH.
Qed.

Lemma firstn_skipn_app {A} (n k : nat) (a b : list A) :
  (k + n <= length a)%nat ->
  firstn n (skipn k (a ++ b)) = firstn n (skipn k a).
Proof.
  intros H. rewrite skipn_app, firstn_app, length_skipn.
  replace (n - (length a - k))%nat with 0%nat by lia.
  cbn [firstn]. apply app_nil_r.
Qed.

(** The slices of the ranks, one after the other, are the payload. *)
Lemma field_slices_concat payload gfq es P :
  0 <= es ->
  at_index gfq 0 = 0 ->
  (forall r, (r < P)%nat ->
     at_index gfq (Z.of_nat r) <= at_index gfq (Z.of_nat r + 1)) ->
  Z.of_nat (length payload) = at_index gfq (Z.of_nat P) * es ->
  concat (map (field_slice payload gfq es) (seq 0 P)) = payload.
Proof.
  intros Hes H0 Hmono Hlen.
  assert (Hpre : forall k, (k <= P)%nat ->
            0 <= at_index gfq (Z.of_nat k)
            /\ concat (map (field_slice payload gfq es) (seq 0 k))
               = firstn (Z.to_nat (es * at_index gfq (Z.of_nat k))) payload).
  { induction k as [|k IH]; intros Hk.
    - change (Z.of_nat 0) with 0. rewrite H0, Z.mul_0_r. split; [lia|reflexivity].
    - destruct (IH ltac:(lia)) as [Hg IHc].
      specialize (Hmono k ltac:(lia)).
      replace (Z.of_nat (S k)) with (Z.of_nat k + 1) by lia.
      split; [lia|].
      rewrite seq_S, map_app, concat_app, IHc. cbn [map concat Nat.add].
      rewrite app_nil_r. unfold field_slice.
      rewrite <- firstn_add. f_equal. nia. }
  destruct (Hpre P (le_n _)) as [Hg Hc]. rewrite Hc.
  apply firstn_all2. lia.
Qed.

Section FieldReaders.
Context `{FIO : FileInterface}.

(** The arrays of the ranks after [sc_array_resize]. *)
Lemma resize_ranks gfq es : forall qd r0,
  0 < es ->
  (r0 + length qd < length gfq)%nat ->
  (forall i, (i < length qd)%nat ->
     0 <= at_index gfq (Z.of_nat (r0 + i) + 1) - at_index gfq (Z.of_nat (r0 + i))
     /\ es * (at_index gfq (Z.of_nat (r0 + i) + 1)
              - at_index gfq (Z.of_nat (r0 + i))) < 2147483648) ->
  Forall (fun q => elem_size q = es) qd ->
  exists qd1,
    mapM (resize_rank gfq) (combine (map Z.of_nat (seq r0 (length qd))) qd)
    = Some qd1
    /\ length qd1 = length qd
    /\ forall i q1, nth_error qd1 i = Some q1 ->
         elem_size q1 = es
         /\ elem_count q1 = at_index gfq (Z.of_nat (r0 + i) + 1)
                            - at_index gfq (Z.of_nat (r0 + i))
         /\ Z.of_nat (length (array q1)) = es * elem_count q1.
Proof.
  induction qd as [|q qd IH]; intros r0 Hes Hr Hd Hsz.
  - exists []. split; [reflexivity|]. split; [reflexivity|].
    intros [|i] q1 H; discriminate H.
  - cbn [length seq map combine mapM] in *.
    destruct (IH (S r0) Hes ltac:(lia)) as (qd1 & E & Hl & Hq).
    { intros i Hi. specialize (Hd (S i) ltac:(lia)).
      now rewrite Nat.add_succ_r in Hd. }
    { exact (Forall_inv_tail Hsz). }
    destruct (Hd 0%nat ltac:(lia)) as [Hd0 Hd1]. rewrite Nat.add_0_r in Hd0, Hd1.
    pose proof (Forall_inv Hsz) as Hs. cbn beta in Hs.
    unfold resize_rank at 1. cbn [fst snd].
    rewrite !nthZ_at_index by lia. rewrite E.
    eexists. split; [reflexivity|]. split; [cbn [length]; lia|].
    intros [|i] q1 H; cbn [nth_error] in H.
    + injection H as <-. unfold sc_array_resize.
      cbn [elem_size elem_count array].
      rewrite Nat.add_0_r, to_int64_id, to_size_t_id, Hs by nia.
      repeat split.
      unfold MPI_File_set_size. rewrite length_app, length_firstn, repeat_length.
      nia.
    + destruct (Hq i q1 H) as (A & B & C).
      rewrite Nat.add_succ_r. repeat split; assumption.
Qed.

(** What the ranks read from the payload of a field section. *)
Lemma read_ranks fc gfq es pre hdr payload rest : forall qd1 r0,
  fc_file fc = pre ++ hdr ++ payload ++ rest ->
  Z.of_nat (length pre) = 80 + fc_accessed_bytes fc ->
  0 <= fc_accessed_bytes fc ->
  length hdr = 64%nat ->
  Z.of_nat (length (fc_file fc)) < 4611686018427387904 ->
  0 < es ->
  (r0 + length qd1 < length gfq)%nat ->
  0 <= at_index gfq (Z.of_nat r0) ->
  es * at_index gfq (Z.of_nat (r0 + length qd1)) <= Z.of_nat (length payload) ->
  (forall i q1, nth_error qd1 i = Some q1 ->
     elem_size q1 = es
     /\ elem_count q1 = at_index gfq (Z.of_nat (r0 + i) + 1)
                        - at_index gfq (Z.of_nat (r0 + i))
     /\ 0 <= elem_count q1
     /\ es * elem_count q1 < 2147483648
     /\ Z.of_nat (length (array q1)) = es * elem_count q1) ->
  mapM (read_field_rank fc gfq)
       (combine (map Z.of_nat (seq r0 (length qd1))) qd1)
  = Some (map (fun r => (rank_array payload gfq es r, false))
              (seq r0 (length qd1))).
Proof.
  induction qd1 as [|q qd1 IH];
    intros r0 Hfile Hpre Hab Hhdr Hsmall Hes Hr Hg Hend Hq; [reflexivity|].
  cbn [length seq map combine mapM] in *.
  destruct (Hq 0%nat q eq_refl) as (Hs & Hc & Hc0 & Hlt & Ha).
  rewrite Nat.add_0_r in Hc.
  assert (Hstep : at_index gfq (Z.of_nat (S r0)) = at_index gfq (Z.of_nat r0)
                                                  + elem_count q).
  { replace (Z.of_nat (S r0)) with (Z.of_nat r0 + 1) by lia. lia. }
  assert (Hmono : forall n r, (r + n < length gfq)%nat ->
            forall qs,
              length qs = n ->
              (forall i q1, nth_error qs i = Some q1 ->
                 elem_count q1 = at_index gfq (Z.of_nat (r + i) + 1)
                                 - at_index gfq (Z.of_nat (r + i))
                 /\ 0 <= elem_count q1) ->
              at_index gfq (Z.of_nat r) <= at_index gfq (Z.of_nat (r + n))).
  { induction n as [|n IHn]; intros r Hrn qs Hl Hqs.
    - rewrite Nat.add_0_r. lia.
    - destruct qs as [|q0 qs]; [discriminate Hl|].
      destruct (Hqs 0%nat q0 eq_refl) as [E0 E1]. rewrite Nat.add_0_r in E0.
      specialize (IHn (S r) ltac:(lia) qs ltac:(cbn in Hl; lia)).
      rewrite <- Nat.add_succ_comm.
      replace (Z.of_nat (S r)) with (Z.of_nat r + 1) in IHn by lia.
      assert (at_index gfq (Z.of_nat r + 1) <= at_index gfq (Z.of_nat (S r + n))).
      { apply IHn. intros i q1 Hi. specialize (Hqs (S i) q1 Hi).
        rewrite Nat.add_succ_r in Hqs. exact Hqs. }
      lia. }
  assert (Hrest : at_index gfq (Z.of_nat (S r0))
                  <= at_index gfq (Z.of_nat (S r0 + length qd1))).
  { apply (Hmono (length qd1) (S r0) ltac:(lia) qd1 eq_refl).
    intros i q1 Hi. destruct (Hq (S i) q1 Hi) as (_ & E & E' & _).
    rewrite Nat.add_succ_r in E. split; assumption. }
  rewrite <- Nat.add_succ_comm in Hend.
  assert (Hflen : Z.of_nat (length (fc_file fc))
                  = 80 + fc_accessed_bytes fc + 64 + Z.of_nat (length payload)
                    + Z.of_nat (length rest)).
  { rewrite Hfile, !length_app, Hhdr. lia. }
  assert (Hsum : at_index gfq (Z.of_nat r0) * es + elem_count q * es
                 <= Z.of_nat (length payload)) by nia.
  assert (Hpos : 0 <= at_index gfq (Z.of_nat r0) * es) by nia.
  assert (Hcnt : 0 <= elem_count q * es < 2147483648) by nia.
  unfold read_field_rank at 1.
  rewrite nthZ_at_index by lia. rewrite Hs.
  rewrite to_size_t_id by lia.
  io_constants.
  rewrite to_int64_id by lia.
  rewrite sc_io_read_at_eq by lia.
  assert (Hdata : firstn (Z.to_nat (elem_count q * es))
                    (skipn (Z.to_nat (fc_accessed_bytes fc + 64 + (2 + 14 + 48)
                                      + 16 + at_index gfq (Z.of_nat r0) * es))
                           (fc_file fc))
                  = field_slice payload gfq es r0).
  { rewrite Hfile, (app_assoc pre hdr).
    replace (Z.to_nat (fc_accessed_bytes fc + 64 + (2 + 14 + 48) + 16
                       + at_index gfq (Z.of_nat r0) * es))
      with (Z.to_nat (es * at_index gfq (Z.of_nat r0)) + length (pre ++ hdr))%nat
      by (rewrite length_app; lia).
    rewrite <- skipn_skipn, skipn_exact by reflexivity.
    rewrite firstn_skipn_app by lia.
    unfold field_slice. f_equal. rewrite <- Hc. f_equal. lia. }
  rewrite Hdata.
  assert (Hsl : Z.of_nat (length (field_slice payload gfq es r0))
                = elem_count q * es).
  { unfold field_slice. rewrite <- Hc, length_firstn, length_skipn. lia. }
  rewrite Hsl, to_int32_id, Z.eqb_refl by lia. cbn [negb].
  rewrite (IH (S r0)); try assumption; try lia.
  - do 3 f_equal. unfold rank_array, buffer_fill. rewrite <- Hc. f_equal.
    rewrite skipn_all2 by lia. apply app_nil_r.
  - intros i q1 Hi. specialize (Hq (S i) q1 Hi).
    now rewrite Nat.add_succ_r in Hq.
Qed.


Lemma partition_monotone N gfq es qd :
  read_partition_ok N gfq es qd ->
  forall j, (j <= length qd)%nat ->
    forall i, (i <= j)%nat ->
      at_index gfq (Z.of_nat i) <= at_index gfq (Z.of_nat j).
Proof.
  intros (_ & _ & _ & Hstep & _).
  induction j as [|j IH]; intros Hj i Hi.
  - replace i with 0%nat by lia. lia.
  - destruct (Nat.eq_dec i (S j)) as [->|]; [lia|].
    specialize (IH ltac:(lia) i ltac:(lia)).
    destruct (Hstep j ltac:(lia)) as [Hm _].
    replace (Z.of_nat (S j)) with (Z.of_nat j + 1) by lia. lia.
Qed.

Lemma existsb_all_false {A} (f : A -> bool) (l : list A) :
  Forall (fun a => f a = false) l -> existsb f l = false.
Proof. induction 1 as [|a l Ha _ IH]; [reflexivity|]. cbn. now rewrite Ha, IH. Qed.

(** The read of a written field section under a partition of its records
    over the ranks. *)
Lemma read_field_section
    (fc : p4est_file_context_t) (pre rest : bytes)
    (es : Z) (user_string payload : bytes)
    (gfq : list Z) (quadrant_data : list sc_array_t)
    (Hat : section_at fc pre (section_bytes "F" es user_string payload) rest)
    (Hes : 0 < es <= 9999999999999)
    (Huser : (length (cstring user_string) <= 47)%nat)
    (Hpayload : Z.of_nat (length payload) = fc_global_num_quadrants fc * es)
    (Hranks : quadrant_data <> [])
    (Hpart : read_partition_ok (fc_global_num_quadrants fc) gfq es quadrant_data) :
  let arrays := map (rank_array payload gfq es) (seq 0 (length quadrant_data)) in
  exists fc',
    p4est_file_read_field_ext fc gfq (Some quadrant_data)
    = Some {| res_context := Some fc'; res_returned := true;
              res_errcode := sc_MPI_SUCCESS;
              res_value :=
                (Some arrays,
                 Some (fmt_left 47 (cstring user_string) ++ [NUL])) |}
    /\ concat (map array arrays) = payload
    /\ fc_file fc' = fc_file fc
    /\ fc_global_num_quadrants fc' = fc_global_num_quadrants fc
    /\ fc_accessed_bytes fc'
       = fc_accessed_bytes fc + 64 + fc_global_num_quadrants fc * es
         + pad_len (fc_global_num_quadrants fc * es)
    /\ section_at fc' (pre ++ section_bytes "F" es user_string payload) [] rest.
Proof.
  cbn zeta.
  set (N := fc_global_num_quadrants fc) in *.
  set (sec := {| ws_type := "F"%char; ws_size := es; ws_user := user_string;
                 ws_payload := payload |}).
  assert (Hok : section_ok N sec).
  { unfold section_ok, sec. cbn. repeat split; auto; lia. }
  pose proof (partition_monotone _ _ _ _ Hpart) as Hmono.
  pose proof Hpart as (Hglen & Hg0 & HgN & Hstep & Hsz).
  pose proof Hat as (Hfile & Hab & Hpre & Hsmall).
  pose proof (pad_len_range (N * es)) as Hnp.
  assert (Hpl : Z.of_nat (length (padding_text (Z.of_nat (length payload))))
                = pad_len (N * es)).
  { now rewrite padding_text_length, Hpayload. }
  assert (Hflen : Z.of_nat (length (fc_file fc))
                  = 80 + fc_accessed_bytes fc + 64 + N * es + pad_len (N * es)
                    + Z.of_nat (length rest)).
  { rewrite Hfile. unfold section_bytes.
    rewrite !length_app, section_header_length. lia. }
  assert (HN : 0 <= N).
  { rewrite <- HgN. rewrite <- Hg0 at 1.
    apply (Hmono (length quadrant_data) (le_n _) 0%nat). lia. }
  destruct quadrant_data as [|q0 qs] eqn:Eqd; [congruence|]. rewrite <- Eqd in *.
  assert (Hs0 : elem_size q0 = es).
  { rewrite Eqd in Hsz. exact (Forall_inv Hsz). }
  (* the arrays are resized *)
  destruct (resize_ranks gfq es quadrant_data 0 ltac:(lia) ltac:(lia))
    as (qd1 & Eres & Hl1 & Hq1).
  { intros i Hi. cbn [Nat.add]. destruct (Hstep i Hi). lia. }
  { exact Hsz. }
  unfold p4est_file_read_field_ext.
  rewrite Eqd. rewrite Hs0.
  destruct (Z.eqb_spec es 0); [lia|].
  rewrite <- Eqd. unfold resize_all, rank_indices. rewrite Eres.
  (* the files is large enough for every rank *)
  assert (Hbig : Forall (fun q =>
                   (P4EST_ENABLE_MPIIO
                    && (to_size_t (Z.of_nat (length (fc_file fc))
                                   - P4EST_NUM_METADATA_BYTES - P4EST_BYTE_DIV
                                   - P4EST_NUM_FIELD_HEADER_BYTES)
                        <? to_size_t (elem_count q * elem_size q))) = false) qd1).
  { apply Forall_forall. intros q Hin.
    apply In_nth_error in Hin. destruct Hin as [i Hi].
    destruct (Hq1 i q Hi) as (A & B & C). cbn [Nat.add] in B.
    assert (Hi' : (i < length quadrant_data)%nat).
    { rewrite <- Hl1. apply nth_error_Some. congruence. }
    destruct (Hstep i Hi') as [S1 S2].
    pose proof (Hmono i ltac:(lia) 0%nat ltac:(lia)) as M1.
    pose proof (Hmono (length quadrant_data) (le_n _) (S i) ltac:(lia)) as M2.
    replace (Z.of_nat (S i)) with (Z.of_nat i + 1) in M2 by lia.
    change (Z.of_nat 0) with 0 in M1.
    apply andb_false_iff. right. apply Z.ltb_ge.
    io_constants. rewrite A, B.
    rewrite !to_size_t_id by nia. nia. }
  assert (Hforall : forallb (fun q =>
                      P4EST_ENABLE_MPIIO
                      && (to_size_t (Z.of_nat (length (fc_file fc))
                                     - P4EST_NUM_METADATA_BYTES - P4EST_BYTE_DIV
                                     - P4EST_NUM_FIELD_HEADER_BYTES)
                          <? to_size_t (elem_count q * elem_size q))) qd1 = false).
  { destruct qd1 as [|q1 qd1]; [rewrite Eqd in Hl1; discriminate Hl1|].
    cbn [forallb]. now rewrite (Forall_inv Hbig). }
  rewrite Hforall, (existsb_all_false _ _ Hbig).
  (* the metadata of the section *)
  pose proof (read_block_metadata_section fc pre sec rest es true Hat Hok
                (fun _ => eq_refl)) as Hmeta.
  cbn [sec ws_type ws_size ws_user] in Hmeta. rewrite Hmeta.
  cbn [res_returned negb res_value snd].
  (* the reads of the ranks *)
  assert (Hreads :
    mapM (read_field_rank fc gfq)
         (combine (map Z.of_nat (seq 0 (length qd1))) qd1)
    = Some (map (fun r => (rank_array payload gfq es r, false))
                (seq 0 (length qd1)))).
  { apply (read_ranks fc gfq es pre (section_header "F" es user_string) payload
             (padding_text (Z.of_nat (length payload)) ++ rest) qd1 0%nat).
    - rewrite Hfile. unfold section_bytes. now rewrite <- !app_assoc.
    - exact Hpre.
    - exact Hab.
    - apply section_header_length.
    - exact Hsmall.
    - lia.
    - lia.
    - change (Z.of_nat 0) with 0. lia.
    - cbn [Nat.add]. rewrite Hl1, HgN. lia.
    - intros i q1 Hi. destruct (Hq1 i q1 Hi) as (A & B & C).
      cbn [Nat.add] in *.
      assert (Hi' : (i < length quadrant_data)%nat).
      { rewrite <- Hl1. apply nth_error_Some. congruence. }
      destruct (Hstep i Hi') as [S1 S2]. rewrite B.
      repeat split; try assumption; try lia. }
  rewrite Hreads.
  rewrite !map_map. cbn [fst snd].
  rewrite (existsb_all_false (fun e : bool => e)).
  2:{ apply Forall_forall. intros e He. apply in_map_iff in He.
      now destruct He as (r & <- & _). }
  rewrite error_code_success, get_padding_string_count.
  fold N. rewrite (Z.mul_comm es N), (to_size_t_id (N * es)) by lia.
  rewrite Hl1.
  eexists. split; [reflexivity|].
  split.
  { apply (field_slices_concat payload gfq es (length quadrant_data));
      [lia | exact Hg0 | intros r Hr; apply (Hstep r Hr)
      | rewrite HgN; exact Hpayload]. }
  unfold section_at.
  cbn [fc_advance fc_file fc_accessed_bytes fc_global_num_quadrants].
  rewrite to_int64_id by (io_constants; lia).
  io_constants. cbn [app].
  assert (Hsecl : Z.of_nat (length (section_bytes "F" es user_string payload))
                  = 64 + N * es + pad_len (N * es)).
  { unfold section_bytes. rewrite !length_app, section_header_length. lia. }
  rewrite length_app, Nat2Z.inj_add, Hsecl, Hfile, <- app_assoc.
  repeat split; try reflexivity; try lia.
  rewrite <- Hfile. exact Hsmall.
Qed.

(** X8.  At a written field section of [N] records of [es] bytes, with
    [es] above 0 and of at most 13 digits and a user string of at most 47
    characters, a read into arrays of element size [es] succeeds with any
    partition of the [N] records, over any number of ranks, that gives
    every rank fewer than 2^31 bytes, the most that the [int] count of one
    read holds: every rank's array is resized to its number of records
    and receives its range of the records, so that the arrays of the ranks,
    one after the other, are the payload of the section; the user string is
    returned as the file holds it and the cursor moves behind the
    section. *)
Theorem X8_field_read_any_partition
    (fc : p4est_file_context_t) (pre rest : bytes)
    (es : Z) (user_string payload : bytes)
    (gfq : list Z) (quadrant_data : list sc_array_t)
    (Hat : section_at fc pre (section_bytes "F" es user_string payload) rest)
    (Hes : 0 < es <= 9999999999999)
    (Huser : (length (cstring user_string) <= 47)%nat)
    (Hpayload : Z.of_nat (length payload) = fc_global_num_quadrants fc * es)
    (Hranks : quadrant_data <> [])
    (Hpart : read_partition_ok (fc_global_num_quadrants fc) gfq es quadrant_data) :
  let arrays := map (rank_array payload gfq es) (seq 0 (length quadrant_data)) in
  exists fc',
    p4est_file_read_field_ext fc gfq (Some quadrant_data)
    = Some {| res_context := Some fc'; res_returned := true;
              res_errcode := sc_MPI_SUCCESS;
              res_value :=
                (Some arrays,
                 Some (fmt_left 47 (cstring user_string) ++ [NUL])) |}
    /\ concat (map array arrays) = payload
    /\ fc_file fc' = fc_file fc
    /\ fc_global_num_quadrants fc' = fc_global_num_quadrants fc
    /\ fc_accessed_bytes fc'
       = fc_accessed_bytes fc + 64 + fc_global_num_quadrants fc * es
         + pad_len (fc_global_num_quadrants fc * es)
    /\ section_at fc' (pre ++ section_bytes "F" es user_string payload) [] rest.
Proof.
  exact (read_field_section fc pre rest es user_string payload gfq quadrant_data
           Hat Hes Huser Hpayload Hranks Hpart).
Qed.

End FieldReaders.

(** ** A field written and read back *)

(** The arrays of the first [k] ranks take the bytes of the records
    before the first one of rank [k]. *)
Lemma field_prefix_length N gfq es qd :
  field_data_ok N gfq es qd ->
  forall k, (k <= length qd)%nat ->
    Z.of_nat (length (concat (map array (firstn k qd))))
    = es * at_index gfq (Z.of_nat k).
Proof.
  intros [Hr H0 Hn Ha].
  induction k as [|k IHk]; intros Hk.
  - cbn. change (Z.of_nat 0) with 0. rewrite H0. lia.
  - destruct (nth_error qd k) as [q|] eqn:Eq.
    2:{ apply nth_error_None in Eq. lia. }
    rewrite (firstn_S_nth _ _ _ Eq), map_app, concat_app, length_app.
    cbn [map concat]. rewrite app_nil_r.
    destruct (Ha k q Eq) as (_ & Hc & Hc0 & Hl & _).
    specialize (IHk ltac:(lia)).
    replace (Z.of_nat (S k)) with (Z.of_nat k + 1) by lia. nia.
Qed.

(** The slices of the payload of a written field under the partition of
    the write are the arrays that were written. *)
Lemma field_slices_written N gfq es qd :
  field_data_ok N gfq es qd ->
  map (rank_array (concat (map array qd)) gfq es) (seq 0 (length qd)) = qd.
Proof.
  intros Hfd. pose proof Hfd as [Hr H0 Hn Ha].
  apply nth_error_ext. intros n.
  rewrite nth_error_map, nth_error_seq.
  destruct (Nat.ltb_spec n (length qd)) as [Hlt|Hge].
  2:{ symmetry. now apply nth_error_None. }
  destruct (nth_error qd n) as [q|] eqn:Eq.
  2:{ apply nth_error_None in Eq. lia. }
  cbn [option_map Nat.add]. f_equal.
  destruct (Ha n q Eq) as (Hs & Hc & Hc0 & Hl & _).
  pose proof (field_prefix_length N gfq es qd Hfd n ltac:(lia)) as Hpre.
  destruct q as [qs qc qa]. cbn [elem_size elem_count array] in *.
  unfold rank_array. rewrite <- Hc, Hs. f_equal.
  unfold field_slice. rewrite <- Hc.
  destruct (nth_error_split qd n Eq) as (l1 & l2 & Hqd & Hl1).
  assert (Hfirst : firstn n qd = l1).
  { rewrite Hqd, <- Hl1, firstn_app, firstn_all, Nat.sub_diag.
    cbn [firstn]. apply app_nil_r. }
  rewrite Hfirst in Hpre.
  rewrite Hqd, map_app, concat_app. cbn [map concat array].
  rewrite skipn_exact by lia.
  apply firstn_exact. lia.
Qed.

Section FieldRoundTrip.
Context `{FIO : FileInterface}.

(** X12.  A field written at the end of a file is read back by
    [p4est_file_read_field].  The writer holds the arrays [qd] of its ranks
    under its partition, of elements of [es] bytes, [es] above 0 and of at
    most 13 digits, with fewer than 2^31 bytes on every rank and a total
    that is not 15 modulo 16 (for which the padding does not fit the
    buffer [pad]) and that ends below 2^62 - 2^32 bytes behind the file
    header; the user string has at most 47 characters.  The reader
    stands where the writer stood, and its context holds a partition [gfqR]
    of the same number of quadrants, over any number of ranks, that gives
    every rank fewer than 2^31 bytes.  Both calls succeed; every rank of
    the reader receives the records of its range, so that the arrays read,
    one after the other, are the arrays written, one after the other; under
    the partition of the write the arrays read are the arrays written; and
    the reader's cursor ends where the writer's does. *)
Theorem X12_field_write_read_round_trip
    (writer reader : p4est_file_context_t) (gfqW gfqR : list Z)
    (qd quadrant_data : list sc_array_t) (es : Z) (user_string : bytes)
    (Hend : at_end_of_file writer)
    (HgfqW : fc_global_first_quadrant writer = Some gfqW)
    (Hdata : field_data_ok (fc_global_num_quadrants writer) gfqW es qd)
    (Hpad : (fc_global_num_quadrants writer * es) mod 16 <> 15)
    (Hes : 0 < es <= 9999999999999)
    (Hranks : qd <> [] /\ quadrant_data <> [])
    (Huser : (length (cstring user_string) <= 47)%nat)
    (Hroom : fc_accessed_bytes writer + fc_global_num_quadrants writer * es
             < 4611686018427387904 - 4294967296)
    (Hfile : fc_file reader
             = fc_file writer
               ++ section_bytes "F" es user_string (concat (map array qd)))
    (Hcursor : fc_accessed_bytes reader = fc_accessed_bytes writer)
    (HN : fc_global_num_quadrants reader = fc_global_num_quadrants writer)
    (HgfqR : fc_global_first_quadrant reader = Some gfqR)
    (Hpart : read_partition_ok (fc_global_num_quadrants writer) gfqR es
               quadrant_data) :
  exists writer' reader' arrays,
    p4est_file_write_field writer qd user_string
    = Some {| res_context := Some writer'; res_returned := true;
              res_errcode := sc_MPI_SUCCESS; res_value := tt |}
    /\ fc_file writer' = fc_file reader
    /\ p4est_file_read_field reader (Some quadrant_data)
       = Some {| res_context := Some reader'; res_returned := true;
                 res_errcode := sc_MPI_SUCCESS;
                 res_value :=
                   (Some arrays,
                    Some (fmt_left 47 (cstring user_string) ++ [NUL])) |}
    /\ arrays = map (rank_array (concat (map array qd)) gfqR es)
                    (seq 0 (length quadrant_data))
    /\ concat (map array arrays) = concat (map array qd)
    /\ (gfqR = gfqW -> length quadrant_data = length qd -> arrays = qd)
    /\ fc_file reader' = fc_file reader
    /\ fc_accessed_bytes reader' = fc_accessed_bytes writer'.
Proof.
  destruct Hranks as [HranksW HranksR].
  set (N := fc_global_num_quadrants writer) in *.
  set (payload := concat (map array qd)) in *.
  destruct (field_data_length _ _ _ _ Hdata) as [Hpay HN0]. fold payload in Hpay.
  pose proof (pad_len_range (N * es)) as Hnp.
  pose proof Hend as [Hab Hlen].
  pose proof Hpart as (Hglen & Hg0 & HgN & Hstep & Hsz).
  (* the write *)
  pose proof (write_field_success writer gfqW es qd user_string Hend HgfqW
                Hdata Hpad ltac:(lia) HranksW ltac:(fold N; lia)) as Hwrite.
  fold N payload in Hwrite.
  (* the reader stands at the section *)
  assert (Hat : section_at reader (fc_file writer)
                  (section_bytes "F" es user_string payload) []).
  { unfold section_at. rewrite app_nil_r. split; [exact Hfile|].
    split; [lia|]. split; [lia|].
    pose proof (padding_text_length (Z.of_nat (length payload))) as Hpl.
    rewrite Hpay in Hpl at 2.
    rewrite Hfile, length_app. unfold section_bytes.
    rewrite !length_app, section_header_length. lia. }
  (* the arrays are resized by [p4est_file_read_field] *)
  destruct (resize_ranks gfqR es quadrant_data 0 ltac:(lia) ltac:(lia))
    as (qd1 & Eres & Hl1 & Hq1).
  { intros i Hi. cbn [Nat.add]. destruct (Hstep i Hi). lia. }
  { exact Hsz. }
  assert (Hpart1 : read_partition_ok (fc_global_num_quadrants reader) gfqR es qd1).
  { rewrite HN. fold N. unfold read_partition_ok. rewrite Hl1.
    split; [exact Hglen|]. split; [exact Hg0|]. split; [exact HgN|].
    split; [exact Hstep|].
    apply Forall_forall. intros q Hin.
    apply In_nth_error in Hin. destruct Hin as [i Hi].
    now destruct (Hq1 i q Hi). }
  assert (Hne1 : qd1 <> []).
  { intros ->. destruct quadrant_data; [congruence|discriminate Hl1]. }
  destruct (read_field_section reader (fc_file writer) [] es user_string payload
              gfqR qd1 Hat Hes Huser ltac:(rewrite HN; exact Hpay) Hne1 Hpart1)
    as (reader' & Hread & Hconcat & Hfile' & _ & Hcursor' & _).
  rewrite Hl1 in Hread, Hconcat.
  eexists. exists reader'. eexists.
  split; [exact Hwrite|]. split.
  { cbn [fc_advance fc_file]. now rewrite Hfile. }
  split.
  { unfold p4est_file_read_field. rewrite HgfqR.
    unfold resize_all, rank_indices. rewrite Eres, Hread.
    cbn [res_context res_returned res_errcode res_value].
    now rewrite error_code_success. }
  split; [reflexivity|]. split; [exact Hconcat|]. split.
  { intros -> Hsame. rewrite Hsame.
    exact (field_slices_written N gfqW es qd Hdata). }
  split; [exact Hfile'|].
  rewrite Hcursor', HN, Hcursor. cbn [fc_advance fc_accessed_bytes].
  fold N. io_constants. rewrite to_int64_id by lia. lia.
Qed.

End FieldRoundTrip.

(** ** A written file read back *)

Lemma section_at_next fc pre b1 b2 rest :
  section_at fc pre [] ((b1 ++ b2) ++ rest) <->
  section_at fc pre b1 (b2 ++ rest).
Proof. unfold section_at. cbn [app]. now rewrite <- app_assoc. Qed.

Lemma sections_of_readable N gfq w :
  write_ok N gfq w -> Forall (readable N gfq) (sections_of w).
Proof.
  destruct w as [hs hd us|qd us]; cbn [write_ok sections_of].
  - intros (Hhs & _ & Hhd & Hus).
    destruct (Z.eqb_spec hs 0); constructor; [|constructor].
    unfold readable. cbn. lia.
  - destruct qd as [|q0 qs] eqn:Eqd; [intros []|]. rewrite <- Eqd.
    intros (Hes & Hfd & Hus).
    destruct (Z.eqb_spec (elem_size q0) 0); constructor; [|constructor].
    destruct (Hfd ltac:(lia)) as [[Hr H0 Hn Ha] _]. clear Hfd.
    unfold readable. cbn [ws_size ws_type Ascii.eqb Bool.eqb].
    split; [lia|].
    assert (Hlen : (length gfq - 1 = length qd)%nat) by lia.
    split; [rewrite Eqd in Hr; cbn [length] in Hr; lia|].
    unfold read_partition_ok, read_arrays. rewrite repeat_length, Hlen.
    split; [exact Hr|]. split; [exact H0|]. split; [exact Hn|]. split.
    + intros r Hr'.
      destruct (nth_error qd r) as [q|] eqn:Eq.
      2:{ apply nth_error_None in Eq. lia. }
      destruct (Ha r q Eq) as (_ & Hc & Hc0 & _ & Hlt). lia.
    + apply Forall_forall. intros q Hq. apply repeat_spec in Hq. now subst q.
Qed.

Section ReadBack.
Context `{FIO : FileInterface}.

(** One section read back. *)
Lemma read_back_section gfq fc pre sec rest :
  section_at fc pre (bytes_of sec) rest ->
  section_ok (fc_global_num_quadrants fc) sec ->
  readable (fc_global_num_quadrants fc) gfq sec ->
  exists fc',
    read_back gfq fc sec = Some (fc', read_result sec)
    /\ fc_file fc' = fc_file fc
    /\ fc_global_num_quadrants fc' = fc_global_num_quadrants fc
    /\ fc_accessed_bytes fc' = fc_accessed_bytes fc + section_length sec
    /\ section_at fc' (pre ++ bytes_of sec) [] rest.
Proof.
  intros Hat (Htype & Hsize & Huser & Hpay) (Hpos & Hread).
  unfold read_back, read_result, section_length. unfold bytes_of in *.
  destruct (Ascii.eqb_spec (ws_type sec) "H"%char) as [EH|EH].
  - rewrite EH in *. cbn [Ascii.eqb Bool.eqb andb] in Hpay.
    destruct (read_header_section fc pre rest (ws_size sec) (ws_user sec)
                (ws_payload sec) Hat ltac:(lia) Hpay Huser)
      as (fc' & -> & Hfile & HN & Hcur & Hnext & _).
    cbn [res_context res_value res_returned res_errcode andb].
    rewrite Z.eqb_refl. exists fc'. rewrite Hpay.
    split; [reflexivity|]. split; [exact Hfile|]. split; [exact HN|].
    split; [lia | exact Hnext].
  - destruct Htype as [Htype|Htype]; [congruence|].
    rewrite Htype in *. cbn [Ascii.eqb Bool.eqb andb] in Hpay.
    destruct Hread as [Hranks Hpart].
    destruct (read_field_section fc pre rest (ws_size sec) (ws_user sec)
                (ws_payload sec) gfq (read_arrays gfq (ws_size sec))
                Hat ltac:(lia) Huser
                ltac:(rewrite Hpay; reflexivity))
      as (fc' & -> & Hconcat & Hfile & HN & Hcur & Hnext); try assumption.
    { unfold read_arrays.
      destruct (length gfq - 1)%nat eqn:E; [lia|discriminate]. }
    cbn [res_context res_value res_returned res_errcode andb].
    rewrite Z.eqb_refl, Hconcat. exists fc'. rewrite Hpay.
    split; [reflexivity|]. split; [exact Hfile|]. split; [exact HN|].
    split; [lia | exact Hnext].
Qed.

(** The sections of a file read back one after the other. *)
Lemma read_all_sections gfq N : forall secs fc pre rest,
  section_at fc pre [] (flat_map bytes_of secs ++ rest) ->
  fc_global_num_quadrants fc = N ->
  Forall (section_ok N) secs ->
  Forall (readable N gfq) secs ->
  exists fc',
    read_all gfq secs fc = Some (fc', map read_result secs)
    /\ fc_file fc' = fc_file fc
    /\ fc_accessed_bytes fc' = fc_accessed_bytes fc + sections_length secs
    /\ section_at fc' (pre ++ flat_map bytes_of secs) [] rest.
Proof.
  induction secs as [|sec secs IH]; intros fc pre rest Hat HN Hok Hread.
  - exists fc. cbn [read_all map flat_map app] in *.
    change (sections_length []) with 0.
    rewrite app_nil_r, Z.add_0_r.
    split; [reflexivity|]. split; [reflexivity|]. split; [reflexivity|].
    exact Hat.
  - cbn [flat_map] in Hat.
    apply (section_at_next fc pre (bytes_of sec) (flat_map bytes_of secs) rest)
      in Hat.
    destruct (read_back_section gfq fc pre sec _ Hat)
      as (fc1 & Hback & Hfile1 & HN1 & Hcur1 & Hat1).
    { rewrite HN. exact (Forall_inv Hok). }
    { rewrite HN. exact (Forall_inv Hread). }
    destruct (IH fc1 (pre ++ bytes_of sec) rest Hat1 ltac:(congruence)
                (Forall_inv_tail Hok) (Forall_inv_tail Hread))
      as (fc' & Hall & Hfile & Hcur & Hat').
    exists fc'. cbn [read_all map flat_map]. rewrite Hback, Hall.
    change (sections_length (sec :: secs))
      with (section_length sec + sections_length secs).
    rewrite app_assoc.
    split; [reflexivity|]. split; [congruence|]. split; [lia | exact Hat'].
Qed.

(** X15.  A written file read back.  A file is created, on any rank, and
    sections are written to it by any sequence of writes that satisfy
    [write_ok]: header blocks of a size below 2^31 with as many data bytes,
    fields of an element size of at most 13 digits with one array of that
    element size per rank and fewer than 2^31 bytes on every rank, user
    strings of at most 47 characters, and no payload of a length that is
    15 modulo 16 (for which the padding does not fit the buffer [pad] of
    the writer), with less than 2^62 bytes of sections in all.  A reader
    of that file with the same global count, its
    cursor behind the file header, reads the sections back one after the
    other, header sections with their stored sizes and field sections under
    the partition of the writer: every read succeeds and returns the bytes
    that were written and the user string as the file holds it, in the
    order of the writes, and the reader ends with its cursor behind the
    last section, where the writer's is. *)
Theorem X15_written_file_read_back
    (mpisize mpirank N : Z) (gfq lnq : list Z) (file_user_string : bytes)
    (ws : list section_write) (reader : p4est_file_context_t)
    (Hws : Forall (write_ok N (firstn (Z.to_nat (mpisize + 1)) gfq)) ws)
    (Hroom : 80 + sections_length (flat_map sections_of ws)
             < 4611686018427387904)
    (Hreader : fc_accessed_bytes reader = 0
               /\ fc_global_num_quadrants reader = N) :
  exists fc0 fc,
    p4est_file_open_create mpisize mpirank N gfq lnq file_user_string
    = {| res_context := Some fc0; res_returned := true;
         res_errcode := sc_MPI_SUCCESS; res_value := tt |}
    /\ write_sections ws fc0 = Some fc
    /\ (fc_file reader = fc_file fc ->
        exists reader',
          read_all (firstn (Z.to_nat (mpisize + 1)) gfq)
                   (flat_map sections_of ws) reader
          = Some (reader', map read_result (flat_map sections_of ws))
          /\ fc_file reader' = fc_file fc
          /\ fc_accessed_bytes reader'
             = sections_length (flat_map sections_of ws)
          /\ Z.of_nat (length (fc_file fc)) = 80 + fc_accessed_bytes reader').
Proof.
  destruct Hreader as [Hcursor HN].
  destruct (open_create_context mpisize mpirank N gfq lnq file_user_string)
    as (fc0 & Hopen & Hend0 & Hab0 & HN0 & Hgfq0).
  destruct (write_sections_file N _ ws fc0 Hend0 Hgfq0 HN0 Hws)
    as (fc & Hwrite & Hfile).
  { rewrite Hab0. lia. }
  exists fc0, fc. split; [exact Hopen|]. split; [exact Hwrite|].
  intros Hsame.
  destruct Hend0 as [_ Hlen0]. rewrite Hab0 in Hlen0.
  pose proof (sections_bytes_length (flat_map sections_of ws)) as Hbytes.
  assert (Hlen : Z.of_nat (length (fc_file fc))
                 = 80 + sections_length (flat_map sections_of ws)).
  { rewrite Hfile, length_app. lia. }
  destruct (read_all_sections (firstn (Z.to_nat (mpisize + 1)) gfq) N
              (flat_map sections_of ws) reader (fc_file fc0) [])
    as (reader' & Hall & Hfile' & Hcur & _).
  - unfold section_at. cbn [app]. rewrite app_nil_r, Hsame, Hcursor.
    repeat split; try assumption; lia.
  - exact HN.
  - apply Forall_flat_map. eapply Forall_impl; [|exact Hws].
    intros w Hw. exact (sections_of_ok _ _ w Hw).
  - apply Forall_flat_map. eapply Forall_impl; [|exact Hws].
    intros w Hw. exact (sections_of_readable _ _ w Hw).
  - exists reader'. split; [exact Hall|].
    rewrite Hfile', Hcur, Hcursor, Hsame.
    repeat split; try reflexivity; lia.
Qed.

End ReadBack.

(** ** The scan of [p4est_file_info] on arbitrary files *)

Section ScanLimits.
Context `{FIO : FileInterface}.

(** A pass over a header of a known type with both of its newlines in
    place: the padding is looked for where the position and the size add up
    to as a 64-bit offset, and the next pass starts behind it. *)
Lemma info_step_accepts file N pos acc pad count :
  let s := skipn (Z.to_nat pos) file in
  let cs := announced_size N s in
  0 <= pos -> Z.of_nat (length file) < 4611686018427387904 ->
  (64 <= length s)%nat ->
  byte_at s 0 = "H"%char \/ byte_at s 0 = "F"%char ->
  byte_at s 15 = LF -> byte_at s 63 = LF ->
  sc_io_read_at file (to_int64 (pos + 64 + cs)) (pad_len cs) = (pad, count) ->
  (Z.to_nat (pad_len cs) <= length pad)%nat ->
  nth 0 pad NUL = LF -> nth (Z.to_nat (pad_len cs - 1)) pad NUL = LF ->
  info_step file N pos acc
  = ScanNext (to_int64 (pos + (64 + cs + pad_len cs)))
      (acc ++ [{| block_type := byte_at s 0;
                  data_size_of := to_size_t (sc_atol (firstn 13 (skipn 2 s)));
                  user_string_of := strncpy (firstn 47 (skipn 16 s)) 48 |}]).
Proof.
  intros s cs Hpos Hfile Hlen Htype H15 H63 Hpad Hpadlen Hpad0 Hpad1.
  pose proof (pad_len_range cs) as Hnp.
  assert (Hslen : pos + Z.of_nat (length s) = Z.of_nat (length file)).
  { unfold s in *. rewrite length_skipn in *. lia. }
  unfold info_step.
  rewrite sc_io_read_at_eq by lia. fold s.
  assert (Hc : cs = announced_size N s) by reflexivity.
  clearbody cs.
  destruct (header_bytes s Hlen) as (h & t & Hs & Hh).
  clearbody s. subst s. explode_list h Hh.
  unfold byte_at in Htype, H15, H63.
  change (Z.to_nat 0) with 0%nat in Htype.
  change (Z.to_nat 15) with 15%nat in H15.
  change (Z.to_nat 63) with 63%nat in H63.
  cbn [app nth] in Htype, H15, H63. subst a14 a62.
  change P4EST_NUM_FIELD_HEADER_BYTES with 64.
  change (P4EST_NUM_ARRAY_METADATA_BYTES + 1) with 15.
  change (64 - 1) with 63. change (64 + 1) with 65.
  change P4EST_NUM_USER_STRING_BYTES with 48.
  unfold announced_size, byte_at in Hc |- *.
  change (Z.to_nat 64) with 64%nat. change (Z.to_nat 65) with 65%nat.
  change (Z.to_nat 0) with 0%nat in Hc |- *. change (Z.to_nat 15) with 15%nat.
  change (Z.to_nat 63) with 63%nat.
  destruct Htype; subst a;
    cbn -[to_size_t to_int64 sc_atol strncpy pad_len get_padding_string
          Z.mul Z.add Z.sub sc_io_read_at] in Hc |- *;
    scan_header_number; rewrite <- Hc;
    rewrite !get_padding_string_count, Hpad; unfold buffer_fill;
    rewrite !app_nth1 by lia; rewrite Hpad0, Hpad1;
    change (Ascii.eqb LF LF) with true; cbn [negb orb];
    reflexivity.
Qed.

(** The size field ["-000000000080"] read as a [size_t]. *)
Lemma minus_80_padding : pad_len (to_size_t (- 80)) = 16.
Proof. reflexivity. Qed.

(** A header of type 'H' whose size field reads as -80 announces, as a
    [size_t], 2^64 - 80 bytes, and the padding is looked for at the 64-bit
    offset [pos - 16].  With newlines in the bytes [pos - 16] and [pos - 1]
    of the file the pass accepts the section and comes back to [pos]. *)
Lemma info_loop_returns file N pos
    (Hpos : 16 <= pos)
    (Hfile : Z.of_nat (length file) < 4611686018427387904)
    (Hlen : (64 <= length (skipn (Z.to_nat pos) file))%nat)
    (Htype : byte_at (skipn (Z.to_nat pos) file) 0 = "H"%char)
    (H15 : byte_at (skipn (Z.to_nat pos) file) 15 = LF)
    (H63 : byte_at (skipn (Z.to_nat pos) file) 63 = LF)
    (Hsize : sc_atol (firstn 13 (skipn 2 (skipn (Z.to_nat pos) file))) = - 80)
    (Hbefore : byte_at file (pos - 16) = LF /\ byte_at file (pos - 1) = LF) :
  (forall acc, exists member,
      info_step file N pos acc = ScanNext pos (acc ++ [member])
      /\ block_type member = "H"%char
      /\ data_size_of member = 18446744073709551536)
  /\ (forall fuel acc, info_loop fuel file N pos acc = None).
Proof.
  set (s := skipn (Z.to_nat pos) file) in *.
  assert (Hcs : announced_size N s = to_size_t (- 80)).
  { unfold announced_size. cbn zeta. rewrite Htype, Hsize. reflexivity. }
  assert (Hslen : pos + Z.of_nat (length s) = Z.of_nat (length file)).
  { unfold s in *. rewrite length_skipn in *. lia. }
  assert (Hstep : forall acc,
    info_step file N pos acc
    = ScanNext pos
        (acc ++ [{| block_type := byte_at s 0;
                    data_size_of := to_size_t (sc_atol (firstn 13 (skipn 2 s)));
                    user_string_of := strncpy (firstn 47 (skipn 16 s)) 48 |}])).
  { intros acc.
    assert (Hoff : to_int64 (pos + 64 + to_size_t (- 80)) = pos - 16).
    { change (to_size_t (- 80)) with 18446744073709551536.
      unfold to_int64, cast_signed.
      change (2 ^ 64) with 18446744073709551616.
      change (2 ^ (64 - 1)) with 9223372036854775808.
      replace (pos + 64 + 18446744073709551536 + 9223372036854775808)
        with (pos - 16 + 9223372036854775808 + 1 * 18446744073709551616)
        by lia.
      rewrite Z.mod_add by lia. rewrite Z.mod_small by lia. lia. }
    assert (Hnext : to_int64 (pos + (64 + to_size_t (- 80) + 16)) = pos).
    { change (to_size_t (- 80)) with 18446744073709551536.
      unfold to_int64, cast_signed.
      change (2 ^ 64) with 18446744073709551616.
      change (2 ^ (64 - 1)) with 9223372036854775808.
      replace (pos + (64 + 18446744073709551536 + 16) + 9223372036854775808)
        with (pos + 9223372036854775808 + 1 * 18446744073709551616) by lia.
      rewrite Z.mod_add by lia. rewrite Z.mod_small by lia. lia. }
    pose proof (info_step_accepts file N pos acc
                  (firstn 16 (skipn (Z.to_nat (pos - 16)) file)) 16) as H.
    cbn zeta in H. fold s in H. rewrite Hcs, minus_80_padding in H.
    rewrite Hnext in H. apply H; try assumption; try lia.
    - now left.
    - rewrite Hoff. rewrite sc_io_read_at_eq by lia.
      change (Z.to_nat 16) with 16%nat. f_equal.
      rewrite length_firstn, length_skipn. lia.
    - change (Z.to_nat 16) with 16%nat.
      rewrite length_firstn, length_skipn. lia.
    - destruct Hbefore as [H0 _].
      rewrite <- H0. unfold byte_at.
      rewrite <- (Nat.add_0_r (Z.to_nat (pos - 16))) at 2.
      rewrite <- nth_skipn.
      change 16%nat with (Z.to_nat 16).
      apply (byte_at_firstn _ 16 0). lia.
    - destruct Hbefore as [_ H1].
      rewrite <- H1.
      replace (pos - 1) with ((pos - 16) + 15) by lia.
      rewrite <- byte_at_skipn by lia.
      change (Z.to_nat (16 - 1)) with (Z.to_nat 15).
      change 16%nat with (Z.to_nat 16).
      apply (byte_at_firstn _ 16 15). lia. }
  assert (Hloop : forall fuel acc, info_loop fuel file N pos acc = None).
  { induction fuel as [|fuel IH]; intros acc; [reflexivity|].
    cbn [info_loop]. rewrite Hstep. apply IH. }
  split.
  - intros acc. eexists. split; [apply Hstep|]. cbn [block_type data_size_of].
    split; [exact Htype|]. rewrite Hsize. reflexivity.
  - exact Hloop.
Qed.


(** The scan over written sections, with anything behind them. *)
Lemma info_loop_prefix N tail secs : forall pre acc fuel,
  Forall (section_ok N) secs ->
  Z.of_nat (length (pre ++ flat_map bytes_of secs ++ tail))
    < 4611686018427387904 ->
  info_loop (length secs + fuel) (pre ++ flat_map bytes_of secs ++ tail) N
    (Z.of_nat (length pre)) acc
  = info_loop fuel (pre ++ flat_map bytes_of secs ++ tail) N
      (Z.of_nat (length pre) + sections_length secs)
      (acc ++ map metadata_of secs).
Proof.
  induction secs as [|sec secs IH]; intros pre acc fuel Hok Hfile.
  - cbn [length Nat.add flat_map map]. rewrite app_nil_r.
    change (sections_length []) with 0. now rewrite Z.add_0_r.
  - cbn [length Nat.add info_loop flat_map map] in Hfile |- *.
    rewrite <- app_assoc.
    rewrite info_step_section.
    2:{ exact (Forall_inv Hok). }
    2:{ rewrite <- app_assoc in Hfile. exact Hfile. }
    change (sections_length (sec :: secs))
      with (section_length sec + sections_length secs).
    rewrite <- bytes_of_length, <- Nat2Z.inj_add, <- length_app.
    rewrite (app_assoc pre).
    rewrite (IH (pre ++ bytes_of sec) (acc ++ [metadata_of sec]) fuel).
    + rewrite <- !app_assoc. cbn [app]. f_equal.
      rewrite length_app. lia.
    + exact (Forall_inv_tail Hok).
    + rewrite <- !app_assoc in Hfile |- *. exact Hfile.
Qed.

(** A scan that has ended has ended with any more passes allowed. *)
Lemma info_loop_more_fuel file N k : forall fuel pos acc sections,
  info_loop fuel file N pos acc = Some sections ->
  info_loop (fuel + k) file N pos acc = Some sections.
Proof.
  induction fuel as [|fuel IH]; intros pos acc sections H; [discriminate H|].
  cbn [info_loop Nat.add] in H |- *.
  destruct (info_step file N pos acc); [exact H|now apply IH].
Qed.

(** X9.  The loop of [p4est_file_info] over the sections, which rank 0
    enters at byte 80 once the file header has passed its checks, can go on
    forever.  Take 80 bytes of file header, any written sections whose last
    16 bytes begin and end with a newline (as a padding of 16 bytes does),
    and behind them a header of type 'H' with its two newlines whose size
    field reads as -80, followed by anything, in a file of less than 2^62
    bytes.  The loop lists the written sections and reaches the last
    header, which announces, as a [size_t], 2^64 - 80 bytes; its padding is
    looked for at the 64-bit offset 16 bytes before the header, is found,
    and the next pass starts at the same header again.  No number of passes
    ends the loop, and every pass pushes another entry. *)
Theorem X9_info_scan_never_ends
    (N : Z) (pre : bytes) (secs : list written_section) (tail : bytes)
    (Hpre : length pre = 80%nat)
    (Hsecs : Forall (section_ok N) secs)
    (Hlen : (64 <= length tail)%nat)
    (Htype : byte_at tail 0 = "H"%char)
    (Hnewlines : byte_at tail 15 = LF /\ byte_at tail 63 = LF)
    (Hsize : sc_atol (firstn 13 (skipn 2 tail)) = - 80)
    (Hbefore : byte_at (pre ++ flat_map bytes_of secs)
                 (80 + sections_length secs - 16) = LF
               /\ byte_at (pre ++ flat_map bytes_of secs)
                    (80 + sections_length secs - 1) = LF)
    (Hfile : Z.of_nat (length (pre ++ flat_map bytes_of secs ++ tail))
             < 4611686018427387904) :
  let file := pre ++ flat_map bytes_of secs ++ tail in
  (forall fuel, info_loop fuel file N 80 [] = None)
  /\ (forall fuel,
        info_loop (length secs + fuel) file N 80 []
        = info_loop fuel file N (80 + sections_length secs)
            (map metadata_of secs))
  /\ (forall acc, exists member,
        info_step file N (80 + sections_length secs) acc
        = ScanNext (80 + sections_length secs) (acc ++ [member])
        /\ block_type member = "H"%char
        /\ data_size_of member = 18446744073709551536).
Proof.
  intros file.
  set (pos := 80 + sections_length secs).
  pose proof (sections_count secs) as Hcount.
  pose proof (sections_bytes_length secs) as Hbytes.
  assert (Hwritten : Z.of_nat (length (pre ++ flat_map bytes_of secs)) = pos).
  { rewrite length_app. unfold pos. lia. }
  assert (Hskip : skipn (Z.to_nat pos) file = tail).
  { unfold file. rewrite app_assoc. apply skipn_exact. lia. }
  destruct Hnewlines as [H15 H63]. destruct Hbefore as [Hb0 Hb1].
  destruct (info_loop_returns file N pos) as [Hstep Hloop];
    rewrite ?Hskip; try assumption; try (unfold pos; lia).
  { unfold file. rewrite app_assoc.
    split; (rewrite byte_at_app1 by lia); assumption. }
  assert (Hreach : forall fuel,
            info_loop (length secs + fuel) file N 80 []
            = info_loop fuel file N pos (map metadata_of secs)).
  { intros fuel. unfold file.
    replace 80 with (Z.of_nat (length pre)) at 1 by lia.
    rewrite info_loop_prefix by assumption.
    cbn [app]. f_equal. unfold pos. lia. }
  assert (Hnever : forall fuel, info_loop fuel file N 80 [] = None).
  { intros fuel.
    destruct (info_loop fuel file N 80 []) as [sections|] eqn:E; [|reflexivity].
    apply (info_loop_more_fuel file N (length secs)) in E.
    rewrite Nat.add_comm, Hreach, Hloop in E. discriminate E. }
  split; [exact Hnever|]. split; [exact Hreach|exact Hstep].
Qed.

(** X22.  The loop of [p4est_file_info] over the sections, which rank 0
    enters at byte 80 once the file header has passed its checks, lists the
    sections of a well-formed file.  Take 80 bytes of file header, followed
    by sections as the writers lay them out (type 'H' or 'F', a size of at
    most 13 digits, a user string of at most 47 characters, a payload of
    the announced size, [N] times the size for a field, and its padding)
    and by a malformed end: fewer than 64 bytes, an unknown type byte, a
    missing newline after the size or after the user string, a payload,
    announced with less than 2^62 bytes, that the file does not hold in
    full, or a padding held in full whose first or last byte is no
    newline.  In a file of less than 2^62 bytes the loop ends within one
    pass for every byte and one more, and returns one entry per section, in
    file order: the type, the data size and the user string as the file
    holds it, filled with spaces to 47 bytes and NUL-terminated.  The
    malformed end adds no entry. *)
Theorem X22_info_loop_lists_sections
    (N : Z) (pre : bytes) (secs : list written_section) (junk : bytes)
    (Hpre : length pre = 80%nat)
    (Hsecs : Forall (section_ok N) secs)
    (Hjunk : malformed_tail N junk)
    (Hfile : Z.of_nat (length (pre ++ flat_map bytes_of secs ++ junk))
             < 4611686018427387904) :
  let file := pre ++ flat_map bytes_of secs ++ junk in
  info_loop (S (length file)) file N
            (P4EST_NUM_METADATA_BYTES + P4EST_BYTE_DIV) []
  = Some (map metadata_of secs).
Proof.
  cbn zeta.
  change (P4EST_NUM_METADATA_BYTES + P4EST_BYTE_DIV) with 80.
  replace 80 with (Z.of_nat (length pre)) by lia.
  rewrite info_loop_sections; try assumption; [reflexivity|].
  pose proof (sections_count secs) as Hcount.
  pose proof (sections_bytes_length secs) as Hbytes.
  rewrite !length_app. lia.
Qed.

End ScanLimits.

(** ** Size fields without a sign *)

Lemma cstring_sub (buf : bytes) :
  (length (cstring buf) <= length buf)%nat
  /\ forall c, In c (cstring buf) -> In c buf.
Proof.
  induction buf as [|b buf [IHl IHi]]; cbn [cstring]; [split; [lia|tauto]|].
  destruct (Ascii.eqb b NUL); cbn [length In]; split; try lia; try tauto.
  intros c [->|H]; [now left|right; now apply IHi].
Qed.

Lemma skip_spaces_sub (s : bytes) :
  (length (skip_spaces s) <= length s)%nat
  /\ forall c, In c (skip_spaces s) -> In c s.
Proof.
  induction s as [|b s [IHl IHi]]; cbn [skip_spaces]; [split; [lia|tauto]|].
  destruct (is_space b); cbn [length In]; split; try lia; try tauto.
  intros c H. right. now apply IHi.
Qed.

Lemma is_digit_value c :
  is_digit c = true -> 0 <= Z.of_nat (nat_of_ascii c) - 48 <= 9.
Proof.
  unfold is_digit. cbn zeta. intros H.
  apply andb_true_iff in H. destruct H as [H1 H2].
  apply Nat.leb_le in H1. apply Nat.leb_le in H2. lia.
Qed.

Lemma parse_digits_bound (s : bytes) acc :
  0 <= acc ->
  acc <= parse_digits acc s < (acc + 1) * 10 ^ Z.of_nat (length s).
Proof.
  revert acc. induction s as [|c s IH]; intros acc Hacc.
  - cbn [parse_digits length]. change (10 ^ Z.of_nat 0) with 1. lia.
  - cbn [parse_digits length].
    assert (Hp : 0 < 10 ^ Z.of_nat (length s)) by (apply Z.pow_pos_nonneg; lia).
    assert (E : 10 ^ Z.of_nat (S (length s)) = 10 * 10 ^ Z.of_nat (length s)).
    { rewrite Nat2Z.inj_succ. apply Z.pow_succ_r. lia. }
    rewrite E.
    destruct (is_digit c) eqn:Hd.
    + apply is_digit_value in Hd.
      specialize (IH (acc * 10 + (Z.of_nat (nat_of_ascii c) - 48))
                     ltac:(lia)).
      nia.
    + nia.
Qed.

(** A field without a minus sign reads as a number from 0 up to the one
    its width allows. *)
Lemma sc_atol_unsigned (buf : bytes) :
  ~ In "-"%char buf -> 0 <= sc_atol buf < 10 ^ Z.of_nat (length buf).
Proof.
  intros Hno. unfold sc_atol.
  destruct (cstring_sub buf) as [Hcl Hci].
  destruct (skip_spaces_sub (cstring buf)) as [Hsl Hsi].
  assert (Hmono : forall n : nat, (n <= length buf)%nat ->
                  10 ^ Z.of_nat n <= 10 ^ Z.of_nat (length buf)).
  { intros n Hn. apply Z.pow_le_mono_r; lia. }
  destruct (skip_spaces (cstring buf)) as [|c rest] eqn:E.
  - split; [lia|]. apply Z.pow_pos_nonneg; lia.
  - cbn [length] in Hsl.
    destruct (Ascii.eqb_spec c "-"%char) as [->|_].
    { exfalso. apply Hno, Hci, Hsi. now left. }
    destruct (Ascii.eqb c "+"%char).
    + pose proof (parse_digits_bound rest 0 ltac:(lia)) as Hb.
      specialize (Hmono (length rest) ltac:(lia)). lia.
    + pose proof (parse_digits_bound (c :: rest) 0 ltac:(lia)) as Hb.
      specialize (Hmono (length (c :: rest)) ltac:(cbn [length]; lia)). lia.
Qed.

Lemma not_in_existsb (c : ascii) (l : bytes) :
  existsb (Ascii.eqb c) l = false -> ~ In c l.
Proof.
  intros H Hin.
  assert (E : existsb (Ascii.eqb c) l = true).
  { apply existsb_exists. exists c. split; [exact Hin|apply Ascii.eqb_refl]. }
  congruence.
Qed.

Section ScanEnds.
Context `{FIO : FileInterface}.

(** A pass of the scan either stops or accepts the 64 bytes at its
    position as a header and moves behind the announced section. *)
Lemma info_step_cases file N pos acc :
  let s := skipn (Z.to_nat pos) file in
  let cs := announced_size N s in
  0 <= pos -> Z.of_nat (length file) < 4611686018427387904 ->
  info_step file N pos acc = ScanStop acc
  \/ ((64 <= length s)%nat
      /\ exists member,
           info_step file N pos acc
           = ScanNext (to_int64 (pos + (64 + cs + pad_len cs)))
                      (acc ++ [member])).
Proof.
  intros s cs Hpos Hfile.
  destruct (le_lt_dec 64 (length s)) as [Hlen|Hshort].
  2:{ left. apply info_step_stop; try assumption. now apply short_header. }
  assert (Hslen : pos + Z.of_nat (length s) = Z.of_nat (length file)).
  { unfold s in *. rewrite length_skipn in *. lia. }
  unfold info_step.
  rewrite sc_io_read_at_eq by lia. fold s.
  assert (Hc : cs = announced_size N s) by reflexivity.
  clearbody cs.
  destruct (header_bytes s Hlen) as (h & t & Hs & Hh).
  assert (Hlen' : (64 <= length (h ++ t))%nat) by (rewrite <- Hs; exact Hlen).
  clearbody s. subst s. explode_list h Hh.
  change P4EST_NUM_FIELD_HEADER_BYTES with 64.
  change (P4EST_NUM_ARRAY_METADATA_BYTES + 1) with 15.
  change (64 - 1) with 63. change (64 + 1) with 65.
  change P4EST_NUM_USER_STRING_BYTES with 48.
  unfold announced_size, byte_at in Hc |- *.
  change (Z.to_nat 64) with 64%nat. change (Z.to_nat 65) with 65%nat.
  change (Z.to_nat 0) with 0%nat in Hc |- *. change (Z.to_nat 15) with 15%nat.
  change (Z.to_nat 63) with 63%nat.
  cbn -[to_size_t to_int64 sc_atol strncpy pad_len get_padding_string
        Z.mul Z.add Z.sub sc_io_read_at Ascii.eqb] in Hc |- *.
  destruct (Ascii.eqb a "H"%char || Ascii.eqb a "F"%char);
    cbn [negb]; [|now left].
  destruct (Ascii.eqb a14 LF); cbn [negb]; [|now left].
  destruct (Ascii.eqb a62 LF); cbn [negb]; [|now left].
  scan_header_number. rewrite <- Hc.
  rewrite !get_padding_string_count.
  destruct (sc_io_read_at _ _ _) as [pad count].
  match goal with
  | |- (if ?c then _ else _) = _ \/ _ => destruct c
  end; [now left|].
  right. split; [exact Hlen'|]. eexists. reflexivity.
Qed.

Lemma announced_size_unsigned N (s : bytes) :
  ~ In "-"%char s -> 0 <= N <= 461168 ->
  0 <= announced_size N s <= 4611680000000000000.
Proof.
  intros Hno HN. unfold announced_size. cbn zeta.
  set (X := firstn 13 (skipn 2 s)).
  assert (HX : ~ In "-"%char X).
  { intros H. apply Hno.
    rewrite <- (firstn_skipn 2 s). apply in_or_app. right.
    rewrite <- (firstn_skipn 13 (skipn 2 s)). apply in_or_app. now left. }
  pose proof (sc_atol_unsigned X HX) as Hb.
  assert (Hw : 10 ^ Z.of_nat (length X) <= 10000000000000).
  { change 10000000000000 with (10 ^ 13).
    apply Z.pow_le_mono_r; [lia|]. unfold X. rewrite length_firstn. lia. }
  rewrite (to_size_t_id (sc_atol X)) by lia.
  destruct (Ascii.eqb _ _); [|lia].
  rewrite to_size_t_id; nia.
Qed.

(** The passes of the scan of a file without a minus sign: each one that
    goes on has found 64 bytes at its position and moves on by 66 bytes or
    more, so that the scan ends before the fuel does. *)
Lemma info_loop_ends file N :
  ~ In "-"%char file -> 0 <= N <= 461168 ->
  Z.of_nat (length file) < 4611686018427387904 ->
  forall fuel pos acc,
    0 <= pos < 4611686018427387904 ->
    (Z.to_nat (Z.of_nat (length file) - pos) < fuel)%nat ->
    exists sections,
      info_loop fuel file N pos acc = Some sections
      /\ 66 * (Z.of_nat (length sections) - Z.of_nat (length acc))
         <= Z.max 0 (Z.of_nat (length file) - pos + 2)
      /\ (length acc <= length sections)%nat.
Proof.
  intros Hno HN Hfile.
  induction fuel as [|fuel IH]; intros pos acc Hpos Hfuel; [lia|].
  cbn [info_loop].
  set (s := skipn (Z.to_nat pos) file).
  destruct (info_step_cases file N pos acc ltac:(lia) Hfile)
    as [->|(Hlen & member & ->)].
  - exists acc. split; [reflexivity|]. lia.
  - fold s in Hlen |- *.
    assert (Hs : ~ In "-"%char s).
    { intros H. apply Hno. rewrite <- (firstn_skipn (Z.to_nat pos) file).
      apply in_or_app. now right. }
    pose proof (announced_size_unsigned N s Hs HN) as Hcs.
    pose proof (pad_len_range (announced_size N s)) as Hnp.
    assert (Hslen : pos + Z.of_nat (length s) = Z.of_nat (length file)).
    { unfold s in *. rewrite length_skipn in *. lia. }
    rewrite to_int64_id by lia.
    set (next := pos + (64 + announced_size N s + pad_len (announced_size N s))).
    assert (Hnext : pos + 66 <= next) by (unfold next; lia).
    destruct (Z.le_gt_cases (Z.of_nat (length file)) next) as [Hpast|Hin].
    + (* the next position is at the end of the file or behind it *)
      destruct fuel as [|fuel]; [lia|].
      cbn [info_loop].
      rewrite info_step_stop; try assumption; try lia.
      2:{ apply short_header. rewrite length_skipn. lia. }
      exists (acc ++ [member]). split; [reflexivity|].
      rewrite length_app. cbn [length]. lia.
    + destruct (IH next (acc ++ [member]) ltac:(lia) ltac:(lia))
        as (sections & Hloop & Hcount & Hle).
      exists sections. split; [exact Hloop|].
      rewrite length_app in Hcount, Hle. cbn [length] in Hcount, Hle. lia.
Qed.

(** X10.  The loop of [p4est_file_info] over the sections, which rank 0
    enters at byte 80 once the file header has passed its checks, ends on
    every file without a minus sign.  For a count of at most 461168
    quadrants and a file of less than 2^62 bytes in which no byte is '-',
    the loop comes to an end within one pass for every byte of the file and
    one more, and it lists at most one section for every 66 bytes behind
    byte 78 of the file. *)
Theorem X10_info_scan_ends file N
    (Hno : ~ In "-"%char file)
    (HN : 0 <= N <= 461168)
    (Hfile : Z.of_nat (length file) < 4611686018427387904) :
  exists sections,
    info_loop (S (length file)) file N
              (P4EST_NUM_METADATA_BYTES + P4EST_BYTE_DIV) []
    = Some sections
    /\ 66 * Z.of_nat (length sections)
       <= Z.max 0 (Z.of_nat (length file) - 78).
Proof.
  change (P4EST_NUM_METADATA_BYTES + P4EST_BYTE_DIV) with 80.
  destruct (info_loop_ends file N Hno HN Hfile
              (S (length file)) 80 [] ltac:(lia) ltac:(lia))
    as (sections & -> & Hcount & _).
  exists sections. split; [reflexivity|].
  cbn [length] in Hcount. lia.
Qed.

End ScanEnds.

(** ** The books of the trees that [p4est_inflate] builds *)

Lemma to_int8_range v : -128 <= to_int8 v < 128.
Proof.
  unfold to_int8, cast_signed.
  change (2 ^ 8) with 256. change (2 ^ (8 - 1)) with 128.
  pose proof (Z.mod_pos_bound (v + 128) 256 ltac:(lia)). lia.
Qed.

Lemma nth_repeat_in {A} (a d : A) n i : (i < n)%nat -> nth i (repeat a n) d = a.
Proof.
  revert i. induction n as [|n IH]; intros i Hi; [lia|].
  destruct i as [|i]; [reflexivity|]. cbn [repeat nth]. apply IH. lia.
Qed.

Lemma store_block_nth {A} (arr : list A) i v arr' d :
  store_block arr i [v] = Some arr' ->
  forall j, nth j arr' d = if (j =? i)%nat then v else nth j arr d.
Proof.
  unfold store_block. cbn [length].
  destruct (Nat.leb_spec (i + 1) (length arr)) as [Hi|]; [|discriminate].
  intros [= <-] j.
  destruct (Nat.eqb_spec j i) as [->|Hne].
  - rewrite app_nth2 by (rewrite length_firstn; lia).
    rewrite length_firstn. replace (i - Nat.min i (length arr))%nat with 0%nat by lia.
    reflexivity.
  - destruct (Nat.lt_ge_cases j i) as [Hlt|Hge].
    + rewrite app_nth1 by (rewrite length_firstn; lia).
      rewrite <- (firstn_skipn i arr) at 2.
      rewrite app_nth1 by (rewrite length_firstn; lia). reflexivity.
    + rewrite app_nth2 by (rewrite length_firstn; lia).
      rewrite length_firstn.
      replace (j - Nat.min i (length arr))%nat with (S (j - i - 1)) by lia.
      cbn [app nth]. rewrite nth_skipn. f_equal. lia.
Qed.

Lemma nthZ_nth (l : list Z) i c : nthZ l i = Some c -> nth (Z.to_nat i) l 0 = c.
Proof.
  unfold nthZ. destruct (i <? 0); [discriminate|].
  intros H. now apply nth_error_nth.
Qed.

Lemma level_count_app l qs q :
  level_count l (qs ++ [q])
  = level_count l qs + (if quad_level q =? l then 1 else 0).
Proof.
  unfold level_count. rewrite filter_app, length_app. cbn [filter].
  destruct (quad_level q =? l); cbn [length]; lia.
Qed.

Lemma max_level_app qs q :
  max_level (qs ++ [q]) = Z.max (max_level qs) (quad_level q).
Proof. unfold max_level. now rewrite fold_left_app. Qed.

Section InflateBooks.
Context `{FI : ForestInterface}.
Variables (pertree coords : list Z) (data : option sc_array_t) (dsize : Z).

Lemma per_level_init_nth i :
  0 <= P4EST_QMAXLEVEL <= P4EST_MAXLEVEL ->
  (i < length per_level_init)%nat ->
  nth i per_level_init 0 = if Z.of_nat i <=? P4EST_QMAXLEVEL then 0 else -1.
Proof.
  intros Hl. unfold per_level_init.
  rewrite length_app, !repeat_length. intros Hi.
  destruct (Z.leb_spec (Z.of_nat i) P4EST_QMAXLEVEL).
  - rewrite app_nth1 by (rewrite repeat_length; lia).
    apply nth_repeat_in. lia.
  - rewrite app_nth2 by (rewrite repeat_length; lia).
    apply nth_repeat_in. rewrite repeat_length. lia.
Qed.

Lemma per_level_init_size :
  0 <= P4EST_QMAXLEVEL <= P4EST_MAXLEVEL ->
  Z.of_nat (length per_level_init) = P4EST_MAXLEVEL + 1.
Proof.
  intros Hl. unfold per_level_init. rewrite length_app, !repeat_length. lia.
Qed.

(** One quadrant more. *)
Lemma inflate_quadrant_books st qz st' :
  inflate_quadrant coords data dsize st qz = Some st' ->
  length (t_quads st') = S (length (t_quads st))
  /\ (fill_books st -> length (t_quads st) = qz ->
      Z.of_nat qz + 1 < 2147483648 -> fill_books st').
Proof.
  unfold inflate_quadrant.
  destruct (read_block coords (t_qap st) (Z.to_nat (P4EST_DIM + 1)))
    as [tuple|]; [|discriminate].
  set (ql := to_int8 (nth (Z.to_nat P4EST_DIM) tuple 0)).
  destruct (nthZ (t_per_level st) ql) as [c|] eqn:Ec; [|discriminate].
  destruct (store_block (t_per_level st) (Z.to_nat ql) [to_int32 (c + 1)])
    as [pl|] eqn:Es; [|discriminate].
  match goal with
  | |- match ?payload with _ => _ end = _ -> _ =>
      destruct payload as [[ud dap']|]; [|discriminate]
  end.
  intros [= <-]. cbn [t_quads t_per_level t_tml t_first_desc t_q].
  split; [rewrite length_app; cbn [length]; lia|].
  intros (Hlen & Hcnt & Html & Hmax & Hfd & Hq) Hqz Hsmall.
  pose proof (nthZ_Some_range _ _ _ Ec) as Hql.
  pose proof (nthZ_nth _ _ _ Ec) as Hc.
  pose proof (to_int8_range (nth (Z.to_nat P4EST_DIM) tuple 0)) as Hr.
  fold ql in Hr.
  set (q := {| quad_x := nth 0 tuple 0; quad_y := nth 1 tuple 0;
               quad_z := if P4_TO_P8 then nth 2 tuple 0
                         else quad_z P4EST_QUADRANT_INIT;
               quad_level := ql; user_data := ud |}).
  assert (Hcount : forall l, 0 <= level_count l (t_quads st) <= Z.of_nat qz).
  { intros l. unfold level_count.
    pose proof (filter_length_le (fun q => quad_level q =? l) (t_quads st)).
    lia. }
  unfold fill_books. cbn [t_quads t_per_level t_tml t_first_desc t_q].
  split; [|split; [|split; [|split; [|split]]]].
  - rewrite (store_block_length _ _ _ _ Es). exact Hlen.
  - intros i Hi. rewrite (store_block_nth _ _ _ _ 0 Es), level_count_app.
    cbn [quad_level q].
    destruct (Nat.eqb_spec i (Z.to_nat ql)) as [->|Hne].
    + rewrite Z2Nat.id by lia. rewrite Z.eqb_refl.
      specialize (Hcnt (Z.to_nat ql) Hi). rewrite Z2Nat.id in Hcnt by lia.
      rewrite Hc in Hcnt.
      assert (Hinit : -1 <= nth (Z.to_nat ql) per_level_init 0 <= 0).
      { unfold per_level_init.
        destruct (Nat.lt_ge_cases (Z.to_nat ql)
                    (length (repeat 0 (Z.to_nat (P4EST_QMAXLEVEL + 1))))).
        - rewrite app_nth1 by assumption.
          rewrite nth_repeat_in by (now rewrite repeat_length in *). lia.
        - rewrite app_nth2 by assumption.
          unfold per_level_init in Hi. rewrite length_app in Hi.
          rewrite !repeat_length in *.
          rewrite nth_repeat_in by lia. lia. }
      specialize (Hcount ql).
      rewrite to_int32_id by lia. lia.
    + destruct (Z.eqb_spec ql (Z.of_nat i)); [lia|].
      rewrite Hcnt by assumption. lia.
  - rewrite to_int8_id by lia. lia.
  - rewrite to_int8_id by lia. rewrite max_level_app. cbn [quad_level q].
    now rewrite Hmax.
  - destruct (t_quads st) as [|q0 qs] eqn:Eq.
    + cbn [length] in Hqz. subst qz. reflexivity.
    + cbn [length] in Hqz. subst qz. cbn [app Nat.eqb]. exact Hfd.
  - destruct (t_quads st) as [|q0 qs]; [reflexivity|].
    cbn [app]. f_equal. symmetry. apply last_last.
Qed.

(** The loop over the quadrants of one tree. *)
Lemma inflate_quadrants_books : forall n k st tf,
  foldM (inflate_quadrant coords data dsize) (seq k n) st = Some tf ->
  length (t_quads tf) = (length (t_quads st) + n)%nat
  /\ (fill_books st -> length (t_quads st) = k ->
      Z.of_nat (k + n) < 2147483648 -> fill_books tf).
Proof.
  induction n as [|n IH]; intros k st tf H.
  - cbn in H. inversion H; subst tf. split; [lia|auto].
  - cbn [seq foldM] in H.
    destruct (inflate_quadrant coords data dsize st k) as [st1|] eqn:E1;
      [|discriminate].
    destruct (inflate_quadrant_books _ _ _ E1) as [Hl1 Hb1].
    destruct (IH _ _ _ H) as [Hl Hb].
    split; [lia|].
    intros Hst Hk Hsmall. apply Hb; [apply Hb1; [assumption|assumption|lia] | lia | lia].
Qed.

Lemma fill_books_start :
  fill_books {| t_qap := 0%nat; t_dap := 0%nat; t_quads := [];
                t_per_level := per_level_init; t_tml := 0;
                t_first_desc := P4EST_QUADRANT_INIT; t_q := None |}
  /\ forall a b,
       fill_books {| t_qap := a; t_dap := b; t_quads := [];
                     t_per_level := per_level_init; t_tml := 0;
                     t_first_desc := P4EST_QUADRANT_INIT; t_q := None |}.
Proof.
  assert (H : forall a b,
       fill_books {| t_qap := a; t_dap := b; t_quads := [];
                     t_per_level := per_level_init; t_tml := 0;
                     t_first_desc := P4EST_QUADRANT_INIT; t_q := None |}).
  { intros a b. unfold fill_books. cbn.
    repeat split; try reflexivity; try lia. }
  split; [apply H | exact H].
Qed.

Lemma forest_books_snoc ts t :
  forest_books ts ->
  tree_books (Z.of_nat (length (flat_map quadrants ts))) t ->
  forest_books (ts ++ [t]).
Proof.
  intros Hts Ht j t' Hj.
  destruct (Nat.lt_ge_cases j (length ts)) as [Hlt|Hge].
  - rewrite nth_error_app1 in Hj by assumption.
    rewrite firstn_app. replace (j - length ts)%nat with 0%nat by lia.
    cbn [firstn]. rewrite app_nil_r. now apply Hts.
  - rewrite nth_error_app2 in Hj by assumption.
    destruct (j - length ts)%nat as [|k] eqn:Ek.
    2:{ destruct k; discriminate Hj. }
    cbn in Hj. inversion Hj; subst t'.
    rewrite firstn_app, firstn_all2 by lia.
    replace (j - length ts)%nat with 0%nat by lia.
    cbn [firstn]. now rewrite app_nil_r.
Qed.

(** One tree more. *)
Lemma inflate_tree_books first_tree last_tree st jt st' :
  0 <= P4EST_QMAXLEVEL <= P4EST_MAXLEVEL ->
  inflate_tree pertree coords data dsize first_tree last_tree st jt = Some st' ->
  exists tree,
    i_trees st' = i_trees st ++ [tree]
    /\ (i_zqoffset st = Z.of_nat (length (flat_map quadrants (i_trees st))) ->
        Z.of_nat (length (flat_map quadrants (i_trees st'))) < 2147483648 ->
        i_zqoffset st' = Z.of_nat (length (flat_map quadrants (i_trees st')))
        /\ tree_books (Z.of_nat (length (flat_map quadrants (i_trees st))))
             tree).
Proof.
  intros Hlev. unfold inflate_tree.
  destruct ((first_tree <=? jt) && (jt <=? last_tree)).
  - destruct (nthZ pertree (jt + 1)) as [hi|]; [|discriminate].
    destruct (nthZ pertree jt) as [lo|]; [|discriminate].
    set (zq := Z.min (to_int64 (hi - lo - i_gtreeskip st)) (i_gquadremain st)).
    destruct (Z.leb_spec zq 0) as [|Hzq]; [discriminate|].
    destruct (foldM _ _ _) as [tf|] eqn:Ef; [|discriminate].
    destruct (t_q tf) as [q|] eqn:Eq; [|discriminate].
    intros [= <-]. cbn [i_trees i_zqoffset].
    eexists. split; [reflexivity|].
    rewrite flat_map_app, length_app. cbn [flat_map quadrants].
    rewrite app_nil_r.
    destruct (inflate_quadrants_books _ _ _ _ Ef) as [Hl Hb].
    cbn [t_quads length Nat.add] in Hl, Hb.
    intros Hz Hsmall.
    specialize (Hb (proj2 fill_books_start _ _) eq_refl ltac:(lia)).
    destruct Hb as (Hlen & Hcnt & Html & Hmax & Hfd & Hq).
    split.
    + rewrite Hz, to_size_t_id by lia. lia.
    + unfold tree_books.
      cbn [quadrants_offset quadrants_per_level quadrants maxlevel
           first_desc last_desc].
      split; [rewrite Hz; apply to_int32_id; lia|].
      split; [rewrite Hlen; now apply per_level_init_size|].
      split.
      { intros l Hl'.
        assert (Hi : (Z.to_nat l < length per_level_init)%nat).
        { pose proof (per_level_init_size Hlev). lia. }
        rewrite (Hcnt _ Hi), (per_level_init_nth _ Hlev Hi).
        now rewrite Z2Nat.id by lia. }
      split; [exact Hmax|]. split; [exact Hfd|].
      rewrite Eq in Hq. destruct (t_quads tf) as [|q0 qs]; [discriminate Hq|].
      now inversion Hq.
  - intros [= <-]. cbn [i_trees i_zqoffset].
    eexists. split; [reflexivity|].
    rewrite flat_map_app, length_app. cbn [flat_map quadrants app length].
    rewrite Nat.add_0_r.
    intros Hz Hsmall. split; [exact Hz|].
    unfold tree_books.
    cbn [quadrants_offset quadrants_per_level quadrants maxlevel
         first_desc last_desc].
    split; [rewrite Hz; apply to_int32_id; lia|].
    split; [now apply per_level_init_size|].
    split.
    { intros l Hl'.
      assert (Hi : (Z.to_nat l < length per_level_init)%nat).
      { pose proof (per_level_init_size Hlev). lia. }
      rewrite (per_level_init_nth _ Hlev Hi).
      rewrite Z2Nat.id by lia. unfold level_count. cbn. lia. }
    repeat split; reflexivity.
Qed.

(** The loop over the trees. *)
Lemma inflate_trees_books first_tree last_tree :
  0 <= P4EST_QMAXLEVEL <= P4EST_MAXLEVEL ->
  forall jts st st',
    foldM (inflate_tree pertree coords data dsize first_tree last_tree) jts st
    = Some st' ->
    length (i_trees st') = (length (i_trees st) + length jts)%nat
    /\ (length (flat_map quadrants (i_trees st))
         <= length (flat_map quadrants (i_trees st')))%nat
    /\ (i_zqoffset st = Z.of_nat (length (flat_map quadrants (i_trees st))) ->
        Z.of_nat (length (flat_map quadrants (i_trees st'))) < 2147483648 ->
        forest_books (i_trees st) ->
        i_zqoffset st' = Z.of_nat (length (flat_map quadrants (i_trees st')))
        /\ forest_books (i_trees st')).
Proof.
  intros Hlev. induction jts as [|jt jts IH]; intros st st' H.
  - cbn in H. inversion H; subst st'. cbn [length].
    split; [lia|]. split; [lia|]. auto.
  - cbn [foldM] in H.
    destruct (inflate_tree pertree coords data dsize first_tree last_tree st jt)
      as [st1|] eqn:E1; [|discriminate].
    destruct (inflate_tree_books _ _ _ _ _ Hlev E1) as (tree & Ht & Hb1).
    destruct (IH _ _ H) as (Hl & Hmono & Hb).
    assert (Hgrow : (length (flat_map quadrants (i_trees st))
                     <= length (flat_map quadrants (i_trees st1)))%nat).
    { rewrite Ht, flat_map_app, length_app. lia. }
    split; [rewrite Hl, Ht, length_app; cbn [length]; lia|].
    split; [lia|].
    intros Hz Hsmall Hbooks.
    destruct (Hb1 Hz ltac:(lia)) as [Hz1 Htree].
    apply Hb; [exact Hz1 | exact Hsmall|].
    rewrite Ht. now apply forest_books_snoc.
Qed.

(** A tree is given quadrants exactly when it lies in the local range. *)
Lemma inflate_tree_local first_tree last_tree st jt st' :
  inflate_tree pertree coords data dsize first_tree last_tree st jt = Some st' ->
  exists tree,
    i_trees st' = i_trees st ++ [tree]
    /\ (quadrants tree <> [] <-> first_tree <= jt <= last_tree).
Proof.
  unfold inflate_tree.
  destruct ((first_tree <=? jt) && (jt <=? last_tree)) eqn:E.
  - apply andb_true_iff in E. destruct E as [E1 E2].
    apply Z.leb_le in E1, E2.
    destruct (nthZ pertree (jt + 1)) as [hi|]; [|discriminate].
    destruct (nthZ pertree jt) as [lo|]; [|discriminate].
    set (zq := Z.min (to_int64 (hi - lo - i_gtreeskip st)) (i_gquadremain st)).
    destruct (Z.leb_spec zq 0) as [|Hzq]; [discriminate|].
    destruct (foldM _ _ _) as [tf|] eqn:Ef; [|discriminate].
    destruct (t_q tf) as [q|] eqn:Eq; [|discriminate].
    intros [= <-]. cbn [i_trees].
    eexists. split; [reflexivity|]. cbn [quadrants].
    destruct (inflate_quadrants_books _ _ _ _ Ef) as [Hl _].
    cbn [t_quads length Nat.add] in Hl.
    split; [lia|]. intros _ Hnil. rewrite Hnil in Hl. cbn [length] in Hl. lia.
  - intros [= <-]. cbn [i_trees].
    eexists. split; [reflexivity|]. cbn [quadrants].
    apply andb_false_iff in E.
    split; [congruence|].
    destruct E as [E|E]; apply Z.leb_gt in E; lia.
Qed.

Lemma inflate_trees_local first_tree last_tree : forall n a st st',
  foldM (inflate_tree pertree coords data dsize first_tree last_tree)
        (map (fun i => 0 + Z.of_nat i) (seq a n)) st = Some st' ->
  length (i_trees st) = a ->
  (forall j t, nth_error (i_trees st) j = Some t ->
     (quadrants t <> [] <-> first_tree <= Z.of_nat j <= last_tree)) ->
  forall j t, nth_error (i_trees st') j = Some t ->
    (quadrants t <> [] <-> first_tree <= Z.of_nat j <= last_tree).
Proof.
  induction n as [|n IH]; intros a st st' H Hlen Hst.
  - cbn in H. inversion H; subst st'. exact Hst.
  - cbn [seq map foldM] in H. rewrite Z.add_0_l in H.
    destruct (inflate_tree pertree coords data dsize first_tree last_tree st
                (Z.of_nat a)) as [st1|] eqn:E1; [|discriminate].
    destruct (inflate_tree_local _ _ _ _ _ E1) as (tree & Ht & Hloc).
    apply (IH (S a) st1 st' H).
    + rewrite Ht, length_app. cbn [length]. lia.
    + intros j t Hj. rewrite Ht in Hj.
      destruct (Nat.lt_ge_cases j (length (i_trees st))) as [Hlt|Hge].
      * rewrite nth_error_app1 in Hj by assumption. now apply Hst.
      * rewrite nth_error_app2 in Hj by assumption.
        destruct (j - length (i_trees st))%nat as [|k] eqn:Ek.
        2:{ destruct k; discriminate Hj. }
        cbn in Hj. inversion Hj; subst t.
        replace j with a by lia. exact Hloc.
Qed.

(** The quadrants built and those that remain to be built never exceed
    the local count. *)
Lemma inflate_tree_count first_tree last_tree st jt st' B :
  inflate_tree pertree coords data dsize first_tree last_tree st jt = Some st' ->
  Z.of_nat (length (flat_map quadrants (i_trees st)))
    + Z.max 0 (i_gquadremain st) <= B ->
  B < 9223372036854775808 ->
  Z.of_nat (length (flat_map quadrants (i_trees st')))
    + Z.max 0 (i_gquadremain st') <= B.
Proof.
  unfold inflate_tree.
  destruct ((first_tree <=? jt) && (jt <=? last_tree)).
  - destruct (nthZ pertree (jt + 1)) as [hi|]; [|discriminate].
    destruct (nthZ pertree jt) as [lo|]; [|discriminate].
    set (zq := Z.min (to_int64 (hi - lo - i_gtreeskip st)) (i_gquadremain st)).
    destruct (Z.leb_spec zq 0) as [|Hzq]; [discriminate|].
    destruct (foldM _ _ _) as [tf|] eqn:Ef; [|discriminate].
    destruct (t_q tf) as [q|] eqn:Eq; [|discriminate].
    intros [= <-] HB Hsmall. cbn [i_trees i_gquadremain].
    rewrite flat_map_app, length_app. cbn [flat_map quadrants].
    rewrite app_nil_r.
    destruct (inflate_quadrants_books _ _ _ _ Ef) as [Hl _].
    cbn [t_quads length Nat.add] in Hl.
    assert (Hle : zq <= i_gquadremain st) by (unfold zq; lia).
    rewrite to_int64_id by lia. lia.
  - intros [= <-] HB _. cbn [i_trees i_gquadremain].
    rewrite flat_map_app, length_app. cbn [flat_map quadrants app length]. lia.
Qed.

Lemma inflate_trees_count first_tree last_tree B :
  B < 9223372036854775808 ->
  forall jts st st',
    foldM (inflate_tree pertree coords data dsize first_tree last_tree) jts st
    = Some st' ->
    Z.of_nat (length (flat_map quadrants (i_trees st)))
      + Z.max 0 (i_gquadremain st) <= B ->
    Z.of_nat (length (flat_map quadrants (i_trees st')))
      + Z.max 0 (i_gquadremain st') <= B.
Proof.
  intros HB. induction jts as [|jt jts IH]; intros st st' H Hst.
  - cbn in H. now inversion H; subst st'.
  - cbn [foldM] in H.
    destruct (inflate_tree pertree coords data dsize first_tree last_tree st jt)
      as [st1|] eqn:E1; [|discriminate].
    apply (IH _ _ H). now apply (inflate_tree_count _ _ _ _ _ _ E1).
Qed.

End InflateBooks.

Section InflateTheorem.
Context `{FI : ForestInterface}.

(** X13.  The books of the forest that [p4est_inflate] returns on a run
    that is defined: a run on which no array is read or written outside its
    bounds, so that every level entry read, cut to an [int8_t], lies in
    [0, P4EST_MAXLEVEL], the index range of [quadrants_per_level], and on
    which every tree from the first to the last local tree receives a
    quadrant.  Of other inputs, on which the behaviour of the C code is
    undefined, nothing is stated.  For constants with
    [0 <= P4EST_QMAXLEVEL <= P4EST_MAXLEVEL] the forest has
    [connectivity->num_trees] trees with at most [local_num_quadrants]
    quadrants; a tree holds
    quadrants exactly when it lies in [first_local_tree, last_local_tree];
    and every tree has for [quadrants_offset] the number of quadrants in
    the trees before it, for [quadrants_per_level[l]] the number of its
    quadrants of level [l] (minus one above [P4EST_QMAXLEVEL]), for
    [maxlevel] the highest level among its quadrants, and for [first_desc]
    and [last_desc] the descendants of its first and of its last quadrant
    (the initial quadrant when it has none).  The forest has revision 0,
    the rank and size of the communicator and a copy of the partition. *)
Theorem X13_inflate_keeps_books
    (num_procs rank conn_num_trees : Z) (gfq pertree coords : list Z)
    (data : option sc_array_t) (user_pointer : Z) (p4est : p4est_t)
    (Hlevels : 0 <= P4EST_QMAXLEVEL <= P4EST_MAXLEVEL)
    (Hinflate : p4est_inflate num_procs rank conn_num_trees gfq pertree coords
                  data user_pointer = Some p4est) :
  forest_books (trees p4est)
  /\ Z.of_nat (length (flat_map quadrants (trees p4est)))
     <= Z.max 0 (local_num_quadrants p4est)
  /\ Z.of_nat (length (trees p4est)) = Z.max 0 conn_num_trees
  /\ (forall j t, nth_error (trees p4est) j = Some t ->
        (quadrants t <> []
         <-> first_local_tree p4est <= Z.of_nat j <= last_local_tree p4est))
  /\ revision p4est = 0
  /\ mpisize p4est = num_procs /\ mpirank p4est = rank
  /\ num_trees p4est = conn_num_trees
  /\ global_first_quadrant p4est = firstn (Z.to_nat (num_procs + 1)) gfq
  /\ global_num_quadrants p4est = at_index gfq num_procs
  /\ local_num_quadrants p4est
     = to_int32 (to_int64 (at_index gfq (rank + 1) - at_index gfq rank)).
Proof.
  revert Hinflate. unfold p4est_inflate, p4est_inflate_run.
  unfold read_block. cbn [Nat.add].
  destruct (Z.to_nat (num_procs + 1) <=? length gfq)%nat eqn:Eg; [|discriminate].
  apply Nat.leb_le in Eg. cbn [skipn].
  set (g := firstn (Z.to_nat (num_procs + 1)) gfq).
  destruct (nthZ g (rank + 1)) as [g1|] eqn:E1; [|discriminate].
  destruct (nthZ g rank) as [g0|] eqn:E0; [|discriminate].
  destruct (nthZ g num_procs) as [gN|] eqn:EN; [|discriminate].
  assert (Hnil : forest_books []).
  { intros j t Hj. destruct j; discriminate Hj. }
  assert (Hnone : forall j t, nth_error (@nil p4est_tree_t) j = Some t ->
            forall a b : Z, quadrants t <> [] <-> a <= Z.of_nat j <= b).
  { intros j t Hj. destruct j; discriminate Hj. }
  pose proof (nthZ_Some_range _ _ _ E1) as R1.
  pose proof (nthZ_Some_range _ _ _ E0) as R0.
  pose proof (nthZ_Some_range _ _ _ EN) as RN.
  assert (Hg : Z.of_nat (length g) = num_procs + 1).
  { unfold g. rewrite length_firstn. lia. }
  assert (HgN : gN = at_index gfq num_procs).
  { apply nthZ_nth in EN. rewrite <- EN. unfold g.
    assert (Hn : 0 <= num_procs < Z.of_nat (Z.to_nat (num_procs + 1))) by lia.
    exact (at_index_firstn gfq _ num_procs Hn). }
  assert (Hg10 : g1 - g0 = at_index gfq (rank + 1) - at_index gfq rank).
  { apply nthZ_nth in E1. apply nthZ_nth in E0.
    rewrite <- E1, <- E0. unfold g.
    fold (at_index (firstn (Z.to_nat (num_procs + 1)) gfq) (rank + 1)).
    fold (at_index (firstn (Z.to_nat (num_procs + 1)) gfq) rank).
    now rewrite !at_index_firstn by lia. }
  assert (Hint : Z.max 0 (to_int32 (to_int64 (g1 - g0))) < 2147483648).
  { unfold to_int32, cast_signed.
    change (2 ^ 32) with 4294967296. change (2 ^ (32 - 1)) with 2147483648.
    pose proof (Z.mod_pos_bound (to_int64 (g1 - g0) + 2147483648) 4294967296
                  ltac:(lia)). lia. }
  destruct (0 <? to_int32 (to_int64 (g1 - g0)));
    [destruct (nthZ pertree (sc_bsearch_range g0 pertree conn_num_trees))
       as [p1|]; [|discriminate]|];
    (destruct (foldM _ _ _) as [st|] eqn:Ef; [|discriminate]);
    intros [= <-];
    cbn [trees revision mpisize mpirank num_trees global_first_quadrant
         global_num_quadrants local_num_quadrants first_local_tree
         last_local_tree] in *;
    destruct (inflate_trees_books _ _ _ _ _ _ Hlevels _ _ _ Ef)
      as (Hlen & _ & Hbooks);
    pose proof (inflate_trees_count _ _ _ _ _ _
                  (Z.max 0 (to_int32 (to_int64 (g1 - g0)))) ltac:(lia) _ _ _ Ef)
      as Hcount;
    cbn [i_trees i_zqoffset i_gquadremain length flat_map Nat.add Z.of_nat]
      in Hlen, Hbooks, Hcount;
    specialize (Hcount ltac:(lia));
    destruct (Hbooks eq_refl ltac:(lia) Hnil) as [_ Hb];
    (split; [exact Hb|]);
    (split; [lia|]);
    (split; [rewrite Hlen; unfold index_range;
             rewrite length_map, length_seq; lia|]);
    (split; [apply (inflate_trees_local _ _ _ _ _ _ _ 0%nat _ _ Ef);
             [reflexivity | intros j t Hj; now apply Hnone]|]);
    rewrite Hg10; repeat split; try reflexivity; exact HgN.
Qed.

End InflateTheorem.

(** ** The order in which [p4est_inflate] takes the arrays *)

Section InflateOrder.
Context `{FI : ForestInterface}.
Variables (pertree coords : list Z) (data : option sc_array_t) (dsize : Z).

(** One quadrant more, decoded from the next tuple and the next block. *)
Lemma inflate_quadrant_order base st qz st' :
  inflate_quadrant coords data dsize st qz = Some st' ->
  t_qap st = (Z.to_nat (P4EST_DIM + 1) * (base + length (t_quads st)))%nat ->
  (data <> None ->
   t_dap st = (Z.to_nat dsize * (base + length (t_quads st)))%nat) ->
  t_quads st = map (decoded_quadrant coords data dsize)
                   (seq base (length (t_quads st))) ->
  t_qap st' = (Z.to_nat (P4EST_DIM + 1) * (base + length (t_quads st')))%nat
  /\ (data <> None ->
      t_dap st' = (Z.to_nat dsize * (base + length (t_quads st')))%nat)
  /\ (data = None -> t_dap st' = t_dap st)
  /\ t_quads st' = map (decoded_quadrant coords data dsize)
                       (seq base (length (t_quads st'))).
Proof.
  unfold inflate_quadrant, read_block.
  destruct (t_qap st + Z.to_nat (P4EST_DIM + 1) <=? length coords)%nat;
    [|discriminate].
  set (tuple := firstn (Z.to_nat (P4EST_DIM + 1)) (skipn (t_qap st) coords)).
  destruct (nthZ (t_per_level st) _) as [c|]; [|discriminate].
  destruct (store_block (t_per_level st) _ _) as [pl|]; [|discriminate].
  intros H Hq Hd Hquads. revert H.
  assert (Hone : forall ud dap',
    (data <> None -> dap' = (Z.to_nat dsize
                             * (base + S (length (t_quads st))))%nat) ->
    (data = None -> dap' = t_dap st) ->
    ud = match data with
         | None => []
         | Some d => firstn (Z.to_nat dsize) (skipn (t_dap st) (array d))
         end ->
    forall st'',
      st'' = {| t_qap := (t_qap st + Z.to_nat (P4EST_DIM + 1))%nat;
                t_dap := dap';
                t_quads :=
                  t_quads st
                  ++ [{| quad_x := nth 0 tuple 0; quad_y := nth 1 tuple 0;
                         quad_z := if P4_TO_P8 then nth 2 tuple 0
                                   else quad_z P4EST_QUADRANT_INIT;
                         quad_level :=
                           to_int8 (nth (Z.to_nat P4EST_DIM) tuple 0);
                         user_data := ud |}];
                t_per_level := pl;
                t_tml := to_int8 (Z.max (t_tml st)
                                    (to_int8 (nth (Z.to_nat P4EST_DIM) tuple 0)));
                t_first_desc :=
                  if (qz =? 0)%nat
                  then p4est_quadrant_first_descendant
                         {| quad_x := nth 0 tuple 0; quad_y := nth 1 tuple 0;
                            quad_z := if P4_TO_P8 then nth 2 tuple 0
                                      else quad_z P4EST_QUADRANT_INIT;
                            quad_level :=
                              to_int8 (nth (Z.to_nat P4EST_DIM) tuple 0);
                            user_data := ud |} P4EST_QMAXLEVEL
                  else t_first_desc st;
                t_q := Some {| quad_x := nth 0 tuple 0; quad_y := nth 1 tuple 0;
                               quad_z := if P4_TO_P8 then nth 2 tuple 0
                                         else quad_z P4EST_QUADRANT_INIT;
                               quad_level :=
                                 to_int8 (nth (Z.to_nat P4EST_DIM) tuple 0);
                               user_data := ud |} |} ->
      t_qap st'' = (Z.to_nat (P4EST_DIM + 1)
                    * (base + length (t_quads st'')))%nat
      /\ (data <> None ->
          t_dap st'' = (Z.to_nat dsize * (base + length (t_quads st'')))%nat)
      /\ (data = None -> t_dap st'' = t_dap st)
      /\ t_quads st'' = map (decoded_quadrant coords data dsize)
                            (seq base (length (t_quads st'')))).
  { intros ud dap' Hdap Hnone Hud st'' ->.
    cbn [t_qap t_dap t_quads]. rewrite length_app. cbn [length].
    rewrite Nat.add_1_r.
    split; [rewrite Hq; lia|]. split; [exact Hdap|]. split; [exact Hnone|].
    rewrite seq_S, map_app, <- Hquads. cbn [map]. do 2 f_equal.
    unfold decoded_quadrant. cbn zeta. rewrite <- Hq. fold tuple.
    f_equal. rewrite Hud. destruct data as [d|]; [|reflexivity].
    now rewrite Hd by discriminate. }
  destruct data as [d|] eqn:Edata.
  - destruct (t_dap st + Z.to_nat dsize <=? length (array d))%nat;
      [|discriminate].
    intros [= <-].
    apply (Hone (firstn (Z.to_nat dsize) (skipn (t_dap st) (array d)))
                (t_dap st + Z.to_nat dsize)%nat); try reflexivity.
    + intros _. rewrite Hd by discriminate. lia.
    + discriminate.
  - intros [= <-]. apply (Hone [] (t_dap st)); try reflexivity.
    intros Hc. now elim Hc.
Qed.

Lemma inflate_quadrants_order base : forall n k st tf,
  foldM (inflate_quadrant coords data dsize) (seq k n) st = Some tf ->
  t_qap st = (Z.to_nat (P4EST_DIM + 1) * (base + length (t_quads st)))%nat ->
  (data <> None ->
   t_dap st = (Z.to_nat dsize * (base + length (t_quads st)))%nat) ->
  t_quads st = map (decoded_quadrant coords data dsize)
                   (seq base (length (t_quads st))) ->
  t_qap tf = (Z.to_nat (P4EST_DIM + 1) * (base + length (t_quads tf)))%nat
  /\ (data <> None ->
      t_dap tf = (Z.to_nat dsize * (base + length (t_quads tf)))%nat)
  /\ (data = None -> t_dap tf = t_dap st)
  /\ t_quads tf = map (decoded_quadrant coords data dsize)
                      (seq base (length (t_quads tf))).
Proof.
  induction n as [|n IH]; intros k st tf H Hq Hd Hquads.
  - cbn in H. inversion H; subst tf. auto.
  - cbn [seq foldM] in H.
    destruct (inflate_quadrant coords data dsize st k) as [st1|] eqn:E1;
      [|discriminate].
    destruct (inflate_quadrant_order base _ _ _ E1 Hq Hd Hquads)
      as (Hq1 & Hd1 & Hn1 & Hquads1).
    destruct (IH _ _ _ H Hq1 Hd1 Hquads1) as (Hq' & Hd' & Hn' & Hquads').
    split; [exact Hq'|]. split; [exact Hd'|]. split; [|exact Hquads'].
    intros Hnone. rewrite Hn', Hn1 by assumption. reflexivity.
Qed.

Lemma inflate_tree_order first_tree last_tree st jt st' :
  inflate_tree pertree coords data dsize first_tree last_tree st jt = Some st' ->
  let total s := length (flat_map quadrants (i_trees s)) in
  i_qap st = (Z.to_nat (P4EST_DIM + 1) * total st)%nat ->
  (data <> None -> i_dap st = (Z.to_nat dsize * total st)%nat) ->
  flat_map quadrants (i_trees st)
  = map (decoded_quadrant coords data dsize) (seq 0 (total st)) ->
  i_qap st' = (Z.to_nat (P4EST_DIM + 1) * total st')%nat
  /\ (data <> None -> i_dap st' = (Z.to_nat dsize * total st')%nat)
  /\ (data = None -> i_dap st' = i_dap st)
  /\ flat_map quadrants (i_trees st')
     = map (decoded_quadrant coords data dsize) (seq 0 (total st')).
Proof.
  cbn zeta. unfold inflate_tree.
  destruct ((first_tree <=? jt) && (jt <=? last_tree)).
  - destruct (nthZ pertree (jt + 1)) as [hi|]; [|discriminate].
    destruct (nthZ pertree jt) as [lo|]; [|discriminate].
    set (zq := Z.min (to_int64 (hi - lo - i_gtreeskip st)) (i_gquadremain st)).
    destruct (Z.leb_spec zq 0) as [|Hzq]; [discriminate|].
    destruct (foldM _ _ _) as [tf|] eqn:Ef; [|discriminate].
    destruct (t_q tf) as [q|] eqn:Eq; [|discriminate].
    intros [= <-] Hq Hd Hquads. cbn [i_trees i_qap i_dap].
    rewrite flat_map_app, length_app. cbn [flat_map quadrants].
    rewrite app_nil_r.
    destruct (inflate_quadrants_order
                (length (flat_map quadrants (i_trees st))) _ _ _ _ Ef)
      as (Hq' & Hd' & Hn' & Hquads').
    { cbn [t_qap t_quads length]. rewrite Nat.add_0_r. exact Hq. }
    { cbn [t_dap t_quads length]. rewrite Nat.add_0_r. exact Hd. }
    { reflexivity. }
    cbn [t_dap] in Hn'.
    split; [exact Hq'|]. split; [exact Hd'|]. split; [exact Hn'|].
    rewrite seq_app, map_app, <- Hquads. cbn [Nat.add]. now f_equal.
  - intros [= <-] Hq Hd Hquads. cbn [i_trees i_qap i_dap].
    rewrite flat_map_app, length_app. cbn [flat_map quadrants app length].
    rewrite Nat.add_0_r, app_nil_r. auto.
Qed.

Lemma inflate_trees_order first_tree last_tree : forall jts st st',
  foldM (inflate_tree pertree coords data dsize first_tree last_tree) jts st
  = Some st' ->
  let total s := length (flat_map quadrants (i_trees s)) in
  i_qap st = (Z.to_nat (P4EST_DIM + 1) * total st)%nat ->
  (data <> None -> i_dap st = (Z.to_nat dsize * total st)%nat) ->
  flat_map quadrants (i_trees st)
  = map (decoded_quadrant coords data dsize) (seq 0 (total st)) ->
  i_qap st' = (Z.to_nat (P4EST_DIM + 1) * total st')%nat
  /\ (data <> None -> i_dap st' = (Z.to_nat dsize * total st')%nat)
  /\ (data = None -> i_dap st' = i_dap st)
  /\ flat_map quadrants (i_trees st')
     = map (decoded_quadrant coords data dsize) (seq 0 (total st')).
Proof.
  cbn zeta. induction jts as [|jt jts IH]; intros st st' H Hq Hd Hquads.
  - cbn in H. inversion H; subst st'. auto.
  - cbn [foldM] in H.
    destruct (inflate_tree pertree coords data dsize first_tree last_tree st jt)
      as [st1|] eqn:E1; [|discriminate].
    destruct (inflate_tree_order _ _ _ _ _ E1 Hq Hd Hquads)
      as (Hq1 & Hd1 & Hn1 & Hquads1).
    destruct (IH _ _ H Hq1 Hd1 Hquads1) as (Hq' & Hd' & Hn' & Hquads').
    split; [exact Hq'|]. split; [exact Hd'|]. split; [|exact Hquads'].
    intros Hnone. rewrite Hn', Hn1 by assumption. reflexivity.
Qed.

(** The read positions stay inside the arrays. *)
Lemma inflate_quadrant_inside st qz st' :
  inflate_quadrant coords data dsize st qz = Some st' ->
  (t_qap st' <= length coords)%nat
  /\ (forall d, data = Some d ->
        (t_dap st <= length (array d))%nat ->
        (t_dap st' <= length (array d))%nat).
Proof.
  unfold inflate_quadrant, read_block.
  destruct (Nat.leb_spec (t_qap st + Z.to_nat (P4EST_DIM + 1)) (length coords));
    [|discriminate].
  destruct (nthZ (t_per_level st) _) as [c|]; [|discriminate].
  destruct (store_block (t_per_level st) _ _) as [pl|]; [|discriminate].
  destruct data as [d|].
  - destruct (Nat.leb_spec (t_dap st + Z.to_nat dsize) (length (array d)));
      [|discriminate].
    intros [= <-]. cbn [t_qap t_dap]. split; [assumption|].
    intros d' [= <-] _. assumption.
  - intros [= <-]. cbn [t_qap t_dap]. split; [assumption|]. discriminate.
Qed.

Lemma inflate_quadrants_inside : forall n k st tf,
  foldM (inflate_quadrant coords data dsize) (seq k n) st = Some tf ->
  (t_qap st <= length coords)%nat ->
  (forall d, data = Some d -> (t_dap st <= length (array d))%nat) ->
  (t_qap tf <= length coords)%nat
  /\ (forall d, data = Some d -> (t_dap tf <= length (array d))%nat).
Proof.
  induction n as [|n IH]; intros k st tf H Hq Hd.
  - cbn in H. inversion H; subst tf. auto.
  - cbn [seq foldM] in H.
    destruct (inflate_quadrant coords data dsize st k) as [st1|] eqn:E1;
      [|discriminate].
    destruct (inflate_quadrant_inside _ _ _ E1) as [Hq1 Hd1].
    apply (IH _ _ _ H Hq1). intros d Ed. apply (Hd1 d Ed). now apply Hd.
Qed.

Lemma inflate_tree_inside first_tree last_tree st jt st' :
  inflate_tree pertree coords data dsize first_tree last_tree st jt = Some st' ->
  (i_qap st <= length coords)%nat ->
  (forall d, data = Some d -> (i_dap st <= length (array d))%nat) ->
  (i_qap st' <= length coords)%nat
  /\ (forall d, data = Some d -> (i_dap st' <= length (array d))%nat).
Proof.
  unfold inflate_tree.
  destruct ((first_tree <=? jt) && (jt <=? last_tree)).
  - destruct (nthZ pertree (jt + 1)) as [hi|]; [|discriminate].
    destruct (nthZ pertree jt) as [lo|]; [|discriminate].
    set (zq := Z.min (to_int64 (hi - lo - i_gtreeskip st)) (i_gquadremain st)).
    destruct (Z.leb_spec zq 0) as [|Hzq]; [discriminate|].
    destruct (foldM _ _ _) as [tf|] eqn:Ef; [|discriminate].
    destruct (t_q tf) as [q|] eqn:Eq; [|discriminate].
    intros [= <-] Hq Hd. cbn [i_qap i_dap].
    exact (inflate_quadrants_inside _ _ _ _ Ef Hq Hd).
  - intros [= <-] Hq Hd. cbn [i_qap i_dap]. auto.
Qed.

Lemma inflate_trees_inside first_tree last_tree : forall jts st st',
  foldM (inflate_tree pertree coords data dsize first_tree last_tree) jts st
  = Some st' ->
  (i_qap st <= length coords)%nat ->
  (forall d, data = Some d -> (i_dap st <= length (array d))%nat) ->
  (i_qap st' <= length coords)%nat
  /\ (forall d, data = Some d -> (i_dap st' <= length (array d))%nat).
Proof.
  induction jts as [|jt jts IH]; intros st st' H Hq Hd.
  - cbn in H. inversion H; subst st'. auto.
  - cbn [foldM] in H.
    destruct (inflate_tree pertree coords data dsize first_tree last_tree st jt)
      as [st1|] eqn:E1; [|discriminate].
    destruct (inflate_tree_inside _ _ _ _ _ E1 Hq Hd) as [Hq1 Hd1].
    exact (IH _ _ H Hq1 Hd1).
Qed.

(** The loop over the trees from its initial state. *)
Lemma inflate_run_order first_tree last_tree lnq skip jts st :
  foldM (inflate_tree pertree coords data dsize first_tree last_tree) jts
        {| i_qap := 0%nat; i_dap := 0%nat; i_zqoffset := 0;
           i_gquadremain := lnq; i_gtreeskip := skip; i_trees := [] |}
  = Some st ->
  let n := length (flat_map quadrants (i_trees st)) in
  flat_map quadrants (i_trees st)
  = map (decoded_quadrant coords data dsize) (seq 0 n)
  /\ i_qap st = (Z.to_nat (P4EST_DIM + 1) * n)%nat
  /\ i_dap st = match data with
                | None => 0%nat
                | Some _ => (Z.to_nat dsize * n)%nat
                end
  /\ (i_qap st <= length coords)%nat
  /\ (forall d, data = Some d -> (i_dap st <= length (array d))%nat).
Proof.
  intros Ef. cbn zeta.
  destruct (inflate_trees_order _ _ _ _ _ Ef) as (Hq & Hd & Hn & Hquads).
  { cbn [i_qap i_trees flat_map length]. lia. }
  { intros _. cbn [i_dap i_trees flat_map length]. lia. }
  { reflexivity. }
  destruct (inflate_trees_inside _ _ _ _ _ Ef) as [Hqi Hdi].
  { cbn [i_qap]. lia. }
  { intros d _. cbn [i_dap]. lia. }
  cbn [i_dap] in Hn.
  split; [exact Hquads|]. split; [exact Hq|]. split; [|split; assumption].
  destruct data as [d|]; [apply Hd; discriminate | now apply Hn].
Qed.

End InflateOrder.

Section InflateOrderTheorem.
Context `{FI : ForestInterface}.

(** X16.  [p4est_inflate] takes the arrays in order.  On a run that is
    defined (no array read or written outside its bounds, so that every
    level entry read, cut to an [int8_t], lies in [0, P4EST_MAXLEVEL], and
    a quadrant for every tree from the first to the last local tree), the
    quadrants of the trees of the forest returned, tree after tree, are the
    tuples of the coordinate array one after the other: quadrant [k] has
    the coordinates of tuple [k], its level cut to an [int8_t], and for
    user data block [k] of the payload array (nothing without one).  The
    function has then read [P4EST_DIM + 1] coordinate entries and
    [data_size] payload bytes for every quadrant, and no others.  Of other
    inputs, on which the behaviour of the C code is undefined, nothing is
    stated. *)
Theorem X16_inflate_decodes_in_order
    (num_procs rank conn_num_trees : Z) (gfq pertree coords : list Z)
    (data : option sc_array_t) (user_pointer : Z) (p4est : p4est_t)
    (coords_read data_read : nat)
    (Hinflate : p4est_inflate_run num_procs rank conn_num_trees gfq pertree
                  coords data user_pointer
                = Some (p4est, coords_read, data_read)) :
  let n := length (flat_map quadrants (trees p4est)) in
  p4est_inflate num_procs rank conn_num_trees gfq pertree coords data
                user_pointer = Some p4est
  /\ data_size p4est = match data with None => 0 | Some d => elem_size d end
  /\ flat_map quadrants (trees p4est)
     = map (decoded_quadrant coords data (data_size p4est)) (seq 0 n)
  /\ coords_read = (Z.to_nat (P4EST_DIM + 1) * n)%nat
  /\ data_read = match data with
                 | None => 0%nat
                 | Some d => (Z.to_nat (elem_size d) * n)%nat
                 end.
Proof.
  cbn zeta.
  assert (Hsame : p4est_inflate num_procs rank conn_num_trees gfq pertree
                    coords data user_pointer = Some p4est).
  { unfold p4est_inflate. now rewrite Hinflate. }
  split; [exact Hsame|]. clear Hsame.
  revert Hinflate. unfold p4est_inflate_run.
  destruct (read_block gfq 0 _) as [g|]; [|discriminate].
  destruct (nthZ g (rank + 1)) as [g1|]; [|discriminate].
  destruct (nthZ g rank) as [g0|]; [|discriminate].
  destruct (nthZ g num_procs) as [gN|]; [|discriminate].
  destruct (0 <? to_int32 (to_int64 (g1 - g0)));
    [destruct (nthZ pertree (sc_bsearch_range g0 pertree conn_num_trees))
       as [p1|]; [|discriminate]|];
    (destruct (foldM _ _ _) as [st|] eqn:Ef; [|discriminate]);
    intros [= <- <- <-];
    cbn [trees data_size];
    destruct (inflate_run_order _ _ _ _ _ _ _ _ _ _ Ef)
      as (Hquads & Hq & Hd & Hqi & Hdi);
    (split; [reflexivity|]);
    (split; [exact Hquads|]);
    (split; [exact Hq|]);
    rewrite Hd; now destruct data.
Qed.

End InflateOrderTheorem.

(** ** Inflate, then deflate *)

Lemma range_scan_le key : forall n base k,
  (range_scan key base k n <= k + n)%nat.
Proof.
  induction n as [|n IH]; intros base k; [destruct base; cbn; lia|].
  destruct base as [|a [|b tl]]; try (cbn; lia).
  change (range_scan key (a :: b :: tl) k (S n))
    with (if (a <=? key) && (key <? b) then k
          else range_scan key (b :: tl) (S k) n).
  destruct ((a <=? key) && (key <? b)); [lia|].
  specialize (IH (b :: tl) (S k)). lia.
Qed.

Lemma flat_map_nonempty {A B} (f : A -> list B) : forall l,
  flat_map f l <> [] -> exists i x, nth_error l i = Some x /\ f x <> [].
Proof.
  induction l as [|a l IH]; intros H; [now contradiction H|].
  cbn [flat_map] in H.
  destruct (f a) as [|b fa] eqn:Ea.
  - destruct (IH H) as (i & x & Hi & Hx). now exists (S i), x.
  - exists 0%nat, a. split; [reflexivity|]. now rewrite Ea.
Qed.

Section InflateDeflate.
Context `{FI : ForestInterface}.

Lemma inflate_trees_length pertree coords data dsize first_tree last_tree :
  forall jts st st',
    foldM (inflate_tree pertree coords data dsize first_tree last_tree) jts st
    = Some st' ->
    length (i_trees st') = (length (i_trees st) + length jts)%nat.
Proof.
  induction jts as [|jt jts IH]; intros st st' H.
  - cbn in H. inversion H; subst st'. cbn. lia.
  - cbn [foldM] in H.
    destruct (inflate_tree pertree coords data dsize first_tree last_tree st jt)
      as [st1|] eqn:E1; [|discriminate].
    destruct (inflate_tree_local _ _ _ _ _ _ _ _ _ E1) as (tree & Ht & _).
    rewrite (IH _ _ H), Ht, length_app. cbn [length]. lia.
Qed.

(** The tuple deflate writes for quadrant [k] of the arrays is tuple [k]
    of the arrays, when its level is an [int8_t]. *)
Lemma decoded_coords coords data dsize k :
  (Z.to_nat (P4EST_DIM + 1) * S k <= length coords)%nat ->
  -128 <= nth (Z.to_nat (P4EST_DIM + 1) * k + Z.to_nat P4EST_DIM) coords 0
       <= 127 ->
  quadrant_coords (decoded_quadrant coords data dsize k)
  = firstn (Z.to_nat (P4EST_DIM + 1))
           (skipn (Z.to_nat (P4EST_DIM + 1) * k) coords).
Proof.
  intros Hin Hlev.
  rewrite <- nth_skipn in Hlev.
  assert (Hlen : (Z.to_nat (P4EST_DIM + 1)
                  <= length (skipn (Z.to_nat (P4EST_DIM + 1) * k) coords))%nat).
  { rewrite length_skipn. lia. }
  unfold quadrant_coords, decoded_quadrant.
  cbn [quad_x quad_y quad_z quad_level].
  revert Hlev Hlen.
  generalize (skipn (Z.to_nat (P4EST_DIM + 1) * k) coords) as s.
  unfold P4EST_DIM.
  destruct P4_TO_P8.
  - change (Z.to_nat (3 + 1)) with 4%nat. change (Z.to_nat 3) with 3%nat.
    intros [|a [|b [|c [|d s]]]] Hlev Hlen; cbn [length] in Hlen; try lia.
    cbn [firstn nth] in *.
    now rewrite to_int8_id, to_int32_id by lia.
  - change (Z.to_nat (2 + 1)) with 3%nat. change (Z.to_nat 2) with 2%nat.
    intros [|a [|b [|c s]]] Hlev Hlen; cbn [length] in Hlen; try lia.
    cbn [firstn nth] in *.
    now rewrite to_int8_id, to_int32_id by lia.
Qed.

Lemma decoded_coords_all coords data dsize : forall n,
  (Z.to_nat (P4EST_DIM + 1) * n <= length coords)%nat ->
  (forall k, (k < n)%nat ->
     -128 <= nth (Z.to_nat (P4EST_DIM + 1) * k + Z.to_nat P4EST_DIM) coords 0
          <= 127) ->
  flat_map quadrant_coords (map (decoded_quadrant coords data dsize) (seq 0 n))
  = firstn (Z.to_nat (P4EST_DIM + 1) * n) coords.
Proof.
  induction n as [|n IH]; intros Hin Hlev.
  - now rewrite Nat.mul_0_r.
  - rewrite seq_S, map_app, flat_map_app, IH by (try lia; intros; apply Hlev; lia).
    cbn [Nat.add map flat_map]. rewrite app_nil_r.
    rewrite decoded_coords by (try lia; apply Hlev; lia).
    replace (Z.to_nat (P4EST_DIM + 1) * S n)%nat
      with (Z.to_nat (P4EST_DIM + 1) * n + Z.to_nat (P4EST_DIM + 1))%nat by lia.
    now rewrite firstn_add.
Qed.

Lemma decoded_data_all coords d dsize : forall n,
  flat_map user_data
           (map (decoded_quadrant coords (Some d) dsize) (seq 0 n))
  = firstn (Z.to_nat dsize * n) (array d).
Proof.
  induction n as [|n IH].
  - now rewrite Nat.mul_0_r.
  - rewrite seq_S, map_app, flat_map_app, IH.
    cbn [Nat.add map flat_map decoded_quadrant user_data]. rewrite app_nil_r.
    replace (Z.to_nat dsize * S n)%nat
      with (Z.to_nat dsize * n + Z.to_nat dsize)%nat by lia.
    now rewrite firstn_add.
Qed.

Lemma decoded_data_none coords dsize : forall n,
  flat_map user_data (map (decoded_quadrant coords None dsize) (seq 0 n)) = [].
Proof.
  induction n as [|n IH]; [reflexivity|].
  rewrite seq_S, map_app, flat_map_app, IH. reflexivity.
Qed.

(** Deflate of a forest whose local quadrants are the first [n] quadrants
    of the arrays [coords] and [data]. *)
Lemma deflate_of_decoded (p : p4est_t) coords data n :
  flat_map quadrants (trees p)
  = map (decoded_quadrant coords data (data_size p)) (seq 0 n) ->
  (forall j t, nth_error (trees p) j = Some t ->
     (quadrants t <> []
      <-> first_local_tree p <= Z.of_nat j <= last_local_tree p)) ->
  (first_local_tree p = -1 /\ last_local_tree p = -2)
  \/ (0 <= first_local_tree p <= last_local_tree p
      /\ last_local_tree p < Z.of_nat (length (trees p))) ->
  Z.of_nat n = local_num_quadrants p ->
  (Z.to_nat (P4EST_DIM + 1) * n <= length coords)%nat ->
  (forall d, data = Some d ->
     (Z.to_nat (data_size p) * n <= length (array d))%nat) ->
  (data = None -> data_size p = 0) ->
  (P4EST_DIM + 1) * local_num_quadrants p < 2147483648 ->
  0 <= data_size p ->
  data_size p * local_num_quadrants p < 18446744073709551616 ->
  (forall k, (k < n)%nat ->
     -128 <= nth (Z.to_nat (P4EST_DIM + 1) * k + Z.to_nat P4EST_DIM) coords 0
          <= 127) ->
  forall want,
    p4est_deflate_quadrants p want
    = Some (firstn (Z.to_nat (P4EST_DIM + 1) * n) coords,
            if want
            then Some {| elem_size := data_size p;
                         elem_count := local_num_quadrants p;
                         array :=
                           match data with
                           | Some d => firstn (Z.to_nat (data_size p) * n)
                                              (array d)
                           | None => []
                           end |}
            else None).
Proof.
  intros Hquads Hloc Hrange Hn Hci Hdi Hnone Hint Hds Hdb Hlev want.
  assert (Hlocal : local_quadrants p = flat_map quadrants (trees p)).
  { unfold local_quadrants, local_trees. apply flat_map_window.
    intros i t Hi Hout.
    destruct (quadrants t) as [|q qs] eqn:Eq; [reflexivity|].
    assert (Hne : quadrants t <> []) by (rewrite Eq; discriminate).
    apply (Hloc i t Hi) in Hne.
    destruct Hrange as [[Hf Hl]|[Hf Hl]]; lia. }
  assert (Hud : Forall (fun q => Z.of_nat (length (user_data q)) = data_size p)
                       (local_quadrants p)).
  { rewrite Hlocal, Hquads. apply Forall_forall. intros q Hq.
    apply in_map_iff in Hq. destruct Hq as (k & <- & Hk).
    apply in_seq in Hk. unfold decoded_quadrant. cbn [user_data].
    destruct data as [d|].
    - specialize (Hdi d eq_refl).
      rewrite length_firstn, length_skipn. nia.
    - rewrite (Hnone eq_refl). reflexivity. }
  assert (Hok : forest_ok p).
  { constructor; try assumption.
    - rewrite Hlocal, Hquads, length_map, length_seq. lia. }
  rewrite (deflate_result p want Hok), Hlocal, Hquads.
  rewrite decoded_coords_all by assumption.
  destruct data as [d|].
  - now rewrite decoded_data_all.
  - now rewrite decoded_data_none.
Qed.

End InflateDeflate.

Section InflateDeflateTheorem.
Context `{FI : ForestInterface}.

(** X20.  Inflate, then deflate.  Take a run of [p4est_inflate] that is
    defined (no array read or written outside its bounds, so that every
    level entry read lies, cut to an [int8_t], in [0, P4EST_MAXLEVEL], and
    a quadrant for every tree from the first to the last local tree), from
    a coordinate array whose level entries are [int8_t] values as they
    stand, for a connectivity of fewer than 2^31 trees.  When the forest
    returned holds all its [local_num_quadrants] quadrants in its trees,
    the last local tree is a tree of the connectivity, and the sizes of the
    arrays to deflate fit their C types ([(P4EST_DIM + 1) *
    local_num_quadrants] below 2^31, [data_size * local_num_quadrants]
    below 2^64), [p4est_deflate_quadrants] of that forest returns the part
    of the arrays that the inflate has read: the coordinate tuples of the
    quadrants and, when asked for the payload, their [data_size] bytes
    each, as they stood in the arrays.  Of inputs on which the behaviour of
    [p4est_inflate] is undefined nothing is stated. *)
Theorem X20_inflate_then_deflate
    (num_procs rank conn_num_trees : Z) (gfq pertree coords : list Z)
    (data : option sc_array_t) (user_pointer : Z) (p4est : p4est_t)
    (coords_read data_read : nat)
    (Hinflate : p4est_inflate_run num_procs rank conn_num_trees gfq pertree
                  coords data user_pointer
                = Some (p4est, coords_read, data_read))
    (Htrees : 0 <= conn_num_trees < 2147483648)
    (Hfound : last_local_tree p4est < conn_num_trees)
    (Hall : Z.of_nat (length (flat_map quadrants (trees p4est)))
            = local_num_quadrants p4est)
    (Hint : (P4EST_DIM + 1) * local_num_quadrants p4est < 2147483648)
    (Hdata : 0 <= data_size p4est
             /\ data_size p4est * local_num_quadrants p4est
                < 18446744073709551616)
    (Hlevel : forall k, Z.of_nat k < local_num_quadrants p4est ->
       -128 <= nth (Z.to_nat (P4EST_DIM + 1) * k + Z.to_nat P4EST_DIM)
                   coords 0 <= 127) :
  forall want,
    p4est_deflate_quadrants p4est want
    = Some (firstn coords_read coords,
            if want
            then Some {| elem_size := data_size p4est;
                         elem_count := local_num_quadrants p4est;
                         array :=
                           match data with
                           | Some d => firstn data_read (array d)
                           | None => []
                           end |}
            else None).
Proof.
  destruct Hdata as [Hds Hdb].
  revert Hinflate Hfound Hall Hint Hds Hdb Hlevel.
  unfold p4est_inflate_run.
  destruct (read_block gfq 0 _) as [g|]; [|discriminate].
  destruct (nthZ g (rank + 1)) as [g1|]; [|discriminate].
  destruct (nthZ g rank) as [g0|]; [|discriminate].
  destruct (nthZ g num_procs) as [gN|]; [|discriminate].
  set (dsize := match data with None => 0 | Some d => elem_size d end).
  set (lnq := to_int32 (to_int64 (g1 - g0))).
  assert (Hsplit :
    forall first_tree last_tree skip st,
      foldM (inflate_tree pertree coords data dsize first_tree last_tree)
            (index_range 0 (conn_num_trees - 1))
            {| i_qap := 0%nat; i_dap := 0%nat; i_zqoffset := 0;
               i_gquadremain := lnq; i_gtreeskip := skip; i_trees := [] |}
      = Some st ->
      (if 0 <? lnq then 0 <= first_tree else first_tree = -1 /\ last_tree = -2) ->
      last_tree < conn_num_trees ->
      Z.of_nat (length (flat_map quadrants (i_trees st))) = lnq ->
      (P4EST_DIM + 1) * lnq < 2147483648 ->
      0 <= dsize -> dsize * lnq < 18446744073709551616 ->
      (forall k, Z.of_nat k < lnq ->
         -128 <= nth (Z.to_nat (P4EST_DIM + 1) * k + Z.to_nat P4EST_DIM)
                     coords 0 <= 127) ->
      forall p : p4est_t,
        trees p = i_trees st -> data_size p = dsize ->
        first_local_tree p = first_tree -> last_local_tree p = last_tree ->
        local_num_quadrants p = lnq ->
        forall want,
          p4est_deflate_quadrants p want
          = Some (firstn (i_qap st) coords,
                  if want
                  then Some {| elem_size := data_size p;
                               elem_count := local_num_quadrants p;
                               array :=
                                 match data with
                                 | Some d => firstn (i_dap st) (array d)
                                 | None => []
                                 end |}
                  else None)).
  { intros first_tree last_tree skip st Ef Hfirst Hlast Hn Hi Hd0 Hd1 Hlev
           p Etrees Edsize Efirst Elast Elnq want.
    destruct (inflate_run_order _ _ _ _ _ _ _ _ _ _ Ef)
      as (Hquads & Hq & Hd & Hqi & Hdi).
    pose proof (inflate_trees_local _ _ _ _ _ _ _ 0%nat _ _ Ef eq_refl) as Hloc.
    cbn [i_trees] in Hloc.
    specialize (Hloc ltac:(intros j t Hj; destruct j; discriminate Hj)).
    pose proof (inflate_trees_length _ _ _ _ _ _ _ _ _ Ef) as Hlen.
    cbn [i_trees length Nat.add] in Hlen.
    unfold index_range in Hlen. rewrite length_map, length_seq in Hlen.
    set (n := length (flat_map quadrants (i_trees st))) in *.
    rewrite (deflate_of_decoded p coords data n).
    - rewrite Hq, Edsize. destruct data as [d|]; [now rewrite Hd | reflexivity].
    - now rewrite Etrees, Edsize.
    - rewrite Etrees, Efirst, Elast. exact Hloc.
    - rewrite Efirst, Elast, Etrees, Hlen.
      destruct (Z.ltb_spec 0 lnq) as [Hpos|Hneg]; [right | now left].
      assert (Hne : flat_map quadrants (i_trees st) <> []).
      { intros Hnil. unfold n in Hn. rewrite Hnil in Hn. cbn in Hn. lia. }
      destruct (flat_map_nonempty _ _ Hne) as (j & t & Hj & Ht).
      apply (Hloc j t Hj) in Ht. lia.
    - now rewrite Elnq.
    - now rewrite <- Hq.
    - intros d Ed. rewrite Edsize. specialize (Hdi d Ed).
      rewrite Hd, Ed in Hdi. exact Hdi.
    - intros Ed. rewrite Edsize. unfold dsize. now rewrite Ed.
    - now rewrite Elnq.
    - now rewrite Edsize.
    - now rewrite Edsize, Elnq.
    - intros k Hk. apply Hlev. lia. }
  destruct (0 <? lnq) eqn:Epos;
    [destruct (nthZ pertree (sc_bsearch_range g0 pertree conn_num_trees))
       as [p1|]; [|discriminate]|];
    (destruct (foldM _ _ _) as [st|] eqn:Ef; [|discriminate]);
    intros [= <- <- <-];
    cbn [trees data_size first_local_tree last_local_tree local_num_quadrants];
    intros Hfound Hall Hint Hds Hdb Hlevel want;
    apply (Hsplit _ _ _ _ Ef); try assumption; try reflexivity.
  - unfold sc_bsearch_range.
    pose proof (range_scan_le g0 (Z.to_nat conn_num_trees) pertree 0).
    rewrite to_int32_id by lia. lia.
  - split; reflexivity.
Qed.

End InflateDeflateTheorem.

(** ** Reads of a field that fail at the section header *)

Section FieldFailures.
Context `{FIO : FileInterface}.

(** A read of a field whose metadata check fails returns NULL with the
    error of the check, behind the resize of the arrays. *)
Lemma read_field_metadata_failure
    (fc : p4est_file_context_t) (gfq : list Z) (es : Z)
    (quadrant_data : list sc_array_t) :
  0 < es -> quadrant_data <> [] ->
  read_partition_ok (fc_global_num_quadrants fc) gfq es quadrant_data ->
  Z.of_nat (length (fc_file fc)) < 4611686018427387904 ->
  P4EST_ENABLE_MPIIO = false
  \/ fc_global_num_quadrants fc * es + 144 <= Z.of_nat (length (fc_file fc)) ->
  res_returned (read_block_metadata fc es "F" true) = false ->
  exists qd1,
    p4est_file_read_field_ext fc gfq (Some quadrant_data)
    = Some {| res_context := None; res_returned := false;
              res_errcode :=
                snd (p4est_file_error_code
                       (res_errcode (read_block_metadata fc es "F" true)));
              res_value := (Some qd1, None) |}
    /\ length qd1 = length quadrant_data
    /\ forall i q1, nth_error qd1 i = Some q1 ->
         elem_size q1 = es
         /\ elem_count q1 = at_index gfq (Z.of_nat i + 1)
                            - at_index gfq (Z.of_nat i).
Proof.
  intros Hes Hranks Hpart Hsmall Hfits Hfail.
  set (N := fc_global_num_quadrants fc) in *.
  pose proof (partition_monotone _ _ _ _ Hpart) as Hmono.
  pose proof Hpart as (Hglen & Hg0 & HgN & Hstep & Hsz).
  destruct quadrant_data as [|q0 qs] eqn:Eqd; [congruence|]. rewrite <- Eqd in *.
  assert (Hs0 : elem_size q0 = es).
  { rewrite Eqd in Hsz. exact (Forall_inv Hsz). }
  destruct (resize_ranks gfq es quadrant_data 0 ltac:(lia) ltac:(lia))
    as (qd1 & Eres & Hl1 & Hq1).
  { intros i Hi. cbn [Nat.add]. destruct (Hstep i Hi). lia. }
  { exact Hsz. }
  exists qd1.
  split; [|split; [exact Hl1|]].
  2:{ intros i q1 Hi. destruct (Hq1 i q1 Hi) as (A & B & _).
      cbn [Nat.add] in B. split; assumption. }
  unfold p4est_file_read_field_ext.
  rewrite Eqd. rewrite Hs0.
  destruct (Z.eqb_spec es 0); [lia|].
  rewrite <- Eqd. unfold resize_all, rank_indices. rewrite Eres.
  assert (Hbig : Forall (fun q =>
                   (P4EST_ENABLE_MPIIO
                    && (to_size_t (Z.of_nat (length (fc_file fc))
                                   - P4EST_NUM_METADATA_BYTES - P4EST_BYTE_DIV
                                   - P4EST_NUM_FIELD_HEADER_BYTES)
                        <? to_size_t (elem_count q * elem_size q))) = false) qd1).
  { apply Forall_forall. intros q Hin.
    apply andb_false_iff. destruct Hfits as [Hno|Hfits]; [now left|right].
    apply In_nth_error in Hin. destruct Hin as [i Hi].
    destruct (Hq1 i q Hi) as (A & B & C). cbn [Nat.add] in B.
    assert (Hi' : (i < length quadrant_data)%nat).
    { rewrite <- Hl1. apply nth_error_Some. congruence. }
    destruct (Hstep i Hi') as [S1 S2].
    pose proof (Hmono i ltac:(lia) 0%nat ltac:(lia)) as M1.
    pose proof (Hmono (length quadrant_data) (le_n _) (S i) ltac:(lia)) as M2.
    replace (Z.of_nat (S i)) with (Z.of_nat i + 1) in M2 by lia.
    change (Z.of_nat 0) with 0 in M1.
    apply Z.ltb_ge.
    io_constants. rewrite A, B.
    rewrite !to_size_t_id by nia. nia. }
  assert (Hforall : forallb (fun q =>
                      P4EST_ENABLE_MPIIO
                      && (to_size_t (Z.of_nat (length (fc_file fc))
                                     - P4EST_NUM_METADATA_BYTES - P4EST_BYTE_DIV
                                     - P4EST_NUM_FIELD_HEADER_BYTES)
                          <? to_size_t (elem_count q * elem_size q))) qd1 = false).
  { destruct qd1 as [|q1 qd1]; [rewrite Eqd in Hl1; discriminate Hl1|].
    cbn [forallb]. now rewrite (Forall_inv Hbig). }
  rewrite Hforall, (existsb_all_false _ _ Hbig).
  rewrite Hfail. reflexivity.
Qed.


End FieldFailures.

(** ** Sections that are cut off *)

Lemma sc_io_read_at_short (file : bytes) off n :
  0 < n -> Z.of_nat (length file) < off + n ->
  snd (sc_io_read_at file off n) < n.
Proof.
  intros Hn Hshort. unfold sc_io_read_at. cbn [snd].
  destruct ((off <? 0) || (Z.of_nat (length file) <=? off)) eqn:E.
  - cbn [length]. lia.
  - apply orb_false_iff in E. destruct E as [E1 E2].
    apply Z.ltb_ge in E1. apply Z.leb_gt in E2.
    rewrite length_firstn, length_skipn. lia.
Qed.

Section CutSections.
Context `{FIO : FileInterface}.

(** [read_block_metadata] at a section header whose payload or padding
    the file does not hold in full. *)
Lemma read_block_metadata_cut fc data_size t (want : bool) :
  let s := skipn (Z.to_nat (fc_accessed_bytes fc + P4EST_NUM_METADATA_BYTES
                            + P4EST_BYTE_DIV)) (fc_file fc) in
  let size := to_size_t (sc_atol (firstn 13 (skipn 2 s))) in
  let L := if Ascii.eqb (byte_at s 0) "F"%char
           then to_size_t (size * fc_global_num_quadrants fc)
           else size in
  0 <= fc_accessed_bytes fc ->
  Z.of_nat (length (fc_file fc)) < 4611686018427387904 ->
  (64 <= length s)%nat ->
  byte_at s 0 = t -> byte_at s 15 = LF ->
  (want = true -> size = data_size /\ byte_at s 63 = LF) ->
  L < 4611686018427387904 ->
  Z.of_nat (length s) < 64 + L + pad_len L ->
  res_context (read_block_metadata fc data_size t want) = None
  /\ res_returned (read_block_metadata fc data_size t want) = false
  /\ res_errcode (read_block_metadata fc data_size t want)
     = if fc_mpirank fc =? 0 then P4EST_FILE_COUNT_ERROR else P4EST_ERR_IO.
Proof.
  intros s size L Hab Hfile Hlen Htype H15 Hwant HLsmall Hcut.
  pose proof (pad_len_range L) as Hnp.
  assert (HL : 0 <= L).
  { unfold L. destruct (Ascii.eqb _ _); apply to_size_t_range. }
  assert (Hstart : fc_accessed_bytes fc + P4EST_NUM_METADATA_BYTES + P4EST_BYTE_DIV
                   = 80 + fc_accessed_bytes fc) by (io_constants; lia).
  assert (Hslen : 80 + fc_accessed_bytes fc + Z.of_nat (length s)
                  = Z.of_nat (length (fc_file fc))).
  { unfold s in *. rewrite Hstart, length_skipn in *. lia. }
  destruct (sc_io_read_at (fc_file fc)
              (to_int64 (80 + fc_accessed_bytes fc + 64 + L)) (pad_len L))
    as [pad count] eqn:Hpad.
  assert (Hcount : count < pad_len L).
  { pose proof (sc_io_read_at_short (fc_file fc)
                  (to_int64 (80 + fc_accessed_bytes fc + 64 + L)) (pad_len L)
                  ltac:(lia)) as Hs.
    rewrite Hpad in Hs. cbn [snd] in Hs. apply Hs.
    rewrite to_int64_id by lia. lia. }
  unfold read_block_metadata.
  rewrite (to_int64_id (fc_accessed_bytes fc + _ + _)) by (io_constants; lia).
  rewrite sc_io_read_at_eq by (io_constants; lia). fold s.
  replace (fc_accessed_bytes fc + P4EST_NUM_METADATA_BYTES + P4EST_BYTE_DIV
           + P4EST_NUM_FIELD_HEADER_BYTES)
    with (80 + fc_accessed_bytes fc + 64) by (io_constants; lia).
  assert (Hsize : size = to_size_t (sc_atol (firstn 13 (skipn 2 s))))
    by reflexivity.
  assert (HLeq : L = if Ascii.eqb (byte_at s 0) "F"%char
                     then to_size_t (size * fc_global_num_quadrants fc)
                     else size) by reflexivity.
  clearbody L size.
  destruct (header_bytes s Hlen) as (h & tl & Hs & Hh).
  clearbody s. subst s. explode_list h Hh.
  change P4EST_NUM_FIELD_HEADER_BYTES with 64.
  change (P4EST_NUM_ARRAY_METADATA_BYTES + 1) with 15.
  change (P4EST_NUM_ARRAY_METADATA_BYTES + 2) with 16.
  change (64 - 1) with 63.
  change P4EST_NUM_USER_STRING_BYTES with 48.
  change (Z.to_nat 64) with 64%nat.
  unfold byte_at in Htype, H15, Hwant, HLeq |- *.
  change (Z.to_nat 0) with 0%nat in *.
  change (Z.to_nat 15) with 15%nat in *.
  change (Z.to_nat 63) with 63%nat in *.
  cbn [app nth] in Htype, H15, Hwant, HLeq.
  subst a14. subst t.
  destruct want.
  - destruct (Hwant eq_refl) as [Hds H63]. subst a62.
    change (Z.to_nat 64) with 64%nat.
    cbn -[to_size_t to_int64 to_int32 sc_atol strncpy pad_len get_padding_string
          Z.mul Z.add Z.sub Z.eqb sc_io_read_at Ascii.eqb] in Hsize |- *.
    rewrite <- Hsize, Ascii.eqb_refl.
    change (Ascii.eqb LF LF) with true.
    rewrite <- Hds, <- HLeq, !get_padding_string_count, Hpad.
    cbv beta iota.
    rewrite to_int32_id by lia. rewrite !Z.eqb_refl. cbn [negb].
    destruct (Z.eqb_spec (pad_len L) count); [lia|]. cbn [negb].
    repeat split; reflexivity.
  - change (Z.to_nat 16) with 16%nat.
    cbn -[to_size_t to_int64 to_int32 sc_atol strncpy pad_len get_padding_string
          Z.mul Z.add Z.sub Z.eqb sc_io_read_at Ascii.eqb] in Hsize |- *.
    rewrite <- Hsize, Ascii.eqb_refl.
    change (Ascii.eqb LF LF) with true.
    rewrite <- HLeq, !get_padding_string_count, Hpad.
    cbv beta iota.
    rewrite to_int32_id by lia. rewrite !Z.eqb_refl. cbn [negb].
    destruct (Z.eqb_spec (pad_len L) count); [lia|]. cbn [negb].
    repeat split; reflexivity.
Qed.

(** The header of a section that is cut off behind it. *)
Lemma cut_section_scan N sec k :
  section_ok N sec -> (64 <= k)%nat ->
  let s := firstn k (bytes_of sec) in
  byte_at s 0 = ws_type sec
  /\ byte_at s 15 = LF
  /\ byte_at s 63 = LF
  /\ sc_atol (firstn 13 (skipn 2 s)) = ws_size sec.
Proof.
  intros Hok Hk. cbn zeta.
  destruct (section_bytes_scan N sec [] Hok)
    as (_ & H0 & H15 & H63 & Hatol & _).
  rewrite app_nil_r in H0, H15, H63, Hatol.
  rewrite <- (Nat2Z.id k).
  rewrite !byte_at_firstn by lia.
  rewrite Nat2Z.id.
  rewrite skipn_firstn_comm, firstn_firstn.
  replace (Nat.min 13 (k - 2)) with 13%nat by lia.
  auto.
Qed.

(** X18.  A section that is cut off.  When the file, of less than 2^62
    bytes, ends behind the 64-byte header of a written section but before
    the end of its padding, the skip of the section returns NULL and the
    context is freed, and so do the read of a header section with its
    stored size and the read of a field section of a positive element size
    into arrays of that element size, under a partition that gives every
    rank fewer than 2^31 bytes, provided the build is without MPI I/O or
    the file holds the bytes asked for behind its first 144: no read
    returns a part of a section.  The error code depends on the rank.
    Rank 0, which reads the padding, leaves with the count error.  Every
    other rank receives the flag of the count error that rank 0 broadcasts
    as the flag of a wrong padding, and leaves with the format error
    [P4EST_ERR_IO] as [p4est_file_error_code] reports it. *)
Theorem X18_cut_section_count_error
    (fc : p4est_file_context_t) (pre : bytes) (sec : written_section)
    (k : nat) (header_size : Z) (gfq : list Z)
    (Hfile : fc_file fc = pre ++ firstn k (bytes_of sec))
    (Hpre : 0 <= fc_accessed_bytes fc
            /\ Z.of_nat (length pre) = 80 + fc_accessed_bytes fc)
    (Hok : section_ok (fc_global_num_quadrants fc) sec)
    (Hcut : 64 <= Z.of_nat k < section_length sec)
    (Hsmall : Z.of_nat (length (fc_file fc)) < 4611686018427387904
              /\ Z.of_nat (length (ws_payload sec)) < 4611686018427387904) :
  let code :=
    if fc_mpirank fc =? 0 then P4EST_FILE_COUNT_ERROR
    else snd (p4est_file_error_code P4EST_ERR_IO) in
  (ws_type sec = "H"%char ->
   p4est_file_read_header fc header_size false
   = {| res_context := None; res_returned := false;
        res_errcode := code; res_value := (None, None) |}
   /\ (P4EST_ENABLE_MPIIO = false
       \/ ws_size sec + 144 <= Z.of_nat (length (fc_file fc)) ->
       p4est_file_read_header fc (ws_size sec) true
       = {| res_context := None; res_returned := false;
            res_errcode := code;
            res_value := (None, None) |}))
  /\ (ws_type sec = "F"%char ->
      p4est_file_read_field_ext fc gfq None
      = Some {| res_context := None; res_returned := false;
                res_errcode := code;
                res_value := (None, None) |}
      /\ forall quadrant_data,
           quadrant_data <> [] -> 0 < ws_size sec ->
           read_partition_ok (fc_global_num_quadrants fc) gfq (ws_size sec)
             quadrant_data ->
           P4EST_ENABLE_MPIIO = false
           \/ fc_global_num_quadrants fc * ws_size sec + 144
              <= Z.of_nat (length (fc_file fc)) ->
           exists qd1,
             p4est_file_read_field_ext fc gfq (Some quadrant_data)
             = Some {| res_context := None; res_returned := false;
                       res_errcode := code;
                       res_value := (Some qd1, None) |}).
Proof.
  cbn zeta.
  destruct Hpre as [Hab Hpre]. destruct Hsmall as [Hfsmall Hpsmall].
  pose proof Hok as (Htype & Hsize & Huser & Hpay).
  pose proof (bytes_of_length sec) as Hbl.
  destruct (cut_section_scan _ sec k Hok ltac:(lia))
    as (H0 & H15 & H63 & Hatol).
  assert (Hskip : skipn (Z.to_nat (fc_accessed_bytes fc + P4EST_NUM_METADATA_BYTES
                                   + P4EST_BYTE_DIV)) (fc_file fc)
                  = firstn k (bytes_of sec)).
  { rewrite Hfile. apply skipn_exact. io_constants. lia. }
  assert (Hslen : length (firstn k (bytes_of sec)) = k).
  { rewrite length_firstn. lia. }
  assert (Hcount_code :
    snd (p4est_file_error_code
           (if fc_mpirank fc =? 0 then P4EST_FILE_COUNT_ERROR else P4EST_ERR_IO))
    = if fc_mpirank fc =? 0 then P4EST_FILE_COUNT_ERROR
      else snd (p4est_file_error_code P4EST_ERR_IO)).
  { destruct (fc_mpirank fc =? 0); reflexivity. }
  assert (Hmeta : forall data_size (want : bool),
    (want = true -> data_size = ws_size sec) ->
    res_returned (read_block_metadata fc data_size (ws_type sec) want) = false
    /\ res_errcode (read_block_metadata fc data_size (ws_type sec) want)
       = if fc_mpirank fc =? 0 then P4EST_FILE_COUNT_ERROR else P4EST_ERR_IO).
  { intros data_size want Hwant.
    pose proof (read_block_metadata_cut fc data_size (ws_type sec) want) as Hc.
    cbv zeta in Hc. rewrite Hskip in Hc.
    rewrite Hatol, H0, (to_size_t_id (ws_size sec)) in Hc by lia.
    assert (HL : (if Ascii.eqb (ws_type sec) "F"%char
                  then to_size_t (ws_size sec * fc_global_num_quadrants fc)
                  else ws_size sec)
                 = Z.of_nat (length (ws_payload sec))).
    { revert Hpay. destruct (Ascii.eqb _ _); intros Hpay; [|now symmetry].
      rewrite Z.mul_comm, <- Hpay. apply to_size_t_id. lia. }
    rewrite HL in Hc.
    destruct Hc as (_ & Hr & He); try assumption; try lia; try reflexivity.
    - intros Hw. split; [symmetry; auto | assumption].
    - rewrite Hslen. unfold section_length in Hcut. lia.
    - split; assumption. }
  split.
  - intros EH. rewrite EH in Hmeta. split.
    + unfold p4est_file_read_header. cbn [negb orb].
      destruct (Hmeta 0 false ltac:(discriminate)) as [Hr He].
      rewrite Hr, He. cbn [negb]. now rewrite Hcount_code.
    + intros Hbig. unfold p4est_file_read_header. cbn [negb orb].
      destruct (Z.eqb_spec (ws_size sec) 0) as [Ez|Ez].
      * destruct (Hmeta 0 false ltac:(discriminate)) as [Hr He].
        rewrite Hr, He. cbn [negb]. now rewrite Hcount_code.
      * replace (P4EST_ENABLE_MPIIO
                 && (to_size_t (Z.of_nat (length (fc_file fc))
                                - P4EST_NUM_METADATA_BYTES - P4EST_BYTE_DIV
                                - P4EST_NUM_FIELD_HEADER_BYTES)
                     <? ws_size sec))
          with false.
        2:{ symmetry. apply andb_false_iff.
            destruct Hbig as [Hno|Hbig]; [now left|right].
            apply Z.ltb_ge. io_constants. rewrite to_size_t_id by lia. lia. }
        destruct (Hmeta (ws_size sec) true (fun _ => eq_refl)) as [Hr He].
        rewrite Hr, He. cbn [negb]. now rewrite Hcount_code.
  - intros EF. rewrite EF in Hmeta. split.
    + unfold p4est_file_read_field_ext.
      destruct (Hmeta 0 false ltac:(discriminate)) as [Hr He].
      rewrite Hr, He. cbn [negb]. now rewrite Hcount_code.
    + intros quadrant_data Hranks Hes Hpart Hfits.
      destruct (Hmeta (ws_size sec) true (fun _ => eq_refl)) as [Hr He].
      destruct (read_field_metadata_failure fc gfq (ws_size sec) quadrant_data
                  Hes Hranks Hpart Hfsmall Hfits Hr) as (qd1 & Hread & _).
      rewrite He, Hcount_code in Hread. exists qd1. exact Hread.
Qed.

End CutSections.

(** ** The buffer of the padding *)

Section PadBuffer.
Context `{FIO : FileInterface}.

(** X21.  The padding of a payload of 15 bytes modulo 16 does not fit the
    buffer of the writers.  For such a payload [get_padding_string] counts
    17 padding bytes and stores them and a NUL behind them, 18 bytes, in
    [pad[P4EST_MAX_NUM_PAD_BYTES]], which has 17.  At the end of a file
    (with the cursor and the payload below 2^63 - 2^32 bytes),
    [p4est_file_write_header] with a header block of such a size (above 0
    and below 2^31, with as many data bytes) and [p4est_file_write_field]
    with a field of such a size (an element size above 0, one array of that
    element size per rank, fewer than 2^31 bytes on every rank) write the
    section header and the payload and then one byte behind the end of
    [pad]: their behaviour is undefined. *)
Theorem X21_padding_overflows_pad
    (fc : p4est_file_context_t) (Hend : at_end_of_file fc) :
  (forall n, n mod 16 = 15 ->
     pad_len n = P4EST_MAX_NUM_PAD_BYTES
     /\ Z.of_nat (length (padding_text n)) + 1 = P4EST_MAX_NUM_PAD_BYTES + 1
     /\ pad_buffer n = None)
  /\ (forall header_size header_data user_string,
        0 < header_size < 2147483648 ->
        header_size mod 16 = 15 ->
        Z.of_nat (length header_data) = header_size ->
        fc_accessed_bytes fc < 9223372036854775808 - 4294967296 ->
        p4est_file_write_header fc header_size header_data user_string = None)
  /\ (forall gfq es qd user_string,
        fc_global_first_quadrant fc = Some gfq ->
        field_data_ok (fc_global_num_quadrants fc) gfq es qd ->
        (fc_global_num_quadrants fc * es) mod 16 = 15 ->
        0 < es -> qd <> [] ->
        fc_accessed_bytes fc + fc_global_num_quadrants fc * es
          < 9223372036854775808 - 4294967296 ->
        p4est_file_write_field fc qd user_string = None).
Proof.
  split; [|split].
  - intros n Hn.
    assert (Hp : pad_len n = 17) by (rewrite pad_len_cases, Hn; reflexivity).
    rewrite padding_text_length, Hp.
    split; [reflexivity|]. split; [reflexivity|].
    now apply pad_buffer_overflow.
  - intros header_size header_data user_string Hsize Hmod Hdata Hroom.
    now apply write_header_pad_overflow.
  - intros gfq es qd user_string Hgfq Hdata Hmod Hes Hranks Hroom.
    now apply (write_field_pad_overflow fc gfq es).
Qed.

End PadBuffer.

(** ** The properties on the example files *)

Lemma X3_header_write_read_round_trip_witness :
  let FIO := example_io in
  exists reader',
    p4est_file_read_header example_greet_reader 5 true
    = {| res_context := Some reader'; res_returned := true;
         res_errcode := sc_MPI_SUCCESS;
         res_value := (Some (list_ascii_of_string "hello"),
                       Some (fmt_left 47 (list_ascii_of_string "greet")
                             ++ [NUL])) |}
    /\ fc_accessed_bytes reader' = 64 + 5 + 11.
Proof.
  cbn zeta.
  destruct (X3_header_write_read_round_trip (FIO := example_io)
              example_created example_greet_reader 5
              (list_ascii_of_string "hello") (list_ascii_of_string "greet"))
    as (writer' & reader' & _ & _ & Hread & _ & _ & Hcursor & _).
  - split; decide_cmp.
  - lia.
  - discriminate.
  - reflexivity.
  - cbn. lia.
  - decide_cmp.
  - reflexivity.
  - reflexivity.
  - exists reader'. split; [exact Hread | exact Hcursor].
Defined.


Lemma X5_read_at_end_of_file_witness :
  let FIO := example_io in
  p4est_file_read_header example_created 5 false
  = {| res_context := None; res_returned := false;
       res_errcode := P4EST_FILE_COUNT_ERROR; res_value := (None, None) |}
  /\ p4est_file_read_header example_created 5 true
     = {| res_context := None; res_returned := false;
          res_errcode := P4EST_FILE_COUNT_ERROR; res_value := (None, None) |}
  /\ p4est_file_read_header (example_on_rank_1 example_created) 5 false
     = {| res_context := None; res_returned := false;
          res_errcode := 1; res_value := (None, None) |}.
Proof.
  cbn zeta.
  destruct (X5_read_at_end_of_file (FIO := example_io) example_created 5 [0; 0])
    as [Hskip Hread]; [decide_cmp | decide_cmp |].
  destruct (X5_read_at_end_of_file (FIO := example_io)
              (example_on_rank_1 example_created) 5 [0; 0])
    as [Hskip1 _]; [decide_cmp | decide_cmp |].
  split; [|split].
  - apply Hskip. decide_cmp.
  - apply Hread; [decide_cmp | reflexivity | lia].
  - apply Hskip1. decide_cmp.
Defined.

Lemma X6_field_skip_passes_the_section_witness :
  let FIO := example_io in
  exists fc',
    p4est_file_read_field_ext example_field_reader [0; 1; 3] None
    = Some {| res_context := Some fc'; res_returned := false;
              res_errcode := sc_MPI_SUCCESS; res_value := (None, None) |}
    /\ fc_accessed_bytes fc' = 64 + 6 + 10.
Proof.
  cbn zeta.
  destruct (X6_field_skip_passes_the_section (FIO := example_io)
              example_field_reader (fc_file example_two_ranks)
              (@bytes_of example_io example_greet_section) example_pairs_section [0; 1; 3])
    as (fc' & Hskip & _ & Hcursor & _).
  - split; [reflexivity|]. split; decide_cmp.
  - split; [right; reflexivity|]. split; [decide_cmp|].
    split; [cbn; lia | reflexivity].
  - reflexivity.
  - exists fc'. split; [exact Hskip | exact Hcursor].
Defined.

Lemma X7_header_skip_advance_witness :
  let FIO := example_io in
  exists fc',
    p4est_file_read_header example_reader 0 false
    = {| res_context := Some fc'; res_returned := false;
         res_errcode := sc_MPI_SUCCESS; res_value := (None, None) |}
    /\ fc_accessed_bytes fc' = 64 + 0 + 16
    /\ section_length example_first_section = 64 + 20 + 12.
Proof.
  cbn zeta.
  destruct (X7_header_skip_advance (FIO := example_io)
              example_reader (fc_file example_created)
              (@bytes_of example_io example_greet_section) example_first_section 0)
    as (fc' & Hskip & _ & Hcursor & _).
  - split; [reflexivity|]. split; decide_cmp.
  - split; [left; reflexivity|]. split; [decide_cmp|].
    split; [cbn; lia | reflexivity].
  - reflexivity.
  - lia.
  - exists fc'. split; [exact Hskip|]. split; [exact Hcursor | reflexivity].
Defined.

Lemma X8_field_read_any_partition_witness :
  let FIO := example_io in
  exists fc',
    p4est_file_read_field_ext example_field_reader [0; 1; 2; 3]
      (Some example_three_ranks_data)
    = Some {| res_context := Some fc'; res_returned := true;
              res_errcode := sc_MPI_SUCCESS;
              res_value :=
                (Some example_three_ranks_read,
                 Some (fmt_left 47 (list_ascii_of_string "pairs")
                       ++ [NUL])) |}
    /\ fc_accessed_bytes fc' = 64 + 6 + 10.
Proof.
  cbn zeta.
  destruct (X8_field_read_any_partition (FIO := example_io)
              example_field_reader (fc_file example_two_ranks)
              (@bytes_of example_io example_greet_section) 2
              (list_ascii_of_string "pairs") (list_ascii_of_string "abcdef")
              [0; 1; 2; 3] example_three_ranks_data)
    as (fc' & Hread & _ & _ & _ & Hcursor & _).
  - split; [reflexivity|]. split; decide_cmp.
  - lia.
  - cbn. lia.
  - reflexivity.
  - discriminate.
  - split; [reflexivity|]. split; [reflexivity|]. split; [reflexivity|].
    split.
    + intros r Hr. cbn [length example_three_ranks_data] in Hr.
      destruct r as [|[|[|r]]]; [decide_cmp | decide_cmp | decide_cmp | lia].
    + constructor; [reflexivity|].
      constructor; [reflexivity|].
      constructor; [reflexivity|constructor].
  - exists fc'. split; [exact Hread | exact Hcursor].
Defined.

Lemma X11_oversized_read_reports_success_witness :
  p4est_file_read_header (FIO := example_mpi_io) example_reader 200 true
  = {| res_context := None; res_returned := false;
       res_errcode := sc_MPI_SUCCESS; res_value := (None, None) |}.
Proof.
  apply (X11_oversized_read_reports_success (FIO := example_mpi_io)
           example_reader 200).
  - reflexivity.
  - decide_cmp.
  - decide_cmp.
Defined.

Lemma X12_field_write_read_round_trip_witness :
  let FIO := example_io in
  exists writer' reader',
    p4est_file_write_field example_two_ranks example_two_ranks_data
      (list_ascii_of_string "pairs")
    = Some {| res_context := Some writer'; res_returned := true;
              res_errcode := sc_MPI_SUCCESS; res_value := tt |}
    /\ fc_file writer' = fc_file example_pairs_reader
    /\ p4est_file_read_field example_pairs_reader
         (Some example_three_ranks_data)
       = Some {| res_context := Some reader'; res_returned := true;
                 res_errcode := sc_MPI_SUCCESS;
                 res_value :=
                   (Some example_three_ranks_read,
                    Some (fmt_left 47 (list_ascii_of_string "pairs")
                          ++ [NUL])) |}
    /\ fc_accessed_bytes reader' = fc_accessed_bytes writer'.
Proof.
  cbn zeta.
  destruct (X12_field_write_read_round_trip (FIO := example_io)
              example_two_ranks example_pairs_reader [0; 1; 3] [0; 1; 2; 3]
              example_two_ranks_data example_three_ranks_data 2
              (list_ascii_of_string "pairs"))
    as (writer' & reader' & arrays & Hwrite & Hfile & Hread & -> & _ & _ & _
        & Hcursor).
  - split; decide_cmp.
  - reflexivity.
  - concrete_field_ok.
  - intros Hpad. vm_compute in Hpad. discriminate Hpad.
  - lia.
  - split; discriminate.
  - cbn. lia.
  - decide_cmp.
  - reflexivity.
  - reflexivity.
  - reflexivity.
  - reflexivity.
  - split; [reflexivity|]. split; [reflexivity|]. split; [reflexivity|].
    split.
    + intros r Hr. cbn [length example_three_ranks_data] in Hr.
      destruct r as [|[|[|r]]]; [decide_cmp | decide_cmp | decide_cmp | lia].
    + constructor; [reflexivity|].
      constructor; [reflexivity|].
      constructor; [reflexivity|constructor].
  - exists writer', reader'.
    split; [exact Hwrite|]. split; [exact Hfile|].
    split; [exact Hread | exact Hcursor].
Defined.

Lemma X9_info_scan_never_ends_witness :
  let FIO := example_io in
  let file := fc_file example_created ++ bytes_of example_block_section
              ++ example_negative_header in
  Z.of_nat (length file) = 80 + 96 + 64
  /\ (forall fuel, info_loop fuel file 0 80 [] = None).
Proof.
  cbn zeta.
  destruct (X9_info_scan_never_ends (FIO := example_io) 0
              (fc_file example_created) [example_block_section]
              example_negative_header)
    as (Hnever & _).
  - reflexivity.
  - constructor; [|constructor].
    split; [left; reflexivity|]. split; [decide_cmp|].
    split; [cbn; lia | reflexivity].
  - cbn. lia.
  - reflexivity.
  - split; reflexivity.
  - reflexivity.
  - split; reflexivity.
  - decide_cmp.
  - cbn [flat_map] in Hnever. rewrite app_nil_r in Hnever.
    split; [reflexivity | exact Hnever].
Defined.

Lemma X10_info_scan_ends_witness :
  let FIO := example_io in
  exists sections,
    info_loop 241 (fc_file example_field_written) 3 80 [] = Some sections
    /\ (length sections <= 2)%nat.
Proof.
  cbn zeta.
  destruct (X10_info_scan_ends (fc_file example_field_written) 3)
    as (sections & Hinfo & Hcount).
  - apply not_in_existsb. reflexivity.
  - lia.
  - decide_cmp.
  - exists sections. split; [exact Hinfo|].
    change (Z.of_nat (length (fc_file example_field_written))) with 240
      in Hcount.
    lia.
Defined.

Lemma X13_inflate_keeps_books_witness :
  let FI := example_forest_interface in
  forest_books (trees example_inflated)
  /\ Z.of_nat (length (trees example_inflated)) = 2
  /\ map quadrants_offset (trees example_inflated) = [0; 1].
Proof.
  cbn zeta.
  destruct (X13_inflate_keeps_books (FI := example_forest_interface)
              2 1 2 [0; 1; 3] [0; 2; 3] [262144; 0; 0; 1; 0; 0; 0; 0]
              (Some {| elem_size := 2; elem_count := 2;
                       array := list_ascii_of_string "abcd" |}) 0
              example_inflated)
    as (Hbooks & _ & Htrees & _).
  - decide_cmp.
  - reflexivity.
  - split; [exact Hbooks|]. split; [exact Htrees | reflexivity].
Defined.

Lemma X14_header_read_at_section_witness :
  let FIO := example_io in
  exists fc',
    p4est_file_read_header example_reader 20 true
    = {| res_context := Some fc'; res_returned := true;
         res_errcode := sc_MPI_SUCCESS;
         res_value := (Some (list_ascii_of_string "01234567890123456789"),
                       Some (fmt_left 47 (list_ascii_of_string "first")
                             ++ [NUL])) |}
    /\ fc_accessed_bytes fc' = 64 + 20 + 12
    /\ section_at fc' (firstn 176 (fc_file example_reader))
         (bytes_of example_greet_section) [].
Proof.
  cbn zeta.
  destruct (X14_header_read_at_section (FIO := example_io)
              example_reader (fc_file example_created)
              (@bytes_of example_io example_greet_section) 20
              (list_ascii_of_string "first")
              (list_ascii_of_string "01234567890123456789"))
    as (fc' & Hread & _ & _ & Hcursor & Hnext & _).
  - split; [reflexivity|]. split; decide_cmp.
  - lia.
  - reflexivity.
  - cbn. lia.
  - exists fc'. split; [exact Hread|]. split; [exact Hcursor|].
    apply (section_at_next fc' _ (@bytes_of example_io example_greet_section)
             [] []) in Hnext.
    exact Hnext.
Defined.

Lemma X15_written_file_read_back_witness :
  let FIO := example_io in
  exists reader',
    read_all [0; 3] (flat_map sections_of example_writes) example_writes_reader
    = Some (reader',
            [(list_ascii_of_string "hello",
              fmt_left 47 (list_ascii_of_string "note") ++ [NUL]);
             (list_ascii_of_string "abcdef",
              fmt_left 47 (list_ascii_of_string "pairs") ++ [NUL])])
    /\ fc_accessed_bytes reader' = (64 + 5 + 11) + (64 + 6 + 10).
Proof.
  cbn zeta.
  destruct (X15_written_file_read_back (FIO := example_io)
              1 0 3 [0; 3] [3] (list_ascii_of_string "demo") example_writes
              example_writes_reader)
    as (fc0 & fc & Hopen & Hwrite & Hback).
  - constructor; [|constructor; [|constructor; [|constructor]]].
    + split; [decide_cmp | split; [discriminate | split; [reflexivity | cbn; lia]]].
    + split; [decide_cmp | split; [discriminate | split; [reflexivity | cbn; lia]]].
    + split; [decide_cmp | split; [intros _; split; [concrete_field_ok | discriminate] | cbn; lia]].
  - decide_cmp.
  - split; reflexivity.
  - assert (E0 : fc0 = example_one_rank).
    { unfold example_one_rank, context_of. now rewrite Hopen. }
    subst fc0.
    destruct Hback as (reader' & Hall & _ & Hcursor & _).
    { unfold example_writes_reader. cbn [fc_file]. now rewrite Hwrite. }
    exists reader'. split; [exact Hall | exact Hcursor].
Defined.

Lemma X16_inflate_decodes_in_order_witness :
  let FI := example_forest_interface in
  let coords := [262144; 0; 0; 1; 0; 0; 0; 0] in
  let data := Some {| elem_size := 2; elem_count := 2;
                      array := list_ascii_of_string "abcd" |} in
  flat_map quadrants (trees example_inflated)
  = map (decoded_quadrant coords data 2) (seq 0 2)
  /\ map quadrant_view (flat_map quadrants (trees example_inflated))
     = [([262144; 0; 0; 1], list_ascii_of_string "ab");
        ([0; 0; 0; 0], list_ascii_of_string "cd")].
Proof.
  cbn zeta.
  destruct (X16_inflate_decodes_in_order (FI := example_forest_interface)
              2 1 2 [0; 1; 3] [0; 2; 3] [262144; 0; 0; 1; 0; 0; 0; 0]
              (Some {| elem_size := 2; elem_count := 2;
                       array := list_ascii_of_string "abcd" |}) 0
              example_inflated 8%nat 4%nat)
    as (_ & _ & Hquads & _).
  - reflexivity.
  - split; [exact Hquads | reflexivity].
Defined.


Lemma X18_cut_section_count_error_witness :
  let FIO := example_io in
  p4est_file_read_header example_cut_reader 0 false
  = {| res_context := None; res_returned := false;
       res_errcode := P4EST_FILE_COUNT_ERROR; res_value := (None, None) |}
  /\ p4est_file_read_header example_cut_reader 5 true
     = {| res_context := None; res_returned := false;
          res_errcode := P4EST_FILE_COUNT_ERROR; res_value := (None, None) |}
  /\ p4est_file_read_header (example_on_rank_1 example_cut_reader) 5 true
     = {| res_context := None; res_returned := false;
          res_errcode := EIO; res_value := (None, None) |}.
Proof.
  cbn zeta.
  destruct (X18_cut_section_count_error (FIO := example_io)
              example_cut_reader (fc_file example_created)
              example_greet_section 66 0 [0; 0])
    as [Hheader _].
  - reflexivity.
  - split; decide_cmp.
  - split; [left; reflexivity|]. split; [decide_cmp|].
    split; [cbn; lia | reflexivity].
  - split; decide_cmp.
  - split; decide_cmp.
  - destruct (X18_cut_section_count_error (FIO := example_io)
                (example_on_rank_1 example_cut_reader)
                (fc_file example_created) example_greet_section 66 0 [0; 0])
      as [Hheader1 _].
    + reflexivity.
    + split; decide_cmp.
    + split; [left; reflexivity|]. split; [decide_cmp|].
      split; [cbn; lia | reflexivity].
    + split; decide_cmp.
    + split; decide_cmp.
    + destruct (Hheader eq_refl) as [Hskip Hread].
      destruct (Hheader1 eq_refl) as [_ Hread1].
      split; [exact Hskip|].
      split; [apply Hread; left; reflexivity|].
      apply Hread1. left. reflexivity.
Defined.


Lemma X20_inflate_then_deflate_witness :
  let FI := example_forest_interface in
  p4est_deflate_quadrants example_inflated true
  = Some ([262144; 0; 0; 1; 0; 0; 0; 0],
          Some {| elem_size := 2; elem_count := 2;
                  array := list_ascii_of_string "abcd" |}).
Proof.
  cbn zeta.
  apply (X20_inflate_then_deflate (FI := example_forest_interface)
           2 1 2 [0; 1; 3] [0; 2; 3] [262144; 0; 0; 1; 0; 0; 0; 0]
           (Some {| elem_size := 2; elem_count := 2;
                    array := list_ascii_of_string "abcd" |}) 0
           example_inflated 8%nat 4%nat).
  - reflexivity.
  - lia.
  - decide_cmp.
  - reflexivity.
  - decide_cmp.
  - split; decide_cmp.
  - intros k Hk.
    change (local_num_quadrants example_inflated) with 2 in Hk.
    destruct k as [|[|k]]; [split; decide_cmp | split; decide_cmp | lia].
Defined.

Lemma X21_padding_overflows_pad_witness :
  let FIO := example_io in
  p4est_file_write_header example_one_rank 15
    (list_ascii_of_string "123456789012345") (list_ascii_of_string "note")
  = None
  /\ p4est_file_write_field example_one_rank
       [{| elem_size := 5; elem_count := 3;
           array := list_ascii_of_string "abcdefghijklmno" |}]
       (list_ascii_of_string "fives")
     = None.
Proof.
  cbn zeta.
  destruct (X21_padding_overflows_pad (FIO := example_io) example_one_rank)
    as (_ & Hheader & Hfield).
  - split; decide_cmp.
  - split.
    + apply Hheader; [lia | reflexivity | reflexivity | decide_cmp].
    + apply (Hfield [0; 3] 5); try reflexivity; try lia; try discriminate.
      constructor; [reflexivity | reflexivity | reflexivity |].
      intros r q Hq.
      destruct r as [|r]; cbn [nth_error] in Hq;
        [|destruct r; discriminate Hq].
      injection Hq as <-. decide_cmp.
Defined.

Lemma X22_info_loop_lists_sections_witness :
  let FIO := example_io in
  let file := fc_file example_one_rank
              ++ flat_map bytes_of (flat_map sections_of example_writes)
              ++ example_cut_off in
  Z.of_nat (length file) = 80 + 80 + 80 + 15
  /\ info_loop (S (length file)) file 3 80 []
     = Some [{| block_type := "H"; data_size_of := 5;
                user_string_of :=
                  fmt_left 47 (list_ascii_of_string "note") ++ [NUL] |};
             {| block_type := "F"; data_size_of := 2;
                user_string_of :=
                  fmt_left 47 (list_ascii_of_string "pairs") ++ [NUL] |}].
Proof.
  cbn zeta. split; [reflexivity|].
  apply (X22_info_loop_lists_sections (FIO := example_io) 3
           (fc_file example_one_rank)
           (flat_map sections_of example_writes) example_cut_off).
  - reflexivity.
  - constructor; [|constructor; [|constructor]].
    + split; [left; reflexivity|]. split; [decide_cmp|].
      split; [cbn; lia | reflexivity].
    + split; [right; reflexivity|]. split; [decide_cmp|].
      split; [cbn; lia | reflexivity].
  - apply short_header. cbn. lia.
  - decide_cmp.
Defined.
